(* ===== verification/_CoqProject ===== *)
-Q . S2P
Prelude.v
GoString.v
Utf8.v
Json.v
GoFloat.v
GoError.v
Digest.v
Base64.v
SRS.v
NetIP.v
Config.v
IPExpansion.v
Reload.v
ErrorClassifier.v
IPReputation.v
ConnectionPool.v
MXLookup.v
IPRotator.v
DomainLimiter.v
LMTP.v
MIMEHeader.v
DKIM.v
KeyStore.v
ARC.v
Delivery.v
Address.v
Effects.v
Deliverer.v
DelivererSafety.v
DelivererBounds.v
DelivererConns.v
DelivererProtocol.v
DelivererEffort.v
Compose.v
Http.v
ApiJson.v
Middleware.v
ServerStack.v
Handler.v
CertCache.v
Cluster.v
TLSManager.v
Goroutines.v
GoTime.v
Endpoints.v
Metrics.v
Logger.v
Recovery.v
MockS3.v
ServerMain.v
AdminStatus.v
AdminStats.v
AdminCerts.v
CommandLine.v
