(* ===== verification/Prelude.v ===== *)
(** * Strela: a verification development

    Strela is an SMTP and LMTP delivery gateway.  A client posts one message to
    its HTTP API; the server delivers it while the client waits and answers
    with what became of it.  This library models the program in src/ and proves
    what makes it correct.  This file is its root: the documentation of the
    whole, then the notation, automation and lemmas that every file shares.

    ** The program and its model

    A request passes the middlewares and the handler of its route, which calls
    the delivery engine; the engine consults rate limits, DNS, the signing keys
    and the address pool, talks to the remote server, and reports back.  The
    files, each with the part of src/ it models, in the order of their
    dependencies:

    - Go itself.  [GoString] strings, runes, splitting, case folding, decimal
      numbers; [Utf8], [Json] the text of UTF-8 and JSON (encoding/json's
      scanner, unquoting and encoder); [GoFloat] float64; [GoTime] dates and
      durations as text; [GoError] error values and their chains; [Digest]
      SHA-1 and HMAC; [Base64]; [NetIP] addresses and host:port strings;
      [MIMEHeader] net/textproto; [Http] requests and response writers.
    - Configuration.  [Config] internal/config/config.go: the sections, the
      defaults, the validation, [load_config]; [IPExpansion] ip_expansion.go;
      [Reload] reload.go; [Logger] logger.go over files and handles.
    - The engine, internal/delivery.  [ErrorClassifier] error_classifier.go;
      [IPReputation] ip_reputation.go; [ConnectionPool] pool.go; [MXLookup]
      mx_lookup.go and dns_resolver.go with the single-flight group;
      [IPRotator], [DomainLimiter], [LMTP] and [Delivery] parts of delivery.go;
      [Effects] the calls, the events and the monad of a delivery with a logic
      on its events; [Deliverer] the rest of delivery.go, whole, on that monad;
      its properties: [DelivererSafety] what becomes of the message,
      [DelivererProtocol] the dialogue with the servers, [DelivererConns] the
      connections and the pool, [DelivererEffort] the number of dials.
    - Signing and rewriting.  [DKIM] and [KeyStore] internal/dkim; [ARC]
      internal/arc; [SRS] internal/srs.
    - The API, internal/handler.  [Address] and [Compose] the validation and
      composition of handler_new.go; [ApiJson] its JSON; [Middleware] the
      limiter, the semaphores, the headers, metrics, recovery and the stack;
      [ServerStack] the properties of the stack; [Handler] the three endpoints;
      [Endpoints] health.go and reputation.go; [Metrics] internal/metrics;
      [Recovery] internal/recovery.
    - Certificates.  [CertCache] internal/tls/storage; [MockS3] its in-memory
      client; [TLSManager] internal/tls; [Cluster] internal/cluster.
    - The processes.  [Goroutines] the loops in the background of delivery.go,
      pool.go, rate_limiter.go, cluster.go and cert_sync.go; [ServerMain]
      cmd/strela-server: start, SIGHUP, shutdown; [AdminStatus], [AdminStats],
      [AdminCerts] cmd/strela-admin; [CommandLine] the flags and commands of
      both.

    A Go struct is a Record with the fields' names (a prefix where two structs
    share one), a constant set of values an Inductive, a function or method one
    Definition named after it in snake case.  A method that changes its
    receiver returns the new state; (value, error) is [result error A] with the
    notation [let?]; a handler is what it does to its ResponseWriter, in order;
    a panic is [None] or a flag.  int and time.Duration are Z, with [wrap64]
    where an operation can leave 64 bits; times are nanoseconds since 1970.
    Locks are not modelled as such: what runs under one lock is one step.  Where
    the order of steps of several goroutines matters, they are a step relation
    ([reachable] below, in [ConnectionPool], [MXLookup], [IPReputation],
    [Middleware], [CertCache], [Logger], [Cluster], [Goroutines]) or an
    arbitrary interference of the environment ([e_interfere] of [Effects]).  The
    two meet in [DelivererConns]: among others who only make steps of the
    pool's relation, a delivery makes steps of that relation; and
    [loops_interfere_properly] of [Goroutines] shows that the cleanup loops are
    such others.

    ** Interfaces

    The code's interfaces, and the libraries it calls, are classes or records
    with laws, against which the clients are proved: [DeliveryEngine] ([Handler]
    is proved for any engine; [Deliverer] is an instance), [Cache] with
    [CacheLaws] (autocert.Cache; the S3, cluster-gated and two-tier caches and
    the admin tool use only the laws, and the implementations discharge them
    from [S3Laws]), [Crypto], [Unicode], [MailLib], [Autocert], [CertReader],
    [Certificates], [Directory], [SortSlice].  Each law states documented
    behaviour and has an instance that shows it can hold.

    ** What the theorems show

    - Delivery.  [delivery_verdict]: at most one copy of a message is handed
      over, and the result says what happened to it, for all answers of polite
      peers, DNS and the network and all interference; [delivery_stays_in_bounds]:
      from which addresses, for whom and what is sent;
      [delivery_follows_protocol]: every command is sent in the state of its
      session that allows it, and mail only over TLS or where the server has
      refused it; [delivery_owns_connections]: every connection that is taken is
      used while it is held and given back, as steps of the pool's machine,
      whose own invariant is [pool_exclusive]; [delivery_effort]: the retries
      end, after a number of dials known beforehand; [lmtp_data_received],
      [lmtp_reply_read]: what a peer reads of us and we of it;
      [singleflight_serves]: every lookup that waits for another is answered;
      [tracker_invariant], [degraded_life].
    - The API.  [delivery_gate]: exactly which requests reach the engine, and
      with what; [http_status_truth]: what each status says about the message,
      so that a client knows when it may repeat a request; [api_json_round_trip];
      [validate_email_spec]; [stack_answers], [limiter_window_bound],
      [cleanup_invisible]: what the middlewares add.
    - Signing.  [srs0_round_trip], [srs1_round_trip], [reverse_srs0_authentic],
      [reverse_terminates]; [validation_is_key_match], [key_path_inside],
      [lookup_key_valid]; [arc_chain_grows].
    - Certificates.  [served_was_stored], [put_is_kept]; [one_leader],
      [election_settles]; [certificate_requests]; [clean_keeps_good] and
      [sync_mirrors_s3] for the admin tool.
    - Processes.  [start_or_nothing], [signals_keep_serving],
      [drain_covers_deliveries]; [close_all_returns]: the pool is closed without
      a deadlock and without a goroutine left behind; [metrics_well_typed];
      [admin_reads_health]: tool and server agree, over HTTP and JSON;
      [admin_command_line]: the tool does what its words say, and nothing else.

    Other theorems of the files state functional behaviour of single operations
    and are used by, or complement, these: [loop_stops] and
    [loops_interfere_properly] of the background loops, [crash_blocks_domain] of
    the shared lookups, [admin_shares_storage], [parse_flags_spec],
    [status_is_justified], [burst_is_limit], [lookup_classifies],
    [log_keeps_one_file] and more.  Examples with a name in a comment
    "..." of their own record where the code does something else than its
    comments say or than it means to.

    ** Fuel and bounds

    Recursion that is not structural takes fuel.  In the loops of the program
    every round takes at least one byte of the text, or one element, and the
    fuel is one more than there are, or as many: [duration_parts] (each part
    of a duration is not empty: [duration_parts_fuel]), [reverse_fuel] (SRS, where each layer is
    longer than its content: [reverse_terminates]), [get_fuel] (the idle
    connections: [get_fuel_spec]), [data_loop] and [read_loop] (LMTP:
    [receive_loop], [read_loop_fuel]), [scan_lines] ([scan_lines_fuel]),
    [header_loop] and [continuation] ([header_loop_fuel], [continuation_fuel]),
    [first_certificate] ([first_certificate_fuel]), [read_until_eof]
    ([read_until_eof_rest]).  [parse_value] (JSON) has twice the length plus
    one, as every second call takes a byte ([parse_json_fuel]), beside the
    decoder's own limit of depth, 10000.  The string functions of the Go
    library ([split_n], [trim_spaces], [fields_loop], [parse_ipv6_loop], ...)
    take the length of their text in the same way.  [validate_bucket] counts
    the code's five attempts.  Theorems whose statement bounds a setting say so:
    the limiter's requests within int64 and its window up to 4e9 seconds, the
    burst up to 100 and its interval up to 600 seconds, the delivery time up to
    9e9 seconds: beyond these the code's own arithmetic overflows or loses the
    precision of float64.

    ** Not modelled

    - The libraries the sources call: go-smtp (its commands are the calls of
      [Effects], its answers arbitrary), go-msgauth's DKIM signer, RSA and X.509,
      miekg/dns and the resolver's transport, memberlist, autocert, the AWS
      client, Prometheus, BurntSushi's TOML decoder, emersion's MIME writer.
      They are parameters; none has a made-up definition.
    - The scheduler, the network and TLS beneath net/http; that the context's
      timer fires in time; allocation; the text of log lines; tabwriter.
    - The texts of usage screens and versions; what happens when a listener of
      the server fails after its start (the process exits); the retryer handed
      to the AWS library; panics inside the bodies of the cleanup loops, which
      the machine of [Goroutines] allows and its instances do not have.
    - The recorder of the metrics is taken not to panic inside a delivery; when
      it does is the subject of [broken_domain_label] in [Metrics].

    Next: the time a delivery takes, as a bound from its timeouts; the server's
    goroutines of net/http around [ServerStack]; nodes that share S3 as one
    system of [CertCache] and [Cluster]. *)

From stdpp Require Import base gmap sets list strings pretty.
From Stdlib Require Import ZArith Lia.

#[local] Open Scope Z_scope.

(** ** Automation shared by every file *)

Create HintDb strela.
Create Rewrite HintDb bool_norm.

(** [bool_norm] turns boolean guards of the code into propositions. *)
Lemma andb_true_split (a b : bool) : a && b = true <-> a = true /\ b = true.
Proof. by destruct a, b; intuition. Qed.
Lemma orb_false_split (a b : bool) : a || b = false <-> a = false /\ b = false.
Proof. by destruct a, b; intuition. Qed.
Lemma orb_true_split (a b : bool) : a || b = true <-> a = true \/ b = true.
Proof. by destruct a, b; intuition. Qed.
Lemma negb_true_flip (a : bool) : negb a = true <-> a = false.
Proof. by destruct a; intuition. Qed.
Lemma negb_false_flip (a : bool) : negb a = false <-> a = true.
Proof. by destruct a; intuition. Qed.

#[export] Hint Rewrite andb_true_split orb_false_split orb_true_split
  negb_true_flip negb_false_flip
  Z.eqb_eq Z.eqb_neq Z.leb_le Z.leb_gt Z.ltb_lt Z.ltb_ge
  bool_decide_eq_true bool_decide_eq_false : bool_norm.

Ltac bool_norm := autorewrite with bool_norm in *.

(** Case analysis on every guard of a definition unfolded in the goal. *)
Ltac split_guards :=
  repeat (case_match || case_decide); bool_norm; simplify_eq/=.

(** ** Results of fallible code: Go's [(value, error)] pairs *)

Inductive result (E A : Type) : Type :=
| Ok (a : A)
| Err (e : E).
Arguments Ok {E A} a.
Arguments Err {E A} e.

Declare Scope result_scope.
Delimit Scope result_scope with result.
Notation "'let?' x ':=' c 'in' k" :=
  (match c with Ok x => k | Err e => Err e end)
  (at level 10, x pattern, c at level 100, k at level 200) : result_scope.
#[global] Open Scope result_scope.

Definition is_ok {E A} (r : result E A) : bool :=
  match r with Ok _ => true | Err _ => false end.

Lemma Ok_inj {E A} (a b : A) : @Ok E A a = Ok b -> a = b.
Proof. congruence. Qed.

#[export] Instance result_eq_dec {E A} `{EqDecision E, EqDecision A} :
  EqDecision (result E A).
Proof. solve_decision. Defined.

(** ** Machine integers

    A Go [int] or [int64] is a [Z] in the 64-bit two's complement range; the
    operations that can leave the range wrap with [wrap64].  [uint32] and
    [uint64] counters are residues. *)

Definition int64_min : Z := - 2 ^ 63.
Definition int64_max : Z := 2 ^ 63 - 1.
Definition wrap64 (z : Z) : Z := (z + 2 ^ 63) mod 2 ^ 64 - 2 ^ 63.
Definition wrapu32 (z : Z) : Z := z mod 2 ^ 32.
Definition wrapu64 (z : Z) : Z := z mod 2 ^ 64.

Lemma wrap64_id (z : Z) : int64_min <= z <= int64_max -> wrap64 z = z.
Proof. unfold wrap64, int64_min, int64_max. intros. rewrite Z.mod_small; lia. Qed.

Lemma wrap64_range (z : Z) : int64_min <= wrap64 z <= int64_max.
Proof.
  unfold wrap64, int64_min, int64_max.
  pose proof (Z.mod_pos_bound (z + 2 ^ 63) (2 ^ 64) ltac:(lia)). lia.
Qed.

Lemma wrapu32_range (z : Z) : 0 <= wrapu32 z < 2 ^ 32.
Proof. apply Z.mod_pos_bound; lia. Qed.

Lemma wrapu64_range (z : Z) : 0 <= wrapu64 z < 2 ^ 64.
Proof. apply Z.mod_pos_bound; lia. Qed.

#[export] Hint Resolve wrap64_id wrap64_range wrapu32_range wrapu64_range : strela.

(** ** Time

    A [time.Time] is the nanoseconds since the Unix epoch, a [time.Duration]
    an [int64] of nanoseconds.  [time.Now()] is an argument of the operations
    that read the clock, one argument for each reading. *)

Definition nanosecond : Z := 1.
Definition second : Z := 1000000000.
Definition minute : Z := 60 * second.
Definition hour : Z := 3600 * second.

(** [time.Duration(n) * time.Second] and the like wrap at 64 bits. *)
Definition seconds (n : Z) : Z := wrap64 (n * second).
Definition minutes (n : Z) : Z := wrap64 (n * minute).
Definition hours (n : Z) : Z := wrap64 (n * hour).

(** The zero [time.Time] (January 1, year 1, UTC). *)
Definition zero_time : Z := - 62135596800 * second.

(** [t.Sub(u)] saturates at the range of a [Duration]. *)
Definition time_sub (t u : Z) : Z := Z.max int64_min (Z.min int64_max (t - u)).

Definition time_after (t u : Z) : bool := u <? t.
Definition time_before (t u : Z) : bool := t <? u.

(** [t.Unix()]: seconds since the epoch. *)
Definition time_unix (t : Z) : Z := t / second.

Lemma time_sub_gt (t u d : Z) :
  int64_min <= d < int64_max -> (d <? time_sub t u) = (d <? t - u).
Proof.
  unfold time_sub, int64_min, int64_max. intros.
  destruct (Z.ltb_spec d (t - u)); [apply Z.ltb_lt | apply Z.ltb_ge]; lia.
Qed.

Lemma seconds_small (n : Z) : 0 <= n <= 9223372036 -> seconds n = n * second.
Proof. intros. apply wrap64_id. unfold int64_min, int64_max, second. lia. Qed.
Lemma minutes_small (n : Z) : 0 <= n <= 153722867 -> minutes n = n * minute.
Proof. intros. apply wrap64_id. unfold int64_min, int64_max, minute, second. lia. Qed.
Lemma hours_small (n : Z) : 0 <= n <= 2562047 -> hours n = n * hour.
Proof. intros. apply wrap64_id. unfold int64_min, int64_max, hour, second. lia. Qed.

#[export] Hint Resolve seconds_small minutes_small hours_small : strela.

(** ** Lists and maps *)

(** Entries of a map that satisfy a boolean test. *)
Definition map_keep {V} (keep : string -> V -> bool) (m : gmap string V) : gmap string V :=
  filter (fun kv => keep kv.1 kv.2 = true) m.

Lemma map_keep_lookup {V} (keep : string -> V -> bool) (m : gmap string V) k v :
  map_keep keep m !! k = Some v <-> m !! k = Some v /\ keep k v = true.
Proof. unfold map_keep. apply map_lookup_filter_Some. Qed.

Lemma map_keep_lookup_None {V} (keep : string -> V -> bool) (m : gmap string V) k :
  map_keep keep m !! k = None <->
  m !! k = None \/ exists v, m !! k = Some v /\ keep k v = false.
Proof.
  unfold map_keep. rewrite map_lookup_filter_None. split.
  - destruct (m !! k) as [v|] eqn:E; [|by left].
    intros [|H]; [done|]. right. exists v. split; [done|].
    specialize (H v eq_refl). simpl in H. by destruct (keep k v).
  - intros [H|(v & H & Hk)]; [by left|right].
    intros w Hw. simplify_eq. simpl. by rewrite Hk.
Qed.

Lemma map_keep_subseteq {V} (keep : string -> V -> bool) (m : gmap string V) :
  map_keep keep m ⊆ m.
Proof. apply map_filter_subseteq. Qed.

(** ** Reachability: the reflexive transitive closure of a step relation *)

Section Reachable.
Context {S : Type} (init : S -> Prop) (step : S -> S -> Prop).

Inductive reachable : S -> Prop :=
| reachable_init s : init s -> reachable s
| reachable_step s s' : reachable s -> step s s' -> reachable s'.

(** An inductive invariant holds in every reachable state. *)
Lemma invariant_reachable (I : S -> Prop) :
  (forall s, init s -> I s) ->
  (forall s s', I s -> step s s' -> I s') ->
  forall s, reachable s -> I s.
Proof. intros Hi Hs s Hr. induction Hr; eauto. Qed.
End Reachable.
