(* ===== verification/GoString.v ===== *)
(** * Go strings

    A Go [string] (or [[]byte]) is the sequence of its bytes, a Rocq [string]
    of 8-bit characters.  This file gives the functions of the packages
    [strings], [bytes], [unicode/utf8] and [strconv] that Strela calls, with
    the lemmas the components share.  The only part of the standard library
    left abstract is the Unicode case table (code points above 127) and the
    quoting of [%q], the class [Unicode]. *)

From stdpp Require Import base gmap sets list strings pretty.
From Stdlib Require Import ZArith Lia Ascii Sorted Permutation.
From S2P Require Import Prelude.
#[local] Open Scope Z_scope.
#[global] Arguments String.append : simpl nomatch.

(** ** Bytes *)

Definition byte_of (c : ascii) : Z := Z.of_N (N_of_ascii c).
Definition chr (z : Z) : ascii := ascii_of_N (Z.to_N (z mod 256)).
Definition str1 (c : ascii) : string := String c "".

Definition is_ascii_char (c : ascii) : bool := byte_of c <? 128.
Definition in_range (lo hi : Z) (c : ascii) : bool := (lo <=? byte_of c) && (byte_of c <=? hi).
Definition is_upper (c : ascii) : bool := in_range 65 90 c.
Definition is_lower (c : ascii) : bool := in_range 97 122 c.
Definition is_digit (c : ascii) : bool := in_range 48 57 c.
Definition lower_char (c : ascii) : ascii := if is_upper c then chr (byte_of c + 32) else c.
Definition upper_char (c : ascii) : ascii := if is_lower c then chr (byte_of c - 32) else c.

Definition CR : ascii := chr 13.
Definition LF : ascii := chr 10.
Definition TAB : ascii := chr 9.
Definition CRLF : string := String CR (str1 LF).

(** ** Basic operations *)

Fixpoint slen (s : string) : nat :=
  match s with EmptyString => 0 | String _ s => S (slen s) end.

Fixpoint stake (n : nat) (s : string) : string :=
  match n, s with
  | O, _ => ""
  | _, EmptyString => ""
  | S n, String c s => String c (stake n s)
  end.

Fixpoint sdrop (n : nat) (s : string) : string :=
  match n, s with
  | O, _ => s
  | _, EmptyString => ""
  | S n, String _ s => sdrop n s
  end.

Fixpoint snth (s : string) (n : nat) : option ascii :=
  match n, s with
  | _, EmptyString => None
  | O, String c _ => Some c
  | S n, String _ s => snth s n
  end.

Fixpoint srev (s acc : string) : string :=
  match s with EmptyString => acc | String c s => srev s (String c acc) end.
Definition sreverse (s : string) : string := srev s "".

Fixpoint sall (p : ascii -> bool) (s : string) : bool :=
  match s with EmptyString => true | String c s => p c && sall p s end.
Definition sany (p : ascii -> bool) (s : string) : bool := negb (sall (fun c => negb (p c)) s).

Fixpoint smap (f : ascii -> ascii) (s : string) : string :=
  match s with EmptyString => "" | String c s => String (f c) (smap f s) end.

Definition is_ascii (s : string) : bool := sall is_ascii_char s.
Definition is_empty (s : string) : bool := match s with EmptyString => true | _ => false end.

(** [s == t] on strings. *)
Definition seqb (s t : string) : bool := bool_decide (s = t).

(** ** [strings.HasPrefix], [HasSuffix], [Index], [Contains], ... *)

Fixpoint has_prefix (s p : string) : bool :=
  match p, s with
  | EmptyString, _ => true
  | String _ _, EmptyString => false
  | String d p, String c s => bool_decide (c = d) && has_prefix s p
  end.

Definition has_suffix (s p : string) : bool := has_prefix (sreverse s) (sreverse p).

Definition trim_prefix (s p : string) : string :=
  if has_prefix s p then sdrop (slen p) s else s.
Definition trim_suffix (s p : string) : string :=
  if has_suffix s p then stake (slen s - slen p) s else s.

(** [strings.Index]: the offset of the first occurrence. *)
Fixpoint index_str (sub s : string) : option nat :=
  if has_prefix s sub then Some O
  else match s with
       | EmptyString => None
       | String _ s => S <$> index_str sub s
       end.

Definition contains (s sub : string) : bool :=
  match index_str sub s with Some _ => true | None => false end.

Fixpoint index_byte (c : ascii) (s : string) : option nat :=
  match s with
  | EmptyString => None
  | String d s => if bool_decide (c = d) then Some O else S <$> index_byte c s
  end.

(** [strings.LastIndex(s, c)] for a one-byte [c]. *)
Fixpoint last_index_byte (c : ascii) (s : string) : option nat :=
  match s with
  | EmptyString => None
  | String d s =>
      match last_index_byte c s with
      | Some n => Some (S n)
      | None => if bool_decide (c = d) then Some O else None
      end
  end.

(** [strings.Count(s, c)] for a one-byte [c]. *)
Fixpoint count_byte (c : ascii) (s : string) : nat :=
  match s with
  | EmptyString => O
  | String d s => if bool_decide (c = d) then S (count_byte c s) else count_byte c s
  end.

Definition contains_any (s : string) (chars : string) : bool :=
  sany (fun c => match index_byte c chars with Some _ => true | None => false end) s.

(** [strings.SplitN(s, sep, n)] for a non-empty [sep]; [strings.Split] is the
    case where [n] exceeds the number of occurrences. *)
Fixpoint split_n (n : nat) (sep s : string) : list string :=
  match n with
  | O => []
  | S O => [s]
  | S n' =>
      match index_str sep s with
      | None => [s]
      | Some m => stake m s :: split_n n' sep (sdrop (m + slen sep) s)
      end
  end.
Definition split (s sep : string) : list string := split_n (S (slen s)) sep s.

Fixpoint join (l : list string) (sep : string) : string :=
  match l with
  | [] => ""
  | [x] => x
  | x :: l => x +:+ sep +:+ join l sep
  end.

(** [strings.ReplaceAll(s, old, new)] for a non-empty [old]. *)
Definition replace_all (s old new : string) : string := join (split s old) new.

(** [strings.TrimLeft]/[TrimRight] with a set of ASCII bytes. *)
Fixpoint trim_left_fn (p : ascii -> bool) (s : string) : string :=
  match s with
  | EmptyString => ""
  | String c s' => if p c then trim_left_fn p s' else s
  end.
Definition trim_right_fn (p : ascii -> bool) (s : string) : string :=
  sreverse (trim_left_fn p (sreverse s)).
Definition in_set (chars : string) (c : ascii) : bool :=
  match index_byte c chars with Some _ => true | None => false end.
Definition trim (s chars : string) : string :=
  trim_right_fn (in_set chars) (trim_left_fn (in_set chars) s).
Definition trim_right (s chars : string) : string := trim_right_fn (in_set chars) s.

(** ** [strings.TrimSpace]

    The space characters are the ASCII ones, and the code points U+0085,
    U+00A0, U+1680, U+2000..U+200A, U+2028, U+2029, U+202F, U+205F and U+3000,
    recognised by their UTF-8 encodings. *)
Definition bytes (l : list Z) : string := foldr (fun z s => String (chr z) s) "" l.

Definition wide_spaces : list string :=
  map bytes ([[194; 133]; [194; 160]; [225; 154; 128]] ++
             map (fun b => [226; 128; b])
               [128; 129; 130; 131; 132; 133; 134; 135; 136; 137; 138; 168; 169; 175] ++
             [[226; 129; 159]; [227; 128; 128]])%Z.

Definition ascii_space (c : ascii) : bool := in_range 9 13 c || (byte_of c =? 32).

(** One space at the head of [s]: how many bytes it takes. *)
Definition head_space (spaces : list string) (s : string) : option nat :=
  match s with
  | EmptyString => None
  | String c _ =>
      if ascii_space c then Some 1%nat
      else match list_find (fun w => has_prefix s w = true) spaces with
           | Some (_, w) => Some (slen w)
           | None => None
           end
  end.

Fixpoint trim_spaces (fuel : nat) (spaces : list string) (s : string) : string :=
  match fuel with
  | O => s
  | S fuel => match head_space spaces s with
              | Some n => trim_spaces fuel spaces (sdrop n s)
              | None => s
              end
  end.

Definition trim_space_left (s : string) : string := trim_spaces (slen s) wide_spaces s.
Definition trim_space_right (s : string) : string :=
  sreverse (trim_spaces (slen s) (map sreverse wide_spaces) (sreverse s)).
Definition trim_space (s : string) : string := trim_space_right (trim_space_left s).

(** ** UTF-8 *)

Definition rune_error : Z := 65533.

(** The bytes accepted after a lead byte ([utf8.acceptRanges]). *)
Definition second_range (b0 : Z) : Z * Z :=
  if b0 =? 224 then (160, 191)
  else if b0 =? 237 then (128, 159)
  else if b0 =? 240 then (144, 191)
  else if b0 =? 244 then (128, 143)
  else (128, 191).

Definition cont (c : ascii) : bool := in_range 128 191 c.
Definition low6 (c : ascii) : Z := Z.land (byte_of c) 63.

(** [utf8.DecodeRuneInString] repeated: an invalid byte gives [rune_error]. *)
Fixpoint decode_runes (s : string) : list Z :=
  match s with
  | EmptyString => []
  | String c0 s0 =>
      let b0 := byte_of c0 in
      if b0 <? 128 then b0 :: decode_runes s0
      else if (194 <=? b0) && (b0 <=? 223) then
        match s0 with
        | String c1 s1 =>
            if cont c1 then Z.lor (Z.shiftl (Z.land b0 31) 6) (low6 c1) :: decode_runes s1
            else rune_error :: decode_runes s0
        | EmptyString => [rune_error]
        end
      else if (224 <=? b0) && (b0 <=? 239) then
        match s0 with
        | String c1 (String c2 s2) =>
            if in_range (second_range b0).1 (second_range b0).2 c1 && cont c2 then
              Z.lor (Z.shiftl (Z.land b0 15) 12) (Z.lor (Z.shiftl (low6 c1) 6) (low6 c2))
                :: decode_runes s2
            else rune_error :: decode_runes s0
        | _ => rune_error :: decode_runes s0
        end
      else if (240 <=? b0) && (b0 <=? 244) then
        match s0 with
        | String c1 (String c2 (String c3 s3)) =>
            if in_range (second_range b0).1 (second_range b0).2 c1 && cont c2 && cont c3 then
              Z.lor (Z.shiftl (Z.land b0 7) 18)
                (Z.lor (Z.shiftl (low6 c1) 12) (Z.lor (Z.shiftl (low6 c2) 6) (low6 c3)))
                :: decode_runes s3
            else rune_error :: decode_runes s0
        | _ => rune_error :: decode_runes s0
        end
      else rune_error :: decode_runes s0
  end.

Definition surrogate (r : Z) : bool := (55296 <=? r) && (r <=? 57343).

(** [utf8.AppendRune] *)
Definition encode_rune (r : Z) : string :=
  let r := if (r <? 0) || (1114111 <? r) || surrogate r then rune_error else r in
  if r <? 128 then bytes [r]
  else if r <? 2048 then bytes [192 + Z.shiftr r 6; 128 + Z.land r 63]
  else if r <? 65536 then
    bytes [224 + Z.shiftr r 12; 128 + Z.land (Z.shiftr r 6) 63; 128 + Z.land r 63]
  else bytes [240 + Z.shiftr r 18; 128 + Z.land (Z.shiftr r 12) 63;
              128 + Z.land (Z.shiftr r 6) 63; 128 + Z.land r 63].

Definition concat_runes (l : list Z) : string := foldr (fun r s => encode_rune r +:+ s) "" l.

(** ** Case *)

(** The Unicode tables of package [unicode], for code points above 127, and
    [strconv.Quote] (used only in the text of error messages). *)
Class Unicode : Type := {
  unicode_lower : Z -> Z;
  unicode_upper : Z -> Z;
  quote : string -> string
}.

(** Tables that leave every code point above 127 alone, for the examples. *)
Definition plain_unicode : Unicode := {|
  unicode_lower r := r;
  unicode_upper r := r;
  quote s := str1 (chr 34) +:+ s +:+ str1 (chr 34)
|}.

Section Case.
Context `{Unicode}.

Definition lower_rune (r : Z) : Z :=
  if r <? 128 then (if (65 <=? r) && (r <=? 90) then r + 32 else r) else unicode_lower r.
Definition upper_rune (r : Z) : Z :=
  if r <? 128 then (if (97 <=? r) && (r <=? 122) then r - 32 else r) else unicode_upper r.

(** [strings.ToLower]: byte by byte on an ASCII string, [strings.Map] with
    [unicode.ToLower] otherwise. *)
Definition to_lower (s : string) : string :=
  if is_ascii s then smap lower_char s
  else concat_runes (map lower_rune (decode_runes s)).
Definition to_upper (s : string) : string :=
  if is_ascii s then smap upper_char s
  else concat_runes (map upper_rune (decode_runes s)).
End Case.

(** [strings.EqualFold(s, t)] for an ASCII [t]: besides the two cases of each
    letter, simple folding relates [s] to U+017F and [k] to U+212A. *)
Fixpoint equal_fold (s t : string) : bool :=
  match t, s with
  | EmptyString, EmptyString => true
  | String d t', String c s' =>
      (if is_ascii_char c && bool_decide (lower_char c = lower_char d) then equal_fold s' t' else false)
      || (if has_prefix s (bytes [197; 191]) && bool_decide (lower_char d = "s"%char) then
            match s' with String _ s2 => equal_fold s2 t' | _ => false end
          else false)
      || (if has_prefix s (bytes [226; 132; 170]) && bool_decide (lower_char d = "k"%char) then
            match s' with String _ (String _ s3) => equal_fold s3 t' | _ => false end
          else false)
  | _, _ => false
  end.

(** ** [strconv.Atoi] on three bytes and decimal output *)

Definition digit_val (c : ascii) : option Z :=
  if is_digit c then Some (byte_of c - 48) else None.

Fixpoint digits_val (acc : Z) (s : string) : option Z :=
  match s with
  | EmptyString => Some acc
  | String c s => match digit_val c with
                  | Some d => digits_val (10 * acc + d) s
                  | None => None
                  end
  end.

(** [strconv.Atoi] of a string short enough not to overflow: an optional sign
    and at least one digit. *)
Definition atoi (s : string) : option Z :=
  match s with
  | EmptyString => None
  | String c s' =>
      if bool_decide (c = "+"%char) then if is_empty s' then None else digits_val 0 s'
      else if bool_decide (c = "-"%char) then
        if is_empty s' then None else Z.opp <$> digits_val 0 s'
      else digits_val 0 s
  end.

(** [fmt.Sprintf("%d", n)] *)
Definition fmt_d (n : Z) : string := pretty n.

(** ** Lemmas *)

Lemma sapp_assoc (a b c : string) : (a +:+ b) +:+ c = a +:+ b +:+ c.
Proof. induction a; simpl; congruence. Qed.

Lemma sapp_nil_r (a : string) : a +:+ "" = a.
Proof. induction a; simpl; congruence. Qed.

Lemma slen_app (a b : string) : slen (a +:+ b) = (slen a + slen b)%nat.
Proof. induction a; simpl; congruence. Qed.

Lemma slen_zero (a : string) : slen a = 0%nat -> a = "".
Proof. by destruct a. Qed.

Lemma stake_app_len (a b : string) : stake (slen a) (a +:+ b) = a.
Proof. induction a; simpl; [by destruct b | congruence]. Qed.

Lemma sdrop_app_len (a b : string) : sdrop (slen a) (a +:+ b) = b.
Proof. induction a; simpl; [by destruct b | done]. Qed.

Lemma sdrop_app_plus (a b : string) n : sdrop (slen a + n) (a +:+ b) = sdrop n b.
Proof. induction a; simpl; done. Qed.

Lemma stake_sdrop (n : nat) (s : string) : stake n s +:+ sdrop n s = s.
Proof. revert s; induction n; intros [|c s]; simpl; congruence. Qed.

Lemma slen_stake (n : nat) (s : string) : slen (stake n s) = Nat.min n (slen s).
Proof. revert s; induction n; intros [|c s]; simpl; congruence. Qed.

Lemma slen_sdrop (n : nat) (s : string) : slen (sdrop n s) = (slen s - n)%nat.
Proof. revert s; induction n; intros [|c s]; simpl; congruence. Qed.

Lemma slen_smap f (s : string) : slen (smap f s) = slen s.
Proof. induction s; simpl; congruence. Qed.

Lemma sall_app p (a b : string) : sall p (a +:+ b) = sall p a && sall p b.
Proof. induction a as [|c a IH]; simpl; [done|]. by rewrite IH, andb_assoc. Qed.

Lemma sall_impl (p q : ascii -> bool) s :
  (forall c, p c = true -> q c = true) -> sall p s = true -> sall q s = true.
Proof. intros Hpq. induction s; simpl; [done|]. intros [??]%andb_prop. rewrite Hpq; auto. Qed.

Lemma sall_stake p n s : sall p s = true -> sall p (stake n s) = true.
Proof.
  revert s; induction n; intros [|c s]; simpl; auto.
  intros [-> ?]%andb_prop. by rewrite IHn.
Qed.

Lemma sall_sdrop p n s : sall p s = true -> sall p (sdrop n s) = true.
Proof.
  revert s; induction n; intros [|c s]; simpl; auto.
  intros [_ ?]%andb_prop. by apply IHn.
Qed.

Lemma sall_smap p f s : sall p (smap f s) = sall (fun c => p (f c)) s.
Proof. induction s; simpl; congruence. Qed.

Lemma seqb_true s t : seqb s t = true <-> s = t.
Proof. apply bool_decide_eq_true. Qed.
Lemma seqb_false s t : seqb s t = false <-> s <> t.
Proof. apply bool_decide_eq_false. Qed.
Lemma seqb_refl s : seqb s s = true.
Proof. by apply seqb_true. Qed.
Lemma is_empty_false s : is_empty s = false <-> s <> "".
Proof. by destruct s. Qed.
Lemma is_empty_true s : is_empty s = true <-> s = "".
Proof. by destruct s. Qed.
#[export] Hint Rewrite seqb_true seqb_false is_empty_false is_empty_true : bool_norm.

(** *** Prefixes and searching *)

Lemma has_prefix_app (a b : string) : has_prefix (a +:+ b) a = true.
Proof. induction a; simpl; [by destruct b|]. by rewrite bool_decide_true. Qed.

Lemma has_prefix_app_both (a b c : string) : has_prefix (a +:+ b) (a +:+ c) = has_prefix b c.
Proof. induction a; simpl; [done|]. by rewrite bool_decide_true. Qed.

Lemma has_prefix_spec (s p : string) : has_prefix s p = true <-> exists r, s = p +:+ r.
Proof.
  revert s; induction p as [|d p IH]; intros s; simpl.
  - destruct s; split; eauto.
  - destruct s as [|c s]; simpl.
    + split; [done|]. by intros [r ?].
    + rewrite andb_true_iff, bool_decide_eq_true, IH. split.
      * intros [-> [r ->]]. by exists r.
      * intros [r [= -> ->]]. split; eauto.
Qed.

(** A byte occurs nowhere in a string. *)
Definition no_byte (c : ascii) (s : string) : bool := sall (fun d => negb (bool_decide (c = d))) s.

Lemma index_byte_None (c : ascii) (s : string) : index_byte c s = None <-> no_byte c s = true.
Proof.
  induction s as [|d s IH]; [done|]. unfold no_byte in *. cbn [index_byte sall].
  case_bool_decide; simpl; [by split|]. rewrite <- IH. by destruct (index_byte c s).
Qed.

Lemma index_byte_app (c : ascii) (a b : string) :
  no_byte c a = true -> index_byte c (a +:+ String c b) = Some (slen a).
Proof.
  unfold no_byte. induction a as [|d a IH]; simpl.
  - by rewrite bool_decide_true.
  - case_bool_decide; simpl; [done|]. intros. by rewrite IH.
Qed.

Lemma index_byte_bound (c : ascii) (s : string) i : index_byte c s = Some i -> (i < slen s)%nat.
Proof.
  revert i. induction s as [|d s IH]; intros i; [done|]. cbn [index_byte slen].
  case_bool_decide; [intros [= <-]; lia|]. destruct (index_byte c s) as [j|]; [|done].
  intros [= <-]. specialize (IH j eq_refl). lia.
Qed.

Lemma index_byte_split (c : ascii) (s : string) n :
  index_byte c s = Some n ->
  s = stake n s +:+ String c (sdrop (S n) s) /\ no_byte c (stake n s) = true.
Proof.
  unfold no_byte. revert n; induction s as [|d s IH]; intros n; [done|]. cbn [index_byte].
  case_bool_decide as E.
  - intros [= <-]. subst d. destruct s; done.
  - destruct (index_byte c s) as [m|]; [|done]. intros [= <-].
    destruct (IH m eq_refl) as [Hs Hn]. cbn [stake]. split.
    + change (String d s = String d (stake m s +:+ String c (sdrop (S m) s))). by rewrite <- Hs.
    + cbn [sall]. by rewrite bool_decide_false.
Qed.

Lemma no_byte_count (c : ascii) s : no_byte c s = true <-> count_byte c s = 0%nat.
Proof. unfold no_byte. induction s as [|d s IH]; [done|]. cbn. case_bool_decide; simpl; done. Qed.

Lemma count_byte_app (c : ascii) a b :
  count_byte c (a +:+ b) = (count_byte c a + count_byte c b)%nat.
Proof. induction a; simpl; [done|]. case_bool_decide; simpl; congruence. Qed.

Lemma index_str_str1 (c : ascii) (s : string) : index_str (str1 c) s = index_byte c s.
Proof.
  unfold str1. induction s as [|d s IH]; [done|]. cbn [index_str has_prefix index_byte].
  destruct (decide (c = d)) as [->|].
  - rewrite !bool_decide_true by done. by destruct s.
  - rewrite !bool_decide_false by congruence. simpl. by rewrite IH.
Qed.

(** Splitting at the first separator byte. *)
Lemma split_n_cons (n : nat) (c : ascii) (a b : string) :
  no_byte c a = true ->
  split_n (S (S n)) (str1 c) (a +:+ String c b) = a :: split_n (S n) (str1 c) b.
Proof.
  intros Ha. cbn [split_n]. rewrite index_str_str1, index_byte_app by done.
  rewrite stake_app_len. f_equal. cbn [str1 slen].
  by rewrite Nat.add_1_r, <- Nat.add_1_r, sdrop_app_plus.
Qed.

Lemma split_n_one (c : ascii) (b : string) : split_n 1 (str1 c) b = [b].
Proof. done. Qed.

Lemma sall_split_n p n sep s : sall p s = true -> Forall (fun t => sall p t = true) (split_n n sep s).
Proof.
  revert s; induction n as [|[|n] IH]; intros s Hs; [constructor|by repeat constructor|].
  cbn [split_n]. destruct (index_str sep s) as [m|]; [|by repeat constructor].
  constructor; [by apply sall_stake|]. by apply IH, sall_sdrop.
Qed.

Lemma sall_join p l sep :
  sall p sep = true -> Forall (fun t => sall p t = true) l -> sall p (join l sep) = true.
Proof.
  intros Hs. induction 1 as [|x l Hx Hl IH]; [done|]. destruct l as [|y l]; [done|].
  change (sall p (x +:+ sep +:+ join (y :: l) sep) = true). by rewrite !sall_app, Hx, Hs, IH.
Qed.

Lemma sall_replace_all p s old new :
  sall p s = true -> sall p new = true -> sall p (replace_all s old new) = true.
Proof. intros. by apply sall_join, sall_split_n. Qed.

(** *** Reversal *)

Lemma srev_acc (s acc : string) : srev s acc = sreverse s +:+ acc.
Proof.
  unfold sreverse. revert acc; induction s as [|c s IH]; intros acc; [done|]. simpl.
  rewrite IH, (IH (String c "")), sapp_assoc. done.
Qed.

Lemma sreverse_cons c s : sreverse (String c s) = sreverse s +:+ str1 c.
Proof. unfold sreverse at 1. simpl. by rewrite srev_acc. Qed.

Lemma sreverse_app a b : sreverse (a +:+ b) = sreverse b +:+ sreverse a.
Proof.
  induction a as [|c a IH]; simpl; [by rewrite sapp_nil_r|].
  by rewrite !sreverse_cons, IH, sapp_assoc.
Qed.

Lemma sreverse_involutive s : sreverse (sreverse s) = s.
Proof. induction s as [|c s IH]; [done|]. rewrite sreverse_cons, sreverse_app, IH. done. Qed.

Lemma slen_sreverse s : slen (sreverse s) = slen s.
Proof.
  induction s as [|c s IH]; [done|]. rewrite sreverse_cons, slen_app. simpl. lia.
Qed.

Lemma sall_sreverse p s : sall p (sreverse s) = sall p s.
Proof.
  induction s as [|c s IH]; [done|].
  rewrite sreverse_cons, sall_app, IH. simpl. by rewrite andb_true_r, andb_comm.
Qed.

(** *** Trimming a string whose end bytes are printable ASCII *)

Definition plain_byte (c : ascii) : bool := is_ascii_char c && negb (ascii_space c).

Lemma is_ascii_char_lt c : is_ascii_char c = true <-> byte_of c < 128.
Proof. apply Z.ltb_lt. Qed.

Lemma has_prefix_head_high c s w :
  is_ascii_char c = true ->
  match w with String d _ => is_ascii_char d = false | _ => False end ->
  has_prefix (String c s) w = false.
Proof.
  destruct w as [|d w]; [done|]. intros Hc Hd. simpl.
  rewrite bool_decide_false; [done|]. intros ->. congruence.
Qed.

Lemma head_space_plain spaces c s :
  Forall (fun w => match w with String d _ => is_ascii_char d = false | _ => False end) spaces ->
  plain_byte c = true -> head_space spaces (String c s) = None.
Proof.
  intros Hs [Hc Hn%negb_true_flip]%andb_prop. cbn [head_space]. rewrite Hn.
  destruct (list_find _ spaces) as [[i w]|] eqn:E; [|done].
  apply list_find_Some in E as (Hi & Hp & _).
  assert (Hw := Forall_lookup_1 _ _ _ _ Hs Hi). 
  by rewrite has_prefix_head_high in Hp.
Qed.

Lemma wide_spaces_high :
  Forall (fun w => match w with String d _ => is_ascii_char d = false | _ => False end) wide_spaces.
Proof. by vm_compute; repeat constructor. Qed.
Lemma wide_spaces_rev_high :
  Forall (fun w => match w with String d _ => is_ascii_char d = false | _ => False end)
    (map sreverse wide_spaces).
Proof. by vm_compute; repeat constructor. Qed.

Lemma trim_spaces_plain fuel spaces c s :
  head_space spaces (String c s) = None -> trim_spaces fuel spaces (String c s) = String c s.
Proof. intros H. destruct fuel; [done|]. cbn [trim_spaces]. by rewrite H. Qed.

(** [s] starts and ends with a byte that satisfies [p]. *)
Definition ends (p : ascii -> bool) (s : string) : Prop :=
  exists c r d t, s = String c r /\ sreverse s = String d t /\ p c = true /\ p d = true.

Lemma ends_app p c a b d t :
  p c = true -> sreverse b = String d t -> p d = true -> ends p (String c a +:+ b).
Proof.
  intros Hc Hb Hd. exists c, (a +:+ b), d, (t +:+ sreverse (String c a)).
  split; [done|]. by rewrite sreverse_app, Hb.
Qed.

Lemma sall_nonempty_rev p s :
  s <> "" -> sall p s = true -> exists d t, sreverse s = String d t /\ p d = true.
Proof.
  intros Hs Ha. rewrite <- sall_sreverse in Ha.
  destruct (sreverse s) as [|d t] eqn:E.
  - destruct Hs. by rewrite <- (sreverse_involutive s), E.
  - exists d, t. split; [done|]. simpl in Ha. by apply andb_prop in Ha as [? _].
Qed.

Lemma trim_space_plain s : ends plain_byte s -> trim_space s = s.
Proof.
  intros (c & r & d & t & -> & Hr & Hc & Hd). unfold trim_space, trim_space_left.
  rewrite trim_spaces_plain by (apply head_space_plain; [apply wide_spaces_high|done]).
  unfold trim_space_right. rewrite Hr.
  rewrite trim_spaces_plain by (apply head_space_plain; [apply wide_spaces_rev_high|done]).
  by rewrite <- Hr, sreverse_involutive.
Qed.

Lemma trim_plain chars s : ends (fun c => negb (in_set chars c)) s -> trim s chars = s.
Proof.
  intros (c & r & d & t & -> & Hr & Hc%negb_true_flip & Hd%negb_true_flip).
  unfold trim, trim_right_fn. cbn [trim_left_fn]. rewrite Hc, Hr. cbn [trim_left_fn].
  by rewrite Hd, <- Hr, sreverse_involutive.
Qed.

(** *** Case *)

Lemma byte_of_range c : 0 <= byte_of c < 256.
Proof. unfold byte_of. pose proof (N_ascii_bounded c). lia. Qed.

Lemma chr_byte_of c : chr (byte_of c) = c.
Proof.
  unfold chr. pose proof (byte_of_range c). rewrite Z.mod_small by done.
  unfold byte_of. by rewrite N2Z.id, ascii_N_embedding.
Qed.

Lemma byte_of_chr z : byte_of (chr z) = z mod 256.
Proof.
  unfold chr, byte_of. pose proof (Z.mod_pos_bound z 256 ltac:(lia)).
  rewrite N_ascii_embedding by lia. lia.
Qed.

Lemma decode_runes_ascii_app a b :
  is_ascii a = true ->
  decode_runes (a +:+ b) = foldr (fun c l => byte_of c :: l) (decode_runes b) (String.list_ascii_of_string a).
Proof.
  unfold is_ascii. induction a as [|c a IH]; [done|]. cbn [sall]. intros [Hc Ha]%andb_prop.
  cbn [String.append decode_runes String.list_ascii_of_string foldr]. unfold is_ascii_char in Hc. rewrite Hc.
  by rewrite <- IH.
Qed.

Section CaseLemmas.
Context `{Unicode}.

Lemma upper_rune_ascii c :
  is_ascii_char c = true -> encode_rune (upper_rune (byte_of c)) = str1 (upper_char c).
Proof. destruct c as [[] [] [] [] [] [] [] []]; intros Hc; vm_compute in Hc; try done; vm_compute; done. Qed.

Lemma lower_rune_ascii c :
  is_ascii_char c = true -> encode_rune (lower_rune (byte_of c)) = str1 (lower_char c).
Proof. destruct c as [[] [] [] [] [] [] [] []]; intros Hc; vm_compute in Hc; try done; vm_compute; done. Qed.

(** Upper-casing leaves the bytes of an ASCII prefix to themselves. *)
Lemma to_upper_app a b : is_ascii a = true -> to_upper (a +:+ b) = smap upper_char a +:+ to_upper b.
Proof.
  intros Ha. unfold to_upper, is_ascii. rewrite sall_app. unfold is_ascii in Ha. rewrite Ha.
  cbn [andb]. destruct (sall is_ascii_char b) eqn:Hb.
  - clear. induction a; simpl; congruence.
  - rewrite decode_runes_ascii_app by done. clear Hb.
    induction a as [|c a IH]; [done|]. cbn [sall] in Ha. apply andb_prop in Ha as [Hc Ha].
    cbn [String.list_ascii_of_string foldr map concat_runes smap String.append].
    unfold concat_runes in IH |- *. cbn [foldr].
    rewrite IH by done. by rewrite upper_rune_ascii.
Qed.

Lemma to_upper_ascii a : is_ascii a = true -> to_upper a = smap upper_char a.
Proof. intros Ha. unfold to_upper. by rewrite Ha. Qed.
Lemma to_lower_ascii a : is_ascii a = true -> to_lower a = smap lower_char a.
Proof. intros Ha. unfold to_lower. by rewrite Ha. Qed.
End CaseLemmas.

Lemma lower_char_idem c : lower_char (lower_char c) = lower_char c.
Proof. destruct c as [[] [] [] [] [] [] [] []]; vm_compute; done. Qed.
Lemma lower_char_ascii c : is_ascii_char (lower_char c) = is_ascii_char c.
Proof. destruct c as [[] [] [] [] [] [] [] []]; vm_compute; done. Qed.

(** *** Splitting, joining and decimal numbers *)

Lemma no_byte_app c a b : no_byte c (a +:+ b) = no_byte c a && no_byte c b.
Proof. apply sall_app. Qed.

Lemma split_n_step n c s :
  split_n (S (S n)) (str1 c) s =
  match index_byte c s with
  | None => [s]
  | Some m => stake m s :: split_n (S n) (str1 c) (sdrop (S m) s)
  end.
Proof.
  rewrite <- index_str_str1. change (split_n (S (S n)) (str1 c) s) with
    (match index_str (str1 c) s with
     | None => [s]
     | Some m => stake m s :: split_n (S n) (str1 c) (sdrop (m + 1) s)
     end).
  destruct (index_str (str1 c) s); [|done]. by rewrite Nat.add_1_r.
Qed.

Lemma split_n_join c l n :
  Forall (fun t => no_byte c t = true) l -> l <> [] -> (length l <= n)%nat ->
  split_n n (str1 c) (join l (str1 c)) = l.
Proof.
  intros Hl. revert n. induction Hl as [|x l Hx Hl IH]; intros n Hne Hn; [done|].
  destruct l as [|y l].
  - destruct n as [|[|n]]; [simpl in Hn; lia|done|]. cbn [join].
    rewrite split_n_step. by apply index_byte_None in Hx as ->.
  - destruct n as [|[|n]]; [simpl in Hn; lia|simpl in Hn; lia|].
    change (join (x :: y :: l) (str1 c)) with (x +:+ String c (join (y :: l) (str1 c))).
    rewrite split_n_cons by done. f_equal. apply IH; [done|simpl in *; lia].
Qed.

Lemma join_length l c : l <> [] -> (length l <= S (slen (join l (str1 c))))%nat.
Proof.
  induction l as [|x [|y l] IH]; [done|simpl; lia|]. intros _.
  change (join (x :: y :: l) (str1 c)) with (x +:+ String c (join (y :: l) (str1 c))).
  rewrite slen_app. specialize (IH ltac:(done)). simpl in *. lia.
Qed.

Lemma split_join c l :
  Forall (fun t => no_byte c t = true) l -> l <> [] -> split (join l (str1 c)) (str1 c) = l.
Proof. intros. apply split_n_join; [done..|]. by apply join_length. Qed.

Lemma sall_ends p t : t <> "" -> sall p t = true -> ends p t.
Proof.
  intros Hne Hp. destruct (sall_nonempty_rev p t Hne Hp) as (d & u & Hr & Hd).
  destruct t as [|c r]; [done|]. exists c, r, d, u.
  cbn [sall] in Hp. apply andb_prop in Hp as [? _]. done.
Qed.

(** [split] at one byte, by structural recursion. *)
Fixpoint splits (c : ascii) (s : string) : list string :=
  match s with
  | EmptyString => [""]
  | String d s =>
      if bool_decide (c = d) then "" :: splits c s
      else match splits c s with h :: t => String d h :: t | [] => [] end
  end.

Lemma splits_nonempty c s : splits c s <> [].
Proof.
  induction s as [|d s IH]; [done|]. cbn [splits]. case_bool_decide; [done|].
  by destruct (splits c s).
Qed.

Lemma splits_index c s :
  splits c s = match index_byte c s with
               | None => [s]
               | Some m => stake m s :: splits c (sdrop (S m) s)
               end.
Proof.
  induction s as [|d s IH]; [done|]. cbn [splits index_byte]. case_bool_decide; [done|].
  rewrite IH. by destruct (index_byte c s).
Qed.

Lemma split_splits_fuel n c s : (slen s < n)%nat -> split_n n (str1 c) s = splits c s.
Proof.
  revert s. induction n as [|[|n] IH]; intros s Hn; [lia| |].
  { destruct s; [done|cbn [slen] in Hn; lia]. }
  rewrite split_n_step, splits_index. destruct (index_byte c s) as [m|] eqn:Em; [|done].
  f_equal. apply IH. rewrite slen_sdrop. destruct s; [by destruct m|]. cbn [slen] in *. lia.
Qed.
Lemma split_splits c s : split s (str1 c) = splits c s.
Proof. apply split_splits_fuel. lia. Qed.

Lemma splits_app c a b : splits c (a +:+ String c b) = splits c a ++ splits c b.
Proof.
  induction a as [|d a IH].
  - cbn [String.append splits]. by rewrite bool_decide_true.
  - cbn [String.append splits]. rewrite IH. case_bool_decide; [done|].
    pose proof (splits_nonempty c a). by destruct (splits c a).
Qed.

Lemma splits_none c s : no_byte c s = true -> splits c s = [s].
Proof. intros Hs. rewrite splits_index. by apply index_byte_None in Hs as ->. Qed.

Lemma digits_val_app acc a b :
  digits_val acc (a +:+ b) = match digits_val acc a with Some v => digits_val v b | None => None end.
Proof.
  revert acc. induction a as [|c a IH]; intros acc; [done|]. cbn [String.append digits_val].
  destruct (digit_val c); [apply IH|done].
Qed.

Lemma pretty_char_digit (d : N) :
  (d < 10)%N -> is_digit (pretty_N_char d) = true /\ digit_val (pretty_N_char d) = Some (Z.of_N d).
Proof.
  intros Hd. assert (exists k, (k < 10)%nat /\ d = N.of_nat k) as (k & Hk & ->).
  { exists (N.to_nat d). lia. }
  do 10 (destruct k as [|k]; [split; reflexivity|]). lia.
Qed.

Lemma pretty_N_digits (x : N) s :
  sall is_digit s = true ->
  exists h, pretty_N_go x s = h +:+ s /\ sall is_digit h = true /\
            (0 < x -> h <> "")%N /\ forall acc, digits_val acc h = Some (acc * 10 ^ Z.of_nat (slen h) + Z.of_N x).
Proof.
  revert s. induction (N.lt_wf_0 x) as [x _ IH]. intros s Hs.
  destruct (decide (0 < x)%N) as [Hx|Hx].
  - rewrite pretty_N_go_step by done.
    assert (Hm : (x mod 10 < 10)%N) by (apply N.mod_lt; lia).
    pose proof (pretty_char_digit _ Hm) as [Hc Hv].
    destruct (IH (x / 10)%N) with (s := String (pretty_N_char (x mod 10)) s) as (h & Hh & Hd & _ & Hval).
    { apply N.div_lt; lia. } { cbn [sall]. by rewrite Hc. }
    exists (h +:+ str1 (pretty_N_char (x mod 10))). rewrite Hh, sapp_assoc, slen_app, sall_app, Hd.
    split; [done|]. split; [cbn [str1 sall]; by rewrite Hc|]. split; [by destruct h|].
    intros acc. rewrite digits_val_app, Hval. cbn [str1 digits_val slen]. rewrite Hv.
    f_equal. rewrite Nat.add_1_r, Nat2Z.inj_succ, Z.pow_succ_r by lia.
    pose proof (N.div_mod x 10 ltac:(lia)) as E. apply (f_equal Z.of_N) in E.
    rewrite N2Z.inj_add, N2Z.inj_mul in E. lia.
  - assert (x = 0%N) as -> by lia. rewrite pretty_N_go_0. exists "".
    split; [done|]. split; [done|]. split; [lia|]. intros acc. cbn. f_equal. lia.
Qed.

(** A non-negative number is printed as digits, and read back. *)
Lemma fmt_d_digits n : 0 <= n ->
  fmt_d n <> "" /\ sall is_digit (fmt_d n) = true /\ digits_val 0 (fmt_d n) = Some n.
Proof.
  intros Hn. unfold fmt_d. destruct n as [|p|p]; [done| |lia].
  change (pretty (Z.pos p)) with (pretty_N_go (N.pos p) "").
  destruct (pretty_N_digits (N.pos p) "" eq_refl) as (h & -> & Hd & Hne & Hv).
  rewrite sapp_nil_r. split; [apply Hne; lia|]. split; [done|]. rewrite Hv. f_equal.
Qed.

Lemma no_digit_byte c s : is_digit c = false -> sall is_digit s = true -> no_byte c s = true.
Proof.
  intros Hc. apply sall_impl. intros d Hd. apply negb_true_iff, bool_decide_eq_false. congruence.
Qed.

(** ** Runes and bytes *)

Lemma lor_not_ascii a b : 0 <= a -> 0 <= b -> 128 <= a \/ 128 <= b -> 128 <= Z.lor a b.
Proof.
  intros Ha Hb Hab.
  assert (0 < Z.lor a b).
  { assert (Z.lor a b <> 0) by (intros Hz; apply Z.lor_eq_0_iff in Hz; lia).
    pose proof (proj2 (Z.lor_nonneg a b) (conj Ha Hb)). lia. }
  apply (Z.log2_le_pow2 _ 7); [done|]. rewrite Z.log2_lor by done.
  apply Z.max_le_iff. destruct Hab as [Hab|Hab]; [left|right]; apply (Z.log2_le_pow2 _ 7); lia.
Qed.

Lemma low6_range c : 0 <= low6 c < 64.
Proof.
  unfold low6. change 63 with (Z.ones 6). rewrite Z.land_ones by lia. apply Z.mod_pos_bound. lia.
Qed.

Lemma cont_not_ascii lo hi c : 128 <= lo -> in_range lo hi c = true -> 128 <= byte_of c.
Proof. unfold in_range. intros. bool_norm. lia. Qed.

Lemma second_range_low b0 : 128 <= (second_range b0).1.
Proof. unfold second_range. repeat case_match; simpl; lia. Qed.

Lemma rune2_not_ascii c0 c1 :
  194 <= byte_of c0 <= 223 -> 128 <= Z.lor (Z.shiftl (Z.land (byte_of c0) 31) 6) (low6 c1).
Proof.
  intros Hc. change 31 with (Z.ones 5). rewrite Z.land_ones, Z.shiftl_mul_pow2 by lia.
  pose proof (low6_range c1). apply lor_not_ascii; Z.div_mod_to_equations; lia.
Qed.

(** Longer encodings: the lead byte adds something, or the second one does. *)
Lemma rune3_not_ascii c0 c1 c2 :
  224 <= byte_of c0 <= 239 -> in_range (second_range (byte_of c0)).1 (second_range (byte_of c0)).2 c1 = true ->
  128 <= Z.lor (Z.shiftl (Z.land (byte_of c0) 15) 12) (Z.lor (Z.shiftl (low6 c1) 6) (low6 c2)).
Proof.
  intros Hc Hr. pose proof (low6_range c1). pose proof (low6_range c2).
  change 15 with (Z.ones 4). rewrite Z.land_ones, !Z.shiftl_mul_pow2 by lia.
  assert (0 <= Z.lor (low6 c1 * 2 ^ 6) (low6 c2)) by (apply Z.lor_nonneg; lia).
  apply lor_not_ascii; [Z.div_mod_to_equations; lia|done|].
  destruct (Z.eq_dec (byte_of c0) 224) as [He|He]; [right|left; Z.div_mod_to_equations; lia].
  apply lor_not_ascii; [lia|lia|left]. rewrite He in Hr. unfold in_range, second_range in Hr. simpl in Hr.
  unfold low6. change 63 with (Z.ones 6). rewrite Z.land_ones by lia. bool_norm.
  Z.div_mod_to_equations; lia.
Qed.

Lemma rune4_not_ascii c0 c1 c2 c3 :
  240 <= byte_of c0 <= 244 -> in_range (second_range (byte_of c0)).1 (second_range (byte_of c0)).2 c1 = true ->
  128 <= Z.lor (Z.shiftl (Z.land (byte_of c0) 7) 18)
           (Z.lor (Z.shiftl (low6 c1) 12) (Z.lor (Z.shiftl (low6 c2) 6) (low6 c3))).
Proof.
  intros Hc Hr. pose proof (low6_range c1). pose proof (low6_range c2). pose proof (low6_range c3).
  change 7 with (Z.ones 3). rewrite Z.land_ones, !Z.shiftl_mul_pow2 by lia.
  assert (0 <= Z.lor (low6 c2 * 2 ^ 6) (low6 c3)) by (apply Z.lor_nonneg; lia).
  assert (0 <= Z.lor (low6 c1 * 2 ^ 12) (Z.lor (low6 c2 * 2 ^ 6) (low6 c3))) by (apply Z.lor_nonneg; lia).
  apply lor_not_ascii; [Z.div_mod_to_equations; lia|done|].
  destruct (Z.eq_dec (byte_of c0) 240) as [He|He]; [right|left; Z.div_mod_to_equations; lia].
  apply lor_not_ascii; [lia|done|left]. rewrite He in Hr. unfold in_range, second_range in Hr. simpl in Hr.
  unfold low6. change 63 with (Z.ones 6). rewrite Z.land_ones by lia. bool_norm.
  Z.div_mod_to_equations; lia.
Qed.

(** A test that lets all runes and bytes above 127 pass sees the bytes of a
    string when it reads its runes: the bytes of a long or broken encoding
    are all above 127. *)
Lemma decode_runes_forallb (p : Z -> bool) s :
  (forall r, 128 <= r -> p r = true) ->
  forallb p (decode_runes s) = sall (fun c => p (byte_of c)) s.
Proof.
  intros Hp. remember (slen s) as n eqn:Hn. assert (slen s <= n)%nat as Hle by lia. clear Hn.
  revert s Hle. induction n as [|n IH]; intros [|c0 s0] Hn; cbn [slen] in Hn; try done; [lia|].
  assert (Hs0 : forallb p (decode_runes s0) = sall (fun c => p (byte_of c)) s0) by (apply IH; lia).
  assert (Hhigh : forall lo hi c, 128 <= lo -> in_range lo hi c = true -> p (byte_of c) = true)
    by (intros; eapply Hp, cont_not_ascii; eauto).
  pose proof (second_range_low (byte_of c0)) as Hlow.
  assert (Herr : 128 <= byte_of c0 ->
    forallb p (rune_error :: decode_runes s0) = p (byte_of c0) && sall (fun c => p (byte_of c)) s0).
  { intros Hc. cbn [forallb]. rewrite Hs0, (Hp rune_error), (Hp (byte_of c0)) by (done || lia). done. }
  cbn [decode_runes sall]. destruct (byte_of c0 <? 128) eqn:E0; [cbn [forallb]; by rewrite Hs0|].
  bool_norm. unfold cont.
  repeat (case_match; bool_norm; try (apply Herr; lia)).
  all: cbn [forallb slen sall] in *; rewrite IH by lia.
  all: rewrite (Hp (byte_of c0)) by lia.
  - rewrite (Hhigh 128 191 a) by (done || lia).
    rewrite (Hp (Z.lor _ _)); [done|by apply rune2_not_ascii].
  - match goal with H : _ /\ _ |- _ => destruct H as [? ?] end.
    rewrite (Hhigh _ _ a Hlow), (Hhigh 128 191 a0) by (done || lia).
    rewrite (Hp (Z.lor _ _)); [done|by apply rune3_not_ascii].
  - match goal with H : (_ /\ _) /\ _ |- _ => destruct H as [[? ?] ?] end.
    rewrite (Hhigh _ _ a Hlow), (Hhigh 128 191 a0), (Hhigh 128 191 a1) by (done || lia).
    rewrite (Hp (Z.lor _ _)); [done|by apply rune4_not_ascii].
Qed.

(** ** Pieces of strings *)

Lemma splits_join c s : join (splits c s) (str1 c) = s.
Proof.
  induction s as [|d s IH]; [done|]. cbn [splits]. pose proof (splits_nonempty c s) as Hne.
  case_bool_decide as Hd; subst; destruct (splits _ s) as [|h t]; try done.
  - cbn [join] in *. by rewrite <- IH.
  - rewrite <- IH. by destruct t.
Qed.

Lemma contains_split s sub : contains s sub = true -> exists a b, s = a +:+ sub +:+ b.
Proof.
  unfold contains. induction s as [|c s IH]; cbn [index_str].
  - destruct (has_prefix "" sub) eqn:E; [|done]. apply has_prefix_spec in E as [r ->]. by exists "", r.
  - destruct (has_prefix (String c s) sub) eqn:E.
    { apply has_prefix_spec in E as [r ->]. by exists "", r. }
    destruct (index_str sub s) eqn:Es; [|done]. intros _.
    destruct IH as (a & b & ->); [done|]. by exists (String c a), b.
Qed.

Lemma snth_last s c : snth s (slen s - 1) = Some c -> exists a, s = a +:+ str1 c.
Proof.
  intros Hs. exists (stake (slen s - 1) s). rewrite <- (stake_sdrop (slen s - 1) s) at 1. f_equal.
  induction s as [|d s IH]; [done|]. cbn [slen snth sdrop] in *.
  replace (S (slen s) - 1)%nat with (slen s) in * by lia. destruct s as [|d' s]; [simpl in *; by simplify_eq|].
  cbn [slen] in *. replace (S (slen s) - 1)%nat with (slen s) in IH by lia. by apply IH.
Qed.

Lemma last_index_byte_app c a b :
  no_byte c b = true -> last_index_byte c (a +:+ String c b) = Some (slen a).
Proof.
  intros Hb. assert (last_index_byte c b = None) as Hn.
  { induction b as [|d b IH]; [done|]. cbn [no_byte sall] in Hb. unfold no_byte in *. simpl in Hb. bool_norm.
    destruct Hb as [Hd Hb]. cbn [last_index_byte]. rewrite IH by done. by rewrite bool_decide_false. }
  induction a as [|d a IH]; cbn [String.append last_index_byte slen].
  - rewrite Hn. by rewrite bool_decide_true.
  - by rewrite IH.
Qed.

Lemma last_index_byte_split c s n :
  last_index_byte c s = Some n -> s = stake n s +:+ String c (sdrop (S n) s).
Proof.
  revert n. induction s as [|d s IH]; intros n; [done|]. cbn [last_index_byte].
  destruct (last_index_byte c s) as [m|] eqn:E.
  - intros [= <-]. cbn [stake sdrop String.append]. by rewrite <- IH.
  - case_bool_decide; [|done]. intros [= <-]. subst. cbn [stake sdrop String.append]. by destruct s.
Qed.

Lemma contains_any_none s chars c :
  contains_any s chars = false -> in_set chars c = true -> no_byte c s = true.
Proof.
  unfold contains_any, sany, no_byte, in_set. rewrite negb_false_iff. intros Hs Hc.
  eapply sall_impl; [|exact Hs]. intros d Hd. cbn beta in *.
  destruct (decide (c = d)) as [->|Hne]; [by destruct (index_byte d chars)|].
  by rewrite bool_decide_false.
Qed.

(** ** Go's order on strings *)

Fixpoint str_lt (s t : string) : bool :=
  match s, t with
  | _, EmptyString => false
  | EmptyString, String _ _ => true
  | String a s, String b t => (byte_of a <? byte_of b) || ((byte_of a =? byte_of b) && str_lt s t)
  end.

Lemma byte_of_inj a b : byte_of a = byte_of b -> a = b.
Proof. intros H. by rewrite <- (chr_byte_of a), <- (chr_byte_of b), H. Qed.

Lemma str_lt_irrefl s : str_lt s s = false.
Proof. induction s as [|a s IH]; [done|]. simpl. by rewrite Z.ltb_irrefl, Z.eqb_refl, IH. Qed.

Lemma str_lt_trans s t u : str_lt s t = true -> str_lt t u = true -> str_lt s u = true.
Proof.
  revert t u. induction s as [|a s IH]; intros [|b t] [|c u]; simpl; try done. intros H1 H2. bool_norm.
  destruct H1 as [H1|[H1 H1']], H2 as [H2|[H2 H2']]; try (left; lia).
  right. split; [lia|by eapply IH].
Qed.

Lemma str_lt_total s t : str_lt s t = false -> str_lt t s = false -> s = t.
Proof.
  revert t. induction s as [|a s IH]; intros [|b t]; simpl; try done. intros H1 H2. bool_norm.
  destruct H1 as [H1 H1'], H2 as [H2 H2']. assert (byte_of a = byte_of b) as He by lia.
  rewrite He, Z.eqb_refl in H1', H2'. simpl in *. apply byte_of_inj in He as ->. f_equal. by apply IH.
Qed.

(** [sort.Slice] by a string key: insertion from the right. *)
Section SortBy.
Context {A : Type} (key : A -> string).

Fixpoint insert_by (x : A) (l : list A) : list A :=
  match l with
  | [] => [x]
  | y :: l => if str_lt (key y) (key x) then y :: insert_by x l else x :: y :: l
  end.
Fixpoint sort_by (l : list A) : list A :=
  match l with [] => [] | x :: l => insert_by x (sort_by l) end.

Lemma insert_by_perm x l : Permutation (insert_by x l) (x :: l).
Proof.
  induction l as [|y l IH]; [done|]. simpl. destruct (str_lt (key y) (key x)); [|done].
  rewrite IH. apply perm_swap.
Qed.
Lemma sort_by_perm l : Permutation (sort_by l) l.
Proof. induction l as [|x l IH]; [done|]. simpl. by rewrite insert_by_perm, IH. Qed.

(** No later key is smaller. *)
Definition sorted_by (l : list A) : Prop := StronglySorted (fun a b => str_lt (key b) (key a) = false) l.

Lemma insert_by_sorted x l : sorted_by l -> sorted_by (insert_by x l).
Proof.
  induction 1 as [|y l Hs IH Hall]; [by repeat constructor|]. simpl. destruct (str_lt (key y) (key x)) eqn:E.
  - constructor; [done|]. rewrite List.Forall_forall in *. intros z Hz.
    apply (Permutation_in _ (insert_by_perm x l)) in Hz as [<-|Hz]; [|by apply Hall].
    destruct (str_lt (key x) (key y)) eqn:E'; [|done]. by rewrite <- (str_lt_irrefl (key y)), (str_lt_trans _ _ _ E E').
  - constructor; [by constructor|]. constructor; [done|]. rewrite List.Forall_forall in *. intros z Hz.
    specialize (Hall z Hz). destruct (str_lt (key z) (key x)) eqn:Ez; [|done].
    destruct (str_lt (key y) (key z)) eqn:E2; [by rewrite <- E, (str_lt_trans _ _ _ E2 Ez)|].
    pose proof (str_lt_total _ _ Hall E2). congruence.
Qed.
Lemma sort_by_sorted l : sorted_by (sort_by l).
Proof. induction l as [|x l IH]; [constructor|]. by apply insert_by_sorted. Qed.
End SortBy.
