(* ===== verification/Utf8.v ===== *)
(** * UTF-8 ([unicode/utf8])

    What encoding and decoding do to each other: a code point is decoded from
    its bytes whatever follows, and a string is valid when decoding and encoding
    give it back. *)

From stdpp Require Import base list strings.
From Stdlib Require Import ZArith Lia Ascii.
From S2P Require Import Prelude GoString.
#[local] Open Scope Z_scope.

(** Code points that UTF-8 can encode. *)
Definition scalar (r : Z) : bool := (0 <=? r) && (r <=? 1114111) && negb (surrogate r).

(** [utf8.DecodeRuneInString]; [None] is [RuneError] with width 1 or 0. *)
Definition decode_rune (s : string) : option Z :=
  match decode_runes s with
  | r :: _ => if (r =? rune_error) && negb (has_prefix s (encode_rune rune_error)) then None else Some r
  | [] => None
  end.

(** [strings.ToValidUTF8] byte by byte, with U+FFFD. *)
Definition coerce_utf8 (s : string) : string := concat_runes (decode_runes s).
Definition valid_utf8 (s : string) : bool := seqb (coerce_utf8 s) s.

(** ** One code point *)
Lemma lor_shift a b n : 0 <= n -> 0 <= b < 2 ^ n -> Z.lor (Z.shiftl a n) b = a * 2 ^ n + b.
Proof.
  intros Hn Hb. assert (Hl : Z.land (Z.shiftl a n) b = 0).
  { apply Z.bits_inj'. intros i Hi. rewrite Z.land_spec, Z.bits_0. destruct (Z.lt_ge_cases i n).
    - by rewrite Z.shiftl_spec_low.
    - rewrite <- (Z.mod_small b (2 ^ n)) by done. by rewrite (Z.mod_pow2_bits_high b), andb_false_r by lia. }
  by rewrite <- Z.lxor_lor, <- Z.add_nocarry_lxor, Z.shiftl_mul_pow2 by done.
Qed.

Lemma land_mod a b m n : 0 <= n -> m = Z.ones n -> 0 <= b < 2 ^ n -> Z.land (a * 2 ^ n + b) m = b.
Proof. intros Hn -> Hb. rewrite Z.land_ones by done. rewrite Z.add_comm, Z.mod_add by lia. by apply Z.mod_small. Qed.

Lemma low6_chr b : 0 <= b < 64 -> low6 (chr (128 + b)) = b.
Proof. intros Hb. unfold low6. rewrite byte_of_chr, Z.mod_small by lia. by apply (land_mod 2 b 63 6). Qed.
Lemma cont_chr b : 0 <= b < 64 -> cont (chr (128 + b)) = true.
Proof. intros Hb. unfold cont, in_range. rewrite byte_of_chr, Z.mod_small by lia. bool_norm. lia. Qed.

Lemma rune_two a b t : 2 <= a < 32 -> 0 <= b < 64 ->
  decode_runes (String (chr (192 + a)) (String (chr (128 + b)) t)) = a * 64 + b :: decode_runes t.
Proof.
  intros Ha Hb. cbn [decode_runes]. rewrite cont_chr by done. rewrite byte_of_chr, (Z.mod_small (192 + a)) by lia.
  rewrite (proj2 (Z.ltb_ge _ _)), (proj2 (Z.leb_le _ _)), (proj2 (Z.leb_le _ _)) by lia. cbn [andb].
  rewrite low6_chr by done. assert (Ea : Z.land (192 + a) 31 = a) by (apply (land_mod 6 a 31 5); done || lia). rewrite Ea. by rewrite lor_shift by lia.
Qed.
Lemma rune_three a b c t : 0 <= a < 16 -> 0 <= b < 64 -> 0 <= c < 64 -> 2048 <= a * 4096 + b * 64 + c ->
  surrogate (a * 4096 + b * 64 + c) = false ->
  decode_runes (String (chr (224 + a)) (String (chr (128 + b)) (String (chr (128 + c)) t))) =
  a * 4096 + b * 64 + c :: decode_runes t.
Proof.
  intros Ha Hb Hc Hlo Hs. cbn [decode_runes]. rewrite cont_chr by done. rewrite byte_of_chr, (Z.mod_small (224 + a)) by lia.
  rewrite (proj2 (Z.ltb_ge _ _)) by lia. rewrite (proj2 (Z.leb_gt (224 + a) 223)) by lia. rewrite andb_false_r.
  rewrite (proj2 (Z.leb_le _ _)), (proj2 (Z.leb_le _ _)) by lia. cbn [andb].
  assert (Hr : in_range (second_range (224 + a)).1 (second_range (224 + a)).2 (chr (128 + b)) = true).
  { unfold in_range. rewrite byte_of_chr, Z.mod_small by lia. unfold surrogate in Hs. unfold second_range.
    repeat match goal with |- context [?x =? ?y] => destruct (Z.eqb_spec x y) end; cbn [fst snd]; bool_norm; lia. }
  rewrite Hr. cbn [andb]. rewrite !low6_chr by done. assert (Ea : Z.land (224 + a) 15 = a) by (apply (land_mod 14 a 15 4); done || lia). rewrite Ea.
  rewrite (lor_shift b c 6) by lia. rewrite lor_shift by lia. f_equal. lia.
Qed.
Lemma rune_four a b c d t : 0 <= a < 5 -> 0 <= b < 64 -> 0 <= c < 64 -> 0 <= d < 64 ->
  65536 <= a * 262144 + b * 4096 + c * 64 + d <= 1114111 ->
  decode_runes (String (chr (240 + a)) (String (chr (128 + b)) (String (chr (128 + c)) (String (chr (128 + d)) t)))) =
  a * 262144 + b * 4096 + c * 64 + d :: decode_runes t.
Proof.
  intros Ha Hb Hc Hd Hr. cbn [decode_runes]. rewrite !cont_chr by done. rewrite byte_of_chr, (Z.mod_small (240 + a)) by lia.
  rewrite (proj2 (Z.ltb_ge _ _)) by lia. rewrite (proj2 (Z.leb_gt (240 + a) 223)) by lia. rewrite andb_false_r.
  rewrite (proj2 (Z.leb_gt (240 + a) 239)) by lia. rewrite andb_false_r.
  rewrite (proj2 (Z.leb_le _ _)), (proj2 (Z.leb_le _ _)) by lia. cbn [andb].
  assert (Hs : in_range (second_range (240 + a)).1 (second_range (240 + a)).2 (chr (128 + b)) = true).
  { unfold in_range. rewrite byte_of_chr, Z.mod_small by lia. unfold second_range.
    repeat match goal with |- context [?x =? ?y] => destruct (Z.eqb_spec x y) end; cbn [fst snd]; bool_norm; lia. }
  rewrite Hs. cbn [andb]. rewrite !low6_chr by done. assert (Ea : Z.land (240 + a) 7 = a) by (apply (land_mod 30 a 7 3); done || lia). rewrite Ea.
  rewrite (lor_shift c d 6) by lia. rewrite (lor_shift b) by lia. rewrite lor_shift by lia. f_equal. lia.
Qed.

(** The same bytes, encoded. *)
Lemma land63 x : Z.land x 63 = x mod 64.
Proof. apply (Z.land_ones x 6). done. Qed.

Ltac encode_bytes :=
  unfold encode_rune; rewrite !land63, !Z.shiftr_div_pow2 by lia;
  change (2 ^ 6) with 64; change (2 ^ 12) with 4096; change (2 ^ 18) with 262144;
  repeat match goal with |- context [if ?b then _ else _] =>
    first [replace b with true by (symmetry; unfold surrogate; bool_norm; lia)
          |replace b with false by (symmetry; unfold surrogate in *; bool_norm; lia)] end;
  unfold bytes, str1; cbn [foldr]; repeat f_equal; Z.to_euclidean_division_equations; lia.

Lemma encode_two a b : 2 <= a < 32 -> 0 <= b < 64 ->
  encode_rune (a * 64 + b) = String (chr (192 + a)) (str1 (chr (128 + b))).
Proof. intros Ha Hb. encode_bytes. Qed.
Lemma encode_three a b c : 0 <= a < 16 -> 0 <= b < 64 -> 0 <= c < 64 -> 2048 <= a * 4096 + b * 64 + c ->
  surrogate (a * 4096 + b * 64 + c) = false ->
  encode_rune (a * 4096 + b * 64 + c) = String (chr (224 + a)) (String (chr (128 + b)) (str1 (chr (128 + c)))).
Proof.
  intros Ha Hb Hc Hlo Hs. unfold encode_rune. rewrite Hs. unfold surrogate in Hs. encode_bytes.
Qed.
Lemma encode_four a b c d : 0 <= a < 5 -> 0 <= b < 64 -> 0 <= c < 64 -> 0 <= d < 64 ->
  65536 <= a * 262144 + b * 4096 + c * 64 + d <= 1114111 ->
  encode_rune (a * 262144 + b * 4096 + c * 64 + d) =
  String (chr (240 + a)) (String (chr (128 + b)) (String (chr (128 + c)) (str1 (chr (128 + d))))).
Proof. intros Ha Hb Hc Hd Hr. encode_bytes. Qed.

Lemma decode_encode r t : scalar r = true -> decode_runes (encode_rune r +:+ t) = r :: decode_runes t.
Proof.
  unfold scalar. intros Hr. bool_norm. destruct Hr as [[H0 H1] Hs]. unfold encode_rune.
  rewrite (proj2 (Z.ltb_ge r 0)), (proj2 (Z.ltb_ge 1114111 r)), Hs by lia. cbn [orb].
  assert (Hm : forall x, Z.land x 63 = x mod 64) by (intros x; apply (Z.land_ones x 6); done).
  rewrite !Hm, !Z.shiftr_div_pow2 by lia. change (2 ^ 6) with 64. change (2 ^ 12) with 4096. change (2 ^ 18) with 262144.
  unfold bytes. destruct (Z.ltb_spec r 128); [|destruct (Z.ltb_spec r 2048); [|destruct (Z.ltb_spec r 65536)]]; cbn [foldr String.append].
  - simpl. rewrite byte_of_chr, Z.mod_small by lia. by rewrite (proj2 (Z.ltb_lt r 128)).
  - rewrite rune_two by (Z.to_euclidean_division_equations; lia). f_equal. Z.to_euclidean_division_equations. lia.
  - assert (Hsum : r / 4096 * 4096 + r / 64 mod 64 * 64 + r mod 64 = r) by (Z.to_euclidean_division_equations; lia).
    rewrite rune_three; rewrite ?Hsum; try done; Z.to_euclidean_division_equations; lia.
  - assert (Hsum : r / 262144 * 262144 + r / 4096 mod 64 * 4096 + r / 64 mod 64 * 64 + r mod 64 = r)
      by (Z.to_euclidean_division_equations; lia).
    rewrite rune_four; rewrite ?Hsum; try done; Z.to_euclidean_division_equations; lia.
Qed.

(** ** Strings *)

Lemma decode_rune_encode r t : scalar r = true -> decode_rune (encode_rune r +:+ t) = Some r.
Proof.
  intros Hr. unfold decode_rune. rewrite decode_encode by done. destruct (Z.eqb_spec r rune_error) as [->|]; [|done].
  by rewrite has_prefix_app.
Qed.

Lemma coerce_rune r t : scalar r = true -> coerce_utf8 (encode_rune r +:+ t) = encode_rune r +:+ coerce_utf8 t.
Proof. intros Hr. unfold coerce_utf8. by rewrite decode_encode. Qed.

Lemma scalar_ascii c : is_ascii_char c = true -> scalar (byte_of c) = true /\ encode_rune (byte_of c) = str1 c.
Proof.
  rewrite is_ascii_char_lt. intros Hc. pose proof (byte_of_range c) as Hr.
  assert (Hs : surrogate (byte_of c) = false) by (unfold surrogate; bool_norm; lia).
  unfold scalar, encode_rune. rewrite Hs. split; [bool_norm; lia|].
  rewrite (proj2 (Z.ltb_ge _ 0)), (proj2 (Z.ltb_ge 1114111 _)) by lia. cbn [orb]. rewrite (proj2 (Z.ltb_lt _ 128)) by done.
  unfold bytes. simpl. by rewrite chr_byte_of.
Qed.

Lemma coerce_ascii a t : is_ascii a = true -> coerce_utf8 (a +:+ t) = a +:+ coerce_utf8 t.
Proof.
  induction a as [|c a IH]; [done|]. unfold is_ascii. cbn [sall]. intros Ha. bool_norm. destruct Ha as [Hc Ha].
  destruct (scalar_ascii c Hc) as [Hs He]. change (String c a +:+ t) with (str1 c +:+ (a +:+ t)).
  rewrite <- He, coerce_rune, He, IH by done. done.
Qed.

(** What decoding yields is scalar, so a valid string is one of code points. *)
Lemma scalar_range r : 0 <= r <= 1114111 -> ~ 55296 <= r <= 57343 -> scalar r = true.
Proof. intros. unfold scalar, surrogate. apply andb_true_iff. split; [bool_norm; lia|]. apply negb_true_iff. bool_norm. lia. Qed.

Lemma in_range_iff lo hi c : in_range lo hi c = true -> lo <= byte_of c <= hi.
Proof. unfold in_range. intros. bool_norm. lia. Qed.

Lemma second_range_cont b0 c : in_range (second_range b0).1 (second_range b0).2 c = true -> cont c = true.
Proof.
  unfold second_range, cont. repeat case_match; cbn [fst snd]; intros H'%in_range_iff; unfold in_range; bool_norm; lia.
Qed.

(** A byte of a class, and what it carries. *)
Lemma byte_shape k n c : k <= byte_of c < k + n -> exists a, 0 <= a < n /\ c = chr (k + a) /\ byte_of c = k + a.
Proof. intros Hc. exists (byte_of c - k). replace (k + (byte_of c - k)) with (byte_of c) by lia. rewrite chr_byte_of. split; [lia|done]. Qed.
Lemma cont_shape c : cont c = true -> exists b, 0 <= b < 64 /\ c = chr (128 + b) /\ byte_of c = 128 + b.
Proof. intros Hc%in_range_iff. apply byte_shape. lia. Qed.

(** Either a code point stands at the head of a string, or decoding gives up on
    one byte. *)
Lemma decode_cases c s :
  (exists r t, scalar r = true /\ String c s = encode_rune r +:+ t) \/
  decode_runes (String c s) = rune_error :: decode_runes s.
Proof.
  cbn [decode_runes]. destruct (byte_of c <? 128) eqn:E0.
  { left. destruct (scalar_ascii c E0) as [Hs He]. exists (byte_of c), s. by rewrite He. }
  destruct ((194 <=? byte_of c) && (byte_of c <=? 223)) eqn:E2.
  { destruct s as [|c1 s]; [by right|]. destruct (cont c1) eqn:H1; [|by right]. left. bool_norm.
    destruct (byte_shape 192 32 c ltac:(lia)) as (a & Ha & Hc & Hca). destruct (cont_shape c1 H1) as (b & Hb & Hc1 & _).
    exists (a * 64 + b), s. rewrite encode_two, Hc, Hc1 by lia. split; [apply scalar_range; lia|done]. }
  destruct ((224 <=? byte_of c) && (byte_of c <=? 239)) eqn:E3.
  { destruct s as [|c1 [|c2 s]]; [by right..|]. destruct (in_range _ _ c1 && cont c2) eqn:H12; [|by right]. left.
    apply andb_true_iff in H12 as [H1 H2]. bool_norm. pose proof (second_range_cont _ _ H1) as H1'.
    destruct (byte_shape 224 16 c ltac:(lia)) as (a & Ha & Hc & Hca). destruct (cont_shape c1 H1') as (b1 & Hb1 & Hc1 & Hb).
    destruct (cont_shape c2 H2) as (b2 & Hb2 & Hc2 & _).
    apply in_range_iff in H1. rewrite Hca, Hb in H1. unfold second_range in H1.
    assert (Hr : 2048 <= a * 4096 + b1 * 64 + b2 <= 65535 /\ ~ 55296 <= a * 4096 + b1 * 64 + b2 <= 57343).
    { repeat match type of H1 with context [if ?x =? ?y then _ else _] => destruct (Z.eqb_spec x y) end; cbn [fst snd] in H1; lia. }
    exists (a * 4096 + b1 * 64 + b2), s. rewrite encode_three, Hc, Hc1, Hc2; try lia.
    - split; [apply scalar_range; lia|done].
    - unfold surrogate. bool_norm. lia. }
  destruct ((240 <=? byte_of c) && (byte_of c <=? 244)) eqn:E4; [|by right].
  destruct s as [|c1 [|c2 [|c3 s]]]; [by right..|]. destruct (in_range _ _ c1 && cont c2 && cont c3) eqn:H123; [|by right]. left.
  apply andb_true_iff in H123 as [[H1 H2]%andb_true_iff H3]. bool_norm. pose proof (second_range_cont _ _ H1) as H1'.
  destruct (byte_shape 240 5 c ltac:(lia)) as (a & Ha & Hc & Hca). destruct (cont_shape c1 H1') as (b1 & Hb1 & Hc1 & Hb).
  destruct (cont_shape c2 H2) as (b2 & Hb2 & Hc2 & _). destruct (cont_shape c3 H3) as (b3 & Hb3 & Hc3 & _).
  apply in_range_iff in H1. rewrite Hca, Hb in H1. unfold second_range in H1.
  assert (Hr : 65536 <= a * 262144 + b1 * 4096 + b2 * 64 + b3 <= 1114111).
  { repeat match type of H1 with context [if ?x =? ?y then _ else _] => destruct (Z.eqb_spec x y) end; cbn [fst snd] in H1; lia. }
  exists (a * 262144 + b1 * 4096 + b2 * 64 + b3), s. rewrite encode_four, Hc, Hc1, Hc2, Hc3; try lia.
  split; [apply scalar_range; lia|done].
Qed.

Lemma encode_rune_nonempty r : scalar r = true -> exists c a, encode_rune r = String c a.
Proof. intros _. unfold encode_rune, bytes. repeat case_match; cbn [foldr]; eauto. Qed.

(** Induction over a string as decoding reads it. *)
Lemma utf8_ind (P : string -> Prop) :
  P "" ->
  (forall r t, scalar r = true -> P t -> P (encode_rune r +:+ t)) ->
  (forall c s, decode_runes (String c s) = rune_error :: decode_runes s -> P s -> P (String c s)) ->
  forall s, P s.
Proof.
  intros H0 H1 H2 s. remember (slen s) as n eqn:Hn. assert (slen s <= n)%nat as Hle by lia. clear Hn.
  revert s Hle. induction n as [|n IH]; intros [|c s] Hn; cbn [slen] in Hn; try done; [lia|].
  destruct (decode_cases c s) as [(r & t & Hr & E)|E]; [|by apply H2; [|apply IH; lia]].
  destruct (encode_rune_nonempty r Hr) as (d & a & Hd). rewrite E. apply H1; [done|]. apply IH.
  rewrite Hd in E. injection E as _ ->. rewrite slen_app in Hn. lia.
Qed.

Lemma decode_runes_scalar s : forallb scalar (decode_runes s) = true.
Proof.
  induction s as [|r t Hr IH|c s E IH] using utf8_ind; [done| |by rewrite E; cbn [forallb]; rewrite IH].
  rewrite decode_encode by done. cbn [forallb]. by rewrite Hr.
Qed.
