(* ===== verification/Json.v ===== *)
(** * JSON ([encoding/json])

    The part of Go's JSON package that the API runs on: the scanner of a
    [Decoder] reading one value from a request body, the decoding of string
    literals (escapes, surrogate pairs, invalid UTF-8), and the encoder with
    its escaping for HTML.  A number is kept as its text.  The error texts are
    left out: no caller looks at them. *)

From stdpp Require Import base list strings pretty.
From Stdlib Require Import ZArith Lia Ascii.
From S2P Require Import Prelude GoString Utf8.
#[local] Open Scope Z_scope.

#[warnings="-register-all"]
Inductive json : Type :=
| JNull
| JBool (b : bool)
| JNum (text : string)
| JStr (s : string)
| JArr (l : list json)
| JObj (l : list (string * json)).

Definition QUOTE : ascii := chr 34.
Definition BACKSLASH : ascii := chr 92.
Definition is_char (z : Z) (c : ascii) : bool := byte_of c =? z.

(** ** String literals *)

Definition hex_val (c : ascii) : option Z :=
  if is_digit c then Some (byte_of c - 48)
  else if in_range 97 102 c then Some (byte_of c - 87)
  else if in_range 65 70 c then Some (byte_of c - 55)
  else None.
Definition is_hex (c : ascii) : bool := match hex_val c with Some _ => true | None => false end.

(** [getu4] after the [\u] *)
Definition hex4 (a b c d : ascii) : Z :=
  let v x := match hex_val x with Some z => z | None => 0 end in
  v a * 4096 + v b * 256 + v c * 16 + v d.

(** [utf16.DecodeRune] *)
Definition utf16_rune (r1 r2 : Z) : Z :=
  if (55296 <=? r1) && (r1 <? 56320) && (56320 <=? r2) && (r2 <? 57344)
  then (r1 - 55296) * 1024 + (r2 - 56320) + 65536 else rune_error.

(** The byte a one-letter escape stands for. *)
Definition simple_escape (e : ascii) : option ascii :=
  if is_char 98 e then Some (chr 8) else if is_char 102 e then Some (chr 12)
  else if is_char 110 e then Some LF else if is_char 114 e then Some CR else if is_char 116 e then Some TAB
  else if is_char 92 e || is_char 47 e || is_char 34 e then Some e else None.

(** The scanner inside a literal: the raw text up to the closing quote. *)
Definition prepend (p : string) (r : option (string * string)) : option (string * string) :=
  match r with Some (a, b) => Some (p +:+ a, b) | None => None end.
Fixpoint scan_string (s : string) : option (string * string) :=
  match s with
  | EmptyString => None
  | String c s' =>
      if is_char 34 c then Some ("", s')
      else if byte_of c <? 32 then None
      else if is_char 92 c then
        match s' with
        | String e s'' =>
            if is_char 117 e then
              match s'' with
              | String h1 (String h2 (String h3 (String h4 r))) =>
                  if is_hex h1 && is_hex h2 && is_hex h3 && is_hex h4
                  then prepend (String c (String e (String h1 (String h2 (String h3 (str1 h4)))))) (scan_string r)
                  else None
              | _ => None
              end
            else match simple_escape e with
                 | Some _ => prepend (String c (str1 e)) (scan_string s'')
                 | None => None
                 end
        | EmptyString => None
        end
      else prepend (str1 c) (scan_string s')
  end.

(** [unquoteBytes] on a raw text that is valid UTF-8. *)
Fixpoint unescape (s : string) : string :=
  match s with
  | EmptyString => ""
  | String c s' =>
      if is_char 92 c then
        match s' with
        | String e s'' =>
            if is_char 117 e then
              match s'' with
              | String h1 (String h2 (String h3 (String h4 r))) =>
                  let rr := hex4 h1 h2 h3 h4 in
                  if surrogate rr then
                    match r with
                    | String b (String u (String g1 (String g2 (String g3 (String g4 r'))))) =>
                        if is_char 92 b && is_char 117 u && is_hex g1 && is_hex g2 && is_hex g3 && is_hex g4 then
                          let dec := utf16_rune rr (hex4 g1 g2 g3 g4) in
                          if dec =? rune_error then encode_rune rune_error +:+ unescape r
                          else encode_rune dec +:+ unescape r'
                        else encode_rune rune_error +:+ unescape r
                    | _ => encode_rune rune_error +:+ unescape r
                    end
                  else encode_rune rr +:+ unescape r
              | _ => ""
              end
            else match simple_escape e with
                 | Some x => String x (unescape s'')
                 | None => ""
                 end
        | EmptyString => ""
        end
      else String c (unescape s')
  end.

(** Bytes that are no UTF-8 become U+FFFD.  Escapes are ASCII, so this may be
    done to the whole text first. *)
Definition unquote (raw : string) : string := unescape (coerce_utf8 raw).

(** ** Numbers and white space *)

Definition json_space (c : ascii) : bool := is_char 32 c || is_char 9 c || is_char 10 c || is_char 13 c.
Fixpoint skip_ws (s : string) : string :=
  match s with String c s' => if json_space c then skip_ws s' else s | EmptyString => "" end.

Fixpoint scan_digits (s : string) : string * string :=
  match s with
  | String c s' => if is_digit c then (String c (scan_digits s').1, (scan_digits s').2) else ("", s)
  | EmptyString => ("", "")
  end.

Definition scan_sign (s : string) : string * string :=
  match s with String c s' => if is_char 45 c then (str1 c, s') else ("", s) | _ => ("", s) end.
Definition scan_int (s : string) : option (string * string) :=
  match s with
  | String c s' => if is_char 48 c then Some (str1 c, s')
                   else if is_digit c then Some (String c (scan_digits s').1, (scan_digits s').2) else None
  | EmptyString => None
  end.
Definition scan_frac (s : string) : option (string * string) :=
  match s with
  | String c s' =>
      if is_char 46 c then
        let '(d, r) := scan_digits s' in if is_empty d then None else Some (String c d, r)
      else Some ("", s)
  | EmptyString => Some ("", "")
  end.
Definition scan_exp (s : string) : option (string * string) :=
  match s with
  | String c s' =>
      if is_char 101 c || is_char 69 c then
        let '(sign, s1) := match s' with
                           | String p s'' => if is_char 43 p || is_char 45 p then (str1 p, s'') else ("", s')
                           | EmptyString => ("", "")
                           end in
        let '(d, r) := scan_digits s1 in if is_empty d then None else Some (String c (sign +:+ d), r)
      else Some ("", s)
  | EmptyString => Some ("", "")
  end.
Definition scan_number (s : string) : option (string * string) :=
  let '(sign, s) := scan_sign s in
  match scan_int s with
  | Some (i, s) => match scan_frac s with
                   | Some (f, s) => match scan_exp s with
                                    | Some (e, s) => Some (sign +:+ i +:+ f +:+ e, s)
                                    | None => None
                                    end
                   | None => None
                   end
  | None => None
  end.

(** ** Values

    [maxNestingDepth]; the fuel is the length of the text. *)
Definition max_depth : Z := 10000.

Fixpoint parse_value (n : nat) (depth : Z) (s : string) : option (json * string) :=
  match n, s with
  | S n, String c s' =>
      if is_char 34 c then
        match scan_string s' with Some (raw, r) => Some (JStr (unquote raw), r) | None => None end
      else if is_char 123 c then
        if max_depth <? depth + 1 then None
        else match skip_ws s' with
             | String d r =>
                 if is_char 125 d then Some (JObj [], r)
                 else match parse_members n (depth + 1) (String d r) with
                      | Some (l, r) => Some (JObj l, r)
                      | None => None
                      end
             | EmptyString => None
             end
      else if is_char 91 c then
        if max_depth <? depth + 1 then None
        else match skip_ws s' with
             | String d r =>
                 if is_char 93 d then Some (JArr [], r)
                 else match parse_elements n (depth + 1) (String d r) with
                      | Some (l, r) => Some (JArr l, r)
                      | None => None
                      end
             | EmptyString => None
             end
      else if has_prefix s "null" then Some (JNull, sdrop 4 s)
      else if has_prefix s "true" then Some (JBool true, sdrop 4 s)
      else if has_prefix s "false" then Some (JBool false, sdrop 5 s)
      else match scan_number s with Some (t, r) => Some (JNum t, r) | None => None end
  | _, _ => None
  end
with parse_members (n : nat) (depth : Z) (s : string) : option (list (string * json) * string) :=
  match n, s with
  | S n, String c s' =>
      if negb (is_char 34 c) then None
      else match scan_string s' with
      | None => None
      | Some (raw, r) =>
      match skip_ws r with
      | String d r =>
          if negb (is_char 58 d) then None
          else match parse_value n depth (skip_ws r) with
          | None => None
          | Some (v, r) =>
          match skip_ws r with
          | String d r =>
              if is_char 125 d then Some ([(unquote raw, v)], r)
              else if is_char 44 d then
                match parse_members n depth (skip_ws r) with
                | Some (l, r) => Some ((unquote raw, v) :: l, r)
                | None => None
                end
              else None
          | EmptyString => None
          end end
      | EmptyString => None
      end end
  | _, _ => None
  end
with parse_elements (n : nat) (depth : Z) (s : string) : option (list json * string) :=
  match n with
  | S n =>
      match parse_value n depth s with
      | None => None
      | Some (v, r) =>
      match skip_ws r with
      | String d r =>
          if is_char 93 d then Some ([v], r)
          else if is_char 44 d then
            match parse_elements n depth (skip_ws r) with
            | Some (l, r) => Some (v :: l, r)
            | None => None
            end
          else None
      | EmptyString => None
      end end
  | O => None
  end.

(** The fuel: every call consumes at least one byte, but for the first call of
    [parse_value] in [parse_elements]. *)
Definition parse_json (s : string) : option (json * string) := parse_value (S (2 * slen s)) 0 (skip_ws s).

(** ** The encoder *)

Definition hex_lower (z : Z) : ascii := if z <? 10 then chr (48 + z) else chr (87 + z).

(** [appendString], the bytes below 128 and U+2028, U+2029. *)
Definition quote_rune (r : Z) : string :=
  let esc z := String BACKSLASH (str1 (chr z)) in
  if r =? 34 then esc 34 else if r =? 92 then esc 92
  else if r =? 8 then esc 98 else if r =? 12 then esc 102
  else if r =? 10 then esc 110 else if r =? 13 then esc 114 else if r =? 9 then esc 116
  else if (r <? 32) || (r =? 60) || (r =? 62) || (r =? 38) then
    String BACKSLASH ("u00" +:+ String (hex_lower (r / 16)) (str1 (hex_lower (r mod 16))))
  else if (r =? 8232) || (r =? 8233) then String BACKSLASH ("u202" +:+ str1 (hex_lower (r mod 16)))
  else encode_rune r.

(** [skip] bytes belong to a code point that has been written. *)
Fixpoint quote_bytes (skip : nat) (s : string) : string :=
  match s with
  | EmptyString => ""
  | String c s' =>
      match skip with
      | S k => quote_bytes k s'
      | O => match decode_rune s with
             | Some r => quote_rune r +:+ quote_bytes (slen (encode_rune r) - 1) s'
             | None => String BACKSLASH "ufffd" +:+ quote_bytes 0 s'
             end
      end
  end.

Definition print_string (s : string) : string := String QUOTE (quote_bytes 0 s +:+ str1 QUOTE).

Fixpoint print_json (v : json) : string :=
  match v with
  | JNull => "null"
  | JBool true => "true"
  | JBool false => "false"
  | JNum t => t
  | JStr s => print_string s
  | JArr l => String (chr 91) (join (map print_json l) "," +:+ str1 (chr 93))
  | JObj l => String (chr 123) (join (map (fun kv => print_string kv.1 +:+ ":" +:+ print_json kv.2) l) ","
                                  +:+ str1 (chr 125))
  end.

(** ** String literals, written and read *)

Lemma prepend_app a b r : prepend a (prepend b r) = prepend (a +:+ b) r.
Proof. destruct r as [[x y]|]; [|done]. simpl. by rewrite sapp_assoc. Qed.

(** The 128 ASCII code points, one by one. *)
Lemma ascii_cases (P : Z -> Prop) : Forall P (seqZ 0 128) -> forall r, 0 <= r < 128 -> P r.
Proof. intros HP r Hr. rewrite Forall_forall in HP. apply HP, elem_of_seqZ. lia. Qed.

Definition high (c : ascii) : bool := 128 <=? byte_of c.

Lemma encode_rune_high r : 128 <= r -> scalar r = true -> sall high (encode_rune r) = true.
Proof.
  intros Hr Hs. unfold scalar in Hs. apply andb_true_iff in Hs as [Hs Hsur%negb_true_iff]. bool_norm.
  unfold encode_rune. rewrite Hsur, (proj2 (Z.ltb_ge r 0)), (proj2 (Z.ltb_ge 1114111 r)) by lia. cbn [orb].
  rewrite !land63, !Z.shiftr_div_pow2 by lia. unfold bytes, high.
  change (2 ^ 6) with 64. change (2 ^ 12) with 4096. change (2 ^ 18) with 262144.
  repeat case_match; bool_norm; try lia; cbn [foldr sall]; rewrite !byte_of_chr; rewrite !(Z.mod_small _ 256);
    rewrite ?andb_true_iff; bool_norm; repeat split; try done; Z.to_euclidean_division_equations; lia.
Qed.

Lemma high_plain c : high c = true ->
  is_char 34 c = false /\ is_char 92 c = false /\ (byte_of c <? 32) = false.
Proof. unfold high, is_char. intros. bool_norm. lia. Qed.

Lemma scan_high a t : sall high a = true -> scan_string (a +:+ t) = prepend a (scan_string t).
Proof.
  induction a as [|c a IH]; [intros _; simpl; by destruct (scan_string t) as [[]|]|].
  cbn [sall]. rewrite andb_true_iff. intros [Hc Ha]. destruct (high_plain c Hc) as (H1 & H2 & H3).
  cbn [String.append scan_string]. rewrite H1, H2, H3, IH by done. by rewrite prepend_app.
Qed.
Lemma unescape_high a t : sall high a = true -> unescape (a +:+ t) = a +:+ unescape t.
Proof.
  induction a as [|c a IH]; [done|].
  cbn [sall]. rewrite andb_true_iff. intros [Hc Ha]. destruct (high_plain c Hc) as (H1 & H2 & H3).
  cbn [String.append unescape]. by rewrite H2, IH.
Qed.

(** What the encoder writes for one code point. *)
Lemma quote_rune_high r : 128 <= r -> r <> 8232 -> r <> 8233 -> quote_rune r = encode_rune r.
Proof.
  intros H0 H1 H2. unfold quote_rune.
  repeat match goal with |- context [if ?b then _ else _] => replace b with false by (symmetry; bool_norm; lia) end. done.
Qed.

Lemma quote_rune_cases (P : Z -> Prop) :
  Forall P (seqZ 0 128) -> P 8232 -> P 8233 ->
  (forall r, scalar r = true -> quote_rune r = encode_rune r -> sall high (encode_rune r) = true -> P r) ->
  forall r, scalar r = true -> P r.
Proof.
  intros Ha H1 H2 Hh r Hr. pose proof Hr as Hs. unfold scalar in Hs. apply andb_true_iff in Hs as [Hs _]. bool_norm.
  destruct (Z.lt_ge_cases r 128); [by apply ascii_cases; [|lia]|].
  destruct (decide (r = 8232)) as [->|]; [done|]. destruct (decide (r = 8233)) as [->|]; [done|].
  apply Hh; [done|by apply quote_rune_high|by apply encode_rune_high].
Qed.

Lemma scan_quote_rune t : forall r, scalar r = true -> scan_string (quote_rune r +:+ t) = prepend (quote_rune r) (scan_string t).
Proof.
  apply quote_rune_cases; [|done|done|by intros r _ -> Hh; apply scan_high].
  unfold seqZ. repeat (constructor; [reflexivity|]). constructor.
Qed.
Lemma unescape_quote_rune t : forall r, scalar r = true -> unescape (quote_rune r +:+ t) = encode_rune r +:+ unescape t.
Proof.
  apply quote_rune_cases; [|done|done|by intros r _ -> Hh; apply unescape_high].
  unfold seqZ. repeat (constructor; [reflexivity|]). constructor.
Qed.
Lemma coerce_quote_rune t r : scalar r = true -> coerce_utf8 (quote_rune r +:+ t) = quote_rune r +:+ coerce_utf8 t.
Proof.
  intros Hr. revert r Hr. apply (quote_rune_cases (fun r => coerce_utf8 (quote_rune r +:+ t) = quote_rune r +:+ coerce_utf8 t)).
  - rewrite Forall_forall. intros r Hr%elem_of_seqZ. apply coerce_ascii.
    revert r Hr. apply ascii_cases. unfold seqZ. repeat (constructor; [reflexivity|]). constructor.
  - by apply coerce_ascii.
  - by apply coerce_ascii.
  - intros r Hr -> _. by apply coerce_rune.
Qed.

Lemma quote_bytes_skip a t : quote_bytes (slen a) (a +:+ t) = quote_bytes 0 t.
Proof. induction a as [|c a IH]; [done|]. apply IH. Qed.
Lemma quote_bytes_rune r t : scalar r = true -> quote_bytes 0 (encode_rune r +:+ t) = quote_rune r +:+ quote_bytes 0 t.
Proof.
  intros Hr. pose proof (decode_rune_encode r t Hr) as Hd. destruct (encode_rune_nonempty r Hr) as (c & a & E).
  rewrite E in *. change (String c a +:+ t) with (String c (a +:+ t)) in *. cbn [quote_bytes]. rewrite Hd, E.
  cbn [slen]. rewrite Nat.sub_succ, Nat.sub_0_r. by rewrite quote_bytes_skip.
Qed.

(** The replacement of a broken byte reads as U+FFFD, written or escaped. *)
Lemma scan_replacement t :
  scan_string (String BACKSLASH "ufffd" +:+ t) = prepend (String BACKSLASH "ufffd") (scan_string t).
Proof. reflexivity. Qed.
Lemma unescape_replacement t : unescape (String BACKSLASH "ufffd" +:+ t) = encode_rune rune_error +:+ unescape t.
Proof. reflexivity. Qed.

Lemma broken_head c s : decode_runes (String c s) = rune_error :: decode_runes s -> decode_rune (String c s) = None.
Proof.
  intros E. unfold decode_rune. rewrite E, Z.eqb_refl. cbn [andb].
  destruct (has_prefix _ _) eqn:Hp; [|done]. exfalso. apply has_prefix_spec in Hp as [t Ht].
  pose proof (decode_encode rune_error t eq_refl) as E'. rewrite <- Ht, E in E'. injection E' as E'.
  assert (Hs : s = String (chr 191) (String (chr 189) t)) by (by injection Ht).
  apply (f_equal length) in E'. rewrite Hs in E'. cbn -[decode_runes] in E'.
  change (decode_runes (String (chr 191) (String (chr 189) t))) with (rune_error :: rune_error :: decode_runes t) in E'.
  cbn [length] in E'. lia.
Qed.

(** A string written by the encoder is read back by the scanner, up to the
    closing quote and no further, and is the string itself when it is valid
    UTF-8; otherwise each byte that is not is U+FFFD. *)
Lemma scan_print_string s rest :
  exists raw, scan_string (quote_bytes 0 s +:+ String QUOTE rest) = Some (raw, rest) /\ unquote raw = coerce_utf8 s.
Proof.
  assert (H : exists raw, scan_string (quote_bytes 0 s +:+ String QUOTE rest) = Some (raw, rest) /\
            coerce_utf8 raw = raw /\ unescape raw = coerce_utf8 s).
  { induction s as [|r t Hr IH|c s E IH] using utf8_ind.
    - by exists "".
    - destruct IH as (raw & Hs & Hc & Hu). exists (quote_rune r +:+ raw).
      rewrite quote_bytes_rune, sapp_assoc, scan_quote_rune, Hs, coerce_quote_rune, Hc, unescape_quote_rune, Hu, coerce_rune by done.
      done.
    - pose proof (broken_head c s E) as Hd. destruct IH as (raw & Hs & Hc & Hu). exists (String BACKSLASH "ufffd" +:+ raw).
      cbn [quote_bytes]. rewrite Hd, sapp_assoc, scan_replacement, Hs, coerce_ascii, Hc, unescape_replacement, Hu by done.
      unfold coerce_utf8. by rewrite E. }
  destruct H as (raw & Hs & Hc & Hu). exists raw. unfold unquote. by rewrite Hc.
Qed.

(** ** Numbers, written and read *)

(** What may follow a number without being read as part of it. *)
Definition ends_number (rest : string) : Prop :=
  match rest with
  | String c _ => is_digit c = false /\ is_char 46 c = false /\ is_char 101 c = false /\ is_char 69 c = false
  | EmptyString => True
  end.

(** A text that a scanner took stays taken when more text follows. *)
Definition extends (f : string -> option (string * string)) : Prop :=
  forall s a b rest, f s = Some (a, b) -> (b = "" -> ends_number rest) -> f (s +:+ rest) = Some (a, b +:+ rest).

Lemma scan_digits_more s rest : ((scan_digits s).2 = "" -> ends_number rest) ->
  scan_digits (s +:+ rest) = ((scan_digits s).1, (scan_digits s).2 +:+ rest).
Proof.
  induction s as [|c s IH]; cbn [String.append scan_digits]; intros H.
  - destruct rest as [|d rest]; [done|]. destruct (H eq_refl) as [Hd _]. cbn [scan_digits]. by rewrite Hd.
  - destruct (is_digit c); [|done]. cbn [fst snd] in *. by rewrite IH.
Qed.

Lemma scan_int_extends : extends scan_int.
Proof.
  intros [|c s] a b rest; [done|]. cbn [scan_int String.append]. destruct (is_char 48 c); [by intros [= <- <-]|].
  destruct (is_digit c); [|done]. intros [= <- <-] Hb. by rewrite scan_digits_more.
Qed.
Lemma scan_frac_extends : extends scan_frac.
Proof.
  intros [|c s] a b rest; cbn [scan_frac String.append].
  - intros [= <- <-] Hb. destruct rest as [|d rest]; [done|]. destruct (Hb eq_refl) as (_ & Hd & _). cbn [scan_frac]. by rewrite Hd.
  - destruct (is_char 46 c); [|by intros [= <- <-]]. rewrite (surjective_pairing (scan_digits s)).
    destruct (is_empty (scan_digits s).1) eqn:E; [done|]. intros [= <- <-] Hb. by rewrite scan_digits_more, E.
Qed.
Lemma scan_exp_extends : extends scan_exp.
Proof.
  intros [|c s] a b rest; cbn [scan_exp String.append].
  - intros [= <- <-] Hb. destruct rest as [|d rest]; [done|]. destruct (Hb eq_refl) as (_ & _ & H1 & H2). cbn [scan_exp]. by rewrite H1, H2.
  - destruct (is_char 101 c || is_char 69 c); [|by intros [= <- <-]]. destruct s as [|p s]; [done|].
    cbn [String.append]. destruct (is_char 43 p || is_char 45 p).
    + rewrite (surjective_pairing (scan_digits s)).
      destruct (is_empty (scan_digits s).1) eqn:E; [done|]. intros [= <- <-] Hb. by rewrite scan_digits_more, E.
    + change (String p (s +:+ rest)) with (String p s +:+ rest). rewrite (surjective_pairing (scan_digits (String p s))).
      destruct (is_empty (scan_digits (String p s)).1) eqn:E; [done|]. intros [= <- <-] Hb. by rewrite scan_digits_more, E.
Qed.
Lemma scan_number_extends : extends scan_number.
Proof.
  intros s a b rest. unfold scan_number.
  assert (Hsign : scan_sign s = ("", s) \/ exists c t, s = String c t /\ is_char 45 c = true).
  { destruct s as [|c t]; [by left|]. cbn [scan_sign]. destruct (is_char 45 c) eqn:E; [right; eauto|by left]. }
  assert (Hmore : s <> "" -> scan_sign (s +:+ rest) = ((scan_sign s).1, (scan_sign s).2 +:+ rest)).
  { destruct s as [|c t]; [done|]. intros _. cbn [scan_sign String.append]. by destruct (is_char 45 c). }
  destruct (decide (s = "")) as [->|Hne]; [done|]. rewrite (Hmore Hne), (surjective_pairing (scan_sign s)). cbn [fst snd].
  destruct (scan_int (scan_sign s).2) as [[i s1]|] eqn:Ei; [|done].
  destruct (scan_frac s1) as [[f s2]|] eqn:Ef; [|done]. destruct (scan_exp s2) as [[e s3]|] eqn:Ee; [|done].
  intros [= <- <-] Hb.
  assert (H2 : s2 = "" -> ends_number rest).
  { intros ->. apply Hb. cbn in Ee. by injection Ee as _ <-. }
  assert (H1 : s1 = "" -> ends_number rest).
  { intros ->. apply H2. cbn in Ef. by injection Ef as _ <-. }
  by rewrite (scan_int_extends _ _ _ _ Ei H1), (scan_frac_extends _ _ _ _ Ef H2), (scan_exp_extends _ _ _ _ Ee Hb).
Qed.

Definition number_text (t : string) : Prop := scan_number t = Some (t, "") .

Lemma scan_number_text t rest : number_text t -> ends_number rest -> scan_number (t +:+ rest) = Some (t, rest).
Proof. intros Ht Hr. by apply (scan_number_extends _ _ _ _ Ht). Qed.

(** ** Values, written and read *)

(** Brackets and braces around a value. *)
Fixpoint json_depth (v : json) : Z :=
  match v with
  | JArr l => 1 + foldr (fun v d => Z.max (json_depth v) d) 0 l
  | JObj l => 1 + foldr (fun kv d => Z.max (json_depth kv.2) d) 0 l
  | _ => 0
  end.

(** The number texts of a value are numbers. *)
Fixpoint numbers_ok (v : json) : Prop :=
  match v with
  | JNum t => number_text t
  | JArr l => foldr (fun v P => numbers_ok v /\ P) True l
  | JObj l => foldr (fun kv P => numbers_ok kv.2 /\ P) True l
  | _ => True
  end.

(** The strings of a value made valid UTF-8. *)
Fixpoint clean (v : json) : json :=
  match v with
  | JStr s => JStr (coerce_utf8 s)
  | JArr l => JArr (map clean l)
  | JObj l => JObj (map (fun kv => (coerce_utf8 kv.1, clean kv.2)) l)
  | v => v
  end.

Section JsonInd.
Context (P : json -> Prop) (Hnull : P JNull) (Hbool : forall b, P (JBool b)) (Hnum : forall t, P (JNum t))
  (Hstr : forall s, P (JStr s)) (Harr : forall l, Forall P l -> P (JArr l))
  (Hobj : forall l, Forall (fun kv : string * json => P kv.2) l -> P (JObj l)).

Fixpoint json_nested (v : json) : P v :=
  match v with
  | JNull => Hnull
  | JBool b => Hbool b
  | JNum t => Hnum t
  | JStr s => Hstr s
  | JArr l => Harr l ((fix go l : Forall P l :=
                         match l with [] => Forall_nil_2 P | v :: l => Forall_cons_2 P v l (json_nested v) (go l) end) l)
  | JObj l => Hobj l ((fix go l : Forall (fun kv : string * json => P kv.2) l :=
                         match l with
                         | [] => Forall_nil_2 _
                         | kv :: l => Forall_cons_2 (fun kv : string * json => P kv.2) kv l (json_nested kv.2) (go l)
                         end) l)
  end.
End JsonInd.

(** The first byte of a number. *)
Lemma number_head t : number_text t -> exists c s, t = String c s /\ (byte_of c = 45 \/ 48 <= byte_of c <= 57).
Proof.
  unfold number_text, scan_number. destruct t as [|c s]; [done|]. intros H. exists c, s. split; [done|].
  cbn [scan_sign] in H. destruct (is_char 45 c) eqn:E; [left; unfold is_char in E; bool_norm; lia|]. right.
  cbn [scan_int] in H. unfold is_char in *. destruct (byte_of c =? 48) eqn:E0; [bool_norm; lia|].
  destruct (is_digit c) eqn:Ed; [|done]. unfold is_digit, in_range in Ed. bool_norm. lia.
Qed.

Lemma byte_neq c d : byte_of c <> byte_of d -> c <> d.
Proof. congruence. Qed.

(** A printed value starts with no white space and no closing bracket. *)
Lemma print_json_head v : numbers_ok v ->
  exists c t, print_json v = String c t /\ json_space c = false /\ is_char 93 c = false.
Proof.
  destruct v as [|[]|t|s|l|l]; cbn [print_json numbers_ok]; try (intros _; eexists _, _; split; [done|split; reflexivity]).
  intros Ht. destruct (number_head t Ht) as (c & s & -> & Hc). exists c, s. split; [done|].
  unfold json_space, is_char. bool_norm. lia.
Qed.
Lemma skip_printed v rest : numbers_ok v -> skip_ws (print_json v +:+ rest) = print_json v +:+ rest.
Proof. intros Hv. destruct (print_json_head v Hv) as (c & t & -> & Hc & _). cbn [String.append skip_ws]. by rewrite Hc. Qed.
Lemma printed_length v : numbers_ok v -> (1 <= slen (print_json v))%nat.
Proof. intros Hv. destruct (print_json_head v Hv) as (c & t & -> & _). cbn [slen]. lia. Qed.

Definition ends_value (v : json) (rest : string) : Prop := match v with JNum _ => ends_number rest | _ => True end.

Definition reads_back (v : json) : Prop := forall n d rest,
  numbers_ok v -> (2 * slen (print_json v) <= n)%nat -> d + json_depth v <= max_depth -> ends_value v rest ->
  parse_value n d (print_json v +:+ rest) = Some (clean v, rest).

Lemma ends_value_comma v c rest : byte_of c = 44 \/ byte_of c = 93 \/ byte_of c = 125 -> ends_value v (String c rest).
Proof. intros Hc. destruct v; [done..| |done|done|done]. unfold ends_value, ends_number, is_digit, in_range, is_char. bool_norm. lia. Qed.

Lemma parse_print_elements l : Forall reads_back l -> l <> [] ->
  forall n d rest, foldr (fun v P => numbers_ok v /\ P) True l ->
  (2 * slen (join (map print_json l) ",") + 1 <= n)%nat -> d + foldr (fun v d => Z.max (json_depth v) d) 0 l <= max_depth ->
  parse_elements n d (join (map print_json l) "," +:+ String (chr 93) rest) = Some (map clean l, rest).
Proof.
  induction 1 as [|v l Hv Hl IH]; [done|]. intros _ [|n] d rest; [lia|]. cbn [foldr map]. intros [Hn Hns] Hfuel Hd.
  destruct l as [|w l].
  - cbn [join map foldr] in *. cbn [parse_elements]. rewrite Hv; [|done|lia|lia|apply ends_value_comma; by right; left]. done.
  - pose proof (printed_length v Hn). change (join (print_json v :: map print_json (w :: l)) ",")
      with (print_json v +:+ "," +:+ join (map print_json (w :: l)) ",") in *.
    rewrite !slen_app in Hfuel. cbn [slen] in Hfuel. rewrite !sapp_assoc. cbn [parse_elements].
    rewrite Hv; [|done|lia|lia|apply ends_value_comma; by left].
    cbn [String.append skip_ws]. change (json_space ",") with false. cbn match. change (is_char 93 ",") with false.
    change (is_char 44 ",") with true. cbn match.
    assert (Hw : skip_ws (join (map print_json (w :: l)) "," +:+ String (chr 93) rest) = join (map print_json (w :: l)) "," +:+ String (chr 93) rest).
    { destruct Hns as [Hnw _]. destruct l; cbn [map join]; rewrite ?sapp_assoc; by apply skip_printed. }
    rewrite Hw, IH; [done|done|done|lia|lia].
Qed.

Definition print_member (kv : string * json) : string := print_string kv.1 +:+ ":" +:+ print_json kv.2.

Lemma parse_print_members l : Forall (fun kv => reads_back kv.2) l -> l <> [] ->
  forall n d rest, foldr (fun (kv : string * json) P => numbers_ok kv.2 /\ P) True l ->
  (2 * slen (join (map print_member l) ",") + 1 <= n)%nat ->
  d + foldr (fun (kv : string * json) d => Z.max (json_depth kv.2) d) 0 l <= max_depth ->
  parse_members n d (join (map print_member l) "," +:+ String (chr 125) rest) =
  Some (map (fun kv => (coerce_utf8 kv.1, clean kv.2)) l, rest).
Proof.
  induction 1 as [|[k v] l Hv Hl IH]; [done|]. intros _ [|n] d rest; [lia|]. cbn [foldr map fst snd] in *. intros [Hn Hns] Hfuel Hd.
  assert (Hstart : forall t, exists raw,
    parse_members (S n) d (print_member (k, v) +:+ t) =
      match parse_value n d (print_json v +:+ t) with
      | None => None
      | Some (v, r) =>
        match skip_ws r with
        | String c r =>
            if is_char 125 c then Some ([(unquote raw, v)], r)
            else if is_char 44 c then
              match parse_members n d (skip_ws r) with Some (l, r) => Some ((unquote raw, v) :: l, r) | None => None end
            else None
        | EmptyString => None
        end
      end /\ unquote raw = coerce_utf8 k).
  { intros t. destruct (scan_print_string k (String ":" (print_json v +:+ t))) as (raw & Hs & Hu). exists raw. split; [|done].
    unfold print_member, print_string. cbn [fst snd]. rewrite !sapp_assoc. cbn [String.append parse_members].
    change (is_char 34 QUOTE) with true. cbn [negb]. rewrite !sapp_assoc in *. cbn [String.append str1] in *. rewrite Hs.
    cbn [skip_ws]. change (json_space ":") with false. cbn match. change (is_char 58 ":") with true. cbn [negb].
    by rewrite skip_printed. }
  destruct l as [|w l].
  - cbn [join map foldr] in *. destruct (Hstart (String (chr 125) rest)) as (raw & -> & Hu).
    unfold print_member in Hfuel. cbn [fst snd] in Hfuel. rewrite !slen_app in Hfuel.
    rewrite Hv; [|done|lia|lia|apply ends_value_comma; by right; right]. cbn. by rewrite Hu.
  - change (join (print_member (k, v) :: map print_member (w :: l)) ",")
      with (print_member (k, v) +:+ "," +:+ join (map print_member (w :: l)) ",") in *.
    rewrite !slen_app in Hfuel. cbn [slen] in Hfuel. rewrite !sapp_assoc.
    destruct (Hstart ("," +:+ join (map print_member (w :: l)) "," +:+ String (chr 125) rest)) as (raw & -> & Hu).
    assert (slen (print_json v) <= slen (print_member (k, v)))%nat
      by (unfold print_member; cbn [fst snd]; rewrite !slen_app; lia).
    pose proof (printed_length v Hn).
    rewrite Hv; [|done|lia|lia|apply ends_value_comma; by left].
    cbn [String.append skip_ws]. change (json_space ",") with false. cbn match. change (is_char 125 ",") with false.
    change (is_char 44 ",") with true. cbn match.
    assert (Hw : forall t, skip_ws (join (map print_member (w :: l)) "," +:+ t) = join (map print_member (w :: l)) "," +:+ t)
      by (intros t; by destruct l).
    rewrite Hw, IH, Hu; [done|done|done|lia|lia].
Qed.

Lemma reads_back_all v : reads_back v.
Proof.
  induction v as [| | | |l IH|l IH] using json_nested; intros n d rest Hok Hfuel Hd Hrest.
  - destruct n; [cbn in Hfuel; lia|]. by destruct rest.
  - destruct n; [destruct b; cbn in Hfuel; lia|]. by destruct b, rest.
  - pose proof (printed_length _ Hok) as Hlen. cbn [print_json numbers_ok clean] in *. destruct n as [|n]; [lia|].
    destruct (number_head t Hok) as (c & s & Et & Hc). pose proof (scan_number_text t rest Hok Hrest) as Hs. rewrite Et in *.
    change (String c s +:+ rest) with (String c (s +:+ rest)) in *. cbn [parse_value].
    unfold is_char. rewrite !(proj2 (Z.eqb_neq (byte_of c) _)) by lia. rewrite Hs.
    assert (Hp : forall d p, 58 <= byte_of d -> has_prefix (String c (s +:+ rest)) (String d p) = false).
    { intros e p He. cbn [has_prefix]. rewrite bool_decide_false; [done|]. apply byte_neq. lia. }
    by rewrite !Hp by done.
  - destruct n as [|n]; [cbn in Hfuel; lia|]. cbn [print_json clean]. unfold print_string.
    destruct (scan_print_string s rest) as (raw & Hs & Hu). cbn [String.append parse_value]. change (is_char 34 QUOTE) with true.
    cbn match. rewrite sapp_assoc. change (str1 QUOTE +:+ rest) with (String QUOTE rest). by rewrite Hs, Hu.
  - destruct n as [|n]; [cbn in Hfuel; lia|]. cbn [print_json numbers_ok json_depth clean] in *.
    cbn [slen] in Hfuel. rewrite slen_app in Hfuel. cbn [slen] in Hfuel.
    assert (H0 : 0 <= foldr (fun v d => Z.max (json_depth v) d) 0 l) by (clear; induction l; cbn [foldr]; lia).
    cbn [String.append]. rewrite sapp_assoc. cbn [parse_value String.append].
    change (is_char 34 (chr 91)) with false. change (is_char 123 (chr 91)) with false. change (is_char 91 (chr 91)) with true. cbn match.
    rewrite (proj2 (Z.ltb_ge _ _)) by lia. destruct l as [|v l]; [done|].
    destruct (print_json_head v (proj1 Hok)) as (c & u & Ev & Hc & Hb).
    assert (Hw : exists u', join (map print_json (v :: l)) "," +:+ String (chr 93) rest = String c u')
      by (destruct l; cbn [map join]; rewrite Ev; eexists; reflexivity).
    destruct Hw as [u' Hw]. change (str1 (chr 93) +:+ rest) with (String (chr 93) rest). rewrite Hw.
    cbn [skip_ws]. rewrite Hc, Hb, <- Hw.
    by rewrite (parse_print_elements (v :: l) IH ltac:(done) n (d + 1) rest Hok) by lia.
  - destruct n as [|n]; [cbn in Hfuel; lia|]. cbn [print_json numbers_ok json_depth clean] in *.
    change (map (fun kv => print_string kv.1 +:+ ":" +:+ print_json kv.2) l) with (map print_member l) in *.
    cbn [slen] in Hfuel. rewrite slen_app in Hfuel. cbn [slen] in Hfuel.
    assert (H0 : 0 <= foldr (fun (kv : string * json) d => Z.max (json_depth kv.2) d) 0 l) by (clear; induction l; cbn [foldr]; lia).
    cbn [String.append]. rewrite sapp_assoc. cbn [parse_value String.append].
    change (is_char 34 (chr 123)) with false. change (is_char 123 (chr 123)) with true. cbn match.
    rewrite (proj2 (Z.ltb_ge _ _)) by lia. destruct l as [|kv l]; [done|].
    assert (Hw : exists u', join (map print_member (kv :: l)) "," +:+ String (chr 125) rest = String QUOTE u')
      by (destruct l; cbn [map join]; eexists; reflexivity).
    destruct Hw as [u' Hw]. change (str1 (chr 125) +:+ rest) with (String (chr 125) rest).
    rewrite Hw. cbn [skip_ws]. change (json_space QUOTE) with false. cbn match. change (is_char 125 QUOTE) with false. cbn match.
    rewrite <- Hw. by rewrite (parse_print_members (kv :: l) IH ltac:(done) n (d + 1) rest Hok) by lia.
Qed.

(** ** Decimal integers *)

Lemma pretty_head (x : N) s : (0 < x)%N -> exists c t, pretty_N_go x s = String c t /\ 49 <= byte_of c <= 57.
Proof.
  revert s. induction (N.lt_wf_0 x) as [x _ IH]. intros s Hx. rewrite pretty_N_go_step by done.
  destruct (decide (0 < x / 10)%N) as [Hd|Hd]; [apply IH; [apply N.div_lt; [done|done]|done]|].
  assert (Hq : (x / 10 = 0)%N) by (revert Hd; generalize (x / 10)%N; lia). rewrite Hq, pretty_N_go_0.
  assert (Hs : (x < 10)%N) by (by apply N.div_small_iff in Hq). rewrite N.mod_small by done.
  eexists _, _. split; [done|]. assert (exists k, (1 <= k < 10)%nat /\ x = N.of_nat k) as (k & Hk & ->) by (exists (N.to_nat x); lia).
  do 10 (destruct k as [|k]; [first [exfalso; lia | vm_compute; split; discriminate]|]). lia.
Qed.

Lemma scan_digits_all s : sall is_digit s = true -> scan_digits s = (s, "").
Proof.
  induction s as [|c s IH]; [done|]. cbn [sall scan_digits]. rewrite andb_true_iff. intros [Hc Hs]. by rewrite Hc, IH.
Qed.

Lemma positive_text p : scan_int (pretty_N_go (N.pos p) "") = Some (pretty_N_go (N.pos p) "", "") /\
  scan_sign (pretty_N_go (N.pos p) "") = ("", pretty_N_go (N.pos p) "").
Proof.
  destruct (pretty_N_digits (N.pos p) "" eq_refl) as (h & E & Hd & _). rewrite sapp_nil_r in E. rewrite <- E in Hd.
  destruct (pretty_head (N.pos p) "" ltac:(lia)) as (c & t & Ec & Hc). rewrite Ec in *. cbn [sall] in Hd. apply andb_true_iff in Hd as [Hdc Hdt].
  cbn [scan_int scan_sign]. unfold is_char. rewrite !(proj2 (Z.eqb_neq (byte_of c) _)) by lia.
  by rewrite Hdc, scan_digits_all.
Qed.

Lemma fmt_d_number n : number_text (fmt_d n).
Proof.
  unfold number_text, scan_number, fmt_d. destruct n as [|p|p]; [reflexivity|..].
  - change (pretty (Z.pos p)) with (pretty_N_go (N.pos p) ""). destruct (positive_text p) as [Hi Hs]. rewrite Hs, Hi. cbn [scan_frac scan_exp]. by rewrite !sapp_nil_r.
  - change (pretty (Z.neg p)) with ("-" +:+ pretty_N_go (N.pos p) ""). destruct (positive_text p) as [Hi Hs].
    cbn [String.append scan_sign]. change (is_char 45 "-") with true. cbn match. rewrite Hi. cbn [scan_frac scan_exp]. by rewrite !sapp_nil_r.
Qed.

(** A printed value is read back from the start of a text, with its strings
    made valid. *)
Lemma parse_print v rest : numbers_ok v -> json_depth v <= max_depth -> ends_value v rest ->
  parse_json (print_json v +:+ rest) = Some (clean v, rest).
Proof.
  intros Hok Hd Hr. unfold parse_json. rewrite skip_printed by done. apply reads_back_all; [done|rewrite slen_app; lia|lia|done].
Qed.

(** ** The fuel of the parser is enough *)

(** What is left after a token is shorter than the text. *)
Lemma prepend_some p r a b : prepend p r = Some (a, b) -> exists a', r = Some (a', b).
Proof. destruct r as [[x y]|]; [|done]. intros [= _ <-]. by exists x. Qed.

Lemma scan_string_rest s : forall a r, scan_string s = Some (a, r) -> (slen r < slen s)%nat.
Proof.
  remember (slen s) as n eqn:En. revert s En. induction n as [n IH] using lt_wf_ind. intros s -> a r.
  destruct s as [|c s]; [done|]. cbn [scan_string]. destruct (is_char 34 c); [intros [= _ <-]; simpl; lia|].
  destruct (byte_of c <? 32); [done|]. destruct (is_char 92 c).
  - destruct s as [|e s]; [done|]. destruct (is_char 117 e).
    + destruct s as [|h1 [|h2 [|h3 [|h4 s]]]]; try done. destruct (is_hex h1 && _ && _ && _); [|done].
      intros [a' Hs]%prepend_some. apply (IH (slen s)) in Hs; simpl; lia.
    + destruct (simple_escape e); [|done]. intros [a' Hs]%prepend_some. apply (IH (slen s)) in Hs; simpl; lia.
  - intros [a' Hs]%prepend_some. apply (IH (slen s)) in Hs; simpl; lia.
Qed.

Lemma skip_ws_le s : (slen (skip_ws s) <= slen s)%nat.
Proof. induction s as [|c s IH]; [done|]. cbn [skip_ws]. destruct (json_space c); simpl; lia. Qed.
Lemma scan_digits_le s : (slen (scan_digits s).2 <= slen s)%nat.
Proof. induction s as [|c s IH]; [done|]. cbn [scan_digits]. destruct (is_digit c); simpl in *; lia. Qed.
Lemma scan_number_rest s t r : scan_number s = Some (t, r) -> (slen r < slen s)%nat.
Proof.
  unfold scan_number. destruct (scan_sign s) as [sign s1] eqn:Es.
  assert (H1 : (slen s1 <= slen s)%nat).
  { unfold scan_sign in Es. destruct s as [|c s]; [by injection Es as _ <-|]. destruct (is_char 45 c); injection Es as _ <-; simpl; lia. }
  destruct (scan_int s1) as [[i s2]|] eqn:Ei; [|done].
  assert (H2 : (slen s2 < slen s1)%nat).
  { unfold scan_int in Ei. destruct s1 as [|c s1]; [done|]. destruct (is_char 48 c); [injection Ei as _ <-; simpl; lia|].
    destruct (is_digit c); [|done]. injection Ei as _ <-. pose proof (scan_digits_le s1). simpl. lia. }
  destruct (scan_frac s2) as [[f s3]|] eqn:Ef; [|done].
  assert (H3 : (slen s3 <= slen s2)%nat).
  { unfold scan_frac in Ef. destruct s2 as [|c s2]; [by injection Ef as _ <-|]. destruct (is_char 46 c); [|injection Ef as _ <-; simpl; lia].
    pose proof (scan_digits_le s2). destruct (scan_digits s2) as [d r']. destruct (is_empty d); [done|]. injection Ef as _ <-. simpl in *. lia. }
  destruct (scan_exp s3) as [[e s4]|] eqn:Ee; [|done].
  assert (H4 : (slen s4 <= slen s3)%nat).
  { unfold scan_exp in Ee. destruct s3 as [|c s3]; [by injection Ee as _ <-|]. destruct (is_char 101 c || is_char 69 c); [|injection Ee as _ <-; simpl; lia].
    destruct s3 as [|p s3]; [done|]. destruct (is_char 43 p || is_char 45 p).
    - pose proof (scan_digits_le s3). destruct (scan_digits s3) as [d r']. destruct (is_empty d); [done|]. injection Ee as _ <-. simpl in *. lia.
    - pose proof (scan_digits_le (String p s3)). destruct (scan_digits (String p s3)) as [d r']. destruct (is_empty d); [done|]. injection Ee as _ <-. simpl in *. lia. }
  intros [= _ <-]. lia.
Qed.

Lemma parse_rest n :
  (forall d s v r, parse_value n d s = Some (v, r) -> (slen r < slen s)%nat) /\
  (forall d s l r, parse_members n d s = Some (l, r) -> (slen r < slen s)%nat) /\
  (forall d s l r, parse_elements n d s = Some (l, r) -> (slen r < slen s)%nat).
Proof.
  induction n as [|n (IHv & IHm & IHe)]; [by repeat split; destruct s|]. repeat split.
  - intros d s v r. destruct s as [|c s]; [done|]. cbn [parse_value]. pose proof (skip_ws_le s) as Hws.
    destruct (is_char 34 c).
    { destruct (scan_string s) as [[raw r']|] eqn:Es; [|done]. intros [= _ <-]. apply scan_string_rest in Es. simpl. lia. }
    destruct (is_char 123 c).
    { destruct (max_depth <? d + 1); [done|]. destruct (skip_ws s) as [|e s1]; [done|]. destruct (is_char 125 e); [intros [= _ <-]; simpl in *; lia|].
      destruct (parse_members n (d + 1) (String e s1)) as [[l r']|] eqn:Em; [|done]. intros [= _ <-]. apply IHm in Em. simpl in *. lia. }
    destruct (is_char 91 c).
    { destruct (max_depth <? d + 1); [done|]. destruct (skip_ws s) as [|e s1]; [done|]. destruct (is_char 93 e); [intros [= _ <-]; simpl in *; lia|].
      destruct (parse_elements n (d + 1) (String e s1)) as [[l r']|] eqn:Em; [|done]. intros [= _ <-]. apply IHe in Em. simpl in *. lia. }
    destruct (has_prefix _ "null"); [destruct s as [|? [|? [|? [|? s]]]]; intros [= _ <-]; simpl; lia|].
    destruct (has_prefix _ "true"); [destruct s as [|? [|? [|? [|? s]]]]; intros [= _ <-]; simpl; lia|].
    destruct (has_prefix _ "false"); [destruct s as [|? [|? [|? [|? s]]]]; intros [= _ <-]; simpl; lia|].
    destruct (scan_number (String c s)) as [[t r']|] eqn:En; [|done]. intros [= _ <-]. by apply scan_number_rest in En.
  - intros d s l r. destruct s as [|c s]; [done|]. cbn [parse_members]. destruct (negb (is_char 34 c)); [done|].
    destruct (scan_string s) as [[raw r1]|] eqn:Es; [|done]. apply scan_string_rest in Es. pose proof (skip_ws_le r1) as W1.
    destruct (skip_ws r1) as [|e r2]; [done|]. destruct (negb (is_char 58 e)); [done|]. pose proof (skip_ws_le r2) as W2.
    destruct (parse_value n d (skip_ws r2)) as [[v r3]|] eqn:Ev; [|done]. apply IHv in Ev. pose proof (skip_ws_le r3) as W3.
    destruct (skip_ws r3) as [|f r4]; [done|]. destruct (is_char 125 f); [intros [= _ <-]; simpl in *; lia|].
    destruct (is_char 44 f); [|done]. pose proof (skip_ws_le r4) as W4.
    destruct (parse_members n d (skip_ws r4)) as [[l' r5]|] eqn:Em; [|done]. apply IHm in Em. intros [= _ <-]. simpl in *. lia.
  - intros d s l r. cbn [parse_elements].
    destruct (parse_value n d s) as [[v r3]|] eqn:Ev; [|done]. apply IHv in Ev. pose proof (skip_ws_le r3) as W3.
    destruct (skip_ws r3) as [|f r4]; [done|]. destruct (is_char 93 f); [intros [= _ <-]; simpl in *; lia|].
    destruct (is_char 44 f); [|done]. pose proof (skip_ws_le r4) as W4.
    destruct (parse_elements n d (skip_ws r4)) as [[l' r5]|] eqn:Em; [|done]. apply IHe in Em. intros [= _ <-]. simpl in *. lia.
Qed.

(** More fuel changes nothing. *)
Lemma parse_fuel n m :
  (forall d s, (2 * slen s < n)%nat -> (2 * slen s < m)%nat -> parse_value n d s = parse_value m d s) /\
  (forall d s, (2 * slen s < n)%nat -> (2 * slen s < m)%nat -> parse_members n d s = parse_members m d s) /\
  (forall d s, (2 * slen s + 1 < n)%nat -> (2 * slen s + 1 < m)%nat -> parse_elements n d s = parse_elements m d s).
Proof.
  revert m. induction n as [|n IH]; intros [|m]; try (repeat split; intros; lia).
  destruct (IH m) as (IHv & IHm & IHe). clear IH. destruct (parse_rest m) as (Rv & _ & _). repeat split.
  - intros d s Hn Hm. destruct s as [|c s]; [done|]. cbn [parse_value]. pose proof (skip_ws_le s) as Hws. simpl in Hn, Hm.
    destruct (is_char 34 c); [done|]. destruct (is_char 123 c).
    { destruct (max_depth <? d + 1); [done|]. destruct (skip_ws s) as [|e s1]; [done|]. destruct (is_char 125 e); [done|].
      rewrite IHm; [done|simpl in *; lia..]. }
    destruct (is_char 91 c); [|done]. destruct (max_depth <? d + 1); [done|]. destruct (skip_ws s) as [|e s1]; [done|].
    destruct (is_char 93 e); [done|]. rewrite IHe; [done|simpl in *; lia..].
  - intros d s Hn Hm. destruct s as [|c s]; [done|]. cbn [parse_members]. simpl in Hn, Hm. destruct (negb (is_char 34 c)); [done|].
    destruct (scan_string s) as [[raw r1]|] eqn:Es; [|done]. apply scan_string_rest in Es. pose proof (skip_ws_le r1) as W1.
    destruct (skip_ws r1) as [|e r2]; [done|]. destruct (negb (is_char 58 e)); [done|]. pose proof (skip_ws_le r2) as W2. simpl in W1.
    rewrite IHv by lia. destruct (parse_value m d (skip_ws r2)) as [[v r3]|] eqn:Ev; [|done]. apply Rv in Ev.
    pose proof (skip_ws_le r3) as W3. destruct (skip_ws r3) as [|f r4]; [done|]. destruct (is_char 125 f); [done|].
    destruct (is_char 44 f); [|done]. pose proof (skip_ws_le r4) as W4. simpl in W3. by rewrite IHm by lia.
  - intros d s Hn Hm. cbn [parse_elements]. rewrite IHv by lia.
    destruct (parse_value m d s) as [[v r3]|] eqn:Ev; [|done]. apply Rv in Ev.
    pose proof (skip_ws_le r3) as W3. destruct (skip_ws r3) as [|f r4]; [done|]. destruct (is_char 93 f); [done|].
    destruct (is_char 44 f); [|done]. pose proof (skip_ws_le r4) as W4. simpl in W3. by rewrite IHe by lia.
Qed.

Lemma parse_json_fuel n s : (2 * slen (skip_ws s) < n)%nat -> parse_json s = parse_value n 0 (skip_ws s).
Proof. intros Hn. unfold parse_json. apply parse_fuel; [pose proof (skip_ws_le s); lia|done]. Qed.
