(* ===== verification/GoFloat.v ===== *)
(** * Go's float64

    IEEE 754 double precision with round to nearest even: the [SpecFloat]
    operations at 53 bits and maximal exponent 1024, which evaluate in the
    kernel. *)

From stdpp Require Import base list.
From Stdlib Require Import ZArith Lia SpecFloat.
From S2P Require Import Prelude.
#[local] Open Scope Z_scope.

Definition float64 : Type := spec_float.
#[export] Instance spec_float_eq_dec : EqDecision spec_float.
Proof. solve_decision. Defined.
Definition prec : Z := 53.
Definition emax : Z := 1024.
Definition float_of_int (n : Z) : float64 := binary_normalize prec emax n 0 false.
Definition fadd : float64 -> float64 -> float64 := SFadd prec emax.
Definition fsub : float64 -> float64 -> float64 := SFsub prec emax.
Definition fmul : float64 -> float64 -> float64 := SFmul prec emax.
Definition fdiv : float64 -> float64 -> float64 := SFdiv prec emax.
(** [x > y], [x >= y], [x <= y]; false on NaN. *)
Definition fgt (x y : float64) : bool := SFltb y x.
Definition fge (x y : float64) : bool := SFleb y x.
Definition fle (x y : float64) : bool := SFleb x y.

Definition fzero : float64 := float_of_int 0.
Definition fone : float64 := float_of_int 1.

(** [d.Seconds()] of a [time.Duration]. *)
Definition duration_seconds (d : Z) : float64 :=
  fadd (float_of_int (Z.quot d second)) (fdiv (float_of_int (Z.rem d second)) (float_of_int 1000000000)).


(** [int64(x)] and the like: truncation towards zero; out of range (and for
    NaN) the result is the smallest [int64], as on amd64. *)
Definition int_of_float (x : float64) : Z :=
  match x with
  | S754_zero _ => 0
  | S754_finite s m e =>
      let v := if 0 <=? e then Z.pos m * 2 ^ e else Z.pos m / 2 ^ (- e) in
      let v := if s then - v else v in
      if (int64_min <=? v) && (v <=? int64_max) then v else int64_min
  | _ => int64_min
  end.

Example seconds_half : int_of_float (fmul (duration_seconds 1500000000) (float_of_int 2)) = 3.
Proof. vm_compute. reflexivity. Qed.
