(* ===== verification/GoError.v ===== *)
(** * Go error values

    What Strela looks at in an [error]: its text, whether it is a network
    timeout, whether [errors.As] finds an SMTP reply or an indeterminate
    delivery inside it, and the identity of a few sentinels.  The constructors
    are the kinds of values the code builds or receives. *)

From stdpp Require Import base list strings.
From Stdlib Require Import ZArith Lia.
From S2P Require Import Prelude GoString.
#[local] Open Scope Z_scope.

Inductive error : Type :=
| ErrText (text : string)                      (* errors.New, fmt.Errorf, library errors *)
| ErrNet (text : string) (timeout : bool)      (* a net.Error *)
| ErrDNS (name server err : string) (notFound timeout : bool)   (* a *net.DNSError *)
| ErrSMTP (code : Z) (message text : string)   (* a *smtp.SMTPError; [text] is its Error() *)
| ErrIndeterminate (e : error)                 (* *indeterminateError *)
| ErrSentinel (text : string)                  (* package-level error variables *)
| ErrWrap (text : string) (e : error)          (* fmt.Errorf with one %w *)
| ErrWrap2 (text : string) (e1 e2 : error).    (* fmt.Errorf with two %w *)

#[export] Instance error_eq_dec : EqDecision error.
Proof. solve_decision. Defined.

(** [err.Error()] *)
Fixpoint error_text (e : error) : string :=
  match e with
  | ErrText t | ErrNet t _ | ErrSMTP _ _ t | ErrSentinel t
  | ErrWrap t _ | ErrWrap2 t _ _ => t
  | ErrDNS name server err _ _ =>
      "lookup " +:+ name +:+ (if is_empty server then "" else " on " +:+ server) +:+ ": " +:+ err
  | ErrIndeterminate e => error_text e
  end.

(** [errors.As(err, &smtpErr)]: the first [*smtp.SMTPError], depth first. *)
Fixpoint as_smtp (e : error) : option (Z * string) :=
  match e with
  | ErrSMTP c m _ => Some (c, m)
  | ErrIndeterminate e | ErrWrap _ e => as_smtp e
  | ErrWrap2 _ e1 e2 => match as_smtp e1 with Some r => Some r | None => as_smtp e2 end
  | _ => None
  end.

(** [errors.As(err, &indet)] *)
Fixpoint as_indeterminate (e : error) : bool :=
  match e with
  | ErrIndeterminate _ => true
  | ErrWrap _ e => as_indeterminate e
  | ErrWrap2 _ e1 e2 => as_indeterminate e1 || as_indeterminate e2
  | _ => false
  end.

(** [errors.Is(err, sentinel)] *)
Fixpoint error_is (e target : error) : bool :=
  bool_decide (e = target) ||
  match e with
  | ErrIndeterminate e | ErrWrap _ e => error_is e target
  | ErrWrap2 _ e1 e2 => error_is e1 target || error_is e2 target
  | _ => false
  end.

(** [errors.As(err, &dnsErr)]: the first [*net.DNSError], depth first. *)
Fixpoint as_dns (e : error) : option error :=
  match e with
  | ErrDNS _ _ _ _ _ => Some e
  | ErrIndeterminate e | ErrWrap _ e => as_dns e
  | ErrWrap2 _ e1 e2 => match as_dns e1 with Some r => Some r | None => as_dns e2 end
  | _ => None
  end.

(** A type assertion [err.(net.Error)] that answers [Timeout()]: it looks at
    the outermost value only. *)
Definition net_timeout (e : error) : bool :=
  match e with ErrNet _ t => t | ErrDNS _ _ _ _ t => t | _ => false end.

(** The errors of a context. *)
Definition context_canceled : error := ErrSentinel "context canceled".
Definition deadline_exceeded : error := ErrNet "context deadline exceeded" true.
