(* ===== verification/Digest.v ===== *)
(** * Digests and encodings of the Go standard library

    [hash/fnv] (FNV-1a, 32 and 64 bits), [crypto/sha1], [crypto/hmac] and
    [encoding/base32], as Strela uses them.  All are executable; the examples
    at the end evaluate the published test vectors. *)

From stdpp Require Import base list strings.
From Stdlib Require Import ZArith Lia Ascii.
From S2P Require Import Prelude GoString.
#[local] Open Scope Z_scope.

Fixpoint byte_list (s : string) : list Z :=
  match s with EmptyString => [] | String c s => byte_of c :: byte_list s end.

(** ** FNV-1a *)

Definition fnv1a (bits prime offset : Z) (s : string) : Z :=
  fold_left (fun h b => (Z.lxor h b * prime) mod 2 ^ bits) (byte_list s) offset.

Definition fnv32a (s : string) : Z := fnv1a 32 16777619 2166136261 s.
Definition fnv64a (s : string) : Z := fnv1a 64 1099511628211 14695981039346656037 s.

Lemma fnv1a_range bits prime offset s :
  0 <= bits -> 0 <= offset < 2 ^ bits -> 0 <= fnv1a bits prime offset s < 2 ^ bits.
Proof.
  intros Hb Ho. unfold fnv1a. revert offset Ho.
  induction (byte_list s) as [|b l IH]; intros o Ho; simpl; [done|].
  apply IH, Z.mod_pos_bound, Z.pow_pos_nonneg; lia.
Qed.

(** ** SHA-1 *)

Definition add32 (a b : Z) : Z := (a + b) mod 2 ^ 32.
Definition rotl (n x : Z) : Z :=
  Z.lor (Z.shiftl x n mod 2 ^ 32) (Z.shiftr x (32 - n)).
Definition not32 (x : Z) : Z := Z.lxor x (2 ^ 32 - 1).

Fixpoint be_word (l : list Z) (n : nat) (acc : Z) : Z :=
  match n, l with
  | S n, b :: l => be_word l n (acc * 256 + b)
  | _, _ => acc
  end.
Fixpoint be_bytes (n : nat) (z : Z) : list Z :=
  match n with O => [] | S n => be_bytes n (z / 256) ++ [z mod 256] end.

Definition sha1_pad (msg : list Z) : list Z :=
  let n := Z.of_nat (length msg) in
  msg ++ [128] ++ replicate (Z.to_nat ((55 - n) mod 64)) 0 ++ be_bytes 8 (8 * n).

Fixpoint words (n : nat) (l : list Z) : list Z :=
  match n with O => [] | S n => be_word l 4 0 :: words n (drop 4 l) end.

(** The message schedule, newest word first. *)
Fixpoint schedule (n : nat) (rev_w : list Z) : list Z :=
  match n with
  | O => rev_w
  | S n =>
      let g i := nth i rev_w 0 in
      schedule n
        (rotl 1 (Z.lxor (Z.lxor (g 2%nat) (g 7%nat)) (Z.lxor (g 13%nat) (g 15%nat))) :: rev_w)
  end.

Definition sha1_round (st : Z * Z * Z * Z * Z) (iw : nat * Z) : Z * Z * Z * Z * Z :=
  let '(a, b, c, d, e) := st in
  let '(f, k) :=
    if (iw.1 <? 20)%nat then (Z.lor (Z.land b c) (Z.land (not32 b) d), 1518500249)
    else if (iw.1 <? 40)%nat then (Z.lxor (Z.lxor b c) d, 1859775393)
    else if (iw.1 <? 60)%nat then
      (Z.lor (Z.lor (Z.land b c) (Z.land b d)) (Z.land c d), 2400959708)
    else (Z.lxor (Z.lxor b c) d, 3395469782) in
  (add32 (rotl 5 a) (add32 f (add32 e (add32 k iw.2))), a, rotl 30 b, c, d).

Definition sha1_block (st : Z * Z * Z * Z * Z) (block : list Z) : Z * Z * Z * Z * Z :=
  let w := reverse (schedule 64 (reverse (words 16 block))) in
  let '(a, b, c, d, e) := fold_left sha1_round (imap pair w) st in
  let '(a0, b0, c0, d0, e0) := st in
  (add32 a0 a, add32 b0 b, add32 c0 c, add32 d0 d, add32 e0 e).

Fixpoint sha1_blocks (n : nat) (st : Z * Z * Z * Z * Z) (l : list Z) : Z * Z * Z * Z * Z :=
  match n with
  | O => st
  | S n => sha1_blocks n (sha1_block st (take 64 l)) (drop 64 l)
  end.

Definition sha1 (msg : list Z) : list Z :=
  let p := sha1_pad msg in
  let '(a, b, c, d, e) :=
    sha1_blocks (length p / 64) (1732584193, 4023233417, 2562383102, 271733878, 3285377520) p in
  be_bytes 4 a ++ be_bytes 4 b ++ be_bytes 4 c ++ be_bytes 4 d ++ be_bytes 4 e.

(** ** HMAC-SHA1 *)

Definition hmac_sha1 (key msg : list Z) : list Z :=
  let k0 := if (64 <? length key)%nat then sha1 key else key in
  let k := k0 ++ replicate (64 - length k0) 0 in
  sha1 (map (Z.lxor 92) k ++ sha1 (map (Z.lxor 54) k ++ msg)).

(** ** Base32 ([base32.StdEncoding.EncodeToString]) *)

Definition base32_alphabet : string := "ABCDEFGHIJKLMNOPQRSTUVWXYZ234567".

Definition base32_char (v : Z) : ascii :=
  match snth base32_alphabet (Z.to_nat v) with Some c => c | None => "="%char end.

Definition base32_group (l : list Z) : string :=
  let v := be_word (l ++ replicate (5 - length l) 0) 5 0 in
  let chars := map (fun i => base32_char (Z.land (Z.shiftr v (35 - 5 * i)) 31))
                   [0; 1; 2; 3; 4; 5; 6; 7] in
  let used := match length l with
              | 1%nat => 2 | 2%nat => 4 | 3%nat => 5 | 4%nat => 7 | _ => 8 end%nat in
  foldr String "" (take used chars ++ replicate (8 - used) "="%char).

Fixpoint base32_groups (n : nat) (l : list Z) : string :=
  match n, l with
  | S n, _ :: _ => base32_group (take 5 l) +:+ base32_groups n (drop 5 l)
  | _, _ => ""
  end.
Definition base32_encode (l : list Z) : string := base32_groups (length l) l.

(** ** Lemmas *)

Lemma length_be_bytes n z : length (be_bytes n z) = n.
Proof. revert z; induction n; intros z; simpl; [done|]. rewrite length_app, IHn. simpl. lia. Qed.

Lemma length_sha1 msg : length (sha1 msg) = 20%nat.
Proof.
  unfold sha1. destruct (sha1_blocks _ _ _) as [[[[a b] c] d] e].
  by rewrite !length_app, !length_be_bytes.
Qed.

(** The characters of the alphabet. *)
Definition is_base32 (c : ascii) : bool := is_upper c || in_range 50 55 c.

Lemma base32_char_ok v : 0 <= v < 32 -> is_base32 (base32_char v) = true.
Proof.
  intros Hv. assert (Hc : forall n, (n < 32)%nat -> is_base32 (base32_char (Z.of_nat n)) = true).
  { intros n Hn. do 32 (destruct n as [|n]; [reflexivity|]). lia. }
  rewrite <- (Z2Nat.id v) by lia. apply Hc. lia.
Qed.

Lemma land31_range z : 0 <= Z.land z 31 < 32.
Proof. change 31 with (Z.ones 5). rewrite Z.land_ones by lia. apply Z.mod_pos_bound. lia. Qed.

Lemma base32_group_full a b c d e :
  slen (base32_group [a; b; c; d; e]) = 8%nat /\ sall is_base32 (base32_group [a; b; c; d; e]) = true.
Proof.
  split; [done|]. unfold base32_group.
  set (v := be_word ([a; b; c; d; e] ++ _) 5 0). clearbody v. cbn [length map take replicate app Nat.sub foldr sall].
  by rewrite !base32_char_ok by apply land31_range.
Qed.

(** A 20-byte digest is 32 characters, none of them padding. *)
Lemma base32_encode_20 l :
  length l = 20%nat -> slen (base32_encode l) = 32%nat /\ sall is_base32 (base32_encode l) = true.
Proof.
  intros Hl. do 20 (destruct l as [|? l]; [done|]). destruct l; [|done]. clear Hl.
  unfold base32_encode. cbn [length base32_groups take drop].
  rewrite !slen_app, !sall_app.
  repeat match goal with |- context [base32_group [?a; ?b; ?c; ?d; ?e]] =>
    let H1 := fresh in let H2 := fresh in
    destruct (base32_group_full a b c d e) as [H1 H2]; rewrite ?H1, ?H2;
    generalize dependent (base32_group [a; b; c; d; e]); intros end.
  done.
Qed.

(** ** Test vectors *)

Example fnv32a_foobar : fnv32a "foobar" = 3214735720.
Proof. vm_compute. reflexivity. Qed.
Example fnv64a_foobar : fnv64a "foobar" = 9625390261332436968.
Proof. vm_compute. reflexivity. Qed.

Example sha1_abc :
  be_word (sha1 (byte_list "abc")) 20 0 = 968236873715988614170569073515315707566766479517.
Proof. vm_compute. reflexivity. Qed.

(** RFC 2202, test case 2. *)
Example hmac_jefe :
  hmac_sha1 (byte_list "Jefe") (byte_list "what do ya want for nothing?") =
  [239; 252; 223; 106; 229; 235; 47; 162; 210; 116; 22; 213; 241; 132; 223; 156;
   37; 154; 124; 121].
Proof. vm_compute. reflexivity. Qed.

(** RFC 4648. *)
Example base32_foobar : base32_encode (byte_list "foobar") = "MZXW6YTBOI======".
Proof. vm_compute. reflexivity. Qed.
