(* ===== verification/Base64.v ===== *)
(** * Base64 ([encoding/base64], [StdEncoding])

    The decoder of Go's standard library as its [decodeQuantum] reads its input
    (line breaks are skipped, padding is required, stray bits are not looked
    at), the encoder, and the round trip between them. *)

From stdpp Require Import base list strings.
From Stdlib Require Import ZArith Lia Ascii.
From S2P Require Import Prelude GoString GoError.
#[local] Open Scope Z_scope.

Definition b64_digit (c : ascii) : option Z :=
  let b := byte_of c in
  if is_upper c then Some (b - 65)
  else if is_lower c then Some (b - 71)
  else if is_digit c then Some (b + 4)
  else if b =? 43 then Some 62
  else if b =? 47 then Some 63
  else None.

Definition line_break (c : ascii) : bool := bool_decide (c = CR) || bool_decide (c = LF).
Definition pad : ascii := "="%char.

Definition corrupt {A} (n : Z) : result error A :=
  Err (ErrText ("illegal base64 data at input byte " +:+ fmt_d n)).

(** The bytes of a quantum of two, three or four digits. *)
Definition quantum (g : list Z) : string :=
  match g with
  | [a; b] => bytes [Z.lor (Z.shiftl a 2) (Z.shiftr b 4)]
  | [a; b; c] => bytes [Z.lor (Z.shiftl a 2) (Z.shiftr b 4); Z.lor (Z.shiftl b 4) (Z.shiftr c 2)]
  | [a; b; c; d] => bytes [Z.lor (Z.shiftl a 2) (Z.shiftr b 4); Z.lor (Z.shiftl b 4) (Z.shiftr c 2);
                           Z.lor (Z.shiftl c 6) d]
  | _ => ""
  end.

(** After the last padding character only line breaks may follow. *)
Fixpoint b64_end (s : string) (si : Z) (out : string) : result error string :=
  match s with
  | EmptyString => Ok out
  | String c s => if line_break c then b64_end s (si + 1) out else corrupt si
  end.
(** The second of two padding characters. *)
Fixpoint b64_second_pad (s : string) (si : Z) (out : string) : result error string :=
  match s with
  | EmptyString => corrupt si
  | String c s =>
      if line_break c then b64_second_pad s (si + 1) out
      else if bool_decide (c = pad) then b64_end s (si + 1) out
      else corrupt (si - 1)
  end.

(** [si] is the position in the input and [g] the digits of the quantum. *)
Fixpoint b64_decode (s : string) (si : Z) (g : list Z) : result error string :=
  match s with
  | EmptyString => match g with [] => Ok "" | _ => corrupt (si - Z.of_nat (length g)) end
  | String c s =>
      match b64_digit c with
      | Some d =>
          if (length g =? 3)%nat then
            match b64_decode s (si + 1) [] with
            | Ok out => Ok (quantum (g ++ [d]) +:+ out)
            | Err e => Err e
            end
          else b64_decode s (si + 1) (g ++ [d])
      | None =>
          if line_break c then b64_decode s (si + 1) g
          else if negb (bool_decide (c = pad)) then corrupt si
          else match length g with
               | 0%nat | 1%nat => corrupt si
               | 2%nat => b64_second_pad s (si + 1) (quantum g)
               | _ => b64_end s (si + 1) (quantum g)
               end
      end
  end.

(** [base64.StdEncoding.DecodeString] *)
Definition base64_decode (s : string) : result error string := b64_decode s 0 [].

(** ** Encoding *)

Definition b64_char (d : Z) : ascii :=
  if d <? 26 then chr (d + 65)
  else if d <? 52 then chr (d + 71)
  else if d <? 62 then chr (d - 4)
  else if d =? 62 then chr 43 else chr 47.
Definition digits (l : list Z) : string := foldr (fun d s => String (b64_char d) s) "" l.

(** [base64.StdEncoding.EncodeToString] *)
Fixpoint base64_encode (s : string) : string :=
  match s with
  | EmptyString => ""
  | String a EmptyString =>
      let a := byte_of a in digits [Z.shiftr a 2; Z.shiftl (Z.land a 3) 4] +:+ "=="
  | String a (String b EmptyString) =>
      let a := byte_of a in let b := byte_of b in
      digits [Z.shiftr a 2; Z.lor (Z.shiftl (Z.land a 3) 4) (Z.shiftr b 4); Z.shiftl (Z.land b 15) 2] +:+ "="
  | String a (String b (String c s)) =>
      let a := byte_of a in let b := byte_of b in let c := byte_of c in
      digits [Z.shiftr a 2; Z.lor (Z.shiftl (Z.land a 3) 4) (Z.shiftr b 4);
              Z.lor (Z.shiftl (Z.land b 15) 2) (Z.shiftr c 6); Z.land c 63] +:+ base64_encode s
  end.

(** ** Round trip *)

Definition six_bits (d : Z) : Prop := 0 <= d < 64.

Lemma b64_digit_char d : six_bits d -> b64_digit (b64_char d) = Some d.
Proof.
  unfold six_bits. intros Hd. assert (exists k, (k < 64)%nat /\ d = Z.of_nat k) as (k & Hk & ->).
  { exists (Z.to_nat d). lia. }
  do 64 (destruct k as [|k]; [reflexivity|]). lia.
Qed.

(** A test on two small numbers, by trying them all. *)
Definition all_below (n : Z) (p : Z -> bool) : bool := forallb p (map Z.of_nat (seq 0 (Z.to_nat n))).
Lemma all_below_spec n p : all_below n p = true -> forall z, 0 <= z < n -> p z = true.
Proof.
  unfold all_below. rewrite forallb_forall. intros Hp z Hz. apply Hp, in_map_iff. exists (Z.to_nat z).
  split; [lia|]. apply in_seq. lia.
Qed.
Lemma all_below2 n m (p : Z -> Z -> bool) :
  all_below n (fun a => all_below m (p a)) = true ->
  forall a b, 0 <= a < n -> 0 <= b < m -> p a b = true.
Proof. intros Hp a b Ha Hb. exact (all_below_spec _ _ (all_below_spec _ _ Hp a Ha) b Hb). Qed.

Definition six (d : Z) : bool := (0 <=? d) && (d <? 64).
Lemma six_true d : six d = true -> six_bits d.
Proof. unfold six, six_bits. intros. bool_norm. lia. Qed.

(** Byte [a] of a quantum, before four bits [w]; byte [b] between two bits [x]
    and two bits [y]; byte [c] after four bits [z]. *)
Lemma byte_first a w : 0 <= a < 256 -> 0 <= w < 16 ->
  (six (Z.shiftr a 2) && six (Z.lor (Z.shiftl (Z.land a 3) 4) w) &&
   (Z.lor (Z.shiftl (Z.shiftr a 2) 2) (Z.shiftr (Z.lor (Z.shiftl (Z.land a 3) 4) w) 4) mod 256 =? a)) = true.
Proof.
  revert a w. apply (all_below2 256 16 (fun a w =>
    six (Z.shiftr a 2) && six (Z.lor (Z.shiftl (Z.land a 3) 4) w) &&
    (Z.lor (Z.shiftl (Z.shiftr a 2) 2) (Z.shiftr (Z.lor (Z.shiftl (Z.land a 3) 4) w) 4) mod 256 =? a))).
  vm_compute. reflexivity.
Qed.

Lemma byte_second x b y : 0 <= x < 4 -> 0 <= b < 256 -> 0 <= y < 4 ->
  (six (Z.lor (Z.shiftl (Z.land b 15) 2) y) &&
   (Z.lor (Z.shiftl (Z.lor (Z.shiftl x 4) (Z.shiftr b 4)) 4)
      (Z.shiftr (Z.lor (Z.shiftl (Z.land b 15) 2) y) 2) mod 256 =? b)) = true.
Proof.
  intros Hx Hb Hy. pose proof (all_below2 256 4 (fun b y => all_below 4 (fun x =>
    six (Z.lor (Z.shiftl (Z.land b 15) 2) y) &&
    (Z.lor (Z.shiftl (Z.lor (Z.shiftl x 4) (Z.shiftr b 4)) 4)
      (Z.shiftr (Z.lor (Z.shiftl (Z.land b 15) 2) y) 2) mod 256 =? b)))) as H.
  assert (Hall : forall b y, 0 <= b < 256 -> 0 <= y < 4 -> _) by (apply H; vm_compute; reflexivity).
  exact (all_below_spec _ _ (Hall b y Hb Hy) x Hx).
Qed.

Lemma byte_third z c : 0 <= z < 16 -> 0 <= c < 256 ->
  (six (Z.land c 63) &&
   (Z.lor (Z.shiftl (Z.lor (Z.shiftl z 2) (Z.shiftr c 6)) 6) (Z.land c 63) mod 256 =? c)) = true.
Proof.
  revert z c. apply (all_below2 16 256 (fun z c => six (Z.land c 63) &&
   (Z.lor (Z.shiftl (Z.lor (Z.shiftl z 2) (Z.shiftr c 6)) 6) (Z.land c 63) mod 256 =? c))).
  vm_compute. reflexivity.
Qed.

Lemma byte_parts c :
  let b := byte_of c in
  0 <= b < 256 /\ 0 <= Z.land b 3 < 4 /\ 0 <= Z.land b 15 < 16 /\ 0 <= Z.shiftr b 4 < 16 /\
  0 <= Z.shiftr b 6 < 4.
Proof.
  cbv zeta. pose proof (byte_of_range c). change 3 with (Z.ones 2). change 15 with (Z.ones 4).
  rewrite !Z.land_ones, !Z.shiftr_div_pow2 by lia. Z.div_mod_to_equations; lia.
Qed.

Lemma chr_eq c z : z mod 256 = byte_of c -> chr z = c.
Proof. intros Hz. rewrite <- (chr_byte_of c), <- Hz. unfold chr. by rewrite Z.mod_mod. Qed.

(** *** The decoder on what the encoder writes *)

Lemma decode_quantum d1 d2 d3 d4 s si :
  six_bits d1 -> six_bits d2 -> six_bits d3 -> six_bits d4 ->
  b64_decode (digits [d1; d2; d3; d4] +:+ s) si [] =
  match b64_decode s (si + 1 + 1 + 1 + 1) [] with
  | Ok out => Ok (quantum [d1; d2; d3; d4] +:+ out)
  | Err e => Err e
  end.
Proof.
  intros H1 H2 H3 H4. cbn [digits foldr String.append b64_decode].
  by rewrite !b64_digit_char.
Qed.

Lemma decode_two d1 d2 si :
  six_bits d1 -> six_bits d2 -> b64_decode (digits [d1; d2] +:+ "==") si [] = Ok (quantum [d1; d2]).
Proof. intros H1 H2. cbn [digits foldr String.append b64_decode]. by rewrite !b64_digit_char. Qed.
Lemma decode_three d1 d2 d3 si :
  six_bits d1 -> six_bits d2 -> six_bits d3 ->
  b64_decode (digits [d1; d2; d3] +:+ "=") si [] = Ok (quantum [d1; d2; d3]).
Proof. intros H1 H2 H3. cbn [digits foldr String.append b64_decode]. by rewrite !b64_digit_char. Qed.

Lemma decode_encode_from n s si : (slen s <= n)%nat -> b64_decode (base64_encode s) si [] = Ok s.
Proof.
  revert s si. induction n as [|n IH]; intros s si Hn; [by destruct s; [|simpl in Hn; lia]|].
  destruct s as [|a [|b [|c s]]]; cbn [base64_encode slen] in *; [done| | |].
  - pose proof (byte_parts a) as (Ha & _ & _ & Ha4 & _).
    pose proof (byte_first _ 0 Ha ltac:(lia)) as Hf. rewrite Z.lor_0_r in Hf. bool_norm.
    destruct Hf as [[? ?] Hf].
    rewrite decode_two by (by apply six_true). unfold quantum, bytes. cbn [foldr]. by rewrite (chr_eq a).
  - pose proof (byte_parts a) as (Ha & Ha3 & _). pose proof (byte_parts b) as (Hb & _ & _ & Hb4 & _).
    pose proof (byte_first _ _ Ha Hb4) as Hf. pose proof (byte_second _ _ 0 Ha3 Hb ltac:(lia)) as Hs.
    rewrite Z.lor_0_r in Hs. bool_norm. destruct Hf as [[? ?] Hf], Hs as [? Hs].
    rewrite decode_three by (by apply six_true). unfold quantum, bytes. cbn [foldr].
    by rewrite (chr_eq a), (chr_eq b).
  - pose proof (byte_parts a) as (Ha & Ha3 & _). pose proof (byte_parts b) as (Hb & _ & Hb15 & Hb4 & _).
    pose proof (byte_parts c) as (Hc & _ & _ & _ & Hc6).
    pose proof (byte_first _ _ Ha Hb4) as Hf. pose proof (byte_second _ _ _ Ha3 Hb Hc6) as Hs.
    pose proof (byte_third _ _ Hb15 Hc) as Ht. bool_norm.
    destruct Hf as [[? ?] Hf], Hs as [? Hs], Ht as [? Ht].
    rewrite decode_quantum by (by apply six_true). rewrite IH by lia. unfold quantum, bytes. cbn [foldr String.append].
    by rewrite (chr_eq a), (chr_eq b), (chr_eq c).
Qed.

Lemma base64_round_trip s : base64_decode (base64_encode s) = Ok s.
Proof. by apply (decode_encode_from (slen s)). Qed.

(** The bytes of an encoded text. *)
Lemma encode_bytes (p : ascii -> bool) s :
  (forall d, six_bits d -> p (b64_char d) = true) -> p "="%char = true -> sall p (base64_encode s) = true.
Proof.
  intros Hp He. assert (Hsix : forall d, six d = true -> p (b64_char d) = true) by (intros d Hd; by apply Hp, six_true).
  remember (slen s) as n eqn:Hn. assert (slen s <= n)%nat as Hle by lia. clear Hn. revert s Hle.
  induction n as [|n IH]; intros s Hn; [by destruct s; [|simpl in Hn; lia]|].
  destruct s as [|a [|b [|c s]]]; cbn [base64_encode slen] in *; [done| | |].
  - pose proof (byte_parts a) as (Ha & _). pose proof (byte_first _ 0 Ha ltac:(lia)) as Hf. rewrite Z.lor_0_r in Hf.
    apply andb_prop in Hf as [[H1 H2]%andb_prop _]. cbn [digits foldr String.append sall]. by rewrite !Hsix, He.
  - pose proof (byte_parts a) as (Ha & Ha3 & _). pose proof (byte_parts b) as (Hb & _ & _ & Hb4 & _).
    pose proof (byte_first _ _ Ha Hb4) as Hf. pose proof (byte_second _ _ 0 Ha3 Hb ltac:(lia)) as Hs.
    rewrite Z.lor_0_r in Hs. apply andb_prop in Hf as [[H1 H2]%andb_prop _], Hs as [H3 _].
    cbn [digits foldr String.append sall]. by rewrite !Hsix, He.
  - pose proof (byte_parts a) as (Ha & Ha3 & _). pose proof (byte_parts b) as (Hb & _ & Hb15 & Hb4 & _).
    pose proof (byte_parts c) as (Hc & _ & _ & _ & Hc6).
    pose proof (byte_first _ _ Ha Hb4) as Hf. pose proof (byte_second _ _ _ Ha3 Hb Hc6) as Hs.
    pose proof (byte_third _ _ Hb15 Hc) as Ht.
    apply andb_prop in Hf as [[H1 H2]%andb_prop _], Hs as [H3 _], Ht as [H4 _].
    cbn [digits foldr String.append sall]. rewrite !Hsix by done. cbn [andb]. apply IH. lia.
Qed.

Example base64_vectors :
  map base64_encode [""; "f"; "fo"; "foo"; "foob"; "fooba"; "foobar"] =
  [""; "Zg=="; "Zm8="; "Zm9v"; "Zm9vYg=="; "Zm9vYmE="; "Zm9vYmFy"].
Proof. vm_compute. reflexivity. Qed.
Example base64_lenient :
  (base64_decode ("Zm" +:+ CRLF +:+ "8="), base64_decode "Zm9=", base64_decode "Zm8", base64_decode "Z=g=",
   base64_decode "Zg==x", base64_decode "-") =
  (Ok "fo", Ok "fo", corrupt 0, corrupt 1, corrupt 4, corrupt 0).
Proof. vm_compute. reflexivity. Qed.
