(* ===== verification/SRS.v ===== *)
(** * Sender Rewriting Scheme (internal/srs/srs.go)

    [SRS] is the configured rewriter; [forward] is [Forward], [reverse_srs]
    is [Reverse].  [Forward] advances the round-robin counter, so it returns
    the new state.  The clock reading of [generateTimestamp] and
    [validateTimestamp] is the argument [now]. *)

From stdpp Require Import base gmap sets list strings.
From Stdlib Require Import ZArith Lia Ascii.
From S2P Require Import Prelude GoString Digest.
#[local] Open Scope Z_scope.

(** ** Data *)

Record SRS : Type := mkSRS {
  domains : list string;
  selection : string;
  counter : Z;                  (* uint64 *)
  secret : string;
  maxAge : Z;
  hashLength : Z;
  separator : string;
  skipDomains : gset string;
  skipIfDKIMPass : bool;
  skipIfSameDomain : bool;
  useDynamicSubdomain : bool
}.

Definition set_counter (s : SRS) (c : Z) : SRS :=
  mkSRS (domains s) (selection s) c (secret s) (maxAge s) (hashLength s) (separator s)
    (skipDomains s) (skipIfDKIMPass s) (skipIfSameDomain s) (useDynamicSubdomain s).

Inductive parse_error : Type := MissingAt | MultipleAt | EmptyLocalPart | EmptyDomain.

Inductive srs_error : Type :=
| EmptyAddress
| InvalidAddress (e : parse_error)
| InvalidSRS0Format
| InvalidFormat (parts : nat)
| WrongType (t : string)
| BadTimestampLength (n : nat)
| BadTimestampChars
| TimestampExpired (ageDays : Z)
| HashMismatch
| NotSRS
| IndexOutOfRange     (* a Go run-time panic, not an error value *)
| OutOfFuel.

Inductive config_error : Type :=
| NoDomains | DomainEmpty (i : nat) | SecretEmpty | SecretTooShort (n : nat)
| BadHashLength (n : Z) | BadSelection (sel : string).

#[export] Instance parse_error_eq_dec : EqDecision parse_error.
Proof. solve_decision. Defined.
#[export] Instance srs_error_eq_dec : EqDecision srs_error.
Proof. solve_decision. Defined.

Section SRS.
Context `{Unicode}.

(** ** [NewSRS] *)

Fixpoint normalize_domains (i : nat) (ds : list string) : result config_error (list string) :=
  match ds with
  | [] => Ok []
  | d :: ds =>
      if is_empty d then Err (DomainEmpty i)
      else let? rest := normalize_domains (S i) ds in Ok (to_lower d :: rest)
  end.

Definition new_srs (ds : list string) (sel sec : string) (age hlen : Z) (sep : string)
    (skip : list string) (dkimPass same dyn : bool) : result config_error SRS :=
  if (length ds =? 0)%nat then Err NoDomains
  else
  let? nds := normalize_domains 0 ds in
  if is_empty sec then Err SecretEmpty
  else if (slen sec <? 16)%nat then Err (SecretTooShort (slen sec))
  else
  let age := if age <=? 0 then 21 else age in
  if (hlen <? 2) || (8 <? hlen) then Err (BadHashLength hlen)
  else
  let sep := if is_empty sep then "=" else sep in
  let sel := if is_empty sel then "round-robin" else sel in
  if negb (seqb sel "round-robin") && negb (seqb sel "hash-sender") then Err (BadSelection sel)
  else Ok (mkSRS nds sel 0 sec age hlen sep (list_to_set (map to_lower skip))
             dkimPass same dyn).

(** ** Addresses *)

(** [parseEmail] *)
Definition parse_email (email : string) : result parse_error (string * string) :=
  let email := trim (trim_space email) "<>" in
  let atCount := count_byte "@" email in
  if (atCount =? 0)%nat then Err MissingAt
  else if (1 <? atCount)%nat then Err MultipleAt
  else match index_byte "@" email with
       | None => Err MissingAt
       | Some atIndex =>
           if (atIndex =? 0)%nat then Err EmptyLocalPart
           else if (atIndex =? slen email - 1)%nat then Err EmptyDomain
           else Ok (stake atIndex email, to_lower (sdrop (S atIndex) email))
       end.

(** The domain after the last [@], lowercased, or [""]. *)
Definition addr_domain (a : string) : string :=
  match last_index_byte "@" a with
  | Some i => to_lower (sdrop (S i) a)
  | None => ""
  end.

(** [ShouldSkip] *)
Definition should_skip (s : SRS) (from to dkimResult : string) : bool * string :=
  let toDomain := addr_domain to in
  if bool_decide (toDomain ∈ skipDomains s) then (true, "skip_domains")
  else if skipIfDKIMPass s && equal_fold dkimResult "pass" then (true, "dkim_pass")
  else if skipIfSameDomain s then
    let fromDomain := addr_domain from in
    if negb (is_empty fromDomain) && seqb fromDomain toDomain then (true, "same_domain")
    else (false, "")
  else (false, "").

(** [buildSRSDomain] *)
Definition build_srs_domain (s : SRS) (baseDomain senderDomain : string) : string :=
  if negb (useDynamicSubdomain s) || is_empty senderDomain then baseDomain
  else replace_all (to_lower senderDomain) "." "-" +:+ "." +:+ baseDomain.

(** [s.domains[i]]; [select_domain_in] shows the index is in range. *)
Definition domain_at (s : SRS) (i : Z) : string := nth (Z.to_nat i) (domains s) "".

(** [selectDomain] *)
Definition select_domain (s : SRS) (originalSender : string) : string * SRS :=
  let n := Z.of_nat (length (domains s)) in
  if n =? 1 then (domain_at s 0, s)
  else if seqb (selection s) "round-robin" then
    let c := wrapu64 (counter s + 1) in
    let idx := wrapu64 (c - 1) in
    (domain_at s (idx mod n), set_counter s c)
  else if seqb (selection s) "hash-sender" then
    (domain_at s (fnv64a (to_lower originalSender) mod n), s)
  else (domain_at s 0, s).

(** ** Hash and timestamp *)

(** [generateHash] *)
Definition generate_hash (s : SRS) (parts : list string) : string :=
  let data := join parts (separator s) in
  let sum := hmac_sha1 (byte_list (secret s)) (byte_list data) in
  let encoded := to_upper (trim_right (base32_encode sum) "=") in
  if hashLength s <? Z.of_nat (slen encoded) then stake (Z.to_nat (hashLength s)) encoded
  else encoded.

Definition days_since_epoch (now : Z) : Z := Z.quot (time_unix now) 86400.
Definition time_code (now : Z) : Z := Z.rem (days_since_epoch now) 1024.

(** [generateTimestamp] *)
Definition generate_timestamp (now : Z) : string :=
  let timeCode := time_code now in
  String (base32_char (Z.land (Z.shiftr timeCode 5) 31))
    (str1 (base32_char (Z.land timeCode 31))).

(** [validateTimestamp] *)
Definition validate_timestamp (s : SRS) (now : Z) (timestamp : string) : result srs_error unit :=
  if negb (slen timestamp =? 2)%nat then Err (BadTimestampLength (slen timestamp))
  else
  match to_upper timestamp with
  | String c1 (String c2 _) =>
      match index_byte c1 base32_alphabet, index_byte c2 base32_alphabet with
      | Some idx1, Some idx2 =>
          let addressTimeCode := Z.lor (Z.shiftl (Z.of_nat idx1) 5) (Z.of_nat idx2) in
          let currentTimeCode := time_code now in
          let ageDays := if addressTimeCode <=? currentTimeCode
                         then currentTimeCode - addressTimeCode
                         else (1024 - addressTimeCode) + currentTimeCode in
          if maxAge s <? ageDays then Err (TimestampExpired ageDays) else Ok tt
      | _, _ => Err BadTimestampChars
      end
  | _ => Err IndexOutOfRange
  end.

(** ** Forward *)

Definition has_srs_prefix (s : SRS) (tag localpart : string) : bool :=
  has_prefix (to_upper localpart) (tag +:+ separator s).

(** [forwardSRS0] *)
Definition forward_srs0 (s : SRS) (now : Z) (localpart domain originalSender : string)
    : string * SRS :=
  let '(base, s') := select_domain s originalSender in
  let srsDomain := build_srs_domain s base domain in
  let timestamp := generate_timestamp now in
  let hash := generate_hash s [timestamp; domain; localpart] in
  let sep := separator s in
  ("SRS0" +:+ sep +:+ hash +:+ sep +:+ timestamp +:+ sep +:+ domain +:+ sep +:+ localpart
     +:+ "@" +:+ srsDomain, s').

(** [forwardSRS1] *)
Definition forward_srs1 (s : SRS) (srs0Localpart srs0Domain : string) : result srs_error string :=
  if (length (split srs0Localpart (separator s)) <? 2)%nat then Err InvalidSRS0Format
  else
  let hash := generate_hash s [srs0Domain; srs0Localpart; ""] in
  let sep := separator s in
  Ok ("SRS1" +:+ sep +:+ hash +:+ sep +:+ srs0Domain +:+ sep +:+ srs0Localpart
        +:+ "@" +:+ domain_at s 0).

(** [Forward] *)
Definition forward (s : SRS) (now : Z) (sender : string) : result srs_error string * SRS :=
  if is_empty sender then (Err EmptyAddress, s)
  else match parse_email sender with
       | Err e => (Err (InvalidAddress e), s)
       | Ok (localpart, domain) =>
           if has_srs_prefix s "SRS0" localpart then (forward_srs1 s localpart domain, s)
           else if has_srs_prefix s "SRS1" localpart then (Ok sender, s)
           else let '(a, s') := forward_srs0 s now localpart domain sender in (Ok a, s')
       end.

(** ** Reverse *)

(** [reverseSRS0] *)
Definition reverse_srs0 (s : SRS) (now : Z) (localpart : string) : result srs_error string :=
  match split_n 5 (separator s) localpart with
  | [srsType; hash; timestamp; domain; origLocalpart] =>
      if negb (seqb (to_upper srsType) "SRS0") then Err (WrongType srsType)
      else
      let? _ := validate_timestamp s now timestamp in
      if negb (seqb hash (generate_hash s [timestamp; domain; origLocalpart]))
      then Err HashMismatch
      else Ok (origLocalpart +:+ "@" +:+ domain)
  | parts => Err (InvalidFormat (length parts))
  end.

(** [Reverse] and [reverseSRS1], which call each other; [fuel] bounds the
    nesting of SRS1 addresses. *)
Fixpoint reverse_fuel (fuel : nat) (s : SRS) (now : Z) (srsAddress : string)
    : result srs_error string :=
  match fuel with
  | O => Err OutOfFuel
  | S fuel =>
      if is_empty srsAddress then Err EmptyAddress
      else match parse_email srsAddress with
           | Err e => Err (InvalidAddress e)
           | Ok (localpart, _) =>
               if has_srs_prefix s "SRS0" localpart then reverse_srs0 s now localpart
               else if has_srs_prefix s "SRS1" localpart then
                 match split_n 4 (separator s) localpart with
                 | [srsType; hash; domain; srs0Localpart] =>
                     if negb (seqb (to_upper srsType) "SRS1") then Err (WrongType srsType)
                     else if negb (seqb hash (generate_hash s [domain; srs0Localpart; ""]))
                     then Err HashMismatch
                     else reverse_fuel fuel s now (srs0Localpart +:+ "@" +:+ domain)
                 | parts => Err (InvalidFormat (length parts))
                 end
               else Err NotSRS
           end
  end.

Definition reverse_srs (s : SRS) (now : Z) (srsAddress : string) : result srs_error string :=
  reverse_fuel (S (slen srsAddress)) s now srsAddress.

(** [IsSRS], [GetDomain], [GetDomains] *)
Definition is_srs (s : SRS) (address : string) : bool :=
  match parse_email address with
  | Err _ => false
  | Ok (localpart, _) =>
      has_srs_prefix s "SRS0" localpart || has_srs_prefix s "SRS1" localpart
  end.
Definition get_domain (s : SRS) : string :=
  match domains s with d :: _ => d | [] => "" end.
Definition get_domains (s : SRS) : list string := domains s.

(** ** Lemmas *)

(** *** The alphabet of a well-configured rewriter *)

(** A separator byte that cannot occur in a hash or a timestamp and that
    [strings.ToUpper] leaves alone. *)
Definition sep_byte (c : ascii) : bool :=
  is_ascii_char c && negb (is_upper c) && negb (is_lower c) && negb (is_digit c)
  && negb (bool_decide (c = "@"%char)).

(** The bytes of a domain that survive inside an SRS address. *)
Definition host_byte (d : ascii) : bool :=
  plain_byte d && negb (in_set "<>" d) && negb (bool_decide (d = "@"%char)).

Definition srs_host (d : string) : Prop := d <> "" /\ sall host_byte d = true.

Record wf_srs (s : SRS) (sep : ascii) : Prop := {
  wf_separator : separator s = str1 sep;
  wf_sep_byte : sep_byte sep = true;
  wf_domains : domains s <> [];
  wf_hosts : Forall srs_host (domains s);
  wf_age : 0 <= maxAge s;
  wf_hash : 2 <= hashLength s <= 8
}.

Lemma host_no_at d : sall host_byte d = true -> no_byte "@" d = true.
Proof.
  apply sall_impl. unfold host_byte. intros c [_ Hc]%andb_prop.
  apply negb_true_flip, bool_decide_eq_false in Hc. by rewrite bool_decide_false.
Qed.

Lemma base32_no_byte c d :
  negb (is_upper c) && negb (is_digit c) = true -> sall is_base32 d = true -> no_byte c d = true.
Proof.
  intros [Hu Hd]%andb_prop. apply sall_impl. intros e He. case_bool_decide; [|done]. subst e.
  unfold is_base32, is_digit, in_range in *. bool_norm.
  destruct He as [He|He]; [congruence|]. destruct Hd; lia.
Qed.

Lemma sep_no_base32 c d : sep_byte c = true -> sall is_base32 d = true -> no_byte c d = true.
Proof.
  unfold sep_byte. intros Hc. apply base32_no_byte. bool_norm.
  destruct Hc as [[[[_ ->] _] ->] _]. done.
Qed.

Lemma base32_upper d : sall is_base32 d = true -> is_ascii d = true /\ smap upper_char d = d.
Proof.
  unfold is_ascii. induction d as [|c d IH]; [done|]. simpl. intros [Hc Hd]%andb_prop.
  destruct (IH Hd) as [-> ->].
  assert (is_ascii_char c = true /\ upper_char c = c) as [-> ->]; [|done].
  revert Hc. destruct c as [[] [] [] [] [] [] [] []]; intros Hc; vm_compute in Hc; done.
Qed.

Lemma generate_hash_ok s parts :
  2 <= hashLength s <= 8 ->
  Z.of_nat (slen (generate_hash s parts)) = hashLength s /\
  sall is_base32 (generate_hash s parts) = true.
Proof.
  intros Hl. unfold generate_hash, hmac_sha1.
  set (sum := sha1 _).
  destruct (base32_encode_20 sum (length_sha1 _)) as [Hn Ha].
  set (e := base32_encode sum) in *. clearbody e.
  assert (trim_right e "=" = e) as ->.
  { unfold trim_right, trim_right_fn.
    destruct (sall_nonempty_rev is_base32 e) as (d & t & Hr & Hd); [by intros ->|done|].
    rewrite Hr. simpl.
    assert (in_set "=" d = false) as ->.
    { clear -Hd. destruct d as [[] [] [] [] [] [] [] []]; vm_compute in Hd; done. }
    by rewrite <- Hr, sreverse_involutive. }
  destruct (base32_upper e Ha) as [Hasc Hup].
  rewrite to_upper_ascii, Hup by done. rewrite Hn.
  destruct (Z.ltb_spec (hashLength s) (Z.of_nat 32)); [|lia].
  split; [rewrite slen_stake; lia | by apply sall_stake].
Qed.

Lemma generate_timestamp_ok now :
  slen (generate_timestamp now) = 2%nat /\ sall is_base32 (generate_timestamp now) = true.
Proof. split; [done|]. simpl. by rewrite !base32_char_ok by apply land31_range. Qed.

(** *** Address parsing *)

Lemma parse_email_canonical lp dom :
  no_byte "@" lp = true -> lp <> "" -> srs_host dom ->
  (exists c r, lp = String c r /\ is_base32 c = true) ->
  parse_email (lp +:+ "@" +:+ dom) = Ok (lp, to_lower dom).
Proof.
  intros Hlp Hne [Hd0 Hd] (c & r & Hcr & Hc).
  destruct (sall_nonempty_rev _ dom Hd0 Hd) as (d & t & Hr & Hhd).
  assert (Hat : no_byte "@" dom = true) by by eapply host_no_at.
  set (a := lp +:+ "@" +:+ dom).
  assert (Hends : forall p, p c = true -> p d = true -> ends p a).
  { intros p Hpc Hpd. unfold a. rewrite Hcr. eapply (ends_app p c r _ d); [done| |done].
    rewrite sreverse_app, Hr. done. }
  assert (plain_byte c = true /\ in_set "<>" c = false) as [Hc1 Hc2].
  { clear -Hc. destruct c as [[] [] [] [] [] [] [] []]; vm_compute in Hc; done. }
  unfold host_byte in Hhd. bool_norm. destruct Hhd as [[Hd1 Hd2] _].
  unfold parse_email. fold a. rewrite trim_space_plain by auto.
  rewrite trim_plain by (apply Hends; by apply negb_true_flip).
  assert (count_byte "@" a = 1%nat) as Hcount.
  { unfold a. rewrite !count_byte_app. apply no_byte_count in Hlp, Hat. rewrite Hlp, Hat. done. }
  assert (index_byte "@" a = Some (slen lp)) as -> by (by apply index_byte_app).
  rewrite Hcount. cbn [Nat.eqb Nat.ltb Nat.leb].
  assert (slen lp <> 0%nat) by (intros ?%slen_zero; done).
  destruct (Nat.eqb_spec (slen lp) 0); [done|].
  assert (slen a = slen lp + S (slen dom))%nat as Ha by (unfold a; by rewrite !slen_app).
  assert (slen dom <> 0%nat) by (intros ?%slen_zero; done).
  destruct (Nat.eqb_spec (slen lp) (slen a - 1)); [lia|].
  unfold a. rewrite stake_app_len. repeat f_equal.
  by rewrite <- Nat.add_1_r, sdrop_app_plus.
Qed.

Lemma no_byte_stake c n d : no_byte c d = true -> no_byte c (stake n d) = true.
Proof. apply sall_stake. Qed.

(** What [parse_email] returns has no [@] in the local part. *)
Lemma parse_email_local email lp dom :
  parse_email email = Ok (lp, dom) -> no_byte "@" lp = true /\ lp <> "".
Proof.
  unfold parse_email. set (e := trim _ _).
  destruct (count_byte "@" e =? 0)%nat; [done|].
  destruct (1 <? count_byte "@" e)%nat; [done|].
  destruct (index_byte "@" e) as [i|] eqn:Hi; [|done].
  destruct (Nat.eqb_spec i 0) as [|Hi0]; [done|].
  destruct (i =? slen e - 1)%nat; [done|]. intros [= <- <-].
  destruct (index_byte_split _ _ _ Hi) as [Hs Hn]. split; [done|].
  intros Hl. apply (f_equal slen) in Hl. rewrite slen_stake in Hl. simpl in Hl.
  apply (f_equal slen) in Hs. rewrite slen_app, slen_stake in Hs. simpl in Hs. lia.
Qed.

Lemma has_srs_prefix_tag s sep tag rest :
  separator s = str1 sep -> sep_byte sep = true ->
  is_ascii tag = true -> smap upper_char tag = tag ->
  has_srs_prefix s tag (tag +:+ str1 sep +:+ rest) = true.
Proof.
  intros Hs Hc Ha Hu. unfold has_srs_prefix. rewrite Hs.
  unfold sep_byte in Hc. bool_norm. destruct Hc as [[[[Hc _] Hl] _] _].
  rewrite <- sapp_assoc, to_upper_app.
  - assert (smap upper_char (tag +:+ str1 sep) = tag +:+ str1 sep) as ->.
    { rewrite <- Hu at 2. clear -Hl. unfold upper_char.
      induction tag; simpl; [by rewrite Hl|by rewrite IHtag]. }
    apply has_prefix_app.
  - unfold is_ascii in *. rewrite sall_app, Ha. simpl. by rewrite Hc.
Qed.

Lemma has_prefix_app_false a b p :
  slen p = slen a -> p <> a -> has_prefix (a +:+ b) p = false.
Proof.
  intros Hl Hne. destruct (has_prefix (a +:+ b) p) eqn:E; [|done]. destruct Hne.
  apply has_prefix_spec in E as [r E]. apply (f_equal (stake (slen a))) in E.
  rewrite stake_app_len in E. rewrite <- Hl, stake_app_len in E. done.
Qed.

(** *** The time code *)

Lemma days_nonneg now : 0 <= now -> 0 <= days_since_epoch now.
Proof.
  intros. unfold days_since_epoch, time_unix, second. apply Z.quot_pos; [|lia].
  apply Z.div_pos; lia.
Qed.

Lemma time_code_range now : 0 <= now -> 0 <= time_code now < 1024.
Proof.
  intros. unfold time_code. pose proof (days_nonneg now ltac:(done)).
  rewrite Z.rem_mod_nonneg by lia. apply Z.mod_pos_bound. lia.
Qed.

Lemma base32_index_char v :
  0 <= v < 32 -> index_byte (base32_char v) base32_alphabet = Some (Z.to_nat v).
Proof.
  intros Hv.
  assert (Hc : forall n, (n < 32)%nat ->
            index_byte (base32_char (Z.of_nat n)) base32_alphabet = Some n).
  { intros n Hn. do 32 (destruct n as [|n]; [reflexivity|]). lia. }
  specialize (Hc (Z.to_nat v) ltac:(lia)). by rewrite Z2Nat.id in Hc by lia.
Qed.

Lemma code_split z : 0 <= z < 1024 ->
  Z.lor (Z.shiftl (Z.land (Z.shiftr z 5) 31) 5) (Z.land z 31) = z.
Proof.
  intros Hz. apply Z.bits_inj'. intros n Hn.
  rewrite Z.lor_spec, Z.land_spec. destruct (decide (n < 5)).
  - rewrite Z.shiftl_spec_low by lia.
    change 31 with (Z.ones 5). rewrite Z.ones_spec_low by lia. by rewrite andb_true_r.
  - rewrite Z.shiftl_spec, Z.land_spec, Z.shiftr_spec by lia.
    change 31 with (Z.ones 5). rewrite (Z.ones_spec_high 5 n) by lia.
    rewrite andb_false_r, orb_false_r. replace (n - 5 + 5) with n by lia.
    destruct (decide (n < 10)); [rewrite Z.ones_spec_low by lia; by rewrite andb_true_r|].
    rewrite Z.ones_spec_high by lia. rewrite andb_false_r. symmetry.
    rewrite <- (Z.mod_small z (2 ^ 10)) by lia. by apply Z.mod_pow2_bits_high; lia.
Qed.

Lemma validate_timestamp_code s later now :
  0 <= now ->
  validate_timestamp s later (generate_timestamp now) =
  let age := if time_code now <=? time_code later then time_code later - time_code now
             else (1024 - time_code now) + time_code later in
  if maxAge s <? age then Err (TimestampExpired age) else Ok tt.
Proof.
  intros Hn. unfold validate_timestamp.
  destruct (generate_timestamp_ok now) as [-> Hb].
  destruct (base32_upper _ Hb) as [Ha Hu]. rewrite to_upper_ascii, Hu by done.
  unfold generate_timestamp. cbn [negb Nat.eqb str1].
  rewrite !base32_index_char by apply land31_range.
  rewrite !Z2Nat.id by apply land31_range.
  by rewrite code_split by by apply time_code_range.
Qed.

(** *** Domains *)

Lemma host_lower d : srs_host d -> srs_host (to_lower d).
Proof.
  intros [Hne Hd].
  assert (is_ascii d = true) as Ha.
  { revert Hd. apply sall_impl. unfold host_byte, plain_byte. intros c Hc. bool_norm. tauto. }
  rewrite to_lower_ascii by done. split; [by destruct d|]. rewrite sall_smap.
  revert Hd. apply sall_impl. intros c. unfold host_byte.
  destruct (is_upper c) eqn:Hu; [|by unfold lower_char; rewrite Hu].
  intros _. clear -Hu. destruct c as [[] [] [] [] [] [] [] []]; vm_compute in Hu; done.
Qed.

Lemma domain_at_in s i :
  0 <= i < Z.of_nat (length (domains s)) -> In (domain_at s i) (domains s).
Proof. intros. apply nth_In. lia. Qed.

Lemma select_domain_in s sender base s' :
  domains s <> [] -> select_domain s sender = (base, s') ->
  In base (domains s) /\ s' = set_counter s (counter s').
Proof.
  intros Hne. unfold select_domain.
  assert (0 < Z.of_nat (length (domains s))) by (destruct (domains s); simpl; [done|lia]).
  repeat case_match; intros [= <- <-]; (split; [apply domain_at_in|by destruct s]);
    bool_norm; try lia; apply Z.mod_pos_bound; lia.
Qed.

Lemma wf_set_counter s sep c : wf_srs s sep -> wf_srs (set_counter s c) sep.
Proof. by intros []. Qed.

Lemma build_srs_domain_host s base dom :
  srs_host base -> srs_host dom -> srs_host (build_srs_domain s base dom).
Proof.
  intros Hb Hd. unfold build_srs_domain.
  destruct (useDynamicSubdomain s); cbn [negb orb]; [|done].
  destruct (is_empty dom); [done|].
  destruct (host_lower dom Hd) as [_ Hl]. destruct Hb as [_ Hb].
  split.
  { intros E%(f_equal slen). rewrite !slen_app in E. simpl in E. lia. }
  rewrite !sall_app, Hb. by rewrite sall_replace_all.
Qed.

(** A domain in lower case has a separator where the domain has one. *)
Lemma lower_no_sep sep d :
  sep_byte sep = true -> is_ascii d = true -> no_byte sep d = true -> no_byte sep (to_lower d) = true.
Proof.
  intros Hs Ha. rewrite to_lower_ascii by done. unfold no_byte. rewrite sall_smap. apply sall_impl. intros c Hc.
  destruct (is_upper c) eqn:Hu; [|by unfold lower_char; rewrite Hu].
  apply negb_true_iff, bool_decide_eq_false. intros ->. unfold sep_byte in Hs.
  clear -Hu Hs. destruct c as [[] [] [] [] [] [] [] []]; vm_compute in Hu; done.
Qed.

Lemma host_ascii d : srs_host d -> is_ascii d = true.
Proof. intros [_ Hd]. revert Hd. apply sall_impl. unfold host_byte, plain_byte. intros c Hc. bool_norm. tauto. Qed.

(** Where no SRS domain has a separator, and none can come with a subdomain. *)
Definition clear_hosts (s : SRS) (sep : ascii) (dom : string) : Prop :=
  Forall (fun d => no_byte sep d = true) (domains s) /\
  (useDynamicSubdomain s = true -> sep <> "-"%char /\ sep <> "."%char /\ no_byte sep dom = true).

Lemma build_srs_domain_clear s sep base dom :
  sep_byte sep = true -> clear_hosts s sep dom -> srs_host dom -> In base (domains s) ->
  no_byte sep (build_srs_domain s base dom) = true.
Proof.
  intros Hsep [Hds Hdyn] Hd Hb. pose proof (proj1 (List.Forall_forall _ _) Hds _ Hb) as Hbase. cbn beta in Hbase.
  unfold build_srs_domain. destruct (useDynamicSubdomain s); cbn [negb orb]; [|done].
  destruct (is_empty dom); [done|]. destruct (Hdyn eq_refl) as (Hdash & Hdot & Hdom).
  rewrite !no_byte_app, Hbase, andb_true_r. apply andb_true_intro. split.
  - unfold no_byte. apply sall_replace_all; [|simpl; by rewrite bool_decide_false].
    apply lower_no_sep; [done|by apply host_ascii|done].
  - unfold no_byte. simpl. by rewrite bool_decide_false.
Qed.

(** *** Splitting an SRS address *)

Lemma sapp_cons_str1 c b : str1 c +:+ b = String c b.
Proof. done. Qed.

Lemma srs0_split sep hash ts rest :
  sep_byte sep = true -> sall is_base32 hash = true -> sall is_base32 ts = true ->
  split_n 5 (str1 sep) ("SRS0" +:+ str1 sep +:+ hash +:+ str1 sep +:+ ts +:+ str1 sep +:+ rest) =
  "SRS0" :: hash :: ts :: split_n 2 (str1 sep) rest.
Proof.
  intros Hs Hh Ht. rewrite !sapp_cons_str1.
  assert (no_byte sep "SRS0" = true).
  { clear -Hs. destruct sep as [[] [] [] [] [] [] [] []]; vm_compute in Hs; done. }
  by do 3 (rewrite split_n_cons by eauto using sep_no_base32).
Qed.

Lemma srs1_split sep hash dom lp :
  sep_byte sep = true -> sall is_base32 hash = true -> no_byte sep dom = true ->
  split_n 4 (str1 sep) ("SRS1" +:+ str1 sep +:+ hash +:+ str1 sep +:+ dom +:+ str1 sep +:+ lp) =
  ["SRS1"; hash; dom; lp].
Proof.
  intros Hs Hh Hd. rewrite !sapp_cons_str1.
  assert (no_byte sep "SRS1" = true).
  { clear -Hs. destruct sep as [[] [] [] [] [] [] [] []]; vm_compute in Hs; done. }
  do 3 (rewrite split_n_cons by eauto using sep_no_base32). by rewrite split_n_one.
Qed.

(** The local part of an SRS0 address. *)
Definition srs0_local (s : SRS) (now : Z) (lp dom : string) : string :=
  let ts := generate_timestamp now in
  "SRS0" +:+ separator s +:+ generate_hash s [ts; dom; lp] +:+ separator s +:+ ts
    +:+ separator s +:+ dom +:+ separator s +:+ lp.

Lemma sep_no_at sep : sep_byte sep = true -> no_byte "@" (str1 sep) = true.
Proof.
  unfold sep_byte. intros. bool_norm. destruct H0 as [_ H0]. unfold no_byte. simpl.
  by rewrite bool_decide_false by congruence.
Qed.

Lemma srs0_local_no_at s sep now lp dom :
  wf_srs s sep -> no_byte "@" lp = true -> srs_host dom ->
  no_byte "@" (srs0_local s now lp dom) = true.
Proof.
  intros Hw Hlp [_ Hd]. unfold srs0_local.
  rewrite (wf_separator _ _ Hw), !no_byte_app, Hlp, (host_no_at _ Hd).
  rewrite sep_no_at by by eapply wf_sep_byte.
  set (h := generate_hash _ _). set (t := generate_timestamp _).
  assert (sall is_base32 h = true) as Hh by apply generate_hash_ok, Hw.
  assert (sall is_base32 t = true) as Ht by apply generate_timestamp_ok.
  by rewrite !(base32_no_byte "@" h), !(base32_no_byte "@" t).
Qed.

(** The address that comes back: the domain ends at its first separator, and
    what follows goes to the front of the local part. *)
Definition given_back (sep : ascii) (lp dom : string) : string :=
  match index_byte sep dom with
  | None => lp +:+ "@" +:+ dom
  | Some i => sdrop (S i) dom +:+ str1 sep +:+ lp +:+ "@" +:+ stake i dom
  end.

Lemma split_first sep a b :
  split_n 2 (str1 sep) (a +:+ String sep b) =
  match index_byte sep a with
  | None => [a; b]
  | Some i => [stake i a; sdrop (S i) a +:+ String sep b]
  end.
Proof.
  destruct (index_byte sep a) as [i|] eqn:Hi.
  - destruct (index_byte_split _ _ _ Hi) as [Ha Hn]. rewrite Ha at 1. rewrite sapp_assoc. cbn [String.append].
    by rewrite split_n_cons, split_n_one.
  - apply index_byte_None in Hi. by rewrite split_n_cons, split_n_one.
Qed.

(** The hash covers the parts as they are joined, whatever they are. *)
Lemma hash_regroup s sep ts dom lp i :
  separator s = str1 sep -> index_byte sep dom = Some i ->
  generate_hash s [ts; stake i dom; sdrop (S i) dom +:+ String sep lp] = generate_hash s [ts; dom; lp].
Proof.
  intros Hs Hi. unfold generate_hash. rewrite Hs. destruct (index_byte_split _ _ _ Hi) as [Hd _].
  set (a := stake i dom) in *. set (b := sdrop (S i) dom) in *. clearbody a b. subst dom.
  assert (join [ts; a; b +:+ String sep lp] (str1 sep) = join [ts; a +:+ String sep b; lp] (str1 sep)) as ->; [|done].
  cbn [join]. by rewrite !sapp_assoc.
Qed.

Lemma reverse_srs0_ok s sep now later lp dom :
  wf_srs s sep -> 0 <= now ->
  validate_timestamp s later (generate_timestamp now) = Ok tt ->
  reverse_srs0 s later (srs0_local s now lp dom) = Ok (given_back sep lp dom).
Proof.
  intros Hw Hn Hv. unfold reverse_srs0, srs0_local.
  rewrite (wf_separator _ _ Hw), srs0_split; [|apply Hw|apply generate_hash_ok, Hw|apply generate_timestamp_ok].
  rewrite sapp_cons_str1, split_first. unfold given_back.
  destruct (index_byte sep dom) as [i|] eqn:Hi;
    change (seqb (to_upper "SRS0") "SRS0") with true; cbn [negb]; rewrite Hv.
  - rewrite (hash_regroup s sep) by (done || apply Hw). rewrite seqb_refl.
    by rewrite sapp_cons_str1, !sapp_assoc.
  - by rewrite seqb_refl.
Qed.

Lemma reverse_fuel_srs0 s sep now later lp dom host n :
  wf_srs s sep -> no_byte "@" lp = true -> srs_host dom -> srs_host host -> 0 <= now ->
  validate_timestamp s later (generate_timestamp now) = Ok tt ->
  reverse_fuel (S n) s later (srs0_local s now lp dom +:+ "@" +:+ host) = Ok (given_back sep lp dom).
Proof.
  intros Hw Hlp Hd Hh Hn Hv. cbn [reverse_fuel].
  assert (is_empty (srs0_local s now lp dom +:+ "@" +:+ host) = false) as -> by done.
  rewrite parse_email_canonical; [| by eapply srs0_local_no_at | done | done | ].
  2:{ by do 2 eexists. }
  unfold srs0_local at 1. rewrite (wf_separator _ _ Hw).
  rewrite has_srs_prefix_tag by (done || apply Hw).
  by eapply reverse_srs0_ok.
Qed.

Lemma reverse_fuel_srs1 s sep later lp dom host n r :
  wf_srs s sep -> no_byte "@" lp = true -> srs_host dom -> no_byte sep dom = true -> srs_host host ->
  reverse_fuel n s later (lp +:+ "@" +:+ dom) = r ->
  reverse_fuel (S n) s later
    ("SRS1" +:+ separator s +:+ generate_hash s [dom; lp; ""] +:+ separator s +:+ dom
       +:+ separator s +:+ lp +:+ "@" +:+ host) = r.
Proof.
  intros Hw Hlp Hd Hsep Hh Hr.
  set (l := "SRS1" +:+ separator s +:+ generate_hash s [dom; lp; ""] +:+ separator s +:+ dom
              +:+ separator s +:+ lp).
  match goal with |- reverse_fuel _ _ _ ?a = _ => replace a with (l +:+ "@" +:+ host) end.
  2:{ unfold l. by rewrite !sapp_assoc. }
  assert (sall is_base32 (generate_hash s [dom; lp; ""]) = true) as Hb
    by apply generate_hash_ok, Hw.
  assert (no_byte "@" l = true) as Hl.
  { unfold l. rewrite (wf_separator _ _ Hw), !no_byte_app, Hlp, (host_no_at _ (proj2 Hd)).
    rewrite (base32_no_byte "@" _ eq_refl Hb), sep_no_at; [done|apply Hw]. }
  cbn [reverse_fuel].
  assert (is_empty (l +:+ "@" +:+ host) = false) as -> by done.
  rewrite parse_email_canonical; [|done|done|done|by do 2 eexists].
  assert (has_srs_prefix s "SRS1" l = true) as ->.
  { unfold l. rewrite (wf_separator _ _ Hw). by apply has_srs_prefix_tag; [| apply Hw| |]; try apply Hw. }
  assert (has_srs_prefix s "SRS0" l = false) as ->.
  { unfold has_srs_prefix, l. rewrite to_upper_app by done.
    change (smap upper_char "SRS1") with "SRS1". destruct (to_upper _); done. }
  unfold l. rewrite (wf_separator _ _ Hw), srs1_split; [|apply Hw|done|done].
  change (seqb (to_upper "SRS1") "SRS1") with true. cbn [negb]. by rewrite seqb_refl.
Qed.

Lemma validate_window s later now :
  0 <= now -> 0 <= later ->
  validate_timestamp s later (generate_timestamp now) = Ok tt <->
  (days_since_epoch later - days_since_epoch now) mod 1024 <= maxAge s.
Proof.
  intros Hn Hl. rewrite validate_timestamp_code by done.
  pose proof (time_code_range now Hn). pose proof (time_code_range later Hl).
  assert ((days_since_epoch later - days_since_epoch now) mod 1024 =
          if time_code now <=? time_code later then time_code later - time_code now
          else (1024 - time_code now) + time_code later) as ->.
  { pose proof (days_nonneg now Hn). pose proof (days_nonneg later Hl).
    rewrite Zminus_mod, <- (Z.rem_mod_nonneg (days_since_epoch now)),
      <- (Z.rem_mod_nonneg (days_since_epoch later)) by lia.
    fold (time_code now) (time_code later).
    destruct (Z.leb_spec (time_code now) (time_code later)).
    - apply Z.mod_small. lia.
    - symmetry. apply Z.mod_unique with (-1); lia. }
  cbv zeta. generalize (if time_code now <=? time_code later then time_code later - time_code now
                        else (1024 - time_code now) + time_code later).
  intros age. destruct (Z.ltb_spec (maxAge s) age); (split; [|intros]); done || lia.
Qed.

(** *** Forwarding *)

Lemma forward_fresh s sep now sender lp dom :
  wf_srs s sep -> parse_email sender = Ok (lp, dom) -> srs_host dom ->
  has_srs_prefix s "SRS0" lp = false -> has_srs_prefix s "SRS1" lp = false ->
  exists c host,
    forward s now sender =
      (Ok (srs0_local s now lp dom +:+ "@" +:+ host), set_counter s c) /\ srs_host host /\
    (clear_hosts s sep dom -> no_byte sep host = true).
Proof.
  intros Hw Hp Hd H0 H1. unfold forward.
  assert (is_empty sender = false) as -> by (destruct sender; [done|done]).
  rewrite Hp, H0, H1. unfold forward_srs0.
  destruct (select_domain s sender) as [base s'] eqn:Hsel.
  apply select_domain_in in Hsel as [Hin Hs']; [|apply Hw].
  exists (counter s'), (build_srs_domain s base dom). split_and!.
  - rewrite <- Hs'. unfold srs0_local. cbv zeta. by rewrite !sapp_assoc.
  - apply build_srs_domain_host; [|done]. eapply List.Forall_forall; [apply Hw|done].
  - intros Hc. apply build_srs_domain_clear; [apply Hw|done..].
Qed.

(** The next hop forwards an SRS0 address. *)
Lemma forward_again s sep now' now lp dom host :
  wf_srs s sep -> no_byte "@" lp = true -> srs_host dom -> srs_host host ->
  let l := srs0_local s now lp dom in
  let host' := to_lower host in
  forward s now' (l +:+ "@" +:+ host) =
  (Ok ("SRS1" +:+ separator s +:+ generate_hash s [host'; l; ""] +:+ separator s +:+ host'
         +:+ separator s +:+ l +:+ "@" +:+ domain_at s 0), s).
Proof.
  intros Hw Hlp Hd Hh l host'. unfold forward.
  assert (is_empty (l +:+ "@" +:+ host) = false) as -> by done.
  rewrite parse_email_canonical; [| by eapply srs0_local_no_at |done|done|by do 2 eexists].
  fold host'.
  assert (has_srs_prefix s "SRS0" l = true) as ->.
  { unfold l, srs0_local. rewrite (wf_separator _ _ Hw).
    apply has_srs_prefix_tag; try apply Hw; done. }
  unfold forward_srs1.
  assert ((length (split l (separator s)) <? 2)%nat = false) as ->; [|done].
  apply Nat.ltb_ge. unfold split, l, srs0_local. rewrite (wf_separator _ _ Hw).
  rewrite !sapp_cons_str1.
  match goal with |- context [split_n _ _ ("SRS0" +:+ String sep ?r)] => set (rest := r) end.
  rewrite slen_app. cbn [slen Nat.add].
  rewrite split_n_cons; [cbn [length split_n]; destruct (index_str _ _); simpl; lia|].
  pose proof (wf_sep_byte _ _ Hw) as Hs. clear -Hs.
  destruct sep as [[] [] [] [] [] [] [] []]; vm_compute in Hs; done.
Qed.

(** *** Lengths, for the termination of [Reverse] *)

Lemma slen_trim_left_fn p s : (slen (trim_left_fn p s) <= slen s)%nat.
Proof. induction s as [|c s IH]; simpl; [done|]. destruct (p c); simpl; lia. Qed.

Lemma slen_trim s chars : (slen (trim s chars) <= slen s)%nat.
Proof.
  unfold trim, trim_right_fn. rewrite slen_sreverse.
  etrans; [apply slen_trim_left_fn|]. rewrite slen_sreverse. apply slen_trim_left_fn.
Qed.

Lemma slen_trim_spaces n spaces s : (slen (trim_spaces n spaces s) <= slen s)%nat.
Proof.
  revert s. induction n; intros s; simpl; [done|]. destruct (head_space spaces s); [|done].
  etrans; [apply IHn|]. rewrite slen_sdrop. lia.
Qed.

Lemma slen_trim_space s : (slen (trim_space s) <= slen s)%nat.
Proof.
  unfold trim_space, trim_space_right, trim_space_left. rewrite slen_sreverse.
  etrans; [apply slen_trim_spaces|]. rewrite slen_sreverse. apply slen_trim_spaces.
Qed.

Lemma parse_email_length email lp dom :
  parse_email email = Ok (lp, dom) -> (slen lp < slen email)%nat.
Proof.
  unfold parse_email. set (e := trim _ _).
  assert (slen e <= slen email)%nat by (etrans; [apply slen_trim|apply slen_trim_space]).
  destruct (count_byte "@" e =? 0)%nat; [done|].
  destruct (1 <? count_byte "@" e)%nat; [done|].
  destruct (index_byte "@" e) as [i|] eqn:Hi; [|done].
  destruct (i =? 0)%nat; [done|]. destruct (i =? slen e - 1)%nat; [done|]. intros [= <- <-].
  apply index_byte_split in Hi as [Hi _]. apply (f_equal slen) in Hi.
  rewrite slen_app in Hi. simpl in Hi. lia.
Qed.

Lemma index_str_bound sub s n : index_str sub s = Some n -> (n + slen sub <= slen s)%nat.
Proof.
  assert (Hp : forall t, has_prefix t sub = true -> (slen sub <= slen t)%nat).
  { intros t [r ->]%has_prefix_spec. rewrite slen_app. lia. }
  revert n. induction s as [|c s IH]; intros n; cbn [index_str].
  - destruct (has_prefix "" sub) eqn:E; [|done]. intros [= <-]. by apply Hp in E.
  - destruct (has_prefix (String c s) sub) eqn:E; [intros [= <-]; by apply Hp in E|].
    destruct (index_str sub s) as [m|]; [|done]. intros [= <-].
    specialize (IH m eq_refl). simpl. lia.
Qed.

(** Four parts of a string and the three separators between them. *)
Lemma split_n_4_length sep s a b c d :
  split_n 4 sep s = [a; b; c; d] ->
  (slen a + slen b + slen c + slen d + 3 * slen sep = slen s)%nat.
Proof.
  cbn [split_n].
  destruct (index_str sep s) as [n1|] eqn:E1; [|done]. apply index_str_bound in E1.
  set (s1 := sdrop _ s). assert (slen s1 = slen s - (n1 + slen sep))%nat by apply slen_sdrop.
  destruct (index_str sep s1) as [n2|] eqn:E2; [|done]. apply index_str_bound in E2.
  set (s2 := sdrop _ s1). assert (slen s2 = slen s1 - (n2 + slen sep))%nat by apply slen_sdrop.
  destruct (index_str sep s2) as [n3|] eqn:E3; [|done]. apply index_str_bound in E3.
  intros [= <- <- <- <-]. rewrite !slen_stake, slen_sdrop. lia.
Qed.

(** *** Round-robin selection *)

Fixpoint select_many (n : nat) (s : SRS) (sender : string) : list string :=
  match n with
  | O => []
  | S n => let '(d, s') := select_domain s sender in d :: select_many n s' sender
  end.

(** ** Properties *)

(** C15: the round trip of a first forward, with a separator of one ASCII
    character that is not a letter, a digit or "@", and a sender that is not an
    SRS address already and whose domain has printable ASCII characters only,
    other than "<" and ">".  If the two days are within [maxAge] of each other
    modulo the 1024 days of the time code, [Reverse] takes the address that
    [Forward] made; it gives the sender back, the domain in lower case, when
    the domain has no separator in it.  When it has, the hash still matches, and
    what follows the first separator of the domain comes back in front of the
    local part: another address, and no error. *)
Theorem srs0_round_trip s sep now later sender lp dom :
  wf_srs s sep -> parse_email sender = Ok (lp, dom) -> srs_host dom ->
  has_srs_prefix s "SRS0" lp = false -> has_srs_prefix s "SRS1" lp = false ->
  0 <= now -> 0 <= later ->
  (days_since_epoch later - days_since_epoch now) mod 1024 <= maxAge s ->
  exists a s', forward s now sender = (Ok a, s') /\
    reverse_srs s' later a =
      Ok match index_byte sep dom with
         | None => lp +:+ "@" +:+ dom
         | Some i => sdrop (S i) dom +:+ str1 sep +:+ lp +:+ "@" +:+ stake i dom
         end.
Proof.
  intros Hw Hp Hd H0 H1 Hn Hl Ha.
  destruct (forward_fresh s sep now sender lp dom) as (c & host & Hf & Hh & _); [done..|].
  do 2 eexists. split; [done|].
  change (srs0_local s now lp dom) with (srs0_local (set_counter s c) now lp dom).
  eapply (reverse_fuel_srs0 (set_counter s c) sep); try done.
  - by apply wf_set_counter.
  - by eapply parse_email_local.
  - by apply validate_window.
Qed.

(** C16: the round trip of a re-forward, under the conditions of the first
    one.  When a second hop with the same configuration forwards the SRS0
    address, and no SRS domain has the separator in it, and with dynamic
    subdomains the separator is neither "-" nor "." nor in the sender's domain,
    then the SRS1 address it produces is reversed in one call, to what the SRS0
    address is reversed to: the address of the original sender when its domain
    has no separator. *)
Theorem srs1_round_trip s sep now now' later sender lp dom :
  wf_srs s sep -> clear_hosts s sep dom -> parse_email sender = Ok (lp, dom) -> srs_host dom ->
  has_srs_prefix s "SRS0" lp = false -> has_srs_prefix s "SRS1" lp = false ->
  0 <= now -> 0 <= later ->
  (days_since_epoch later - days_since_epoch now) mod 1024 <= maxAge s ->
  exists a s' a' s'', forward s now sender = (Ok a, s') /\
    forward s' now' a = (Ok a', s'') /\
    reverse_srs s'' later a' = reverse_srs s' later a /\
    (no_byte sep dom = true -> reverse_srs s'' later a' = Ok (lp +:+ "@" +:+ dom)).
Proof.
  intros Hw Hc Hp Hd H0 H1 Hn Hl Ha.
  destruct (forward_fresh s sep now sender lp dom) as (c & host & Hf & Hh & Hsep); [done..|]. specialize (Hsep Hc).
  apply parse_email_local in Hp as [Hlp _]. set (s' := set_counter s c).
  assert (wf_srs s' sep) as Hw' by by apply wf_set_counter.
  pose proof (forward_again s' sep now' now lp dom host Hw' Hlp Hd Hh) as Hf'. cbv zeta in Hf'.
  assert (Hv : validate_timestamp s' later (generate_timestamp now) = Ok tt) by by apply validate_window.
  assert (srs_host (domain_at s' 0)) as Hb.
  { eapply List.Forall_forall; [apply (wf_hosts _ _ Hw)|]. apply domain_at_in.
    pose proof (wf_domains _ _ Hw). simpl. destruct (domains s); [done|]. simpl. lia. }
  assert (Hr0 : reverse_srs s' later (srs0_local s' now lp dom +:+ "@" +:+ host) = Ok (given_back sep lp dom))
    by by apply reverse_fuel_srs0.
  match type of Hf' with _ = (Ok ?x, _) => assert (Hr1 : reverse_srs s' later x = Ok (given_back sep lp dom)) end.
  { unfold reverse_srs.
    match goal with |- context [slen ("SRS1" +:+ ?y)] => change (slen ("SRS1" +:+ y)) with (S (slen ("RS1" +:+ y))) end.
    match goal with |- context [slen ("RS1" +:+ ?y)] => generalize (slen ("RS1" +:+ y)) end. intros m.
    eapply (reverse_fuel_srs1 s' sep); [done| | | |done|].
    - by apply srs0_local_no_at with sep.
    - by apply host_lower.
    - apply lower_no_sep; [apply Hw|by apply host_ascii|done].
    - apply (reverse_fuel_srs0 s' sep); try done. by apply host_lower. }
  do 4 eexists. split; [exact Hf|]. split; [exact Hf'|]. split; [by rewrite Hr1|].
  intros Hno. rewrite Hr1. unfold given_back. by apply index_byte_None in Hno as ->.
Qed.

(** C17: authenticity.  Whatever [Reverse] accepts as an SRS0 local part
    carries the HMAC, under the rewriter's secret, of the timestamp, the
    domain and the local part it returns, and a timestamp that passed the age
    check. *)
Theorem reverse_srs0_authentic s now localpart a :
  reverse_srs0 s now localpart = Ok a ->
  exists tag ts dom lp,
    split_n 5 (separator s) localpart = [tag; generate_hash s [ts; dom; lp]; ts; dom; lp] /\
    to_upper tag = "SRS0" /\ validate_timestamp s now ts = Ok tt /\ a = lp +:+ "@" +:+ dom.
Proof.
  unfold reverse_srs0.
  destruct (split_n _ _ _) as [|tag [|h [|ts [|dom [|lp [|]]]]]]; try done.
  destruct (seqb (to_upper tag) "SRS0") eqn:Ht; [|done]. cbn [negb].
  destruct (validate_timestamp s now ts) as [[]|] eqn:Hv; [|done].
  destruct (seqb h _) eqn:Hh; [|done]. intros [= <-]. bool_norm. subst h.
  by exists tag, ts, dom, lp.
Qed.

Lemma validate_timestamp_fuel s now t : validate_timestamp s now t <> Err OutOfFuel.
Proof.
  unfold validate_timestamp. destruct (negb _); [done|]. destruct (to_upper t) as [|c1 [|c2 r]]; [done..|].
  destruct (index_byte c1 _); [|done]. destruct (index_byte c2 _); [|done]. cbv zeta. by destruct (maxAge s <? _).
Qed.
Lemma reverse_srs0_fuel s now lp : reverse_srs0 s now lp <> Err OutOfFuel.
Proof.
  unfold reverse_srs0. destruct (split_n 5 (separator s) lp) as [|a [|b [|c [|d [|e [|f l]]]]]]; try done.
  destruct (negb _); [done|]. pose proof (validate_timestamp_fuel s now c) as Hv.
  destruct (validate_timestamp s now c) as [u|err]; [|congruence]. by destruct (negb _).
Qed.

(** C18: [Reverse] terminates: with a non-empty separator, which [NewSRS]
    guarantees, the mutual recursion of [Reverse] and [reverseSRS1] always
    reaches an answer, because each SRS1 layer is longer than its content. *)
Theorem reverse_terminates s now a :
  separator s <> "" -> reverse_srs s now a <> Err OutOfFuel.
Proof.
  intros Hs. unfold reverse_srs.
  assert (1 <= slen (separator s))%nat by (destruct (separator s); [done|simpl; lia]).
  generalize (Nat.lt_succ_diag_r (slen a)). generalize (S (slen a)) as n. intros n.
  revert a. induction n as [|n IH]; intros a Ha; [lia|]. cbn [reverse_fuel].
  destruct (is_empty a); [done|].
  destruct (parse_email a) as [[lp dom]|] eqn:Hp; [|done]. apply parse_email_length in Hp.
  destruct (has_srs_prefix s "SRS0" lp).
  { apply reverse_srs0_fuel. }
  destruct (has_srs_prefix s "SRS1" lp); [|done].
  destruct (split_n _ _ _) as [|t [|h [|d [|l [|]]]]] eqn:Hsp; try done.
  destruct (negb _); [done|]. destruct (negb _); [done|].
  apply split_n_4_length in Hsp. apply IH. rewrite !slen_app. simpl. lia.
Qed.

(** Round-robin selection is fair: from the counter [c], the next [n]
    choices walk through the domains in order, and never leave the list. *)
Theorem round_robin_fair s sender n :
  selection s = "round-robin" -> (1 < length (domains s))%nat ->
  0 <= counter s -> counter s + Z.of_nat n < 2 ^ 64 ->
  select_many n s sender =
  map (fun i => domain_at s ((counter s + Z.of_nat i) mod Z.of_nat (length (domains s)))) (seq 0 n).
Proof.
  revert s. induction n as [|n IH]; intros s Hsel Hlen Hc Hn; [done|].
  cbn [select_many seq map]. unfold select_domain at 1.
  destruct (Z.eqb_spec (Z.of_nat (length (domains s))) 1); [lia|].
  rewrite Hsel. change (seqb "round-robin" "round-robin") with true. cbn iota.
  unfold wrapu64. rewrite (Z.mod_small (counter s + 1)) by lia.
  rewrite (Z.mod_small (counter s + 1 - 1)) by lia.
  f_equal; [repeat f_equal; lia|].
  rewrite IH; [|done|done|simpl; lia|simpl; lia].
  rewrite <- seq_shift, map_map. apply map_ext. intros i. simpl.
  unfold domain_at. simpl. do 3 f_equal. lia.
Qed.

End SRS.

(** ** Witnesses and examples *)

Definition example_srs : SRS :=
  mkSRS ["srs.example.net"; "srs2.example.net"] "round-robin" 0 "0123456789abcdef" 21 4 "="
    {["gmail.com"]} true true true.

Lemma example_wf : @wf_srs example_srs "=".
Proof.
  split; [done|done|done| |done|done].
  repeat constructor; done.
Qed.

Example example_forward :
  fst (@forward plain_unicode example_srs (20000 * 86400 * second) "user@Example.com") =
  Ok "SRS0=W37Y=RA=example.com=user@example-com.srs.example.net".
Proof. vm_compute. reflexivity. Qed.

Lemma srs0_round_trip_witness :
  exists a s', @forward plain_unicode example_srs (20000 * 86400 * second) "user@example.com" = (Ok a, s') /\
    @reverse_srs plain_unicode s' (20010 * 86400 * second) a = Ok "user@example.com".
Proof.
  apply (@srs0_round_trip plain_unicode example_srs "=" (20000 * 86400 * second)
           (20010 * 86400 * second) "user@example.com" "user" "example.com").
  - exact example_wf.
  - vm_compute. reflexivity.
  - split; [done|vm_compute; reflexivity].
  - vm_compute. reflexivity.
  - vm_compute. reflexivity.
  - vm_compute. done.
  - vm_compute. done.
  - vm_compute. done.
Defined.

Lemma srs1_round_trip_witness :
  exists a s' a' s'', @forward plain_unicode example_srs (20000 * 86400 * second) "user@example.com" = (Ok a, s') /\
    @forward plain_unicode s' (20003 * 86400 * second) a = (Ok a', s'') /\
    @reverse_srs plain_unicode s'' (20010 * 86400 * second) a' =
      @reverse_srs plain_unicode s' (20010 * 86400 * second) a /\
    (no_byte "=" "example.com" = true ->
     @reverse_srs plain_unicode s'' (20010 * 86400 * second) a' = Ok "user@example.com").
Proof.
  apply (@srs1_round_trip plain_unicode example_srs "=" (20000 * 86400 * second)
           (20003 * 86400 * second) (20010 * 86400 * second) "user@example.com" "user" "example.com").
  - exact example_wf.
  - split; [by repeat constructor|done].
  - vm_compute. reflexivity.
  - split; [done|vm_compute; reflexivity].
  - vm_compute. reflexivity.
  - vm_compute. reflexivity.
  - vm_compute. done.
  - vm_compute. done.
  - vm_compute. done.
Defined.

Lemma reverse_srs0_authentic_witness :
  exists tag ts dom lp,
    split_n 5 "=" "SRS0=W37Y=RA=example.com=user" =
      [tag; @generate_hash plain_unicode example_srs [ts; dom; lp]; ts; dom; lp] /\
    @to_upper plain_unicode tag = "SRS0" /\
    @validate_timestamp plain_unicode example_srs (20000 * 86400 * second) ts = Ok tt /\
    "user@example.com" = lp +:+ "@" +:+ dom.
Proof.
  apply (@reverse_srs0_authentic plain_unicode example_srs (20000 * 86400 * second)).
  vm_compute. reflexivity.
Defined.

Lemma reverse_terminates_witness :
  @reverse_srs plain_unicode example_srs 0 "SRS1=XXXX=a.example=SRS0=YY" <> Err OutOfFuel.
Proof. apply (@reverse_terminates plain_unicode). done. Defined.

Lemma round_robin_fair_witness :
  @select_many plain_unicode 3 example_srs "user@example.com" =
  ["srs.example.net"; "srs2.example.net"; "srs.example.net"].
Proof.
  apply (@round_robin_fair plain_unicode example_srs "user@example.com" 3); by vm_compute.
Defined.

(** [NewSRS] accepts a separator with a lower-case letter, but [Forward] and
    [Reverse] look for it in the upper-cased local part: the rewritten address
    is never recognised again. *)
Example lowercase_separator_not_recognised :
  match @new_srs plain_unicode ["srs.example.net"] "" "0123456789abcdef" 21 4 "x" [] false false false with
  | Ok s => match @forward plain_unicode s 0 "user@test.org" with
            | (Ok a, s') => @reverse_srs plain_unicode s' 0 a = Err NotSRS
            | _ => False
            end
  | Err _ => False
  end.
Proof. vm_compute. reflexivity. Qed.

(** A two-byte timestamp whose upper case is one byte (U+0131, the dotless i)
    passes the length check and is then indexed out of range. *)
Definition dotless_unicode : Unicode := {|
  unicode_lower r := r;
  unicode_upper r := if r =? 305 then 73 else r;
  quote s := s
|}.

Example timestamp_index_panic :
  @validate_timestamp dotless_unicode example_srs 0 (bytes [196; 177]) = Err IndexOutOfRange.
Proof. vm_compute. reflexivity. Qed.

(** [NewSRS] also accepts "-", which domains have in them: the sender comes
    back as somebody else, and when an SRS domain has it, a bounce to an address
    that was forwarded twice is refused. *)
Definition dashed (domain : string) (dynamic : bool) : result config_error SRS :=
  @new_srs plain_unicode [domain] "" "0123456789abcdef" 21 4 "-" [] false false dynamic.
Example dash_comes_back_wrong :
  match dashed "srs.example.net" false with
  | Ok s => match @forward plain_unicode s 0 "user@my-host.org" with
            | (Ok a, s') => @reverse_srs plain_unicode s' 0 a = Ok "host.org-user@my"
            | _ => False
            end
  | Err _ => False
  end.
Proof. vm_compute. reflexivity. Qed.
Example dash_in_srs_domain :
  match dashed "srs-1.example.net" false with
  | Ok s => match @forward plain_unicode s 0 "user@test.org" with
            | (Ok a, s') => match @forward plain_unicode s' 0 a with
                            | (Ok a', s'') => (@reverse_srs plain_unicode s' 0 a, @reverse_srs plain_unicode s'' 0 a') =
                                              (Ok "user@test.org", Err NotSRS)
                            | _ => False
                            end
            | _ => False
            end
  | Err _ => False
  end.
Proof. vm_compute. reflexivity. Qed.
