(* ===== verification/NetIP.v ===== *)
(** * IP addresses and host:port strings (Go package [net])

    The functions of Go's [net] and [net/netip] that Strela calls, modelled
    exactly: [ParseIP], [IP.String], [IP.To4], [ParseCIDR], [SplitHostPort],
    [JoinHostPort].  An [IP] is a list of 4 or 16 bytes. *)

From stdpp Require Import base list strings pretty.
From Stdlib Require Import ZArith Lia Ascii.
From S2P Require Import Prelude GoString GoError.
#[local] Open Scope Z_scope.

Definition IP := list Z.

(** ** [net.ParseIP] *)

(** [parseIPv4Fields]: [acc] are the finished fields (reversed), [dl] the
    digits of the current one, [prev_dot] says the last byte was a dot (or
    that there is none yet). *)
Fixpoint parse_ipv4_fields (s : string) (acc : list Z) (val : Z) (dl : nat) (prev_dot : bool)
    : option (list Z) :=
  match s with
  | EmptyString => if (length acc =? 3)%nat then Some (rev (val :: acc)) else None
  | String c s' =>
      match digit_val c with
      | Some d =>
          if (dl =? 1)%nat && (val =? 0) then None
          else let val' := val * 10 + d in
               if 255 <? val' then None else parse_ipv4_fields s' acc val' (S dl) false
      | None =>
          if bool_decide (c = "."%char) then
            if prev_dot || is_empty s' || (length acc =? 3)%nat then None
            else parse_ipv4_fields s' (val :: acc) 0 0 true
          else None
      end
  end.
Definition parse_ipv4 (s : string) : option (list Z) := parse_ipv4_fields s [] 0 0 true.

Definition hex_val (c : ascii) : option Z :=
  if is_digit c then Some (byte_of c - 48)
  else if in_range 97 102 c then Some (byte_of c - 87)
  else if in_range 65 70 c then Some (byte_of c - 55)
  else None.

(** The hexadecimal digits at the head of [s]: their value, how many, and the
    rest; [None] when there are more than four. *)
Fixpoint hex_group (s : string) (acc : Z) (off : nat) : option (Z * nat * string) :=
  match s with
  | EmptyString => Some (acc, off, "")
  | String c s' =>
      match hex_val c with
      | Some d => if (3 <? off)%nat then None else hex_group s' (acc * 16 + d) (S off)
      | None => Some (acc, off, s)
      end
  end.

(** The loop of [parseIPv6]: [ip] the bytes so far, [ell] the position of the
    ellipsis. *)
Fixpoint parse_ipv6_loop (fuel : nat) (s : string) (ip : list Z) (ell : option nat)
    : option (list Z * option nat) :=
  match fuel with
  | O => None
  | S fuel =>
      if (16 <=? length ip)%nat then (if is_empty s then Some (ip, ell) else None)
      else
      match hex_group s 0 0 with
      | None => None
      | Some (acc, off, rest) =>
          if (off =? 0)%nat then None
          else
          match rest with
          | String c _ =>
              if bool_decide (c = "."%char) then
                if (match ell with None => negb (length ip =? 12)%nat | Some _ => false end)
                   || (16 <? length ip + 4)%nat then None
                else match parse_ipv4 s with
                     | Some f => Some (ip ++ f, ell)
                     | None => None
                     end
              else
              let ip := ip ++ [Z.shiftr acc 8; Z.land acc 255] in
              if negb (bool_decide (c = ":"%char)) then None
              else match sdrop 1 rest with
                   | EmptyString => None
                   | String d s2 =>
                       if bool_decide (d = ":"%char) then
                         match ell with
                         | Some _ => None
                         | None =>
                             if is_empty s2 then Some (ip, Some (length ip))
                             else parse_ipv6_loop fuel s2 ip (Some (length ip))
                         end
                       else parse_ipv6_loop fuel (String d s2) ip ell
                   end
          | EmptyString => Some (ip ++ [Z.shiftr acc 8; Z.land acc 255], ell)
          end
      end
  end.

(** [parseIPv6]: the 16 bytes and the zone. *)
Definition parse_ipv6 (s : string) : option (list Z * string) :=
  let parts := match index_byte "%" s with
               | Some i => if is_empty (sdrop (S i) s) then None
                           else Some (stake i s, sdrop (S i) s)
               | None => Some (s, "")
               end in
  match parts with
  | None => None
  | Some (s, zone) =>
      let start := if has_prefix s "::" then (sdrop 2 s, Some O) else (s, None) in
      if has_prefix s "::" && is_empty (sdrop 2 s) then Some (replicate 16 0, zone)
      else match parse_ipv6_loop 17 start.1 [] start.2 with
           | None => None
           | Some (ip, ell) =>
               let n := length ip in
               if (n <? 16)%nat then
                 match ell with
                 | None => None
                 | Some e => Some (take e ip ++ replicate (16 - n) 0 ++ drop e ip, zone)
                 end
               else match ell with Some _ => None | None => Some (ip, zone) end
           end
  end.

(** [netip.ParseAddr]: the first of [.], [:] and [%] decides; the result is
    the bytes (4 or 16) and the zone. *)
Fixpoint addr_kind (s : string) : option ascii :=
  match s with
  | EmptyString => None
  | String c s =>
      if bool_decide (c = "."%char) || bool_decide (c = ":"%char) || bool_decide (c = "%"%char)
      then Some c else addr_kind s
  end.
Definition parse_addr (s : string) : option (list Z * string) :=
  match addr_kind s with
  | Some c => if bool_decide (c = "."%char) then (fun b => (b, "")) <$> parse_ipv4 s
              else if bool_decide (c = ":"%char) then parse_ipv6 s
              else None
  | None => None
  end.

Definition v4InV6Prefix : list Z := [0; 0; 0; 0; 0; 0; 0; 0; 0; 0; 255; 255].
Definition as16 (b : list Z) : IP := if (length b =? 4)%nat then v4InV6Prefix ++ b else b.

(** [net.ParseIP]: always 16 bytes; no zone. *)
Definition parse_ip (s : string) : option IP :=
  match parse_addr s with
  | Some (b, zone) => if is_empty zone then Some (as16 b) else None
  | None => None
  end.

(** [IP.To4] *)
Definition to4 (ip : IP) : option IP :=
  if (length ip =? 4)%nat then Some ip
  else if (length ip =? 16)%nat && bool_decide (take 12 ip = v4InV6Prefix) then Some (drop 12 ip)
  else None.

(** ** [IP.String] *)

Definition hex_digit (z : Z) : ascii := if z <? 10 then chr (48 + z) else chr (87 + z).
Fixpoint hex_string (fuel : nat) (z : Z) (acc : string) : string :=
  match fuel with
  | O => acc
  | S fuel => let acc := String (hex_digit (z mod 16)) acc in
              if z / 16 =? 0 then acc else hex_string fuel (z / 16) acc
  end.

Fixpoint groups (b : list Z) : list Z :=
  match b with x :: y :: b => (x * 256 + y) :: groups b | _ => [] end.

Fixpoint zero_run (g : list Z) : nat :=
  match g with x :: g => if x =? 0 then S (zero_run g) else O | [] => O end.

(** The first longest run of at least two zero groups: [(start, end)]. *)
Fixpoint longest_zeros (i : nat) (g : list Z) (best : nat * nat) : nat * nat :=
  match g with
  | [] => best
  | _ :: g' =>
      let l := zero_run g in
      longest_zeros (S i) g'
        (if (2 <=? l)%nat && (best.2 - best.1 <? l)%nat then (i, i + l)%nat else best)
  end.

Definition ipv6_string (b : list Z) : string :=
  let g := groups b in
  let '(zs, ze) := longest_zeros 0 g (255, 255)%nat in
  let hex l := join (map (fun z => hex_string 4 z "") l) ":" in
  if (zs <? 8)%nat then hex (take zs g) +:+ "::" +:+ hex (drop ze g) else hex g.

Definition ip_string (ip : IP) : string :=
  match to4 ip with
  | Some b => join (map fmt_d b) "."
  | None => if (length ip =? 16)%nat then ipv6_string ip else "?"
  end.

(** ** [net.ParseCIDR] *)

Record IPNet : Type := mkIPNet { net_ip : IP; mask_ones : Z; mask_bits : Z }.

(** [IP.Mask] with [CIDRMask(ones, bits)], on [bits / 8] bytes. *)
Fixpoint mask_bytes (ip : list Z) (ones : Z) : list Z :=
  match ip with
  | [] => []
  | b :: ip =>
      Z.land b (if 8 <=? ones then 255 else 255 - Z.shiftr 255 ones)
        :: mask_bytes ip (Z.max 0 (ones - 8))
  end.

Definition parse_cidr (s : string) : option (IP * IPNet) :=
  match index_byte "/" s with
  | None => None
  | Some i =>
      let addr := stake i s in
      let mask := sdrop (S i) s in
      match parse_addr addr with
      | None => None
      | Some (b, zone) =>
          let bits := 8 * Z.of_nat (length b) in
          if negb (is_empty zone) then None
          else if is_empty mask || negb (sall is_digit mask) then None
          else match digits_val 0 mask with
               | Some n => if bits <? n then None
                           else Some (as16 b, mkIPNet (mask_bytes b n) n bits)
               | None => None
               end
      end
  end.

(** ** [net.SplitHostPort], [net.JoinHostPort] *)

Definition addr_error (hostport why : string) : error :=
  ErrText ("address " +:+ hostport +:+ ": " +:+ why).

Definition missingPort : string := "missing port in address".
Definition tooManyColons : string := "too many colons in address".

Definition no_brackets (hostport host port : string) (j k : nat) : result error (string * string) :=
  match index_byte "[" (sdrop j hostport), index_byte "]" (sdrop k hostport) with
  | Some _, _ => Err (addr_error hostport "unexpected '[' in address")
  | None, Some _ => Err (addr_error hostport "unexpected ']' in address")
  | None, None => Ok (host, port)
  end.

Definition split_host_port (hostport : string) : result error (string * string) :=
  match last_index_byte ":" hostport with
  | None => Err (addr_error hostport missingPort)
  | Some i =>
      let port := sdrop (S i) hostport in
      if has_prefix hostport "[" then
        match index_byte "]" hostport with
        | None => Err (addr_error hostport "missing ']' in address")
        | Some e =>
            if (S e =? slen hostport)%nat then Err (addr_error hostport missingPort)
            else if (S e =? i)%nat then
              no_brackets hostport (stake (e - 1) (sdrop 1 hostport)) port 1 (S e)
            else if bool_decide (snth hostport (S e) = Some ":"%char)
            then Err (addr_error hostport tooManyColons)
            else Err (addr_error hostport missingPort)
        end
      else
        let host := stake i hostport in
        match index_byte ":" host with
        | Some _ => Err (addr_error hostport tooManyColons)
        | None => no_brackets hostport host port 0 0
        end
  end.

Definition join_host_port (host port : string) : string :=
  match index_byte ":" host with
  | Some _ => "[" +:+ host +:+ "]:" +:+ port
  | None => host +:+ ":" +:+ port
  end.

(** ** Examples *)

Example parse_v4 : parse_ip "192.0.2.1" = Some (v4InV6Prefix ++ [192; 0; 2; 1]).
Proof. vm_compute. reflexivity. Qed.
Example parse_v4_bad :
  map parse_ip ["192.0.2"; "192.0.2.256"; "192.0.02.1"; ".1.2.3"; "1..2.3"; "1.2.3."; "1.2.3.4.5"; "a"]
  = replicate 8 None.
Proof. vm_compute. reflexivity. Qed.
Example parse_print_v6 :
  map (fun s => ip_string <$> parse_ip s)
    ["2001:DB8::1"; "::"; "::1"; "1:2:3:4:5:6:7:8"; "fe80:0:0:1::"; "::ffff:1.2.3.4"; "1:0:0:2:0:0:0:3";
     "64:ff9b::192.0.2.33"]
  = [Some "2001:db8::1"; Some "::"; Some "::1"; Some "1:2:3:4:5:6:7:8"; Some "fe80:0:0:1::";
     Some "1.2.3.4"; Some "1:0:0:2::3"; Some "64:ff9b::c000:221"].
Proof. vm_compute. reflexivity. Qed.
Example parse_v6_bad :
  map parse_ip [":1"; "1:"; "1::2::3"; "12345::"; "1:2:3:4:5:6:7"; "1:2:3:4:5:6:7:8:9"; "::1%eth0";
                "1:2:3:4:5:6:7:8::"]
  = replicate 8 None.
Proof. vm_compute. reflexivity. Qed.
Example parse_cidr_v4 :
  parse_cidr "192.0.2.77/26" =
  Some (v4InV6Prefix ++ [192; 0; 2; 77], mkIPNet [192; 0; 2; 64] 26 32).
Proof. vm_compute. reflexivity. Qed.
Example split_examples :
  map split_host_port ["[::1]:25"; "mail.example.com:25"; ":8083"]
  = [Ok ("::1", "25"); Ok ("mail.example.com", "25"); Ok ("", "8083")] /\
  map (fun s => is_ok (split_host_port s)) ["::1:25"; "host"; "[::1]"; "[::1]x:25"; "a[b:1"]
  = replicate 5 false.
Proof. vm_compute. done. Qed.
