(* ===== verification/Config.v ===== *)
(** * Configuration (internal/config/config.go)

    The configuration structures as the TOML decoder fills them, the defaults
    of [SetDefaults], the checks of [Validate], [LoadConfig] around them (the
    TOML decoder is a parameter) and the accessors.  A field [F] of the section
    [S] is the projection [s_F]. *)

From stdpp Require Import base gmap sets list strings pretty.
From Stdlib Require Import ZArith Lia Ascii.
From S2P Require Import Prelude GoString GoError NetIP.
#[local] Open Scope Z_scope.

Definition ProtocolSMTP : string := "smtp".
Definition ProtocolLMTP : string := "lmtp".
Definition IPModeDual : string := "dual".
Definition IPModeIPv4 : string := "ipv4".
Definition IPModeIPv6 : string := "ipv6".

(** ** The sections *)

Record LoggingConfig : Type := mkLoggingConfig {
  logging_Output : string;
  logging_Format : string;
  logging_Level : string
}.

Record InboundConfig : Type := mkInboundConfig {
  inbound_Listen : string;
  inbound_AuthToken : string;
  inbound_MaxBodySizeBytes : Z;
  inbound_ReadTimeoutSecs : Z;
  inbound_WriteTimeoutSecs : Z;
  inbound_IdleTimeoutSecs : Z;
  inbound_RateLimitEnabled : bool;
  inbound_RateLimitRequestsPerIP : Z;
  inbound_RateLimitWindowSeconds : Z;
  inbound_MaxConcurrentRequests : Z
}.

Record MetricsConfig : Type := mkMetricsConfig {
  metrics_Enabled : bool;
  metrics_Bind : string;
  metrics_Path : string;
  metrics_IncludeRecipientDomain : bool
}.

Record AdminConfig : Type := mkAdminConfig {
  admin_Enabled : bool;
  admin_Bind : string;
  admin_Username : string;
  admin_Password : string
}.

Record S3Config : Type := mkS3Config {
  s3_Bucket : string;
  s3_Region : string;
  s3_Endpoint : string;
  s3_Prefix : string;
  s3_AccessKey : string;
  s3_SecretKey : string
}.

Record LetsEncryptConfig : Type := mkLetsEncryptConfig {
  le_Email : string;
  le_Domains : list string;
  le_DefaultDomain : string;
  le_StorageProvider : string;
  le_CacheDir : string;
  le_SyncIntervalMinutes : Z;
  le_S3 : S3Config
}.

Record TLSConfig : Type := mkTLSConfig {
  tls_Enabled : bool;
  tls_CertFile : string;
  tls_KeyFile : string;
  tls_Provider : string;
  tls_LetsEncrypt : LetsEncryptConfig
}.

Record DNSConfig : Type := mkDNSConfig {
  dns_Resolvers : list string;
  dns_TimeoutSeconds : Z;
  dns_CacheTTLSeconds : Z;
  dns_CacheNegativeTTLSeconds : Z
}.

Record OutboundConfig : Type := mkOutboundConfig {
  out_DefaultProtocol : string;
  out_DefaultSMTPDestination : string;
  out_DefaultLMTPDestination : string;
  out_SourceIPsV4 : list string;
  out_SourceIPsV6 : list string;
  out_SMTPIPMode : string;
  out_LMTPIPMode : string;
  out_SMTPPreferIPv6 : bool;
  out_LMTPPreferIPv6 : bool;
  out_SourceIPSelection : string;
  out_MXCacheTTLSeconds : Z;
  out_ConnectionPoolTTLSeconds : Z;
  out_ConnectionTimeoutSeconds : Z;
  out_BannerTimeoutSeconds : Z;
  out_HandshakeTimeoutSeconds : Z;
  out_SMTPTimeoutSeconds : Z;
  out_MaxTotalDeliverySeconds : Z;
  out_MaxIPsPerMX : Z;
  out_HelloHostname : string;
  out_DataTerminationTimeoutSeconds : Z;
  out_SMTPPort : Z;
  out_LMTPPort : Z;
  out_SMTPImplicitTLS : bool;
  out_LMTPImplicitTLS : bool;
  out_LMTPTimeoutSeconds : Z;
  out_PerDomainIntervalSeconds : Z;
  out_PerDomainBurst : Z;
  out_RateLimitWhitelist : list string
}.

Record ReputationConfig : Type := mkReputationConfig {
  rep_AlertWebhookURL : string;
  rep_AlertAuthToken : string;
  rep_AlertTimeoutSeconds : Z;
  rep_DegradedRetryHours : Z;
  rep_EnableIPTracking : bool;
  rep_DegradedIPCleanupHours : Z;
  rep_DegradeFailureThreshold : Z;
  rep_DegradeWindowMinutes : Z
}.

Record ClusterConfig : Type := mkClusterConfig {
  cluster_Enabled : bool;
  cluster_Bind : string;
  cluster_Port : Z;
  cluster_Peers : list string;
  cluster_NodeID : string;
  cluster_SecretKey : string
}.

Record DKIMConfig : Type := mkDKIMConfig {
  dkim_Enabled : bool;
  dkim_Selector : string;
  dkim_Domain : string;
  dkim_PrivateKeyPath : string;
  dkim_SkipValidation : bool;
  dkim_HeaderCanon : string;
  dkim_BodyCanon : string;
  dkim_KeyDirectory : string;
  dkim_SelectorMapPath : string;
  dkim_KeyCacheSize : Z
}.

Record ARCConfig : Type := mkARCConfig {
  arc_Enabled : bool;
  arc_Selector : string;
  arc_Domain : string;
  arc_PrivateKeyPath : string;
  arc_HeaderCanon : string;
  arc_BodyCanon : string
}.

Record SRSConfig : Type := mkSRSConfig {
  srs_Enabled : bool;
  srs_Domains : list string;
  srs_Selection : string;
  srs_Secret : string;
  srs_MaxAge : Z;
  srs_HashLength : Z;
  srs_Separator : string;
  srs_SkipDomains : list string;
  srs_SkipIfDKIMPass : bool;
  srs_SkipIfSameDomain : bool;
  srs_UseDynamicSubdomain : bool
}.

Record Config : Type := mkConfig {
  Logging : LoggingConfig;
  Inbound : InboundConfig;
  TLS : TLSConfig;
  DNS : DNSConfig;
  Metrics : MetricsConfig;
  Admin : AdminConfig;
  Outbound : OutboundConfig;
  Reputation : ReputationConfig;
  Cluster : ClusterConfig;
  DKIM : DKIMConfig;
  ARC : ARCConfig;
  SRS_ : SRSConfig
}.

(** ** [SetDefaults] *)

Create Rewrite HintDb strela_config.

Definition default_string (v d : string) : string := if is_empty v then d else v.
Definition default_int (v d : Z) : Z := if v =? 0 then d else v.

Definition is_slash (c : ascii) : bool := bool_decide (c = "/"%char).

(** The S3 prefix without leading slashes and, when something is left, with a
    trailing one. *)
Definition normalize_prefix (p : string) : string :=
  let p := trim_left_fn is_slash p in
  match sreverse p with
  | EmptyString => p
  | String c _ => if is_slash c then p else p +:+ "/"
  end.

Definition set_defaults_logging (c : LoggingConfig) : LoggingConfig := {|
  logging_Output := default_string (logging_Output c) "stderr";
  logging_Format := default_string (logging_Format c) "console";
  logging_Level := default_string (logging_Level c) "info"
|}.

Definition set_defaults_inbound (c : InboundConfig) : InboundConfig := {|
  inbound_Listen := inbound_Listen c;
  inbound_AuthToken := inbound_AuthToken c;
  inbound_MaxBodySizeBytes := default_int (inbound_MaxBodySizeBytes c) (35 * 1024 * 1024);
  inbound_ReadTimeoutSecs := default_int (inbound_ReadTimeoutSecs c) 30;
  inbound_WriteTimeoutSecs := default_int (inbound_WriteTimeoutSecs c) 240;
  inbound_IdleTimeoutSecs := default_int (inbound_IdleTimeoutSecs c) 120;
  inbound_RateLimitEnabled := inbound_RateLimitEnabled c;
  inbound_RateLimitRequestsPerIP := default_int (inbound_RateLimitRequestsPerIP c) 100;
  inbound_RateLimitWindowSeconds := default_int (inbound_RateLimitWindowSeconds c) 60;
  inbound_MaxConcurrentRequests := inbound_MaxConcurrentRequests c
|}.

Definition set_defaults_metrics (c : MetricsConfig) : MetricsConfig := {|
  metrics_Enabled := metrics_Enabled c;
  metrics_Bind := default_string (metrics_Bind c) ":8083";
  metrics_Path := default_string (metrics_Path c) "/metrics";
  metrics_IncludeRecipientDomain := metrics_IncludeRecipientDomain c
|}.

Definition set_defaults_admin (c : AdminConfig) : AdminConfig := {|
  admin_Enabled := admin_Enabled c;
  admin_Bind := default_string (admin_Bind c) "127.0.0.1:8080";
  admin_Username := admin_Username c;
  admin_Password := admin_Password c
|}.

Definition set_defaults_s3 (c : S3Config) : S3Config := {|
  s3_Bucket := s3_Bucket c;
  s3_Region := s3_Region c;
  s3_Endpoint := s3_Endpoint c;
  s3_Prefix := normalize_prefix (s3_Prefix c);
  s3_AccessKey := s3_AccessKey c;
  s3_SecretKey := s3_SecretKey c
|}.

Definition set_defaults_le (c : LetsEncryptConfig) : LetsEncryptConfig := {|
  le_Email := le_Email c;
  le_Domains := le_Domains c;
  le_DefaultDomain := le_DefaultDomain c;
  le_StorageProvider := default_string (le_StorageProvider c) "s3";
  le_CacheDir := default_string (le_CacheDir c) "./letsencrypt-cache";
  le_SyncIntervalMinutes := le_SyncIntervalMinutes c;
  le_S3 := set_defaults_s3 (le_S3 c)
|}.

Definition set_defaults_tls (c : TLSConfig) : TLSConfig := {|
  tls_Enabled := tls_Enabled c;
  tls_CertFile := tls_CertFile c;
  tls_KeyFile := tls_KeyFile c;
  tls_Provider := default_string (tls_Provider c) "file";
  tls_LetsEncrypt := set_defaults_le (tls_LetsEncrypt c)
|}.

Definition set_defaults_out (hostname : string) (c : OutboundConfig) : OutboundConfig := {|
  out_DefaultProtocol := default_string (out_DefaultProtocol c) ProtocolSMTP;
  out_DefaultSMTPDestination := out_DefaultSMTPDestination c;
  out_DefaultLMTPDestination := out_DefaultLMTPDestination c;
  out_SourceIPsV4 := out_SourceIPsV4 c;
  out_SourceIPsV6 := out_SourceIPsV6 c;
  out_SMTPIPMode := default_string (out_SMTPIPMode c) IPModeDual;
  out_LMTPIPMode := default_string (out_LMTPIPMode c) IPModeIPv4;
  out_SMTPPreferIPv6 := out_SMTPPreferIPv6 c;
  out_LMTPPreferIPv6 := out_LMTPPreferIPv6 c;
  out_SourceIPSelection := default_string (out_SourceIPSelection c) "round-robin";
  out_MXCacheTTLSeconds := default_int (out_MXCacheTTLSeconds c) 3600;
  out_ConnectionPoolTTLSeconds := default_int (out_ConnectionPoolTTLSeconds c) 5;
  out_ConnectionTimeoutSeconds := default_int (out_ConnectionTimeoutSeconds c) 15;
  out_BannerTimeoutSeconds := default_int (out_BannerTimeoutSeconds c) 30;
  out_HandshakeTimeoutSeconds := default_int (out_HandshakeTimeoutSeconds c) 30;
  out_SMTPTimeoutSeconds := default_int (out_SMTPTimeoutSeconds c) 60;
  out_MaxTotalDeliverySeconds := default_int (out_MaxTotalDeliverySeconds c) 200;
  out_MaxIPsPerMX := default_int (out_MaxIPsPerMX c) 5;
  out_HelloHostname := default_string (out_HelloHostname c) (if is_empty hostname then "localhost" else hostname);
  out_DataTerminationTimeoutSeconds := default_int (out_DataTerminationTimeoutSeconds c) 600;
  out_SMTPPort := default_int (out_SMTPPort c) 25;
  out_LMTPPort := default_int (out_LMTPPort c) 24;
  out_SMTPImplicitTLS := out_SMTPImplicitTLS c;
  out_LMTPImplicitTLS := out_LMTPImplicitTLS c;
  out_LMTPTimeoutSeconds := default_int (out_LMTPTimeoutSeconds c) 60;
  out_PerDomainIntervalSeconds := default_int (out_PerDomainIntervalSeconds c) 2;
  out_PerDomainBurst := default_int (out_PerDomainBurst c) 10;
  out_RateLimitWhitelist := out_RateLimitWhitelist c
|}.

Definition set_defaults_dns (c : DNSConfig) : DNSConfig := {|
  dns_Resolvers := dns_Resolvers c;
  dns_TimeoutSeconds := default_int (dns_TimeoutSeconds c) 5;
  dns_CacheTTLSeconds := default_int (dns_CacheTTLSeconds c) 3600;
  dns_CacheNegativeTTLSeconds := default_int (dns_CacheNegativeTTLSeconds c) 60
|}.

Definition set_defaults_rep (c : ReputationConfig) : ReputationConfig := {|
  rep_AlertWebhookURL := rep_AlertWebhookURL c;
  rep_AlertAuthToken := rep_AlertAuthToken c;
  rep_AlertTimeoutSeconds := default_int (rep_AlertTimeoutSeconds c) 10;
  rep_DegradedRetryHours := default_int (rep_DegradedRetryHours c) 48;
  rep_EnableIPTracking := rep_EnableIPTracking c;
  rep_DegradedIPCleanupHours := default_int (rep_DegradedIPCleanupHours c) 168;
  rep_DegradeFailureThreshold := default_int (rep_DegradeFailureThreshold c) 3;
  rep_DegradeWindowMinutes := default_int (rep_DegradeWindowMinutes c) 30
|}.

Definition set_defaults_arc (c : ARCConfig) : ARCConfig := {|
  arc_Enabled := arc_Enabled c;
  arc_Selector := arc_Selector c;
  arc_Domain := arc_Domain c;
  arc_PrivateKeyPath := arc_PrivateKeyPath c;
  arc_HeaderCanon := default_string (arc_HeaderCanon c) "relaxed";
  arc_BodyCanon := default_string (arc_BodyCanon c) "relaxed"
|}.

Definition set_defaults_srs (c : SRSConfig) : SRSConfig := {|
  srs_Enabled := srs_Enabled c;
  srs_Domains := srs_Domains c;
  srs_Selection := default_string (srs_Selection c) "round-robin";
  srs_Secret := srs_Secret c;
  srs_MaxAge := default_int (srs_MaxAge c) 21;
  srs_HashLength := default_int (srs_HashLength c) 4;
  srs_Separator := default_string (srs_Separator c) "=";
  srs_SkipDomains := srs_SkipDomains c;
  srs_SkipIfDKIMPass := srs_SkipIfDKIMPass c;
  srs_SkipIfSameDomain := srs_SkipIfSameDomain c;
  srs_UseDynamicSubdomain := srs_UseDynamicSubdomain c
|}.

(** [hostname] is the answer of [os.Hostname], [""] on error. *)
Definition set_defaults (hostname : string) (c : Config) : Config := {|
  Logging := set_defaults_logging (Logging c);
  Inbound := set_defaults_inbound (Inbound c);
  TLS := set_defaults_tls (TLS c);
  DNS := set_defaults_dns (DNS c);
  Metrics := set_defaults_metrics (Metrics c);
  Admin := set_defaults_admin (Admin c);
  Outbound := set_defaults_out hostname (Outbound c);
  Reputation := set_defaults_rep (Reputation c);
  Cluster := Cluster c;
  DKIM := DKIM c;
  ARC := set_defaults_arc (ARC c);
  SRS_ := set_defaults_srs (SRS_ c)
|}.

(** ** [Validate] *)

(** [validateHostPort] *)
Definition validate_host_port (value fieldName : string) : result error unit :=
  if is_empty value then Ok tt
  else match split_host_port value with
       | Err e => Err (ErrWrap (fieldName +:+ " must be in 'host:port' format: " +:+ error_text e) e)
       | Ok (host, port) =>
           if is_empty host then Err (ErrText (fieldName +:+ " host cannot be empty"))
           else if is_empty port then Err (ErrText (fieldName +:+ " port cannot be empty"))
           else Ok tt
       end.

Definition valid_ip_mode (m : string) : bool :=
  existsb (seqb m) [""; IPModeDual; IPModeIPv4; IPModeIPv6].

Definition validate (c : Config) : result error unit :=
  let o := Outbound c in
  if negb (seqb (out_DefaultProtocol o) ProtocolSMTP) && negb (seqb (out_DefaultProtocol o) ProtocolLMTP)
  then Err (ErrText ("outbound.default_protocol must be 'smtp' or 'lmtp', got: "
                       +:+ out_DefaultProtocol o))
  else if seqb (out_DefaultProtocol o) ProtocolLMTP && is_empty (out_DefaultLMTPDestination o)
  then Err (ErrText "outbound.default_lmtp_destination is required when default_protocol is 'lmtp'")
  else if negb (valid_ip_mode (out_SMTPIPMode o))
  then Err (ErrText ("outbound.smtp_ip_mode must be 'dual', 'ipv4', or 'ipv6', got: "
                       +:+ out_SMTPIPMode o))
  else if negb (valid_ip_mode (out_LMTPIPMode o))
  then Err (ErrText ("outbound.lmtp_ip_mode must be 'dual', 'ipv4', or 'ipv6', got: "
                       +:+ out_LMTPIPMode o))
  else
  let? _ := validate_host_port (out_DefaultLMTPDestination o) "outbound.default_lmtp_destination" in
  let? _ := validate_host_port (out_DefaultSMTPDestination o) "outbound.default_smtp_destination" in
  Ok tt.

(** ** [LoadConfig] *)

Definition set_prefer (smtp lmtp : bool) (c : Config) : Config :=
  let o := Outbound c in
  let o' := mkOutboundConfig (out_DefaultProtocol o) (out_DefaultSMTPDestination o)
    (out_DefaultLMTPDestination o) (out_SourceIPsV4 o) (out_SourceIPsV6 o) (out_SMTPIPMode o)
    (out_LMTPIPMode o) smtp lmtp (out_SourceIPSelection o) (out_MXCacheTTLSeconds o)
    (out_ConnectionPoolTTLSeconds o) (out_ConnectionTimeoutSeconds o) (out_BannerTimeoutSeconds o)
    (out_HandshakeTimeoutSeconds o) (out_SMTPTimeoutSeconds o) (out_MaxTotalDeliverySeconds o)
    (out_MaxIPsPerMX o) (out_HelloHostname o) (out_DataTerminationTimeoutSeconds o)
    (out_SMTPPort o) (out_LMTPPort o) (out_SMTPImplicitTLS o) (out_LMTPImplicitTLS o)
    (out_LMTPTimeoutSeconds o) (out_PerDomainIntervalSeconds o) (out_PerDomainBurst o)
    (out_RateLimitWhitelist o) in
  mkConfig (Logging c) (Inbound c) (TLS c) (DNS c) (Metrics c) (Admin c) o' (Reputation c)
    (Cluster c) (DKIM c) (ARC c) (SRS_ c).

(** The defaults of the two [prefer_ipv6] flags depend on which keys the
    [outbound] table of the file has ([None]: there is no such table). *)
Definition apply_prefer_defaults (outboundKeys : option (gset string)) (c : Config) : Config :=
  match outboundKeys with
  | Some keys =>
      set_prefer
        (if bool_decide ("smtp_prefer_ipv6" ∈ keys) then out_SMTPPreferIPv6 (Outbound c) else true)
        (if bool_decide ("lmtp_prefer_ipv6" ∈ keys) then out_LMTPPreferIPv6 (Outbound c) else false)
        c
  | None => set_prefer true false c
  end.

(** The TOML decoder: the keys of the [outbound] table and the decoded
    structure. *)
Definition toml_decoder : Type := string -> result error (option (gset string) * Config).

(** [file] is the answer of [os.ReadFile]. *)
Definition load_config (decode : toml_decoder) (file : result error string) (hostname : string)
    : result error Config :=
  match file with
  | Err e => Err (ErrWrap ("failed to read config file: " +:+ error_text e) e)
  | Ok data =>
      match decode data with
      | Err e => Err (ErrWrap ("failed to parse config: " +:+ error_text e) e)
      | Ok (outboundKeys, config) =>
          let config := set_defaults hostname (apply_prefer_defaults outboundKeys config) in
          match validate config with
          | Err e => Err (ErrWrap ("invalid configuration: " +:+ error_text e) e)
          | Ok _ => Ok config
          end
      end
  end.

(** ** Accessors *)

Definition get_bind_addr (c : ClusterConfig) : string :=
  if is_empty (cluster_Bind c) then "0.0.0.0"
  else match split_host_port (cluster_Bind c) with
       | Ok (host, _) => host
       | Err _ => cluster_Bind c
       end.

(** [strconv.Atoi] with its 64-bit range check. *)
Definition atoi64 (s : string) : option Z :=
  match atoi s with
  | Some n => if (int64_min <=? n) && (n <=? int64_max) then Some n else None
  | None => None
  end.

Definition get_bind_port (c : ClusterConfig) : Z :=
  let fallback := if 0 <? cluster_Port c then cluster_Port c else 7946 in
  if negb (is_empty (cluster_Bind c)) then
    match split_host_port (cluster_Bind c) with
    | Ok (_, portStr) => match atoi64 portStr with Some p => p | None => fallback end
    | Err _ => fallback
    end
  else fallback.

Definition ip_mode_for_protocol (c : OutboundConfig) (protocol : string) : string :=
  if seqb protocol ProtocolLMTP then out_LMTPIPMode c else out_SMTPIPMode c.

Definition prefer_ipv6_for_protocol (c : OutboundConfig) (protocol : string) : bool :=
  if seqb protocol ProtocolLMTP then out_LMTPPreferIPv6 c else out_SMTPPreferIPv6 c.

(** ** Lemmas *)

Lemma default_string_idem v d : default_string (default_string v d) d = default_string v d.
Proof. unfold default_string. destruct (is_empty v) eqn:E; [by destruct (is_empty d)|by rewrite E]. Qed.
Lemma default_int_idem v d : default_int (default_int v d) d = default_int v d.
Proof. unfold default_int. destruct (v =? 0) eqn:E; [by destruct (d =? 0)|by rewrite E]. Qed.
Lemma default_int_nonzero v d : d <> 0 -> default_int v d <> 0.
Proof. unfold default_int. destruct (Z.eqb_spec v 0); done. Qed.
Lemma default_string_nonempty v d : d <> "" -> default_string v d <> "".
Proof. unfold default_string. destruct v; done. Qed.
#[export] Hint Rewrite default_string_idem default_int_idem : strela_config.

Lemma trim_left_head p s :
  match trim_left_fn p s with EmptyString => True | String c _ => p c = false end.
Proof. induction s as [|c s IH]; simpl; [done|]. destruct (p c) eqn:E; done. Qed.

Lemma trim_left_fn_done p s :
  match s with EmptyString => True | String c _ => p c = false end -> trim_left_fn p s = s.
Proof. destruct s as [|c s]; simpl; [done|]. by intros ->. Qed.

(** The normal form of an S3 prefix. *)
Definition prefix_normal (p : string) : Prop :=
  match p with EmptyString => True | String c _ => is_slash c = false end /\
  (p <> "" -> exists r, p = r +:+ "/").

Lemma normalize_prefix_normal p : prefix_normal (normalize_prefix p).
Proof.
  unfold normalize_prefix, prefix_normal. pose proof (trim_left_head is_slash p) as Hh.
  set (t := trim_left_fn is_slash p) in *. clearbody t.
  destruct (sreverse t) as [|d r] eqn:Hr.
  - rewrite <- (sreverse_involutive t), Hr. done.
  - destruct (is_slash d) eqn:Hd.
    + split; [done|]. intros _. exists (sreverse r).
      apply bool_decide_eq_true in Hd as ->.
      by rewrite <- (sreverse_involutive t), Hr, sreverse_cons.
    + split; [by destruct t|]. intros _. by exists t.
Qed.

Lemma normalize_prefix_idem p : normalize_prefix (normalize_prefix p) = normalize_prefix p.
Proof.
  destruct (normalize_prefix_normal p) as [Hh Ht].
  set (t := normalize_prefix p) in *. clearbody t. unfold normalize_prefix.
  rewrite trim_left_fn_done by done. destruct (decide (t = "")) as [->|Hne]; [done|].
  destruct (Ht Hne) as [r ->]. rewrite sreverse_app. done.
Qed.
#[export] Hint Rewrite normalize_prefix_idem : strela_config.

Lemma default_hostname_idem v h :
  default_string (default_string v (if is_empty h then "localhost" else h))
    (if is_empty h then "localhost" else h) =
  default_string v (if is_empty h then "localhost" else h).
Proof. apply default_string_idem. Qed.

Lemma validate_host_port_ok v f :
  validate_host_port v f = Ok tt -> v <> "" ->
  exists host port, split_host_port v = Ok (host, port) /\ host <> "" /\ port <> "".
Proof.
  unfold validate_host_port. intros Hv Hne. destruct v as [|c v]; [done|]. cbn [is_empty] in Hv.
  destruct (split_host_port (String c v)) as [[host port]|]; [|done]. exists host, port.
  destruct host, port; done.
Qed.

(** What [Validate] establishes. *)
Record valid_outbound (o : OutboundConfig) : Prop := {
  valid_protocol : out_DefaultProtocol o = ProtocolSMTP \/ out_DefaultProtocol o = ProtocolLMTP;
  valid_lmtp_dest : out_DefaultProtocol o = ProtocolLMTP -> out_DefaultLMTPDestination o <> "";
  valid_smtp_mode : valid_ip_mode (out_SMTPIPMode o) = true;
  valid_lmtp_mode : valid_ip_mode (out_LMTPIPMode o) = true;
  valid_destinations : forall v,
    v = out_DefaultLMTPDestination o \/ v = out_DefaultSMTPDestination o -> v <> "" ->
    exists host port, split_host_port v = Ok (host, port) /\ host <> "" /\ port <> ""
}.

Lemma validate_ok c : validate c = Ok tt -> valid_outbound (Outbound c).
Proof.
  unfold validate. destruct (negb _ && negb _) eqn:Hp; [done|].
  destruct (seqb _ _ && is_empty _) eqn:Hd; [done|].
  destruct (negb (valid_ip_mode (out_SMTPIPMode _))) eqn:Hs; [done|].
  destruct (negb (valid_ip_mode (out_LMTPIPMode _))) eqn:Hl; [done|].
  destruct (validate_host_port (out_DefaultLMTPDestination _) _) as [[]|] eqn:Hvl; [|done].
  destruct (validate_host_port (out_DefaultSMTPDestination _) _) as [[]|] eqn:Hvs; [|done].
  intros _. split.
  - apply andb_false_iff in Hp. bool_norm. tauto.
  - intros Hlm. rewrite Hlm in Hd. cbn in Hd. by apply is_empty_false.
  - by apply negb_false_flip.
  - by apply negb_false_flip.
  - intros v [->| ->] Hne; eauto using validate_host_port_ok.
Qed.

(** ** Properties *)

(** [SetDefaults] is idempotent: applying it to an already completed
    configuration (as a reload does) changes nothing. *)
Theorem set_defaults_idempotent hostname c :
  set_defaults hostname (set_defaults hostname c) = set_defaults hostname c.
Proof.
  unfold set_defaults. cbn [Logging Inbound TLS DNS Metrics Admin Outbound Reputation Cluster DKIM
    ARC SRS_]. f_equal.
  all: unfold set_defaults_logging, set_defaults_inbound, set_defaults_tls, set_defaults_dns,
    set_defaults_metrics, set_defaults_admin, set_defaults_out, set_defaults_rep, set_defaults_arc,
    set_defaults_srs; cbn; autorewrite with strela_config; try done.
  all: unfold set_defaults_le, set_defaults_s3; cbn; by autorewrite with strela_config.
Qed.

(** What the rest of the program may rely on after [LoadConfig]: a known
    protocol and IP modes, destinations that [net.SplitHostPort] accepts, and
    no zero timeout, port or limit that stood for a missing value. *)
Theorem load_config_valid decode file hostname c :
  load_config decode file hostname = Ok c ->
  valid_outbound (Outbound c) /\
  In (out_SMTPIPMode (Outbound c)) [IPModeDual; IPModeIPv4; IPModeIPv6] /\
  In (out_LMTPIPMode (Outbound c)) [IPModeDual; IPModeIPv4; IPModeIPv6] /\
  out_MaxTotalDeliverySeconds (Outbound c) <> 0 /\ out_SMTPTimeoutSeconds (Outbound c) <> 0 /\
  out_PerDomainBurst (Outbound c) <> 0 /\ out_PerDomainIntervalSeconds (Outbound c) <> 0 /\
  out_SMTPPort (Outbound c) <> 0 /\ out_HelloHostname (Outbound c) <> "" /\
  inbound_MaxBodySizeBytes (Inbound c) <> 0 /\ rep_DegradeWindowMinutes (Reputation c) <> 0 /\
  prefix_normal (s3_Prefix (le_S3 (tls_LetsEncrypt (TLS c)))).
Proof.
  unfold load_config. destruct file as [data|]; [|done].
  destruct (decode data) as [[keys c0]|]; [|done].
  destruct (validate _) as [[]|] eqn:Hv; [|done]. intros [= <-].
  apply validate_ok in Hv. split; [done|].
  set (c1 := apply_prefer_defaults keys c0) in *. clearbody c1.
  assert (Hmode : forall m d, In d [IPModeDual; IPModeIPv4; IPModeIPv6] ->
            valid_ip_mode (default_string m d) = true ->
            In (default_string m d) [IPModeDual; IPModeIPv4; IPModeIPv6]).
  { intros m d Hd Hm. assert (default_string m d <> "").
    { apply default_string_nonempty. intros ->. simpl in Hd. intuition discriminate. }
    apply existsb_exists in Hm as (x & Hx & He%seqb_true). rewrite <- He in Hx.
    destruct Hx as [Hx|Hx]; congruence. }
  destruct Hv as [_ _ Hs Hl _].
  split; [apply Hmode; [by left|done]|]. split; [apply Hmode; [by right; left|done]|].
  repeat split; cbn; try (apply default_int_nonzero; done); try apply normalize_prefix_normal.
  apply default_string_nonempty. by destruct hostname.
Qed.

(** ** Witnesses *)

(** The Go zero value of a configuration. *)
Definition zero_s3 : S3Config := mkS3Config "" "" "" "" "" "".
Definition zero_le : LetsEncryptConfig := mkLetsEncryptConfig "" [] "" "" "" 0 zero_s3.
Definition zero_outbound : OutboundConfig :=
  mkOutboundConfig "" "" "" [] [] "" "" false false "" 0 0 0 0 0 0 0 0 "" 0 0 0 false false 0 0 0 [].
Definition zero_reputation : ReputationConfig := mkReputationConfig "" "" 0 0 false 0 0 0.
Definition zero_config : Config :=
  mkConfig (mkLoggingConfig "" "" "") (mkInboundConfig "" "" 0 0 0 0 false 0 0 0) (mkTLSConfig false "" "" "" zero_le) (mkDNSConfig [] 0 0 0) (mkMetricsConfig false "" "" false)
    (mkAdminConfig false "" "" "") zero_outbound zero_reputation (mkClusterConfig false "" 0 [] "" "")
    (mkDKIMConfig false "" "" "" false "" "" "" "" 0) (mkARCConfig false "" "" "" "" "") (mkSRSConfig false [] "" "" 0 0 "" [] false false false).

(** An empty configuration file loads: everything has a default. *)
Definition default_config : Config := set_defaults "mail.example.com" (apply_prefer_defaults None zero_config).

Lemma load_config_valid_witness :
  valid_outbound (Outbound default_config) /\
  In (out_SMTPIPMode (Outbound default_config)) [IPModeDual; IPModeIPv4; IPModeIPv6] /\
  In (out_LMTPIPMode (Outbound default_config)) [IPModeDual; IPModeIPv4; IPModeIPv6] /\
  out_MaxTotalDeliverySeconds (Outbound default_config) <> 0 /\
  out_SMTPTimeoutSeconds (Outbound default_config) <> 0 /\
  out_PerDomainBurst (Outbound default_config) <> 0 /\
  out_PerDomainIntervalSeconds (Outbound default_config) <> 0 /\
  out_SMTPPort (Outbound default_config) <> 0 /\ out_HelloHostname (Outbound default_config) <> "" /\
  inbound_MaxBodySizeBytes (Inbound default_config) <> 0 /\
  rep_DegradeWindowMinutes (Reputation default_config) <> 0 /\
  prefix_normal (s3_Prefix (le_S3 (tls_LetsEncrypt (TLS default_config)))).
Proof.
  apply (load_config_valid (fun _ => Ok (None, zero_config)) (Ok "") "mail.example.com").
  vm_compute. reflexivity.
Defined.
