(* ===== verification/IPExpansion.v ===== *)
(** * Source addresses (internal/config/ip_expansion.go)

    [ExpandSourceIPs] turns the configured addresses and subnets into the
    addresses that outgoing connections are bound to; [expandCIDR] enumerates
    a subnet.  [expandSourceIPsFromConfig] (cmd/strela-server/main.go) combines
    the two configured lists. *)

From stdpp Require Import base list strings.
From Stdlib Require Import ZArith Lia Ascii.
From S2P Require Import Prelude GoString GoError NetIP Config.
#[local] Open Scope Z_scope.

Record ExpandedSourceIPs : Type := mkExpandedSourceIPs { IPv4 : list string; IPv6 : list string }.

(** [isIPv4] *)
Definition is_ipv4 (ipStr : string) : bool :=
  match parse_ip ipStr with
  | Some ip => match to4 ip with Some _ => true | None => false end
  | None => false
  end.

(** The carry loop, from the last byte to the first: the address is reversed. *)
Fixpoint add_carry (revIP : list Z) (carry : Z) : list Z :=
  match revIP with
  | [] => []
  | b :: revIP =>
      if carry =? 0 then b :: revIP
      else let val := b + Z.land carry 255 in
           (val mod 256) :: add_carry revIP (Z.shiftr carry 8 + Z.shiftr val 8)
  end.
Definition next_ip (ip : IP) (i : Z) : IP := rev (add_carry (rev ip) i).

(** Is the [i]-th address of the subnet left out? *)
Definition skip_host (bits ones numHosts i : Z) : bool :=
  ((bits =? 32) && (ones <? 31) && ((i =? 0) || (i =? numHosts - 1)))
  || ((bits =? 128) && (i =? 0)).

Definition expand_cidr (n : IPNet) : result error (list string) :=
  let ip := net_ip n in
  let ones := mask_ones n in
  let bits := mask_bits n in
  let numHosts := wrap64 (Z.shiftl 1 (bits - ones)) in
  if (bits =? 32) && (ones <? 22) then
    Err (ErrText ("IPv4 subnet too large (/" +:+ fmt_d ones
                    +:+ "), maximum allowed is /22 (1024 IPs)"))
  else if negb (bits =? 32) && (ones <? 120) then
    Err (ErrText ("IPv6 subnet too large (/" +:+ fmt_d ones
                    +:+ "), maximum allowed is /120 (256 IPs)"))
  else if 2048 <? numHosts then
    Err (ErrText ("subnet too large (" +:+ fmt_d numHosts +:+ " IPs), maximum 2048 allowed"))
  else
    Ok (map (fun i => ip_string (next_ip ip i))
          (List.filter (fun i => negb (skip_host bits ones numHosts i)) (seqZ 0 numHosts))).

Definition add_classified (r : ExpandedSourceIPs) (ip : string) : ExpandedSourceIPs :=
  if is_ipv4 ip then mkExpandedSourceIPs (IPv4 r ++ [ip]) (IPv6 r)
  else mkExpandedSourceIPs (IPv4 r) (IPv6 r ++ [ip]).

(** [ExpandSourceIPs], from the partial result [r]. *)
Fixpoint expand_from (r : ExpandedSourceIPs) (sourceIPs : list string)
    : result error ExpandedSourceIPs :=
  match sourceIPs with
  | [] => Ok r
  | entry :: rest =>
      match parse_cidr entry with
      | Some (_, ipNet) =>
          match expand_cidr ipNet with
          | Err e => Err (ErrWrap ("failed to expand CIDR " +:+ entry +:+ ": " +:+ error_text e) e)
          | Ok expanded => expand_from (foldl add_classified r expanded) rest
          end
      | None =>
          match parse_ip entry with
          | None => Err (ErrText ("invalid IP address: " +:+ entry))
          | Some ip => expand_from (add_classified r (ip_string ip)) rest
          end
      end
  end.
Definition expand_source_ips (sourceIPs : list string) : result error ExpandedSourceIPs :=
  expand_from (mkExpandedSourceIPs [] []) sourceIPs.

(** [expandSourceIPsFromConfig] *)
Definition expand_source_ips_from_config (cfg : OutboundConfig) : result error ExpandedSourceIPs :=
  match expand_source_ips (out_SourceIPsV4 cfg) with
  | Err e => Err (ErrWrap ("failed to expand source_ips_v4: " +:+ error_text e) e)
  | Ok v4 =>
      match expand_source_ips (out_SourceIPsV6 cfg) with
      | Err e => Err (ErrWrap ("failed to expand source_ips_v6: " +:+ error_text e) e)
      | Ok v6 => Ok (mkExpandedSourceIPs (IPv4 v4) (IPv6 v6))
      end
  end.

(** ** Lemmas *)

(** The number a little-endian list of bytes stands for, and back. *)
Fixpoint le_value (l : list Z) : Z := match l with [] => 0 | b :: l => b + 256 * le_value l end.
Fixpoint le_bytes (n : nat) (z : Z) : list Z :=
  match n with O => [] | S n => z mod 256 :: le_bytes n (z / 256) end.

Definition is_byte (b : Z) : Prop := 0 <= b < 256.
Definition ip_value (ip : IP) : Z := le_value (rev ip).
Definition ip_of_value (n : nat) (z : Z) : IP := rev (le_bytes n z).

Lemma le_bytes_value l : Forall is_byte l -> le_bytes (length l) (le_value l) = l.
Proof.
  induction 1 as [|b l Hb Hl IH]; [done|]. cbn [length le_value le_bytes]. unfold is_byte in Hb. f_equal.
  - rewrite (Z.mul_comm 256), Z_mod_plus_full. apply Z.mod_small. lia.
  - rewrite (Z.mul_comm 256), Z_div_plus_full by lia. by rewrite Z.div_small.
Qed.

Lemma add_carry_value l c :
  Forall is_byte l -> 0 <= c -> add_carry l c = le_bytes (length l) (le_value l + c).
Proof.
  intros Hl. revert c. induction Hl as [|b l Hb Hl IH]; intros c Hc; [done|].
  cbn [add_carry length le_value le_bytes]. destruct (Z.eqb_spec c 0) as [->|Hc0].
  - rewrite Z.add_0_r. rewrite <- (le_bytes_value (b :: l)) at 1 by by constructor. done.
  - change 255 with (Z.ones 8). rewrite Z.land_ones, !Z.shiftr_div_pow2 by lia.
    change (2 ^ 8) with 256.
    assert (Hm : c = 256 * (c / 256) + c mod 256) by (apply Z.div_mod; lia).
    set (q := c / 256) in *. set (r := c mod 256) in *.
    assert (0 <= r < 256) by (apply Z.mod_pos_bound; lia).
    assert (0 <= q) by (apply Z.div_pos; lia). unfold is_byte in Hb.
    replace (b + 256 * le_value l + c) with ((b + r) + (le_value l + q) * 256) by lia.
    f_equal.
    + by rewrite Z_mod_plus_full.
    + rewrite IH by (assert (0 <= (b + r) / 256) by (apply Z.div_pos; lia); lia).
      rewrite Z_div_plus_full by lia. f_equal. lia.
Qed.

Lemma next_ip_value ip i :
  Forall is_byte ip -> 0 <= i -> next_ip ip i = ip_of_value (length ip) (ip_value ip + i).
Proof.
  intros Hip Hi. unfold next_ip, ip_of_value, ip_value.
  rewrite add_carry_value, length_rev by (try done; by apply Forall_rev). done.
Qed.

Lemma is_ipv4_classified r ips :
  let r' := foldl add_classified r ips in
  (Forall (fun s => is_ipv4 s = true) (IPv4 r) -> Forall (fun s => is_ipv4 s = true) (IPv4 r')) /\
  (Forall (fun s => is_ipv4 s = false) (IPv6 r) -> Forall (fun s => is_ipv4 s = false) (IPv6 r')).
Proof.
  revert r. induction ips as [|ip ips IH]; intros r; simpl; [done|].
  destruct (IH (add_classified r ip)) as [H4 H6]. unfold add_classified in *.
  destruct (is_ipv4 ip) eqn:E; simpl in *; split; intros Hf; (apply H4 || apply H6); try done;
    apply Forall_app; split; try done; by constructor.
Qed.

Lemma expand_from_classified l r r' :
  expand_from r l = Ok r' ->
  (Forall (fun s => is_ipv4 s = true) (IPv4 r) -> Forall (fun s => is_ipv4 s = true) (IPv4 r')) /\
  (Forall (fun s => is_ipv4 s = false) (IPv6 r) -> Forall (fun s => is_ipv4 s = false) (IPv6 r')).
Proof.
  revert r. induction l as [|e l IH]; intros r; simpl; [by intros [= ->]|].
  destruct (parse_cidr e) as [[ip net]|].
  - destruct (expand_cidr net) as [ips|]; [|done]. intros H%IH.
    destruct (is_ipv4_classified r ips). intuition.
  - destruct (parse_ip e) as [ip|]; [|done]. intros H%IH.
    destruct (is_ipv4_classified r [ip_string ip]). intuition.
Qed.

(** ** Properties *)

(** The expansion of an IPv4 subnet of at most 1024 addresses is the
    arithmetic one: from the network address, every address below the
    broadcast address except the network address itself; a /31 gives both its
    addresses and a /32 its single one. *)
Theorem expand_cidr_v4 ip ones :
  length ip = 4%nat -> Forall is_byte ip -> 22 <= ones <= 32 ->
  expand_cidr (mkIPNet ip ones 32) =
  Ok (map (fun i => ip_string (ip_of_value 4 (ip_value ip + i)))
        (if ones <? 31 then seqZ 1 (2 ^ (32 - ones) - 2) else seqZ 0 (2 ^ (32 - ones)))).
Proof.
  intros Hl Hb Ho. unfold expand_cidr. cbn [mask_bits mask_ones net_ip].
  rewrite Z.shiftl_1_l.
  assert (Hp : 1 <= 2 ^ (32 - ones) <= 1024).
  { split; [pose proof (Z.pow_pos_nonneg 2 (32 - ones)); lia|].
    change 1024 with (2 ^ 10). apply Z.pow_le_mono_r; lia. }
  rewrite wrap64_id by (unfold int64_min, int64_max; lia).
  destruct (Z.ltb_spec ones 22); [lia|]. cbn [Z.eqb Pos.eqb negb andb].
  destruct (Z.ltb_spec 2048 (2 ^ (32 - ones))); [lia|]. f_equal.
  set (n := 2 ^ (32 - ones)) in *.
  assert (List.filter (fun i => negb (skip_host 32 ones n i)) (seqZ 0 n) =
          if ones <? 31 then seqZ 1 (n - 2) else seqZ 0 n) as ->.
  { unfold skip_host. cbn [Z.eqb Pos.eqb andb]. destruct (Z.ltb_spec ones 31) as [H31|H31]; cbn [andb].
    - assert (4 <= n).
      { change 4 with (2 ^ 2). apply Z.pow_le_mono_r; lia. }
      rewrite (seqZ_cons 0 n) by lia. cbn [List.filter]. rewrite Z.eqb_refl. cbn [orb negb].
      change (Z.succ 0) with 1.
      replace (Z.pred n) with ((n - 2) + 1) by lia.
      rewrite (seqZ_app 1 (n - 2) 1) by lia. rewrite List.filter_app.
      assert (seqZ (1 + (n - 2)) 1 = [1 + (n - 2)]) as -> by by rewrite seqZ_cons by lia.
      cbn [List.filter]. destruct (Z.eqb_spec (1 + (n - 2)) (n - 1)); [|lia].
      rewrite orb_true_r. cbn [negb orb]. rewrite app_nil_r.
      apply forallb_filter_id, forallb_forall. intros i Hi.
      apply list_elem_of_In, elem_of_seqZ in Hi.
      destruct (Z.eqb_spec i 0); [lia|]. destruct (Z.eqb_spec i (n - 1)); [lia|done].
    - apply forallb_filter_id, forallb_forall. done. }
  apply map_ext_in. intros i Hi. f_equal. rewrite <- Hl. apply next_ip_value; [done|].
  destruct (ones <? 31); apply list_elem_of_In, elem_of_seqZ in Hi; lia.
Qed.

(** The pools are sorted by version: whatever the configuration lists,
    every address that ends in the IPv4 pool is an IPv4 address, and none of
    the IPv6 pool is. *)
Theorem expanded_pools_sorted cfg r :
  expand_source_ips_from_config cfg = Ok r ->
  Forall (fun s => is_ipv4 s = true) (IPv4 r) /\ Forall (fun s => is_ipv4 s = false) (IPv6 r).
Proof.
  unfold expand_source_ips_from_config, expand_source_ips.
  destruct (expand_from _ (out_SourceIPsV4 cfg)) as [v4|] eqn:H4; [|done].
  destruct (expand_from _ (out_SourceIPsV6 cfg)) as [v6|] eqn:H6; [|done]. intros [= <-].
  apply expand_from_classified in H4 as [H4 _], H6 as [_ H6]. simpl in *. auto.
Qed.

(** ** Witnesses and examples *)

Lemma expand_cidr_v4_witness :
  expand_cidr (mkIPNet [192; 0; 2; 252] 30 32) = Ok ["192.0.2.253"; "192.0.2.254"].
Proof.
  apply (expand_cidr_v4 [192; 0; 2; 252] 30).
  - reflexivity.
  - repeat constructor; done.
  - done.
Defined.

Definition example_outbound : OutboundConfig :=
  mkOutboundConfig "smtp" "" "" ["192.0.2.8/30"; "2001:db8::1"; "198.51.100.7"] ["2001:db8::8/126"]
    "dual" "ipv4" true false "" 0 0 0 0 0 0 0 0 "" 0 25 24 false false 0 0 0 [].

Lemma expanded_pools_sorted_witness :
  Forall (fun s => is_ipv4 s = true) ["192.0.2.9"; "192.0.2.10"; "198.51.100.7"] /\
  Forall (fun s => is_ipv4 s = false) ["2001:db8::9"; "2001:db8::a"; "2001:db8::b"].
Proof.
  apply (expanded_pools_sorted example_outbound
           (mkExpandedSourceIPs ["192.0.2.9"; "192.0.2.10"; "198.51.100.7"]
              ["2001:db8::9"; "2001:db8::a"; "2001:db8::b"])).
  vm_compute. reflexivity.
Defined.

(** The first address of every IPv6 subnet is left out, not only the
    unspecified address: a /128 expands to nothing. *)
Example expand_v6_host_empty :
  expand_source_ips ["2001:db8::1/128"] = Ok (mkExpandedSourceIPs [] []).
Proof. vm_compute. reflexivity. Qed.
