(* ===== verification/Reload.v ===== *)
(** * Hot reload (internal/config/reload.go)

    [ReloadableConfig] swaps a new configuration in on SIGHUP.  The registered
    callbacks act on the running components, whose state is [W]; a callback
    returns its error and the new state.  The last section is the callback
    that cmd/strela-server/main.go registers. *)

From stdpp Require Import base gmap sets list strings.
From Stdlib Require Import ZArith Lia.
From S2P Require Import Prelude GoString GoError NetIP Config.
#[local] Open Scope Z_scope.

Section Reload.
Context {W : Type}.

Definition callback : Type := Config -> W -> option error * W.

Record ReloadableConfig : Type := mkReloadableConfig {
  config : Config;
  onReload : list callback
}.

(** [NewReloadableConfig] *)
Definition new_reloadable_config (loaded : result error Config) : result error ReloadableConfig :=
  let? cfg := loaded in Ok (mkReloadableConfig cfg []).

(** [Get], [GetInbound], [GetOutbound] *)
Definition rc_get (rc : ReloadableConfig) : Config := config rc.
Definition rc_get_inbound (rc : ReloadableConfig) : InboundConfig := Inbound (config rc).
Definition rc_get_outbound (rc : ReloadableConfig) : OutboundConfig := Outbound (config rc).

(** [RegisterReloadCallback] *)
Definition register_reload_callback (rc : ReloadableConfig) (cb : callback) : ReloadableConfig :=
  mkReloadableConfig (config rc) (onReload rc ++ [cb]).

(** [validateReload] *)
Definition validate_reload (oldCfg newCfg : Config) : result error unit :=
  if negb (seqb (inbound_Listen (Inbound oldCfg)) (inbound_Listen (Inbound newCfg))) then
    Err (ErrText ("http.listen cannot be changed during reload (old: "
                    +:+ inbound_Listen (Inbound oldCfg) +:+ ", new: "
                    +:+ inbound_Listen (Inbound newCfg) +:+ ")"))
  else Ok tt.

(** The callbacks run in order; the first error stops them. *)
Fixpoint run_callbacks (cbs : list callback) (newCfg : Config) (w : W) : option error * W :=
  match cbs with
  | [] => (None, w)
  | cb :: cbs =>
      match cb newCfg w with
      | (Some e, w') => (Some e, w')
      | (None, w') => run_callbacks cbs newCfg w'
      end
  end.

(** [Reload]; [loaded] is the result of [LoadConfig] on the same path. *)
Definition reload (rc : ReloadableConfig) (loaded : result error Config) (w : W)
    : option error * ReloadableConfig * W :=
  match loaded with
  | Err e => (Some (ErrWrap ("failed to reload config: " +:+ error_text e) e), rc, w)
  | Ok newConfig =>
      match validate_reload (config rc) newConfig with
      | Err e => (Some e, rc, w)
      | Ok _ =>
          match run_callbacks (onReload rc) newConfig w with
          | (Some e, w') =>
              (Some (ErrWrap ("reload callback failed: " +:+ error_text e) e), rc, w')
          | (None, w') => (None, mkReloadableConfig newConfig (onReload rc), w')
          end
      end
  end.

(** [LoadTLSConfig]; [load_pair] is [tls.LoadX509KeyPair]. *)
Definition load_tls_config {Cert : Type} (load_pair : string -> string -> result error Cert)
    (rc : ReloadableConfig) : result error Cert :=
  let t := TLS (config rc) in
  if negb (tls_Enabled t) then Err (ErrText "TLS not enabled")
  else if negb (seqb (tls_Provider t) "file") then
    Err (ErrText "LoadTLSConfig only supports file provider")
  else match load_pair (tls_CertFile t) (tls_KeyFile t) with
       | Err e => Err (ErrWrap ("failed to load TLS certificate: " +:+ error_text e) e)
       | Ok c => Ok c
       end.

(** ** Lemmas *)

Lemma validate_reload_ok o n :
  validate_reload o n = Ok tt <-> inbound_Listen (Inbound o) = inbound_Listen (Inbound n).
Proof.
  unfold validate_reload. destruct (seqb _ _) eqn:E; bool_norm; cbn [negb]; split; try done.
Qed.

(** [Reload] is all or nothing for the configuration: an error of any
    step leaves the old one in place; without an error the new one is the
    loaded one, with the same listen address, and every callback has run on
    it and succeeded. *)
Theorem reload_all_or_nothing rc loaded w err rc' w' :
  reload rc loaded w = (err, rc', w') ->
  match err with
  | Some _ => rc' = rc
  | None => exists c, loaded = Ok c /\ config rc' = c /\ onReload rc' = onReload rc /\
              inbound_Listen (Inbound c) = inbound_Listen (Inbound (config rc)) /\
              run_callbacks (onReload rc) c w = (None, w')
  end.
Proof.
  unfold reload. destruct loaded as [c|e]; [|by intros [= <- <- <-]].
  destruct (validate_reload (config rc) c) as [[]|] eqn:Hv; [|by intros [= <- <- <-]].
  apply validate_reload_ok in Hv.
  destruct (run_callbacks _ c w) as [[e|] w1] eqn:Hr; intros [= <- <- <-]; [done|].
  by exists c.
Qed.

End Reload.

(** ** The server's callback *)

(** The DNS settings of the MX lookup and the outbound settings of the
    deliverer. *)
Record components : Type := mkComponents { mx_config : DNSConfig; deliverer_config : OutboundConfig }.

Definition server_callback : @callback components :=
  fun newCfg w => (None, mkComponents (DNS newCfg) (Outbound newCfg)).

(** A sequence of SIGHUPs, each with the file it found. *)
Fixpoint reloads (rc : @ReloadableConfig components) (w : components)
    (files : list (result error Config)) : @ReloadableConfig components * components :=
  match files with
  | [] => (rc, w)
  | f :: files => let '(_, rc', w') := reload rc f w in reloads rc' w' files
  end.

Definition in_sync (rc : @ReloadableConfig components) (w : components) : Prop :=
  onReload rc = [server_callback] /\
  mx_config w = DNS (config rc) /\ deliverer_config w = Outbound (config rc).

(** After any sequence of reloads, failed or not, the components run with
    the DNS and outbound settings of the configuration that [Get] returns, and
    the listen address is still the one of the start. *)
Theorem reloads_in_sync rc w files :
  in_sync rc w ->
  let '(rc', w') := reloads rc w files in
  in_sync rc' w' /\
  inbound_Listen (Inbound (config rc')) = inbound_Listen (Inbound (config rc)).
Proof.
  revert rc w. induction files as [|f files IH]; intros rc w Hs; cbn [reloads]; [done|].
  destruct (reload rc f w) as [[err rc1] w1] eqn:Hr.
  assert (in_sync rc1 w1 /\ inbound_Listen (Inbound (config rc1)) = inbound_Listen (Inbound (config rc)))
    as [Hs1 Hl1].
  { destruct Hs as (Hcb & Hm & Hd). unfold reload in Hr. rewrite Hcb in Hr.
    destruct f as [c|e]; [|by injection Hr as <- <- <-].
    destruct (validate_reload (config rc) c) as [[]|] eqn:Hv; [|by injection Hr as <- <- <-].
    apply validate_reload_ok in Hv. cbn in Hr. by injection Hr as <- <- <-. }
  specialize (IH rc1 w1 Hs1). destruct (reloads rc1 w1 files) as [rc' w']. rewrite <- Hl1. exact IH.
Qed.

(** ** Witnesses *)

Definition example_rc : @ReloadableConfig components :=
  mkReloadableConfig default_config [server_callback].
Definition example_components : components :=
  mkComponents (DNS default_config) (Outbound default_config).

Lemma reload_all_or_nothing_witness :
  exists c, @Ok error Config default_config = Ok c /\ config example_rc = c /\
    onReload example_rc = onReload example_rc /\
    inbound_Listen (Inbound c) = inbound_Listen (Inbound (config example_rc)) /\
    run_callbacks (onReload example_rc) c example_components = (None, example_components).
Proof.
  apply (reload_all_or_nothing example_rc (Ok default_config) example_components None
           example_rc example_components).
  reflexivity.
Defined.

Lemma reloads_in_sync_witness :
  in_sync example_rc example_components /\
  inbound_Listen (Inbound (config example_rc)) = inbound_Listen (Inbound (config example_rc)).
Proof.
  apply (reloads_in_sync example_rc example_components [Err (ErrText "bad file"); Ok default_config]).
  split; [done|split; done].
Defined.
