(* ===== verification/ErrorClassifier.v ===== *)
(** * Classification of delivery errors (internal/delivery/error_classifier.go)

    [ClassifyError] turns an SMTP reply or a network error into a
    [DeliveryError]; [IsRetryable] and [ShouldDeactivateEmail] decide what
    follows from it.  [None] is Go's nil [*DeliveryError]. *)

From stdpp Require Import base list strings.
From Stdlib Require Import ZArith Lia.
From S2P Require Import Prelude GoString GoError.
#[local] Open Scope Z_scope.

(** ** Data *)

(** [ErrorCategory] is a string type with six named values. *)
Inductive ErrorCategory : Type :=
| ErrorTemporary | ErrorPermanent | ErrorGreylist | ErrorNetwork | ErrorThrottled
| ErrorReputation
| ErrorOther (s : string).

#[export] Instance ErrorCategory_eq_dec : EqDecision ErrorCategory.
Proof. solve_decision. Defined.

Definition category_string (c : ErrorCategory) : string :=
  match c with
  | ErrorTemporary => "temporary" | ErrorPermanent => "permanent"
  | ErrorGreylist => "greylist" | ErrorNetwork => "network"
  | ErrorThrottled => "throttled" | ErrorReputation => "reputation"
  | ErrorOther s => s
  end.

Record DeliveryError : Type := mkDeliveryError {
  Category : ErrorCategory;
  SMTPCode : Z;
  SMTPResponse : string;
  Message : string;
  OriginalErr : option error;
  ImmediateDegrade : bool
}.

(** [Error] *)
Definition delivery_error_text (e : DeliveryError) : string :=
  if 0 <? SMTPCode e then
    category_string (Category e) +:+ " error (SMTP " +:+ fmt_d (SMTPCode e) +:+ "): " +:+ Message e
  else category_string (Category e) +:+ " error: " +:+ Message e.

Definition is_4xx (code : Z) : bool := (400 <=? code) && (code <? 500).
Definition is_5xx (code : Z) : bool := (500 <=? code) && (code <? 600).
Definition is_2xx (code : Z) : bool := (200 <=? code) && (code <? 300).

(** A keyword loop: does [s] contain one of [l]? *)
Definition contains_one (s : string) (l : list string) : bool := existsb (contains s) l.

Section Classifier.
Context `{Unicode}.

(** [classifyNetworkError] *)
Definition classify_network_error (err : error) : DeliveryError :=
  let errStr := to_lower (error_text err) in
  let mk msg := mkDeliveryError ErrorNetwork 0 "" (msg +:+ error_text err) (Some err) false in
  if contains errStr "deadline exceeded" || contains errStr "timeout" then mk "Timeout exceeded: "
  else if contains errStr "no such host" || contains errStr "dns" || contains errStr "lookup"
  then mk "DNS lookup failed: "
  else if contains errStr "connection refused" || contains errStr "connection reset"
       || contains errStr "connection timeout" || contains errStr "i/o timeout"
       || contains errStr "network" then mk "Network connection failed: "
  else if contains errStr "tls" || contains errStr "certificate" || contains errStr "handshake"
  then mk "TLS error: "
  else mk "Network error: ".

Definition ipSignals : list string :=
  ["your ip"; "ip address"; "sending ip"; "is listed"; "listed on"; "listed in"; "listed by";
   "reputation"; "ptr"; "rdns"; "reverse dns"; "blocklist"; "blacklist"].

(** [hasIPScopedSignal] *)
Definition has_ip_scoped_signal (responseLower sourceIP : string) : bool :=
  if negb (is_empty sourceIP) && contains responseLower (to_lower sourceIP) then true
  else contains_one responseLower ipSignals.

Definition strongKeywords : list string :=
  ["blacklist"; "poor reputation"; "rbl"; "dnsbl"; "spamhaus"; "proofpoint"; "cloudmark";
   "barracuda"].
Definition weakKeywords : list string := ["blocked"; "rejected for policy reasons"].

(** [isReputationError]: [(isRep, strong)] *)
Definition is_reputation_error (code : Z) (response sourceIP : string) : bool * bool :=
  let responseLower := to_lower response in
  if contains_one responseLower strongKeywords then (true, true)
  else if is_5xx code then
    if existsb (fun k => contains responseLower k && has_ip_scoped_signal responseLower sourceIP)
         weakKeywords
    then (true, false) else (false, false)
  else (false, false).

Definition greylistKeywords : list string :=
  ["greylist"; "graylist"; "grey-list"; "gray-list"; "grey listed"; "gray listed"].

(** [isGreylistResponse] *)
Definition is_greylist_response (response : string) : bool :=
  contains_one (to_lower response) greylistKeywords.

(** [classifyTemporaryError] *)
Definition classify_temporary_error (code : Z) (response : string) : string :=
  let r := to_lower response in
  if code =? 421 then "Service not available (rate limiting or server shutdown)"
  else if code =? 450 then
    if contains r "rate" || contains r "limit" || contains r "too many" then "Rate limit exceeded"
    else "Mailbox busy or unavailable"
  else if code =? 451 then
    if contains r "rate" || contains r "limit" then "Rate limit exceeded"
    else "Local processing error"
  else if code =? 452 then
    if contains r "recipient" then "Too many recipients"
    else if contains r "rate" || contains r "limit" then "Rate limit exceeded"
    else "Insufficient system storage"
  else if code =? 454 then
    if contains r "tls" || contains r "starttls" then "TLS negotiation failed"
    else if contains r "relay" then "Relay access denied (deferred)"
    else "Temporary failure (SMTP 454)"
  else if contains r "quota" then "Mailbox quota exceeded"
  else if contains r "rate" then "Rate limiting"
  else if contains r "busy" then "Server busy"
  else "Temporary failure (SMTP " +:+ fmt_d code +:+ ")".

(** [classifyPermanentError] *)
Definition classify_permanent_error (code : Z) (response : string) : string :=
  let r := to_lower response in
  if code =? 550 then
    if contains r "user" && (contains r "not found" || contains r "unknown") then "User not found"
    else if contains r "mailbox" && contains r "unavailable" then "Mailbox unavailable"
    else if contains r "relay" || contains r "relaying" then "Relaying denied"
    else if contains r "spam" || contains r "blocked" then "Message rejected as spam"
    else "Mailbox unavailable or policy rejection"
  else if code =? 551 then "User not local, try different path"
  else if code =? 552 then "Message size exceeds limit"
  else if code =? 553 then
    if contains r "relay" then "Relaying denied" else "Invalid mailbox name"
  else if code =? 554 then
    if contains r "spam" then "Rejected as spam"
    else if contains r "policy" then "Policy rejection"
    else "Transaction failed"
  else "Permanent failure (SMTP " +:+ fmt_d code +:+ ")".

(** [classifySMTPCode] *)
Definition classify_smtp_code (code : Z) (response sourceIP : string) : option DeliveryError :=
  let mk cat msg imm := Some (mkDeliveryError cat code response msg None imm) in
  if is_2xx code then None
  else
  let '(isRep, strong) := is_reputation_error code response sourceIP in
  if isRep then mk ErrorReputation "IP reputation/blacklist error" strong
  else if is_4xx code && is_greylist_response response then
    mk ErrorGreylist "Greylisting detected" false
  else if is_4xx code then mk ErrorTemporary (classify_temporary_error code response) false
  else if is_5xx code then mk ErrorPermanent (classify_permanent_error code response) false
  else mk ErrorNetwork ("Unknown SMTP code: " +:+ fmt_d code) false.

(** [ClassifyError] *)
Definition classify_error (smtpCode : Z) (smtpResponse sourceIP : string) (err : option error)
    : option DeliveryError :=
  match err with
  | Some e =>
      if smtpCode =? 0 then Some (classify_network_error e)
      else classify_smtp_code smtpCode smtpResponse sourceIP
  | None => classify_smtp_code smtpCode smtpResponse sourceIP
  end.

(** [ShouldDeactivateEmail] *)
Definition should_deactivate_email (category : ErrorCategory) (smtpCode : Z) (response : string)
    : bool :=
  if negb (bool_decide (category = ErrorPermanent)) then false
  else
  let r := to_lower response in
  if (smtpCode =? 550) &&
     ((contains r "user" && (contains r "not found" || contains r "unknown"))
      || (contains r "mailbox" && (contains r "not found" || contains r "does not exist"))
      || (contains r "recipient" && (contains r "not found" || contains r "unknown")))
  then true
  else if (smtpCode =? 553) && negb (contains r "relay") then true
  else false.

End Classifier.

(** [IsRetryable] *)
Definition is_retryable (c : ErrorCategory) : bool :=
  match c with
  | ErrorTemporary | ErrorGreylist | ErrorNetwork | ErrorThrottled | ErrorReputation => true
  | ErrorPermanent => false
  | ErrorOther _ => false
  end.

Section Properties.
Context `{Unicode}.

(** ** Lemmas *)

Lemma contains_one_In s k l : In k l -> contains s k = true -> contains_one s l = true.
Proof. intros. apply existsb_exists. eauto. Qed.

Lemma classify_network_category e :
  Category (classify_network_error e) = ErrorNetwork /\
  OriginalErr (classify_network_error e) = Some e /\ SMTPCode (classify_network_error e) = 0.
Proof. unfold classify_network_error. repeat case_match; done. Qed.

Lemma classify_smtp_code_cases code response sourceIP :
  match classify_smtp_code code response sourceIP with
  | None => is_2xx code = true
  | Some d =>
      is_2xx code = false /\ SMTPCode d = code /\ SMTPResponse d = response /\
      match Category d with
      | ErrorReputation => is_reputation_error code response sourceIP = (true, ImmediateDegrade d)
      | ErrorGreylist | ErrorTemporary => is_4xx code = true /\ ImmediateDegrade d = false
      | ErrorPermanent => is_5xx code = true /\ ImmediateDegrade d = false
      | ErrorNetwork => is_4xx code = false /\ is_5xx code = false /\ ImmediateDegrade d = false
      | _ => False
      end
  end.
Proof.
  unfold classify_smtp_code. destruct (is_2xx code); [done|].
  destruct (is_reputation_error code response sourceIP) as [[] strong] eqn:Hr; [simpl; by auto|].
  destruct (is_4xx code) eqn:H4; cbn [andb].
  - destruct (is_greylist_response response); simpl; auto.
  - destruct (is_5xx code) eqn:H5; simpl; auto 10.
Qed.

(** ** Properties *)

(** The verdict of the classifier determines the retry decision.  Only a
    2xx code has no verdict; a definitive 5xx reply without blocklist wording
    is the only one that is not retried; blocklist wording makes it retryable
    on another source address whatever the code. *)
Theorem retry_decision code response sourceIP err d :
  code <> 0 -> classify_error code response sourceIP err = Some d ->
  is_2xx code = false /\
  is_retryable (Category d) =
    negb (is_5xx code && negb (is_reputation_error code response sourceIP).1).
Proof.
  intros Hc Hd.
  assert (classify_smtp_code code response sourceIP = Some d) as Hs.
  { unfold classify_error in Hd. destruct err; [|done].
    by rewrite (proj2 (Z.eqb_neq code 0) Hc) in Hd. }
  clear Hd. unfold classify_smtp_code in Hs.
  destruct (is_2xx code); [done|]. split; [done|].
  destruct (is_reputation_error code response sourceIP) as [[] strong]; cbn [fst negb andb] in *.
  { injection Hs as <-. by rewrite andb_false_r. }
  rewrite andb_true_r.
  assert (is_4xx code = true -> is_5xx code = false) as Hx.
  { unfold is_4xx, is_5xx. intros. destruct (Z.leb_spec 500 code); [|done]. bool_norm. lia. }
  destruct (is_4xx code); cbn [andb] in Hs.
  { rewrite Hx by done. destruct (is_greylist_response response); injection Hs as <-; done. }
  destruct (is_5xx code); injection Hs as <-; done.
Qed.

(** An address is only deactivated on a permanent rejection that names the
    mailbox: never for a reply with blocklist wording, a 4xx reply, or any
    code but 550 and 553. *)
Theorem deactivation_is_definitive code response sourceIP err d :
  classify_error code response sourceIP err = Some d ->
  should_deactivate_email (Category d) (SMTPCode d) (SMTPResponse d) = true ->
  (code = 550 \/ code = 553) /\ SMTPCode d = code /\
  (is_reputation_error code response sourceIP).1 = false /\ is_retryable (Category d) = false.
Proof.
  intros Hd Hs. unfold should_deactivate_email in Hs.
  case_bool_decide as Hcat; [|done]. cbn [negb] in Hs.
  assert (classify_smtp_code code response sourceIP = Some d) as Hd'.
  { unfold classify_error in Hd. destruct err as [e|]; [|done].
    destruct (code =? 0); [|done]. injection Hd as <-.
    by rewrite (proj1 (classify_network_category e)) in Hcat. }
  pose proof (classify_smtp_code_cases code response sourceIP) as Hc. rewrite Hd' in Hc.
  destruct Hc as (H2 & Hcode & Hresp & _). rewrite Hcat, Hcode in *.
  split; [|split; [done|split; [|done]]].
  - destruct (Z.eqb_spec code 550); [by left|].
    destruct (Z.eqb_spec code 553); [by right|done].
  - clear Hd Hs. unfold classify_smtp_code in Hd'. rewrite H2 in Hd'.
    destruct (is_reputation_error code response sourceIP) as [[] strong]; [|done].
    injection Hd' as <-. done.
Qed.

End Properties.

(** ** Witnesses and examples *)

Lemma retry_decision_witness :
  is_2xx 550 = false /\
  is_retryable ErrorPermanent =
    negb (is_5xx 550 && negb (@is_reputation_error plain_unicode 550 "user unknown" "192.0.2.1").1).
Proof.
  apply (@retry_decision plain_unicode 550 "user unknown" "192.0.2.1" None
           (mkDeliveryError ErrorPermanent 550 "user unknown" "User not found" None false)).
  - done.
  - vm_compute. reflexivity.
Defined.

Lemma deactivation_is_definitive_witness :
  (550 = 550 \/ 550 = 553) /\ 550 = 550 /\
  (@is_reputation_error plain_unicode 550 "user unknown" "192.0.2.1").1 = false /\
  is_retryable ErrorPermanent = false.
Proof.
  apply (@deactivation_is_definitive plain_unicode 550 "user unknown" "192.0.2.1" None
           (mkDeliveryError ErrorPermanent 550 "user unknown" "User not found" None false)).
  - vm_compute. reflexivity.
  - vm_compute. reflexivity.
Defined.

(** The strong keyword [rbl] also matches inside ordinary words: a reply about
    a mailbox called "marble" degrades the source address at once. *)
Example strong_keyword_inside_word :
  @is_reputation_error plain_unicode 550 "5.1.1 marble@example.com: user unknown" "192.0.2.1"
  = (true, true).
Proof. vm_compute. reflexivity. Qed.

Example greylisted_451 :
  Category <$> @classify_error plain_unicode 451 "4.7.1 Greylisted, try again" "" None = Some ErrorGreylist.
Proof. vm_compute. reflexivity. Qed.
Example gmail_message_block :
  Category <$> @classify_error plain_unicode 550 "this message has been blocked" "192.0.2.1" None
  = Some ErrorPermanent.
Proof. vm_compute. reflexivity. Qed.
Example outlook_ip_block :
  (fun d => (Category d, ImmediateDegrade d)) <$>
    @classify_error plain_unicode 550 "banned sending IP [192.0.2.1], blocked" "192.0.2.1" None
  = Some (ErrorReputation, false).
Proof. vm_compute. reflexivity. Qed.
