(* ===== verification/IPReputation.v ===== *)
(** * Source address reputation (internal/delivery/ip_reputation.go)

    [IPReputationTracker] keeps the degraded addresses and the strikes of weak
    reputation signals.  [RecordDeliveryAttempt], called after every delivery
    attempt, takes the tracker's mutex several times: [section] is one of its
    critical sections, [race_step] interleaves those of any number of attempts,
    and [record_delivery_attempt] is the whole call when nobody comes between;
    it reads the clock up to three times, in the order of its arguments.  The
    webhook posts and the metrics are returned as events. *)

From stdpp Require Import base gmap sets list strings.
From Stdlib Require Import ZArith Lia Sorted.
From S2P Require Import Prelude GoString GoError NetIP Config ErrorClassifier.
#[local] Open Scope Z_scope.

(** ** Data *)

Record DegradedIPInfo : Type := mkDegradedIPInfo {
  IP : string;
  DegradedAt : Z;
  RetryAfter : Z;
  FailureCount : Z;
  LastFailureError : string;
  LastSMTPCode : Z;
  LastSMTPResponse : string
}.

Record DeliveryInfo : Type := mkDeliveryInfo {
  di_From : string; di_To : string; di_Subject : string; di_IdempotencyKey : string;
  di_MXHost : string
}.

Record ReputationAlert : Type := mkReputationAlert {
  Timestamp : Z; SourceIP : string; EventType : string; al_From : string; al_To : string;
  al_Subject : string; al_IdempotencyKey : string; al_SMTPCode : Z; al_SMTPResponse : string;
  al_MXHost : string; al_RetryAfter : Z; DegradedIPsCount : Z
}.

(** What the tracker does to the outside: the [ReputationMetrics] interface
    and the webhook post (with the bearer token, when there is one). *)
Inductive rep_event : Type :=
| SetIPReputationDegraded (ip : string) (degraded : bool)
| RecordIPReputationEvent (eventType ip : string)
| AlertPost (url : string) (bearer : option string) (alert : ReputationAlert).

Record IPReputationTracker : Type := mkTracker {
  degradedIPs : gmap string DegradedIPInfo;
  repStrikes : gmap string (list Z);
  rep_config : ReputationConfig;
  enabled : bool;
  has_metrics : bool
}.

Definition with_degraded (rt : IPReputationTracker) (m : gmap string DegradedIPInfo) :=
  mkTracker m (repStrikes rt) (rep_config rt) (enabled rt) (has_metrics rt).
Definition with_strikes (rt : IPReputationTracker) (m : gmap string (list Z)) :=
  mkTracker (degradedIPs rt) m (rep_config rt) (enabled rt) (has_metrics rt).

(** [NewIPReputationTracker], [SetMetrics] *)
Definition new_tracker (cfg : ReputationConfig) : IPReputationTracker :=
  mkTracker ∅ ∅ cfg (rep_EnableIPTracking cfg) false.
Definition rep_set_metrics (rt : IPReputationTracker) (present : bool)
    : IPReputationTracker * list rep_event :=
  (mkTracker (degradedIPs rt) (repStrikes rt) (rep_config rt) (enabled rt) present,
   if present then map (fun kv => SetIPReputationDegraded kv.1 true) (map_to_list (degradedIPs rt))
   else []).

(** ** Operations *)

(** [IsIPHealthy] *)
Definition is_ip_healthy (rt : IPReputationTracker) (now : Z) (ip : string) : bool :=
  if negb (enabled rt) then true
  else match degradedIPs rt !! ip with
       | None => true
       | Some info => time_after now (RetryAfter info)
       end.

(** [sendAlert] *)
Definition send_alert (rt : IPReputationTracker) (alert : ReputationAlert) : list rep_event :=
  let c := rep_config rt in
  if is_empty (rep_AlertWebhookURL c) then []
  else [AlertPost (rep_AlertWebhookURL c)
          (if is_empty (rep_AlertAuthToken c) then None else Some (rep_AlertAuthToken c)) alert].

(** [MarkIPDegraded] *)
Definition mark_ip_degraded (rt : IPReputationTracker) (now : Z) (ip : string) (smtpCode : Z)
    (smtpResponse : string) (di : DeliveryInfo) : IPReputationTracker * list rep_event :=
  if negb (enabled rt) then (rt, [])
  else
  let retryAfter := now + hours (rep_DegradedRetryHours (rep_config rt)) in
  let count := match degradedIPs rt !! ip with
               | None => 1
               | Some info => wrap64 (FailureCount info + 1)
               end in
  let info := mkDegradedIPInfo ip now retryAfter count "IP reputation/blacklist error"
                smtpCode smtpResponse in
  let rt' := with_degraded rt (<[ip := info]> (degradedIPs rt)) in
  (rt',
   (if has_metrics rt then [SetIPReputationDegraded ip true; RecordIPReputationEvent "degraded" ip]
    else []) ++
   send_alert rt (mkReputationAlert now ip "degraded" (di_From di) (di_To di) (di_Subject di)
     (di_IdempotencyKey di) smtpCode smtpResponse (di_MXHost di) retryAfter
     (Z.of_nat (size (degradedIPs rt'))))).

(** [MarkIPRecovered] *)
Definition mark_ip_recovered (rt : IPReputationTracker) (now : Z) (ip : string)
    : IPReputationTracker * list rep_event :=
  if negb (enabled rt) then (rt, [])
  else match degradedIPs rt !! ip with
       | None => (rt, [])
       | Some _ =>
           let rt' := with_degraded rt (delete ip (degradedIPs rt)) in
           (rt',
            (if has_metrics rt
             then [SetIPReputationDegraded ip false; RecordIPReputationEvent "recovered" ip] else []) ++
            send_alert rt (mkReputationAlert now ip "recovered" "" "" "" "" 0 "" "" zero_time
              (Z.of_nat (size (degradedIPs rt')))))
       end.

(** [strikeWindow] *)
Definition strike_window (rt : IPReputationTracker) : Z :=
  if rep_DegradeWindowMinutes (rep_config rt) <=? 0 then minutes 30
  else minutes (rep_DegradeWindowMinutes (rep_config rt)).

(** [recordStrike]; [strike_locked] is what it does under the lock. *)
Definition strike_locked (rt : IPReputationTracker) (now : Z) (ip : string)
    : bool * IPReputationTracker :=
  let threshold := rep_DegradeFailureThreshold (rep_config rt) in
  let cutoff := now - strike_window rt in
  let strikes := default [] (repStrikes rt !! ip) in
  let kept := List.filter (fun t => time_after t cutoff) strikes ++ [now] in
  if threshold <=? Z.of_nat (length kept) then (true, with_strikes rt (delete ip (repStrikes rt)))
  else (false, with_strikes rt (<[ip := kept]> (repStrikes rt))).
Definition record_strike (rt : IPReputationTracker) (now : Z) (ip : string)
    : bool * IPReputationTracker :=
  if rep_DegradeFailureThreshold (rep_config rt) <=? 1 then (true, rt) else strike_locked rt now ip.

(** [clearStrikes] *)
Definition clear_strikes (rt : IPReputationTracker) (ip : string) : IPReputationTracker :=
  with_strikes rt (delete ip (repStrikes rt)).

(** [RecordDeliveryAttempt]; [err] is the classified error, if any. *)
Definition record_delivery_attempt (rt : IPReputationTracker) (t1 t2 t3 : Z) (ip : string)
    (success : bool) (err : option DeliveryError) (di : DeliveryInfo)
    : IPReputationTracker * list rep_event :=
  if negb (enabled rt) || is_empty ip then (rt, [])
  else if success then
    let rt := clear_strikes rt ip in
    match degradedIPs rt !! ip with
    | Some _ => mark_ip_recovered rt t1 ip
    | None => (rt, [])
    end
  else match err with
       | None => (rt, [])
       | Some e =>
           if negb (bool_decide (Category e = ErrorReputation)) then (rt, [])
           else if ImmediateDegrade e then
             mark_ip_degraded (clear_strikes rt ip) t1 ip (SMTPCode e) (SMTPResponse e) di
           else if negb (is_ip_healthy rt t1 ip) then (rt, [])
           else let '(crossed, rt) := record_strike rt t2 ip in
                if crossed then mark_ip_degraded rt t3 ip (SMTPCode e) (SMTPResponse e) di
                else (rt, [])
       end.

(** *** The critical sections of [RecordDeliveryAttempt] *)

Record attempt : Type := mkAttempt {
  at_ip : string; at_success : bool; at_err : option DeliveryError; at_info : DeliveryInfo
}.

(** Where an attempt stands: before the test and the deletion of [clearStrikes]
    (on the way to degrading the address, or not), before looking whether it is
    degraded, [MarkIPRecovered], [IsIPHealthy], [recordStrike], its locked part,
    and [MarkIPDegraded] (for a weak signal, or not). *)
Inductive attempt_pc : Type :=
| AtClear (degrading : bool)
| AtDelete (degrading : bool)
| AtLookup
| AtRecover
| AtHealth
| AtStrike
| AtLocked (now : Z)
| AtDegrade (weak : bool)
| AtEnd.

#[export] Instance attempt_pc_eq_dec : EqDecision attempt_pc.
Proof. solve_decision. Defined.

Definition after_clear (degrading : bool) : attempt_pc := if degrading then AtDegrade false else AtLookup.

(** Up to the first lock. *)
Definition start_attempt (rt : IPReputationTracker) (a : attempt) : attempt_pc :=
  if negb (enabled rt) || is_empty (at_ip a) then AtEnd
  else if at_success a then AtClear false
  else match at_err a with
       | None => AtEnd
       | Some e =>
           if negb (bool_decide (Category e = ErrorReputation)) then AtEnd
           else if ImmediateDegrade e then AtClear true
           else AtHealth
       end.

(** One section, with the clock at [now]. *)
Definition section (rt : IPReputationTracker) (now : Z) (a : attempt) (pc : attempt_pc)
    : attempt_pc * (IPReputationTracker * list rep_event) :=
  let ip := at_ip a in
  match pc with
  | AtClear d =>
      (match repStrikes rt !! ip with Some _ => AtDelete d | None => after_clear d end, (rt, []))
  | AtDelete d => (after_clear d, (clear_strikes rt ip, []))
  | AtLookup => (match degradedIPs rt !! ip with Some _ => AtRecover | None => AtEnd end, (rt, []))
  | AtRecover => (AtEnd, mark_ip_recovered rt now ip)
  | AtHealth => (if is_ip_healthy rt now ip then AtStrike else AtEnd, (rt, []))
  | AtStrike =>
      (if rep_DegradeFailureThreshold (rep_config rt) <=? 1 then AtDegrade true else AtLocked now, (rt, []))
  | AtLocked t =>
      let '(crossed, rt) := strike_locked rt t ip in (if crossed then AtDegrade true else AtEnd, (rt, []))
  | AtDegrade _ =>
      (AtEnd, match at_err a with
              | Some e => mark_ip_degraded rt now ip (SMTPCode e) (SMTPResponse e) (at_info a)
              | None => (rt, [])                      (* not reached: see [start_attempt] *)
              end)
  | AtEnd => (AtEnd, (rt, []))
  end.

(** The sections left: at most this many, so [max_sections] are enough. *)
Definition sections_left (pc : attempt_pc) : nat :=
  match pc with
  | AtClear _ | AtHealth => 4
  | AtDelete _ | AtStrike => 3
  | AtLookup | AtLocked _ => 2
  | AtRecover | AtDegrade _ => 1
  | AtEnd => 0
  end.
Definition max_sections : nat := 4.

Lemma section_left rt now a pc :
  pc <> AtEnd -> (sections_left (section rt now a pc).1 < sections_left pc)%nat.
Proof.
  intros Hpc. destruct pc as [d|d| | | | |t|w|]; try done; cbn [section];
    repeat case_match; simplify_eq/=; try (destruct d); simpl; try lia; done.
Qed.
Lemma start_left rt a : (sections_left (start_attempt rt a) <= max_sections)%nat.
Proof. unfold start_attempt, max_sections. repeat case_match; simpl; lia. Qed.

(** The sections of one attempt, one after the other. *)
Fixpoint run_sections (fuel : nat) (clock : attempt_pc -> Z) (rt : IPReputationTracker) (a : attempt)
    (pc : attempt_pc) : attempt_pc * (IPReputationTracker * list rep_event) :=
  match fuel with
  | O => (pc, (rt, []))
  | S fuel =>
      let '(pc, (rt, evs)) := section rt (clock pc) a pc in
      let '(pc, (rt, evs')) := run_sections fuel clock rt a pc in
      (pc, (rt, evs ++ evs'))
  end.

(** [GetDegradedIPs]: a copy. *)
Definition get_degraded_ips (rt : IPReputationTracker) : gmap string DegradedIPInfo :=
  degradedIPs rt.

(** [Cleanup]: the clock is read once at the start, once for each address of
    the first loop, and once before the second. *)
Definition rep_cleanup (rt : IPReputationTracker) (t1 : Z) (tloop : string -> Z) (t3 : Z)
    : IPReputationTracker :=
  if negb (enabled rt) then rt
  else
  let cutoff := t1 + - hours (rep_DegradedIPCleanupHours (rep_config rt)) in
  let old (ip : string) (info : DegradedIPInfo) :=
    time_before (DegradedAt info) cutoff && time_after (tloop ip) (RetryAfter info) in
  let strikeCutoff := t3 - strike_window rt in
  let stale (strikes : list Z) :=
    match last strikes with None => true | Some t => time_before t strikeCutoff end in
  mkTracker (map_keep (fun ip info => negb (old ip info)) (degradedIPs rt))
    (map_keep (fun _ strikes => negb (stale strikes)) (repStrikes rt))
    (rep_config rt) (enabled rt) (has_metrics rt).

(** [GetHealthyIPs]; [clock] gives the reading at each address. *)
Definition get_healthy_ips (rt : IPReputationTracker) (clock : string -> Z) (ips : list string)
    : list string :=
  if negb (enabled rt) then ips
  else List.filter (fun ip => is_ip_healthy rt (clock ip) ip) ips.

(** ** The invariant *)

(** Strikes are kept only for addresses in rotation, there are always fewer
    than the threshold, none is older than the window allows to count at the
    time of the newest, and none lies in the future. *)
Record rep_inv (rt : IPReputationTracker) (now : Z) : Prop := {
  inv_rotation : forall ip l, repStrikes rt !! ip = Some l -> is_ip_healthy rt now ip = true;
  inv_bound : forall ip l, repStrikes rt !! ip = Some l ->
    l <> [] /\ Z.of_nat (length l) < rep_DegradeFailureThreshold (rep_config rt);
  inv_past : forall ip l t, repStrikes rt !! ip = Some l -> In t l -> t <= now
}.

Lemma healthy_later rt t t' ip : t <= t' -> is_ip_healthy rt t ip = true -> is_ip_healthy rt t' ip = true.
Proof.
  unfold is_ip_healthy, time_after. destruct (enabled rt); [|done]. cbn.
  destruct (degradedIPs rt !! ip); [|done]. rewrite !Z.ltb_lt. lia.
Qed.

Lemma rep_inv_later rt t t' : t <= t' -> rep_inv rt t -> rep_inv rt t'.
Proof.
  intros Ht [H1 H2 H3]. split; [|done|].
  - eauto using healthy_later.
  - intros ip l s Hl Hs. specialize (H3 _ _ _ Hl Hs). lia.
Qed.

Lemma rep_inv_new cfg now : rep_inv (new_tracker cfg) now.
Proof. split; simpl; intros *; by intros ?%lookup_empty_Some. Qed.

Lemma clear_strikes_inv rt now ip : rep_inv rt now -> rep_inv (clear_strikes rt ip) now.
Proof.
  intros [H1 H2 H3]. split; simpl; intros *; rewrite lookup_delete_Some;
    intros [? Hl]; eauto.
Qed.

Lemma clear_strikes_lookup rt ip : repStrikes (clear_strikes rt ip) !! ip = None.
Proof. apply lookup_delete_eq. Qed.

(** Degrading or recovering one address without strikes keeps the invariant. *)
Lemma with_degraded_inv rt now ip m :
  rep_inv rt now -> repStrikes rt !! ip = None ->
  (forall ip', ip' <> ip -> m !! ip' = degradedIPs rt !! ip') ->
  rep_inv (with_degraded rt m) now.
Proof.
  intros [H1 H2 H3] Hn Hm. split; simpl; [|done|done].
  intros ip' l Hl. specialize (H1 ip' l Hl). unfold is_ip_healthy in *. simpl.
  rewrite Hm; [done|]. intros ->. congruence.
Qed.

Lemma mark_degraded_inv rt now t ip c r di :
  rep_inv rt now -> repStrikes rt !! ip = None -> rep_inv (mark_ip_degraded rt t ip c r di).1 now.
Proof.
  intros Hi Hn. unfold mark_ip_degraded. destruct (enabled rt); [|done]. cbn [negb fst].
  apply (with_degraded_inv rt now ip); [done|done|]. intros. by apply lookup_insert_ne.
Qed.

Lemma mark_recovered_inv rt now t ip :
  rep_inv rt now -> repStrikes rt !! ip = None -> rep_inv (mark_ip_recovered rt t ip).1 now.
Proof.
  intros Hi Hn. unfold mark_ip_recovered. destruct (enabled rt); [|done]. cbn [negb].
  destruct (degradedIPs rt !! ip); [|done]. cbn [fst].
  apply (with_degraded_inv rt now ip); [done|done|]. intros. by apply lookup_delete_ne.
Qed.

Lemma record_strike_inv rt now ip crossed rt' :
  rep_inv rt now -> is_ip_healthy rt now ip = true ->
  record_strike rt now ip = (crossed, rt') ->
  rep_inv rt' now /\ (crossed = true -> repStrikes rt' !! ip = None).
Proof.
  intros Hi Hh. unfold record_strike, strike_locked.
  destruct (Z.leb_spec (rep_DegradeFailureThreshold (rep_config rt)) 1) as [Ht|Ht].
  { intros [= <- <-]. split; [done|]. intros _.
    destruct (repStrikes rt !! ip) as [l|] eqn:E; [|done].
    destruct (inv_bound _ _ Hi _ _ E) as [Hne Hl]. destruct l; [done|]. simpl in Hl. lia. }
  set (kept := _ ++ [now]).
  destruct (Z.leb_spec (rep_DegradeFailureThreshold (rep_config rt)) (Z.of_nat (length kept)));
    intros [= <- <-].
  { split; [by apply (clear_strikes_inv rt)|]. intros _. apply lookup_delete_eq. }
  split; [|done]. destruct Hi as [H1 H2 H3].
  assert (Hk : forall t, In t kept -> t <= now).
  { intros t [Ht'|[<-|[]]]%in_app_or; [|lia]. apply filter_In in Ht' as [Ht' _].
    destruct (repStrikes rt !! ip) eqn:E; [by eapply H3|done]. }
  split; simpl; intros ip' l'.
  - intros [[-> <-]|[? Hl]]%lookup_insert_Some; [done|eauto].
  - intros [[-> <-]|[? Hl]]%lookup_insert_Some; [|eauto].
    split; [unfold kept; by destruct (List.filter _ _)|lia].
  - intros t [[-> <-]|[? Hl]]%lookup_insert_Some; eauto.
Qed.

Lemma record_attempt_inv rt t0 t1 t2 t3 ip success err di :
  rep_inv rt t0 -> t0 <= t1 -> t1 <= t2 -> t2 <= t3 ->
  rep_inv (record_delivery_attempt rt t1 t2 t3 ip success err di).1 t3.
Proof.
  intros Hi H1 H2 H3. assert (Hi3 : rep_inv rt t3) by (apply (rep_inv_later rt t0); [lia|done]).
  unfold record_delivery_attempt.
  destruct (negb (enabled rt) || is_empty ip); [done|].
  destruct success.
  { destruct (degradedIPs (clear_strikes rt ip) !! ip); [|by apply clear_strikes_inv].
    apply mark_recovered_inv; [by apply clear_strikes_inv|apply clear_strikes_lookup]. }
  destruct err as [e|]; [|done]. destruct (negb _); [done|].
  destruct (ImmediateDegrade e).
  { apply mark_degraded_inv; [by apply clear_strikes_inv|apply clear_strikes_lookup]. }
  destruct (is_ip_healthy rt t1 ip) eqn:Hh; [|done]. cbn [negb].
  destruct (record_strike rt t2 ip) as [crossed rt'] eqn:Hr.
  destruct (record_strike_inv rt t2 ip crossed rt') as [Hi' Hc];
    [by apply (rep_inv_later rt t0); [lia|]|by eapply healthy_later|done|].
  assert (rep_inv rt' t3) by by apply (rep_inv_later _ t2).
  destruct crossed; [|done]. apply mark_degraded_inv; auto.
Qed.

Lemma cleanup_health rt t1 tloop t3 t ip :
  tloop ip <= t ->
  is_ip_healthy (rep_cleanup rt t1 tloop t3) t ip = is_ip_healthy rt t ip.
Proof.
  intros Ht. unfold rep_cleanup. destruct (enabled rt) eqn:He; [|done]. cbn [negb].
  unfold is_ip_healthy. simpl. rewrite He. cbn [negb].
  set (m := map_keep _ (degradedIPs rt)).
  destruct (m !! ip) as [info|] eqn:E.
  - apply map_keep_lookup in E as [-> _]. done.
  - apply map_keep_lookup_None in E as [->|(info & -> & Hk)]; [done|].
    rewrite negb_false_iff in Hk. apply andb_prop in Hk as [_ Hk].
    symmetry. unfold time_after in *. apply Z.ltb_lt in Hk. apply Z.ltb_lt. lia.
Qed.

Lemma cleanup_inv rt t0 t1 tloop t3 :
  rep_inv rt t0 -> t0 <= t3 -> (forall ip, tloop ip <= t3) ->
  rep_inv (rep_cleanup rt t1 tloop t3) t3.
Proof.
  intros Hi Ht Hl. apply (rep_inv_later _ _ _ Ht) in Hi.
  assert (Hsub : forall ip l, repStrikes (rep_cleanup rt t1 tloop t3) !! ip = Some l ->
                   repStrikes rt !! ip = Some l).
  { intros ip l. unfold rep_cleanup. destruct (negb (enabled rt)); [done|]. simpl.
    by intros [? _]%map_keep_lookup. }
  assert (Hcfg : rep_config (rep_cleanup rt t1 tloop t3) = rep_config rt)
    by (unfold rep_cleanup; by destruct (negb (enabled rt))).
  split.
  - intros ip l H%Hsub. rewrite cleanup_health by done. by eapply inv_rotation.
  - intros ip l H%Hsub. rewrite Hcfg. by eapply inv_bound.
  - intros ip l t H%Hsub. by eapply inv_past.
Qed.

(** ** The tracker as a state machine *)

(** Attempts that do not overlap, and cleanups. *)
Inductive serial_step : IPReputationTracker * Z -> IPReputationTracker * Z -> Prop :=
| serial_attempt rt t0 t1 t2 t3 ip success err di :
    t0 <= t1 -> t1 <= t2 -> t2 <= t3 ->
    serial_step (rt, t0) ((record_delivery_attempt rt t1 t2 t3 ip success err di).1, t3)
| serial_cleanup rt t0 t1 tloop t3 :
    t0 <= t1 -> (forall ip, t1 <= tloop ip <= t3) ->
    serial_step (rt, t0) (rep_cleanup rt t1 tloop t3, t3).

(** Any number of attempts, interleaved section by section, with cleanups and
    changes of the recorder (each under the lock throughout) and any readings
    of the clock.  The log says which strikes were recorded, and whether they
    crossed the threshold, and which weak signals degraded their address. *)
Inductive mark : Type := Struck (ip : string) (crossed : bool) | WeaklyDegraded (ip : string).

Record race : Type := mkRace {
  rc_tracker : IPReputationTracker;
  rc_attempts : list (attempt * attempt_pc);
  rc_log : list mark
}.

Definition marks_of (a : attempt) (pc pc' : attempt_pc) : list mark :=
  match pc with
  | AtStrike => match pc' with AtDegrade _ => [Struck (at_ip a) true] | _ => [] end
  | AtLocked _ => [Struck (at_ip a) (match pc' with AtDegrade _ => true | _ => false end)]
  | AtDegrade true => [WeaklyDegraded (at_ip a)]
  | _ => []
  end.

Inductive race_step : race -> race -> Prop :=
| race_begin s a :
    race_step s (mkRace (rc_tracker s) ((a, start_attempt (rc_tracker s) a) :: rc_attempts s) (rc_log s))
| race_section s pre a pc post now pc' rt' evs :
    rc_attempts s = pre ++ (a, pc) :: post -> pc <> AtEnd ->
    section (rc_tracker s) now a pc = (pc', (rt', evs)) ->
    race_step s (mkRace rt' (pre ++ (a, pc') :: post) (marks_of a pc pc' ++ rc_log s))
| race_cleanup s t1 tloop t3 :
    race_step s (mkRace (rep_cleanup (rc_tracker s) t1 tloop t3) (rc_attempts s) (rc_log s))
| race_metrics s present :
    race_step s (mkRace (rep_set_metrics (rc_tracker s) present).1 (rc_attempts s) (rc_log s)).

Definition race_init (cfg : ReputationConfig) (s : race) : Prop := s = mkRace (new_tracker cfg) [] [].

(** Counting. *)
Fixpoint total {A} (f : A -> Z) (l : list A) : Z := match l with [] => 0 | x :: l => f x + total f l end.
Definition one (b : bool) : Z := if b then 1 else 0.

Definition is_weak (a : attempt) : bool :=
  negb (at_success a) &&
  match at_err a with
  | Some e => bool_decide (Category e = ErrorReputation) && negb (ImmediateDegrade e)
  | None => false
  end.
Definition weak_attempts (ip : string) (l : list (attempt * attempt_pc)) : Z :=
  total (fun t => one (seqb (at_ip t.1) ip && is_weak t.1)) l.
Definition strikes_logged (ip : string) : list mark -> Z :=
  total (fun m => match m with Struck ip' _ => one (seqb ip' ip) | _ => 0 end).
Definition crossings (ip : string) : list mark -> Z :=
  total (fun m => match m with Struck ip' true => one (seqb ip' ip) | _ => 0 end).
Definition weak_degradations (ip : string) : list mark -> Z :=
  total (fun m => match m with WeaklyDegraded ip' => one (seqb ip' ip) | _ => 0 end).
Definition threshold_of (cfg : ReputationConfig) : Z := Z.max 1 (rep_DegradeFailureThreshold cfg).
Definition strikes_at (rt : IPReputationTracker) (ip : string) : list Z := default [] (repStrikes rt !! ip).

(** Weak failures of one address, at the times [ts], all else being quiet. *)
Fixpoint weak_failures (rt : IPReputationTracker) (ip : string) (e : DeliveryError)
    (di : DeliveryInfo) (ts : list Z) : IPReputationTracker :=
  match ts with
  | [] => rt
  | t :: ts => weak_failures (record_delivery_attempt rt t t t ip false (Some e) di).1 ip e di ts
  end.

(** ** Properties *)

(** As long as attempts do not overlap, strikes exist only for addresses in
    rotation. *)
Theorem serial_rotation cfg rt now :
  reachable (fun s => s.1 = new_tracker cfg) serial_step (rt, now) ->
  (forall ip l, repStrikes rt !! ip = Some l ->
     is_ip_healthy rt now ip = true /\ l <> [] /\
     Z.of_nat (length l) < rep_DegradeFailureThreshold (rep_config rt)).
Proof.
  intros Hr ip l Hl.
  assert (rep_inv (rt, now).1 (rt, now).2) as Hi; [|split; [by eapply Hi|by eapply Hi]].
  revert Hr. apply (invariant_reachable _ _ (fun s => rep_inv s.1 s.2)).
  - intros [rt' t'] ->. apply rep_inv_new.
  - intros s s' Hi Hs. destruct Hs as [rt' t0 t1 t2 t3 ip' su err di|rt' t0 t1 tl t3 H1 H2]; simpl in *.
    + by eapply record_attempt_inv.
    + eapply cleanup_inv; [done| |].
      * specialize (H2 ""). lia.
      * intros ip'. specialize (H2 ip'). lia.
Qed.

(** An attempt that nobody interrupts is [record_delivery_attempt]. *)
Definition alone (t1 t2 t3 : Z) (pc : attempt_pc) : Z :=
  match pc with AtStrike => t2 | AtDegrade true => t3 | _ => t1 end.

Lemma clear_nothing rt ip : repStrikes rt !! ip = None -> clear_strikes rt ip = rt.
Proof. intros Hn. unfold clear_strikes. rewrite delete_id by done. by destruct rt. Qed.

Lemma run_end n clock rt a : run_sections n clock rt a AtEnd = (AtEnd, (rt, [])).
Proof. induction n as [|n IH]; [done|]. cbn [run_sections section]. by rewrite IH. Qed.

Lemma run_more n clock rt a pc pc' rt' evs :
  section rt (clock pc) a pc = (pc', (rt', evs)) ->
  run_sections (S n) clock rt a pc =
  (let '(pc'', (rt'', evs')) := run_sections n clock rt' a pc' in (pc'', (rt'', evs ++ evs'))).
Proof. intros E. cbn [run_sections]. by rewrite E. Qed.
Lemma run_silent n clock rt a pc pc' rt' :
  section rt (clock pc) a pc = (pc', (rt', [])) ->
  run_sections (S n) clock rt a pc = run_sections n clock rt' a pc'.
Proof. intros E. rewrite (run_more _ _ _ _ _ _ _ _ E). by destruct (run_sections n _ _ _ _) as [? [? ?]]. Qed.
Lemma run_last n clock rt a pc p :
  section rt (clock pc) a pc = (AtEnd, p) -> run_sections (S n) clock rt a pc = (AtEnd, p).
Proof.
  destruct p as [rt' evs]. intros E. rewrite (run_more _ _ _ _ _ _ _ _ E), run_end. by rewrite app_nil_r.
Qed.

Lemma run_clear n t1 t2 t3 rt a d : exists m,
  run_sections (S (S n)) (alone t1 t2 t3) rt a (AtClear d) =
  run_sections (m + n) (alone t1 t2 t3) (clear_strikes rt (at_ip a)) a (after_clear d).
Proof.
  destruct (repStrikes rt !! at_ip a) eqn:E.
  - exists 0%nat. rewrite (run_silent _ _ _ _ _ (AtDelete d) rt) by (cbn; by rewrite E).
    by apply run_silent.
  - exists 1%nat. rewrite clear_nothing by done. apply run_silent. cbn. by rewrite E.
Qed.

Theorem attempt_alone rt a t1 t2 t3 :
  run_sections max_sections (alone t1 t2 t3) rt a (start_attempt rt a) =
  (AtEnd, record_delivery_attempt rt t1 t2 t3 (at_ip a) (at_success a) (at_err a) (at_info a)).
Proof.
  unfold start_attempt, record_delivery_attempt, max_sections.
  destruct (negb (enabled rt) || is_empty (at_ip a)); [apply run_end|].
  destruct (at_success a).
  { destruct (run_clear 2 t1 t2 t3 rt a false) as (m & ->). rewrite Nat.add_succ_r. cbn [after_clear].
    destruct (degradedIPs (clear_strikes rt (at_ip a)) !! at_ip a) eqn:E.
    - rewrite (run_silent _ _ _ _ _ AtRecover (clear_strikes rt (at_ip a))) by (cbn; cbn in E; by rewrite E).
      rewrite Nat.add_succ_r. by apply run_last.
    - apply run_last. cbn. cbn in E. by rewrite E. }
  destruct (at_err a) as [e|] eqn:Ee; [|apply run_end].
  destruct (negb _); [apply run_end|]. destruct (ImmediateDegrade e).
  { destruct (run_clear 2 t1 t2 t3 rt a true) as (m & ->). rewrite Nat.add_succ_r.
    apply run_last. cbn. by rewrite Ee. }
  destruct (is_ip_healthy rt t1 (at_ip a)) eqn:Eh; cbn [negb].
  2:{ apply run_last. cbn. by rewrite Eh. }
  rewrite (run_silent _ _ _ _ _ AtStrike rt) by (cbn; by rewrite Eh). unfold record_strike.
  destruct (_ <=? 1) eqn:Et.
  { rewrite (run_silent _ _ _ _ _ (AtDegrade true) rt) by (cbn; by rewrite Et). apply run_last. cbn. by rewrite Ee. }
  rewrite (run_silent _ _ _ _ _ (AtLocked t2) rt) by (cbn; by rewrite Et).
  destruct (strike_locked rt t2 (at_ip a)) as [crossed rt'] eqn:El. destruct crossed.
  - rewrite (run_silent _ _ _ _ _ (AtDegrade true) rt') by (cbn; by rewrite El). apply run_last. cbn. by rewrite Ee.
  - apply run_last. cbn. by rewrite El.
Qed.

(** *** The interleavings *)

Lemma total_app {A} (f : A -> Z) l l' : total f (l ++ l') = total f l + total f l'.
Proof. induction l as [|x l IH]; cbn [total app]; lia. Qed.
Lemma total_nonneg {A} (f : A -> Z) l : (forall x, 0 <= f x) -> 0 <= total f l.
Proof. intros Hf. induction l as [|x l IH]; cbn [total]; [done|]. specialize (Hf x). lia. Qed.
Lemma total_replace {A} (f : A -> Z) pre x y post :
  total f (pre ++ y :: post) = total f (pre ++ x :: post) + f y - f x.
Proof. rewrite !total_app. cbn [total]. lia. Qed.

(** Threads that are about to degrade [ip], and to record a strike of it. *)
Definition pending (ip : string) (t : attempt * attempt_pc) : Z :=
  match t.2 with AtDegrade true => one (seqb (at_ip t.1) ip) | _ => 0 end.
Definition to_strike (ip : string) (t : attempt * attempt_pc) : Z :=
  match t.2 with AtHealth | AtStrike | AtLocked _ => one (seqb (at_ip t.1) ip) | _ => 0 end.

Record race_inv (cfg : ReputationConfig) (ip : string) (s : race) : Prop := {
  ri_config : rep_config (rc_tracker s) = cfg;
  ri_locked : forall a t, In (a, AtLocked t) (rc_attempts s) -> 1 < rep_DegradeFailureThreshold cfg;
  ri_bound : forall l, repStrikes (rc_tracker s) !! ip = Some l ->
    l <> [] /\ Z.of_nat (length l) < rep_DegradeFailureThreshold cfg;
  ri_crossed : threshold_of cfg * crossings ip (rc_log s) + Z.of_nat (length (strikes_at (rc_tracker s) ip))
    <= strikes_logged ip (rc_log s);
  ri_pending : weak_degradations ip (rc_log s) + total (pending ip) (rc_attempts s) = crossings ip (rc_log s);
  ri_logged : strikes_logged ip (rc_log s) + total (to_strike ip) (rc_attempts s)
    <= weak_attempts ip (rc_attempts s)
}.

(** What a section leaves of the strikes of [ip]: fewer, or one more, which the
    log shows. *)
Definition strikes_after (cfg : ReputationConfig) (ip : string) (rt rt' : IPReputationTracker) (ms : list mark) : Prop :=
  (forall l, repStrikes rt' !! ip = Some l ->
     repStrikes rt !! ip = Some l \/ (l <> [] /\ Z.of_nat (length l) < rep_DegradeFailureThreshold cfg)) /\
  threshold_of cfg * crossings ip ms + Z.of_nat (length (strikes_at rt' ip)) <=
    strikes_logged ip ms + Z.of_nat (length (strikes_at rt ip)).

Lemma filter_le {A} (f : A -> bool) l : (length (List.filter f l) <= length l)%nat.
Proof. induction l as [|x l IH]; cbn; [done|]. destruct (f x); cbn; lia. Qed.

Lemma strikes_same cfg ip rt rt' : repStrikes rt' !! ip = repStrikes rt !! ip -> strikes_after cfg ip rt rt' [].
Proof. intros E. split; [intros l; rewrite E; by left|]. unfold strikes_at. rewrite E. cbn. lia. Qed.
Lemma strikes_gone cfg ip rt rt' : repStrikes rt' !! ip = None -> strikes_after cfg ip rt rt' [].
Proof. intros E. split; [intros l; by rewrite E|]. unfold strikes_at. rewrite E. cbn. lia. Qed.

Lemma locked_after ip rt t ip' crossed rt' :
  1 < rep_DegradeFailureThreshold (rep_config rt) ->
  strike_locked rt t ip' = (crossed, rt') ->
  strikes_after (rep_config rt) ip rt rt' [Struck ip' crossed] /\ rep_config rt' = rep_config rt.
Proof.
  intros Ht. unfold strike_locked. set (kept := _ ++ [t]).
  assert (Hk : (length kept <= length (strikes_at rt ip') + 1)%nat).
  { unfold kept. rewrite length_app. cbn [length]. pose proof (filter_le (fun u => time_after u (t - strike_window rt))
      (default [] (repStrikes rt !! ip'))). unfold strikes_at. lia. }
  assert (Hne : kept <> []) by (unfold kept; by destruct (List.filter _ _)).
  clearbody kept. unfold strikes_after, threshold_of, strikes_at in *.
  destruct (Z.leb_spec (rep_DegradeFailureThreshold (rep_config rt)) (Z.of_nat (length kept))); intros [= <- <-];
    (split; [|done]); cbn [repStrikes with_strikes strikes_logged crossings total];
    destruct (seqb ip' ip) eqn:E; cbn [one].
  - apply seqb_true in E as ->. rewrite lookup_delete_eq. split; [done|]. cbn. lia.
  - apply seqb_false in E. rewrite lookup_delete_ne by done. split; [by left|lia].
  - apply seqb_true in E as ->. rewrite lookup_insert_eq. split; [intros l [= <-]; by right|]. cbn. lia.
  - apply seqb_false in E. rewrite lookup_insert_ne by done. split; [by left|lia].
Qed.

Lemma degraded_same rt now ip c r di :
  repStrikes (mark_ip_degraded rt now ip c r di).1 = repStrikes rt /\
  rep_config (mark_ip_degraded rt now ip c r di).1 = rep_config rt.
Proof. unfold mark_ip_degraded. by destruct (negb _). Qed.
Lemma recovered_same rt now ip :
  repStrikes (mark_ip_recovered rt now ip).1 = repStrikes rt /\
  rep_config (mark_ip_recovered rt now ip).1 = rep_config rt.
Proof. unfold mark_ip_recovered. destruct (negb _); [done|]. by destruct (_ !! _). Qed.
#[local] Hint Resolve strikes_same : core.

Lemma section_strikes ip rt now a pc pc' rt' evs :
  let cfg := rep_config rt in
  (forall t, pc = AtLocked t -> 1 < rep_DegradeFailureThreshold cfg) ->
  section rt now a pc = (pc', (rt', evs)) ->
  rep_config rt' = cfg /\
  (forall t, pc' = AtLocked t -> 1 < rep_DegradeFailureThreshold cfg) /\
  strikes_after cfg ip rt rt' (marks_of a pc pc').
Proof.
  intros cfg Hl. destruct pc as [d|d| | | | |t|w|]; cbn [section].
  - intros [= <- <- <-]. split; [done|]. split; [by destruct (_ !! _), d|]. by apply strikes_same.
  - intros [= <- <- <-]. split; [done|]. split; [by destruct d|]. cbn [repStrikes clear_strikes with_strikes].
    destruct (decide (at_ip a = ip)) as [<-|Hne].
    + apply strikes_gone. apply lookup_delete_eq.
    + apply strikes_same. by apply lookup_delete_ne.
  - intros [= <- <- <-]. split; [done|]. split; [by destruct (_ !! _)|]. by apply strikes_same.
  - destruct (recovered_same rt now (at_ip a)) as [Es Ec]. intros [= <- E]. rewrite E in Es, Ec.
    split; [done|]. split; [done|]. apply strikes_same. cbn in Es. by rewrite Es.
  - intros [= <- <- <-]. split; [done|]. split; [by destruct (is_ip_healthy _ _ _)|]. by apply strikes_same.
  - destruct (Z.leb_spec (rep_DegradeFailureThreshold (rep_config rt)) 1) as [Ht|Ht]; intros [= <- <- <-].
    + split; [done|]. split; [done|]. split; [by left|]. unfold threshold_of. cbn.
      fold cfg in Ht. destruct (seqb _ ip); cbn [one]; lia.
    + split; [done|]. split; [done|]. by apply strikes_same.
  - destruct (strike_locked rt t (at_ip a)) as [crossed rt1] eqn:Es. intros [= <- <- <-].
    destruct (locked_after ip rt t (at_ip a) crossed rt1 (Hl t eq_refl) Es) as [Ha Hc].
    split; [done|]. split; [by destruct crossed|]. by destruct crossed.
  - assert (Hd : forall p, match at_err a with
                 | Some e => mark_ip_degraded rt now (at_ip a) (SMTPCode e) (SMTPResponse e) (at_info a)
                 | None => (rt, [])
                 end = p -> repStrikes p.1 = repStrikes rt /\ rep_config p.1 = rep_config rt).
    { intros p <-. destruct (at_err a); [apply degraded_same|done]. }
    intros [= <- E]. destruct (Hd _ E) as [Es Ec]. cbn in Es, Ec. split; [done|]. split; [done|].
    destruct (strikes_same cfg ip rt rt' ltac:(by rewrite Es)) as [H1 H2]. split; [done|].
    destruct w; cbn in *; lia.
  - intros [= <- <- <-]. split; [done|]. split; [done|]. by apply strikes_same.
Qed.

(** How the log and the threads move together. *)
Lemma section_counts ip rt now a pc pc' rt' evs :
  section rt now a pc = (pc', (rt', evs)) ->
  let ms := marks_of a pc pc' in
  weak_degradations ip ms + pending ip (a, pc') = crossings ip ms + pending ip (a, pc) /\
  strikes_logged ip ms + to_strike ip (a, pc') <= to_strike ip (a, pc).
Proof.
  destruct pc as [d|d| | | | |t|w|]; cbn [section]; repeat case_match; intros; simplify_eq/=;
    unfold pending, to_strike, weak_degradations, crossings, strikes_logged; try destruct d; cbn;
    try destruct w; cbn; try destruct (seqb (at_ip a) ip); cbn; lia.
Qed.

Lemma start_counts rt a ip :
  pending ip (a, start_attempt rt a) = 0 /\
  to_strike ip (a, start_attempt rt a) <= one (seqb (at_ip a) ip && is_weak a) /\
  forall t, start_attempt rt a <> AtLocked t.
Proof.
  unfold pending, to_strike, is_weak, start_attempt. cbn [fst snd].
  destruct (_ || is_empty (at_ip a)), (at_success a), (at_err a) as [e|]; cbn;
    try (destruct (bool_decide _); cbn); try (destruct (ImmediateDegrade e); cbn);
    destruct (seqb (at_ip a) ip); cbn; (split; [done|split; [lia|done]]).
Qed.

Lemma cleanup_strikes rt t1 tloop t3 ip :
  rep_config (rep_cleanup rt t1 tloop t3) = rep_config rt /\
  (forall l, repStrikes (rep_cleanup rt t1 tloop t3) !! ip = Some l -> repStrikes rt !! ip = Some l).
Proof.
  unfold rep_cleanup. destruct (negb _); [done|]. split; [done|]. cbn. by intros l [? _]%map_keep_lookup.
Qed.

Lemma race_step_inv cfg ip s s' : race_inv cfg ip s -> race_step s s' -> race_inv cfg ip s'.
Proof.
  intros [Hcfg Hl Hb Hc Hp Hf] Hs.
  destruct Hs as [s a|s pre a pc post now pc' rt' evs Hat Hpc Hsec|s t1 tloop t3|s present]; cbn in *.
  - destruct (start_counts (rc_tracker s) a ip) as (E1 & E2 & E3).
    split; cbn; try done.
    + intros a' t [[= <- E]|Hin]; [by destruct (E3 t)|eauto].
    + unfold weak_attempts in *. cbn. lia.
    + unfold weak_attempts in *. cbn. lia.
  - assert (Hlp : forall t, pc = AtLocked t -> 1 < rep_DegradeFailureThreshold (rep_config (rc_tracker s))).
    { intros t ->. rewrite Hcfg. apply (Hl a t). rewrite Hat. apply in_elt. }
    destruct (section_strikes ip (rc_tracker s) now a pc pc' rt' evs Hlp Hsec) as (Hc' & Hl' & Hb' & Hn).
    destruct (section_counts ip (rc_tracker s) now a pc pc' rt' evs Hsec) as (Hp' & Hf').
    rewrite Hat in *. rewrite Hcfg in *.
    set (ms := marks_of a pc pc') in *.
    assert (Hw : weak_attempts ip (pre ++ (a, pc') :: post) = weak_attempts ip (pre ++ (a, pc) :: post)).
    { unfold weak_attempts. rewrite (total_replace _ pre (a, pc) (a, pc') post). cbn. lia. }
    unfold crossings, strikes_logged, weak_degradations in *.
    split; cbn [rc_tracker rc_attempts rc_log]; unfold crossings, strikes_logged, weak_degradations.
    + done.
    + intros a' t [Hin|[[= <- E]|Hin]]%in_app_or; [|by eapply Hl'|].
      * apply (Hl a' t), in_or_app. by left.
      * apply (Hl a' t), in_or_app. by right; right.
    + intros l Hlk. destruct (Hb' l Hlk) as [Ho|?]; [by apply Hb|done].
    + rewrite !total_app. lia.
    + rewrite !(total_app _ ms), (total_replace _ pre (a, pc)). lia.
    + rewrite Hw, !(total_app _ ms), (total_replace _ pre (a, pc)). lia.
  - destruct (cleanup_strikes (rc_tracker s) t1 tloop t3 ip) as [Ec Es].
    split; cbn; try done; [by rewrite Ec|by intros l ?%Es; apply Hb|].
    unfold strikes_at in *. destruct (repStrikes (rep_cleanup _ _ _ _) !! ip) as [l|] eqn:E.
    + by rewrite (Es l eq_refl) in Hc.
    + cbn in *. lia.
  - by split.
Qed.

(** C32: in every reachable state of the tracker, however the critical
    sections of any number of concurrent attempts, cleanups and changes of the
    recorder are interleaved and whatever the clock says: the strikes kept for
    an address are at least one and fewer than the threshold; and weak signals
    have degraded the address at most once for every [threshold] weak failures
    reported for it, the strikes kept now counted too, so that one crossing
    fires one alert even when failures race.  (Strikes can be left on an address
    that another attempt just degraded: [strike_on_degraded].) *)
Theorem tracker_invariant cfg s ip :
  reachable (race_init cfg) race_step s ->
  (forall l, repStrikes (rc_tracker s) !! ip = Some l ->
     l <> [] /\ Z.of_nat (length l) < rep_DegradeFailureThreshold cfg) /\
  threshold_of cfg * weak_degradations ip (rc_log s) + Z.of_nat (length (strikes_at (rc_tracker s) ip))
    <= weak_attempts ip (rc_attempts s).
Proof.
  intros Hr. assert (race_inv cfg ip s) as [Hcfg Hl Hb Hc Hp Hf].
  { revert Hr. apply invariant_reachable; [|by intros; eapply race_step_inv].
    intros s' ->. split; cbn; try done.
    unfold strikes_at. cbn [new_tracker repStrikes]. rewrite lookup_empty. cbn. lia. }
  split; [done|].
  assert (0 <= total (pending ip) (rc_attempts s)).
  { apply total_nonneg. intros [a pc]. unfold pending. cbn. destruct pc as [| | | | | | |[]|]; try done. by destruct (seqb _ _). }
  assert (0 <= total (to_strike ip) (rc_attempts s)).
  { apply total_nonneg. intros [a pc]. unfold to_strike. cbn. destruct pc; try done; by destruct (seqb _ _). }
  assert (1 <= threshold_of cfg) by (unfold threshold_of; lia). nia.
Qed.

(** One weak failure of an address in rotation, below the threshold. *)
Lemma weak_attempt rt ip e di s :
  enabled rt = true -> ip <> "" -> Category e = ErrorReputation -> ImmediateDegrade e = false ->
  1 < rep_DegradeFailureThreshold (rep_config rt) -> degradedIPs rt !! ip = None ->
  let kept := List.filter (fun t => time_after t (s - strike_window rt))
                (default [] (repStrikes rt !! ip)) ++ [s] in
  (record_delivery_attempt rt s s s ip false (Some e) di).1 =
  if rep_DegradeFailureThreshold (rep_config rt) <=? Z.of_nat (length kept)
  then (mark_ip_degraded (with_strikes rt (delete ip (repStrikes rt))) s ip (SMTPCode e)
          (SMTPResponse e) di).1
  else with_strikes rt (<[ip := kept]> (repStrikes rt)).
Proof.
  intros He Hip Hc Hw Ht Hd kept. unfold record_delivery_attempt.
  rewrite He, (proj2 (is_empty_false ip) Hip), Hc, Hw. cbn [negb orb bool_decide decide].
  rewrite bool_decide_true by done. cbn [negb].
  assert (is_ip_healthy rt s ip = true) as -> by (unfold is_ip_healthy; by rewrite He, Hd).
  cbn [negb]. unfold record_strike, strike_locked. fold kept.
  destruct (Z.leb_spec (rep_DegradeFailureThreshold (rep_config rt)) 1); [lia|].
  by destruct (_ <=? Z.of_nat (length kept)).
Qed.

Lemma weak_failures_strikes rt ip e di ts pre t :
  enabled rt = true -> ip <> "" -> Category e = ErrorReputation -> ImmediateDegrade e = false ->
  1 < rep_DegradeFailureThreshold (rep_config rt) ->
  default [] (repStrikes rt !! ip) = pre -> degradedIPs rt !! ip = None ->
  (forall s, In s (pre ++ ts) -> t - strike_window rt < s <= t) ->
  Z.of_nat (length (pre ++ ts)) < rep_DegradeFailureThreshold (rep_config rt) ->
  let rt' := weak_failures rt ip e di ts in
  default [] (repStrikes rt' !! ip) = pre ++ ts /\ degradedIPs rt' !! ip = None /\
  rep_config rt' = rep_config rt /\ enabled rt' = true.
Proof.
  intros He Hip Hc Hw Ht. revert rt pre He Ht.
  induction ts as [|s ts IH]; intros rt pre He Ht Hs Hd Hin Hlen; cbn [weak_failures].
  { by rewrite app_nil_r. }
  rewrite weak_attempt by done. rewrite Hs.
  assert (Hst : In s (pre ++ s :: ts)) by (apply in_or_app; right; by left).
  apply Hin in Hst.
  assert (List.filter (fun t => time_after t (s - strike_window rt)) pre = pre) as ->.
  { apply forallb_filter_id, forallb_forall. intros u Hu.
    assert (Hu' : In u (pre ++ s :: ts)) by (apply in_or_app; by left). apply Hin in Hu'.
    apply Z.ltb_lt. lia. }
  rewrite length_app in *. cbn [length] in *.
  destruct (Z.leb_spec (rep_DegradeFailureThreshold (rep_config rt)) (Z.of_nat (length pre + 1)));
    [lia|].
  replace (pre ++ s :: ts) with ((pre ++ [s]) ++ ts) in * by by rewrite <- app_assoc.
  apply (IH (with_strikes rt (<[ip:=pre ++ [s]]> (repStrikes rt))) (pre ++ [s])); try done.
  - simpl. by rewrite lookup_insert_eq.
  - rewrite !length_app. simpl. lia.
Qed.

(** Weak signals need corroboration, and enough of them suffice.  For an
    address with no strikes and not degraded, weak reputation failures at the
    times [ts], all less than a window before [t], leave it in rotation as
    long as they are fewer than the threshold; one more at [t] degrades it if
    and only if it reaches the threshold. *)
Theorem weak_threshold rt ip e di ts t :
  enabled rt = true -> ip <> "" -> Category e = ErrorReputation -> ImmediateDegrade e = false ->
  1 < rep_DegradeFailureThreshold (rep_config rt) ->
  0 <= hours (rep_DegradedRetryHours (rep_config rt)) ->
  repStrikes rt !! ip = None -> degradedIPs rt !! ip = None ->
  (forall s, In s ts -> t - strike_window rt < s <= t) ->
  Z.of_nat (length ts) < rep_DegradeFailureThreshold (rep_config rt) ->
  is_ip_healthy (weak_failures rt ip e di ts) t ip = true /\
  is_ip_healthy (record_delivery_attempt (weak_failures rt ip e di ts) t t t ip false (Some e) di).1
    t ip = (Z.of_nat (length ts) + 1 <? rep_DegradeFailureThreshold (rep_config rt)).
Proof.
  intros He Hip Hc Hw Ht Hh Hs Hd Hin Hlen.
  destruct (weak_failures_strikes rt ip e di ts [] t) as (Hs' & Hd' & Hcfg & He');
    try done; [by rewrite Hs|].
  set (rt' := weak_failures rt ip e di ts) in *. clearbody rt'.
  split; [unfold is_ip_healthy; by rewrite He', Hd'|].
  rewrite weak_attempt by (try done; by rewrite Hcfg). rewrite Hs'. cbn [app].
  assert (strike_window rt' = strike_window rt) as -> by (unfold strike_window; by rewrite Hcfg).
  rewrite forallb_filter_id.
  2:{ apply forallb_forall. intros u Hu. apply Z.ltb_lt. specialize (Hin u Hu). lia. }
  rewrite length_app, Hcfg. cbn [length].
  destruct (Z.leb_spec (rep_DegradeFailureThreshold (rep_config rt)) (Z.of_nat (length ts + 1))).
  - destruct (Z.ltb_spec (Z.of_nat (length ts) + 1) (rep_DegradeFailureThreshold (rep_config rt)));
      [lia|].
    unfold mark_ip_degraded. simpl. rewrite He'. cbn [negb fst]. unfold is_ip_healthy. simpl.
    rewrite He', lookup_insert_eq. cbn [negb RetryAfter]. unfold time_after.
    apply Z.ltb_ge. rewrite Hcfg. lia.
  - destruct (Z.ltb_spec (Z.of_nat (length ts) + 1) (rep_DegradeFailureThreshold (rep_config rt)));
      [|lia].
    unfold is_ip_healthy. simpl. by rewrite He', Hd'.
Qed.

(** C33: the life of a degraded address.  A strong signal takes it out of
    rotation at once, it stays out until the retry time passes, no cleanup
    changes that, and a successful delivery brings it back at once. *)
Theorem degraded_life rt ip e di t u tc tloop tc' :
  enabled rt = true -> ip <> "" -> Category e = ErrorReputation -> ImmediateDegrade e = true ->
  tloop ip <= u ->
  let deg := (record_delivery_attempt rt t t t ip false (Some e) di).1 in
  is_ip_healthy deg u ip = (t + hours (rep_DegradedRetryHours (rep_config rt)) <? u) /\
  is_ip_healthy (rep_cleanup deg tc tloop tc') u ip = is_ip_healthy deg u ip /\
  is_ip_healthy (record_delivery_attempt deg u u u ip true None di).1 u ip = true.
Proof.
  intros He Hip Hc Hw Hl. cbv zeta. rewrite cleanup_health by done.
  unfold record_delivery_attempt.
  rewrite He, (proj2 (is_empty_false ip) Hip), Hc, Hw. cbn [negb orb].
  rewrite bool_decide_true by done. cbn [negb].
  unfold mark_ip_degraded. cbn [clear_strikes with_strikes enabled]. rewrite He. cbn [negb fst].
  set (rt' := with_degraded _ _).
  assert (Hlk : exists info, degradedIPs rt' !! ip = Some info /\
            RetryAfter info = t + hours (rep_DegradedRetryHours (rep_config rt))).
  { eexists. split; [apply lookup_insert_eq|done]. }
  destruct Hlk as (info & Hlk & Hra). assert (enabled rt' = true) as He' by done. clearbody rt'.
  split; [|split; [done|]].
  - unfold is_ip_healthy. by rewrite He', Hlk, <- Hra.
  - rewrite He'. cbn [negb orb]. cbn [clear_strikes with_strikes degradedIPs]. rewrite Hlk.
    unfold mark_ip_recovered. cbn [clear_strikes with_strikes degradedIPs enabled]. rewrite He', Hlk.
    unfold is_ip_healthy. simpl. by rewrite He', lookup_delete_eq.
Qed.

(** ** Witnesses *)

Definition example_rep_config : ReputationConfig :=
  mkReputationConfig "https://alerts.example.net/hook" "" 10 48 true 168 3 30.
Definition example_tracker : IPReputationTracker := new_tracker example_rep_config.
Definition weak_error : DeliveryError :=
  mkDeliveryError ErrorReputation 550 "your IP is blocked" "IP reputation/blacklist error" None false.
Definition strong_error : DeliveryError :=
  mkDeliveryError ErrorReputation 554 "listed by spamhaus" "IP reputation/blacklist error" None true.
Definition example_info : DeliveryInfo := mkDeliveryInfo "a@x.org" "b@y.org" "" "" "mx.y.org".

(** Execute a schedule: which thread moves, and what the clock says. *)
Fixpoint schedule (moves : list (nat * Z)) (s : race) : race :=
  match moves with
  | [] => s
  | (i, now) :: moves =>
      schedule moves
        match rc_attempts s !! i with
        | Some (a, pc) =>
            let '(pc', (rt', _)) := section (rc_tracker s) now a pc in
            mkRace rt' (<[i := (a, pc')]> (rc_attempts s)) (marks_of a pc pc' ++ rc_log s)
        | None => s
        end
  end.

Lemma schedule_race cfg moves s :
  reachable (race_init cfg) race_step s ->
  reachable (race_init cfg) race_step (schedule moves s).
Proof.
  revert s. induction moves as [|[i now] moves IH]; intros s Hs; cbn [schedule]; [done|].
  apply IH. destruct (rc_attempts s !! i) as [[a pc]|] eqn:E; [|done].
  destruct (section (rc_tracker s) now a pc) as [pc' [rt' evs]] eqn:Es.
  destruct (decide (pc = AtEnd)) as [->|Hpc].
  - cbn in Es. injection Es as <- <- <-. cbn [marks_of app]. rewrite list_insert_id by done. by destruct s.
  - eapply reachable_step; [exact Hs|]. apply list_elem_of_split_length in E as (pre & post & Hat & ->).
    rewrite Hat, insert_app_r_alt, Nat.sub_diag by done. cbn [insert list_insert]. by eapply race_section.
Qed.

(** Attempts begin. *)
Definition begun (l : list attempt) (s : race) : race :=
  foldr (fun a s => mkRace (rc_tracker s) ((a, start_attempt (rc_tracker s) a) :: rc_attempts s) (rc_log s)) s l.
Lemma begun_race cfg l s : reachable (race_init cfg) race_step s -> reachable (race_init cfg) race_step (begun l s).
Proof.
  intros Hs. induction l as [|a l IH]; cbn [begun foldr]; [done|].
  eapply reachable_step; [exact IH|]. apply (race_begin (begun l s) a).
Qed.

(** Three weak failures of one address race: all find it in rotation, and then
    record their strikes; one of them degrades it. *)
Definition failing (err : DeliveryError) : attempt := mkAttempt "192.0.2.1" false (Some err) example_info.
Definition three_failures : race :=
  schedule [(0%nat, 5); (1%nat, 5); (2%nat, 6); (2%nat, 7); (0%nat, 7); (1%nat, 8); (1%nat, 9); (2%nat, 9); (0%nat, 9); (0%nat, 10)]
    (begun [failing weak_error; failing weak_error; failing weak_error] (mkRace example_tracker [] [])).
Example three_failures_log :
  rc_log three_failures =
    [WeaklyDegraded "192.0.2.1"; Struck "192.0.2.1" true; Struck "192.0.2.1" false; Struck "192.0.2.1" false] /\
  is_ip_healthy (rc_tracker three_failures) 11 "192.0.2.1" = false.
Proof. vm_compute. done. Qed.

Lemma tracker_invariant_witness :
  (forall l, repStrikes (rc_tracker three_failures) !! "192.0.2.1" = Some l ->
     l <> [] /\ Z.of_nat (length l) < 3) /\
  3 * weak_degradations "192.0.2.1" (rc_log three_failures)
    + Z.of_nat (length (strikes_at (rc_tracker three_failures) "192.0.2.1"))
    <= weak_attempts "192.0.2.1" (rc_attempts three_failures).
Proof.
  apply (tracker_invariant example_rep_config three_failures "192.0.2.1").
  apply schedule_race, begun_race, reachable_init. reflexivity.
Defined.

(** A weak failure finds the address in rotation; a strong one degrades it and
    drops its strikes; then the first records its strike, on a degraded
    address. *)
Example strike_on_degraded :
  let s := schedule [(0%nat, 5); (1%nat, 6); (1%nat, 7); (0%nat, 8); (0%nat, 9)]
             (begun [failing weak_error; failing strong_error] (mkRace example_tracker [] [])) in
  is_ip_healthy (rc_tracker s) 10 "192.0.2.1" = false /\ strikes_at (rc_tracker s) "192.0.2.1" = [8].
Proof. vm_compute. done. Qed.

Lemma serial_rotation_witness :
  is_ip_healthy (record_delivery_attempt example_tracker 5 5 5 "192.0.2.1" false (Some weak_error)
    example_info).1 5 "192.0.2.1" = true /\ [5] <> [] /\
  Z.of_nat (length [5]) < rep_DegradeFailureThreshold example_rep_config.
Proof.
  apply (serial_rotation example_rep_config
           (record_delivery_attempt example_tracker 5 5 5 "192.0.2.1" false (Some weak_error)
              example_info).1 5).
  - eapply reachable_step; [apply (reachable_init _ _ (example_tracker, 0)); reflexivity|].
    apply serial_attempt; lia.
  - vm_compute. reflexivity.
Defined.

Lemma weak_threshold_witness :
  is_ip_healthy (weak_failures example_tracker "192.0.2.1" weak_error example_info
    [1 * second; 2 * second]) (3 * second) "192.0.2.1" = true /\
  is_ip_healthy (record_delivery_attempt
    (weak_failures example_tracker "192.0.2.1" weak_error example_info [1 * second; 2 * second])
    (3 * second) (3 * second) (3 * second) "192.0.2.1" false (Some weak_error) example_info).1
    (3 * second) "192.0.2.1" = false.
Proof.
  apply (weak_threshold example_tracker "192.0.2.1" weak_error example_info
           [1 * second; 2 * second] (3 * second)); try done.
  intros s [<-|[<-|[]]]; vm_compute; done.
Defined.

Lemma degraded_life_witness :
  let deg := (record_delivery_attempt example_tracker 0 0 0 "192.0.2.1" false (Some strong_error)
                example_info).1 in
  is_ip_healthy deg (49 * hour) "192.0.2.1" = true /\
  is_ip_healthy (rep_cleanup deg 0 (fun _ => 0) 0) (49 * hour) "192.0.2.1" =
    is_ip_healthy deg (49 * hour) "192.0.2.1" /\
  is_ip_healthy (record_delivery_attempt deg (49 * hour) (49 * hour) (49 * hour) "192.0.2.1" true
    None example_info).1 (49 * hour) "192.0.2.1" = true.
Proof.
  apply (degraded_life example_tracker "192.0.2.1" strong_error example_info 0 (49 * hour) 0
           (fun _ => 0) 0); try done.
Defined.

(** Only the failure that crosses the threshold posts an alert. *)
Example one_alert_per_crossing :
  let step rt := record_delivery_attempt rt 7 7 7 "192.0.2.1" false (Some weak_error) example_info in
  let '(rt1, ev1) := step example_tracker in
  let '(rt2, ev2) := step rt1 in
  let '(rt3, ev3) := step rt2 in
  let '(_, ev4) := step rt3 in
  map length [ev1; ev2; ev3; ev4] = [0; 0; 1; 0]%nat.
Proof. vm_compute. reflexivity. Qed.
