(* ===== verification/ConnectionPool.v ===== *)
(** * The SMTP connection pool (internal/delivery/pool.go)

    Idle connections by ["mxHost|sourceIP"].  A connection is the natural
    number that names it; the operations return the connections they close.
    [Get] probes a candidate with NOOP outside the lock, so the interleavings
    of several goroutines are those of the step relation [pool_step]. *)

From stdpp Require Import base gmap sets list strings.
From Stdlib Require Import ZArith Lia Ascii.
From S2P Require Import Prelude GoString.
#[local] Open Scope Z_scope.

Definition client : Type := nat.

Record PooledConnection : Type := mkPooled {
  pc_client : client; pc_mxHost : string; pc_sourceIP : string; pc_timestamp : Z
}.

Record ConnectionPool : Type := mkPool {
  connections : gmap string (list PooledConnection);
  ttl : Z;
  maxIdle : Z
}.

Definition with_connections (p : ConnectionPool) (m : gmap string (list PooledConnection)) :=
  mkPool m (ttl p) (maxIdle p).

(** [NewConnectionPool] *)
Definition new_connection_pool (ttlSeconds : Z) : ConnectionPool :=
  let ttlSeconds := if ttlSeconds <=? 0 then 5 else ttlSeconds in
  mkPool ∅ (seconds ttlSeconds) 10.

(** [poolKey] *)
Definition pool_key (mxHost sourceIP : string) : string := mxHost +:+ "|" +:+ sourceIP.

Definition conns_at (p : ConnectionPool) (key : string) : list PooledConnection :=
  default [] (connections p !! key).

Definition expired (p : ConnectionPool) (now : Z) (c : PooledConnection) : bool :=
  ttl p <? time_sub now (pc_timestamp c).

(** The loop of [popCandidate], on the idle connections with the most recent
    first: the candidate, the expired ones closed on the way, what is left. *)
Fixpoint pop_loop (p : ConnectionPool) (now : Z) (recent : list PooledConnection)
    : option client * list client * list PooledConnection :=
  match recent with
  | [] => (None, [], [])
  | c :: recent =>
      if expired p now c then
        let '(r, closed, rest) := pop_loop p now recent in (r, pc_client c :: closed, rest)
      else (Some (pc_client c), [], recent)
  end.

(** [popCandidate] *)
Definition pop_candidate (p : ConnectionPool) (now : Z) (key : string)
    : option client * list client * ConnectionPool :=
  match conns_at p key with
  | [] => (None, [], p)
  | conns =>
      let '(r, closed, rest) := pop_loop p now (reverse conns) in
      (r, closed, with_connections p (<[key := reverse rest]> (connections p)))
  end.

(** [Get]; [noop] tells whether a connection answers, [clock] gives the reading
    of each round. *)
Fixpoint get_fuel (fuel : nat) (noop : client -> bool) (clock : nat -> Z) (p : ConnectionPool)
    (key : string) : option client * list client * ConnectionPool :=
  match fuel with
  | O => (None, [], p)
  | S fuel =>
      let '(r, closed, p) := pop_candidate p (clock fuel) key in
      match r with
      | None => (None, closed, p)
      | Some c =>
          if noop c then (Some c, closed, p)
          else let '(r, closed', p) := get_fuel fuel noop clock p key in
               (r, closed ++ c :: closed', p)
      end
  end.
Definition pool_get (noop : client -> bool) (clock : nat -> Z) (p : ConnectionPool)
    (mxHost sourceIP : string) : option client * list client * ConnectionPool :=
  let key := pool_key mxHost sourceIP in
  get_fuel (S (length (conns_at p key))) noop clock p key.

(** [Put]; a nil client is ignored. *)
Definition pool_put (p : ConnectionPool) (now : Z) (c : option client) (mxHost sourceIP : string)
    : list client * ConnectionPool :=
  match c with
  | None => ([], p)
  | Some c =>
      let key := pool_key mxHost sourceIP in
      let conns := conns_at p key in
      if maxIdle p <=? Z.of_nat (length conns) then ([c], p)
      else ([], with_connections p
                  (<[key := conns ++ [mkPooled c mxHost sourceIP now]]> (connections p)))
  end.

(** [cleanupExpired] *)
Definition active (p : ConnectionPool) (now : Z) (conns : list PooledConnection) :=
  List.filter (fun c => negb (expired p now c)) conns.
Definition cleanup_expired (p : ConnectionPool) (now : Z) : list client * ConnectionPool :=
  (concat (map (fun kv => map pc_client (List.filter (expired p now) kv.2))
             (map_to_list (connections p))),
   with_connections p
     (omap (fun conns => match active p now conns with [] => None | l => Some l end)
        (connections p))).

(** [CloseAll] *)
Definition close_all (p : ConnectionPool) : list client * ConnectionPool :=
  (concat (map (fun kv => map pc_client kv.2) (map_to_list (connections p))), with_connections p ∅).

(** [Stats] *)
Definition pool_stats (p : ConnectionPool) : nat * nat :=
  (list_sum (map (fun kv => length kv.2) (map_to_list (connections p))), size (connections p)).

(** ** The pool among concurrent deliveries

    [pool_step] interleaves the critical sections.  [in_use] are the
    connections some delivery holds, [fresh] the next new one. *)

Record pool_state : Type := mkPS { ps_pool : ConnectionPool; in_use : gset nat; fresh : nat }.

Inductive pool_step : pool_state -> pool_state -> Prop :=
| step_dial s :           (* dialAndHello opens a connection *)
    pool_step s (mkPS (ps_pool s) ({[fresh s]} ∪ in_use s) (S (fresh s)))
| step_pop s now mxHost sourceIP r closed p' :
    pop_candidate (ps_pool s) now (pool_key mxHost sourceIP) = (r, closed, p') ->
    pool_step s (mkPS p' (match r with Some c => {[c]} ∪ in_use s | None => in_use s end) (fresh s))
| step_close s c :        (* a failed NOOP, a failed transaction, Quit *)
    c ∈ in_use s -> pool_step s (mkPS (ps_pool s) (in_use s ∖ {[c]}) (fresh s))
| step_put s now c mxHost sourceIP closed p' :
    c ∈ in_use s -> pool_put (ps_pool s) now (Some c) mxHost sourceIP = (closed, p') ->
    pool_step s (mkPS p' (in_use s ∖ {[c]}) (fresh s))
| step_cleanup s now closed p' :
    cleanup_expired (ps_pool s) now = (closed, p') -> pool_step s (mkPS p' (in_use s) (fresh s))
| step_close_all s closed p' :
    close_all (ps_pool s) = (closed, p') -> pool_step s (mkPS p' (in_use s) (fresh s)).

Definition pool_init (ttlSeconds : Z) (s : pool_state) : Prop :=
  s = mkPS (new_connection_pool ttlSeconds) ∅ 0.

(** A connection is idle under a key. *)
Definition idle (p : ConnectionPool) (key : string) (c : client) : Prop :=
  exists pc, In pc (conns_at p key) /\ pc_client pc = c.

Record pool_inv (s : pool_state) : Prop := {
  inv_idle_free : forall key c, idle (ps_pool s) key c -> c ∉ in_use s;
  inv_idle_fresh : forall key c, idle (ps_pool s) key c -> (c < fresh s)%nat;
  inv_use_fresh : forall c, c ∈ in_use s -> (c < fresh s)%nat;
  inv_nodup : forall key, NoDup (map pc_client (conns_at (ps_pool s) key));
  inv_one_key : forall k1 k2 c, idle (ps_pool s) k1 c -> idle (ps_pool s) k2 c -> k1 = k2;
  inv_max : forall key, Z.of_nat (length (conns_at (ps_pool s) key)) <= maxIdle (ps_pool s);
  inv_key : forall key pc, In pc (conns_at (ps_pool s) key) ->
    key = pool_key (pc_mxHost pc) (pc_sourceIP pc)
}.

(** ** Lemmas *)

Lemma conns_at_insert p key l k :
  conns_at (with_connections p (<[key := l]> (connections p))) k =
  if decide (k = key) then l else conns_at p k.
Proof.
  unfold conns_at. simpl. destruct (decide (k = key)) as [->|]; [by rewrite lookup_insert_eq|].
  by rewrite lookup_insert_ne.
Qed.

Lemma pop_loop_spec p now l :
  let '(r, closed, rest) := pop_loop p now l in
  exists dead, Forall (fun c => expired p now c = true) dead /\ closed = map pc_client dead /\
    match r with
    | Some c => exists pc, l = dead ++ pc :: rest /\ pc_client pc = c /\ expired p now pc = false
    | None => l = dead /\ rest = []
    end.
Proof.
  induction l as [|c l IH]; cbn [pop_loop]; [by exists []|].
  destruct (expired p now c) eqn:E; [|by exists []; split; [|split; [|exists c]]].
  destruct (pop_loop p now l) as [[r closed] rest]. destruct IH as (dead & Hd & -> & Hr).
  exists (c :: dead). split; [by constructor|]. split; [done|].
  destruct r as [c'|].
  - destruct Hr as (pc & -> & ? & ?). by exists pc.
  - destruct Hr as [-> ->]. done.
Qed.

(** What [popCandidate] does to the idle list of its key. *)
Lemma pop_candidate_spec p now key r closed p' :
  pop_candidate p now key = (r, closed, p') ->
  ttl p' = ttl p /\ maxIdle p' = maxIdle p /\
  (forall k, k <> key -> conns_at p' k = conns_at p k) /\
  exists dead, Forall (fun c => expired p now c = true) dead /\
    match r with
    | Some c => exists pc, conns_at p key = conns_at p' key ++ pc :: dead /\
                           pc_client pc = c /\ expired p now pc = false
    | None => conns_at p key = dead /\ conns_at p' key = []
    end.
Proof.
  unfold pop_candidate. destruct (conns_at p key) as [|c0 l0] eqn:E.
  { intros [= <- <- <-]. rewrite E. split_and!; try done. by exists []. }
  pose proof (pop_loop_spec p now (reverse (c0 :: l0))) as Hs. set (l := c0 :: l0) in *.
  destruct (pop_loop p now (reverse l)) as [[r' closed'] rest].
  destruct Hs as (dead & Hd & -> & Hr). intros [= <- <- <-].
  split; [done|]. split; [done|]. split.
  { intros k Hk. rewrite conns_at_insert. by rewrite decide_False. }
  rewrite conns_at_insert, decide_True by done.
  exists (reverse dead). split; [by apply Forall_reverse|].
  destruct r' as [c|].
  - destruct Hr as (pc & Hl & Hc & He). exists pc. split; [|done].
    apply (f_equal reverse) in Hl.
    by rewrite reverse_involutive, reverse_app, reverse_cons, <- app_assoc in Hl.
  - destruct Hr as [Hl ->]. split; [|done]. by rewrite <- Hl, reverse_involutive.
Qed.

Lemma pop_idle p now key r closed p' k c :
  pop_candidate p now key = (r, closed, p') -> idle p' k c -> idle p k c.
Proof.
  intros Hp%pop_candidate_spec. destruct Hp as (_ & _ & Hk & dead & _ & Hr).
  intros (pc & Hin & <-). exists pc. split; [|done].
  destruct (decide (k = key)) as [->|]; [|by rewrite <- Hk].
  destruct r as [c'|].
  - destruct Hr as (pc' & -> & _). apply in_or_app. by left.
  - destruct Hr as [_ Hr]. by rewrite Hr in Hin.
Qed.

Lemma idle_key_nodup p key pc1 pc2 a b :
  NoDup (map pc_client (a ++ pc1 :: b)) -> conns_at p key = a ++ pc1 :: b ->
  In pc2 a -> pc_client pc2 <> pc_client pc1.
Proof.
  intros Hn _ Hin E. rewrite map_app in Hn. apply NoDup_app in Hn as (_ & Hn & _).
  apply (Hn (pc_client pc2)); [by apply list_elem_of_In, in_map|].
  rewrite E. simpl. by apply list_elem_of_here.
Qed.

Lemma pop_inv s now mxHost sourceIP r closed p' :
  pool_inv s -> pop_candidate (ps_pool s) now (pool_key mxHost sourceIP) = (r, closed, p') ->
  pool_inv (mkPS p' (match r with Some c => {[c]} ∪ in_use s | None => in_use s end) (fresh s)).
Proof.
  intros Hi Hp. set (key := pool_key mxHost sourceIP) in *.
  assert (Hidle : forall k c, idle p' k c -> idle (ps_pool s) k c) by by intros; eapply pop_idle.
  destruct (pop_candidate_spec _ _ _ _ _ _ Hp) as (_ & Hmax & Hother & dead & _ & Hr).
  assert (Hr' : forall c, r = Some c -> idle (ps_pool s) key c /\
                  forall k, ~ idle p' k c).
  { intros c ->. destruct Hr as (pc & Hl & Hc & _). split.
    - exists pc. split; [|done]. rewrite Hl. apply in_or_app. right. by left.
    - intros k Hk. assert (k = key) as ->.
      { eapply (inv_one_key _ Hi); [by apply Hidle|]. exists pc. split; [|done].
        rewrite Hl. apply in_or_app. right. by left. }
      destruct Hk as (pc' & Hin & E). pose proof (inv_nodup _ Hi key) as Hn. rewrite Hl in Hn.
      eapply idle_key_nodup; [exact Hn|exact Hl|exact Hin|congruence]. }
  split; simpl.
  - intros k c Hk. pose proof (inv_idle_free _ Hi k c (Hidle k c Hk)).
    destruct r as [c'|]; [|done]. destruct (Hr' c' eq_refl) as [_ Hno].
    assert (c <> c') by (intros ->; by eapply Hno). set_solver.
  - intros k c Hk. by eapply (inv_idle_fresh _ Hi), Hidle.
  - intros c. destruct r as [c'|]; [|apply Hi].
    intros [->%elem_of_singleton|]%elem_of_union; [|by apply Hi].
    destruct (Hr' c' eq_refl) as [? _]. by eapply (inv_idle_fresh _ Hi).
  - intros k. destruct (decide (k = key)) as [->|]; [|rewrite Hother by done; apply Hi].
    pose proof (inv_nodup _ Hi key) as Hn. destruct r as [c|].
    + destruct Hr as (pc & Hl & _). rewrite Hl, map_app in Hn. by apply NoDup_app in Hn as [? _].
    + destruct Hr as [_ Hr2]. rewrite Hr2. constructor.
  - intros k1 k2 c H1 H2. eapply (inv_one_key _ Hi); by apply Hidle.
  - intros k. rewrite Hmax. pose proof (inv_max _ Hi k) as Hm.
    destruct (decide (k = key)) as [->|]; [|by rewrite Hother by done].
    destruct r as [c|].
    + destruct Hr as (pc & Hl & _). rewrite Hl, length_app in Hm. lia.
    + destruct Hr as [_ Hr2]. rewrite Hr2. simpl. lia.
  - intros k pc Hin. apply (inv_key _ Hi).
    destruct (decide (k = key)) as [->|]; [|by rewrite <- Hother].
    destruct r as [c|].
    + destruct Hr as (pc' & -> & _). apply in_or_app. by left.
    + destruct Hr as [_ Hr2]. by rewrite Hr2 in Hin.
Qed.

Lemma put_inv s now c mxHost sourceIP closed p' :
  pool_inv s -> c ∈ in_use s -> pool_put (ps_pool s) now (Some c) mxHost sourceIP = (closed, p') ->
  pool_inv (mkPS p' (in_use s ∖ {[c]}) (fresh s)).
Proof.
  intros Hi Hc. unfold pool_put. set (key := pool_key mxHost sourceIP).
  destruct (Z.leb_spec (maxIdle (ps_pool s)) (Z.of_nat (length (conns_at (ps_pool s) key))));
    intros [= <- <-].
  - destruct Hi as [H1 H2 H3 H4 H5 H6 H7]. split; simpl; try done.
    + intros k c' Hk. specialize (H1 k c' Hk). set_solver.
    + intros c'. set_solver.
  - set (pc0 := mkPooled c mxHost sourceIP now).
    set (p' := with_connections _ _).
    assert (Hat : forall k, conns_at p' k =
              if decide (k = key) then conns_at (ps_pool s) key ++ [pc0] else conns_at (ps_pool s) k)
      by (intros; apply conns_at_insert).
    assert (Hidle : forall k c', idle p' k c' -> idle (ps_pool s) k c' \/ (k = key /\ c' = c)).
    { intros k c' (pc & Hin & <-). rewrite Hat in Hin. destruct (decide (k = key)) as [->|].
      - apply in_app_or in Hin as [Hin|[<-|[]]]; [left; by exists pc|by right].
      - left. by exists pc. }
    assert (Hnot : forall k, ~ idle (ps_pool s) k c)
      by (intros k Hk; by apply (inv_idle_free _ Hi) in Hk).
    assert (Hmax : maxIdle p' = maxIdle (ps_pool s)) by done. clearbody p'. split; simpl.
    + intros k c' [Hk|[-> ->]]%Hidle; [|set_solver].
      pose proof (inv_idle_free _ Hi k c' Hk). set_solver.
    + intros k c' [Hk|[-> ->]]%Hidle; [by eapply (inv_idle_fresh _ Hi)|by apply Hi].
    + intros c' Hc'. apply (inv_use_fresh _ Hi). set_solver.
    + intros k. rewrite Hat. destruct (decide (k = key)) as [->|]; [|apply Hi].
      rewrite map_app. apply NoDup_app. split; [apply Hi|]. split; [|apply NoDup_singleton].
      intros c' (pc & Hpc & Hin)%list_elem_of_In%in_map_iff ->%list_elem_of_singleton.
      apply (Hnot key). by exists pc.
    + intros k1 k2 c' [H1|[-> ->]]%Hidle [H2|[-> E]]%Hidle; subst; try done.
      * by eapply (inv_one_key _ Hi).
      * by apply Hnot in H1.
      * by apply Hnot in H2.
    + intros k. rewrite Hat, Hmax. destruct (decide (k = key)) as [->|].
      * rewrite length_app. cbn [length]. lia.
      * apply Hi.
    + intros k pc. rewrite Hat. destruct (decide (k = key)) as [->|]; [|apply Hi].
      intros [Hin|[<-|[]]]%in_app_or; [by apply Hi|done].
Qed.

Lemma cleanup_conns p now k :
  conns_at (cleanup_expired p now).2 k = active p now (conns_at p k).
Proof.
  unfold cleanup_expired, conns_at. simpl. rewrite lookup_omap.
  destruct (connections p !! k) as [l|]; simpl; [|done]. by destruct (active p now l).
Qed.

(** Dropping idle connections keeps the invariant. *)
Lemma drop_inv s p' (keep : string -> PooledConnection -> bool) :
  pool_inv s -> maxIdle p' = maxIdle (ps_pool s) ->
  (forall k, conns_at p' k = List.filter (keep k) (conns_at (ps_pool s) k)) ->
  pool_inv (mkPS p' (in_use s) (fresh s)).
Proof.
  intros Hi Hmax Hat.
  assert (Hidle : forall k c, idle p' k c -> idle (ps_pool s) k c).
  { intros k c (pc & Hin & <-). rewrite Hat in Hin. apply filter_In in Hin as [Hin _]. by exists pc. }
  split; simpl.
  - eauto using inv_idle_free.
  - eauto using inv_idle_fresh.
  - apply Hi.
  - intros k. rewrite Hat. pose proof (inv_nodup _ Hi k) as Hn.
    induction (conns_at (ps_pool s) k) as [|pc l IH]; simpl in *; [constructor|].
    apply NoDup_cons in Hn as [Hn1 Hn2]. destruct (keep k pc); [|by apply IH].
    apply NoDup_cons. split; [|by apply IH]. intros Hin. apply Hn1.
    apply list_elem_of_In, in_map_iff in Hin as (pc' & He & Hin).
    apply filter_In in Hin as [Hin _]. rewrite <- He. by apply list_elem_of_In, in_map.
  - intros k1 k2 c H1 H2. eapply (inv_one_key _ Hi); by apply Hidle.
  - intros k. rewrite Hat, Hmax. pose proof (inv_max _ Hi k).
    pose proof (filter_length_le (keep k) (conns_at (ps_pool s) k)). lia.
  - intros k pc. rewrite Hat. intros [Hin _]%filter_In. by apply Hi.
Qed.

Lemma in_use_inv s u f :
  pool_inv s -> (fresh s <= f)%nat -> (forall c, c ∈ u -> (c < f)%nat) ->
  (forall c, c ∈ u -> c ∈ in_use s \/ c = fresh s) -> pool_inv (mkPS (ps_pool s) u f).
Proof.
  intros [H1 H2 H3 H4 H5 H6 H7] Hf Hu Hsub. split; simpl; try done.
  - intros k c Hk Hc. pose proof (H1 k c Hk). pose proof (H2 k c Hk).
    destruct (Hsub c Hc) as [?| ->]; [done|lia].
  - intros k c Hk. pose proof (H2 k c Hk). lia.
Qed.

Lemma pool_step_inv s s' : pool_inv s -> pool_step s s' -> pool_inv s'.
Proof.
  intros Hi Hs. destruct Hs as [s|s now mx src r closed p' H|s c H|s now c mx src closed p' H H'
    |s now closed p' H|s closed p' H].
  - apply in_use_inv; [done|lia| |].
    + intros c. rewrite elem_of_union, elem_of_singleton.
      intros [->|Hc%(inv_use_fresh _ Hi)]; lia.
    + set_solver.
  - by eapply pop_inv.
  - apply in_use_inv; [done|lia| |set_solver].
    intros c' Hc. apply (inv_use_fresh _ Hi). set_solver.
  - by eapply put_inv.
  - injection H as _ <-. apply (drop_inv s _ (fun _ c => negb (expired (ps_pool s) now c))); [done|done|].
    intros k. apply (cleanup_conns (ps_pool s) now k).
  - injection H as _ <-. apply (drop_inv s _ (fun _ _ => false)); [done|done|].
    intros k. unfold conns_at at 1. simpl. rewrite lookup_empty. simpl.
    by induction (conns_at (ps_pool s) k).
Qed.

Lemma pool_init_inv ttlSeconds s : pool_init ttlSeconds s -> pool_inv s.
Proof.
  assert (Hat : forall k, conns_at (new_connection_pool ttlSeconds) k = [])
    by (intros; unfold conns_at; simpl; by rewrite lookup_empty).
  intros ->. split; simpl.
  - intros k c (pc & Hin & _). by rewrite Hat in Hin.
  - intros k c (pc & Hin & _). by rewrite Hat in Hin.
  - set_solver.
  - intros k. rewrite Hat. constructor.
  - intros k1 k2 c (pc & Hin & _). by rewrite Hat in Hin.
  - intros k. by rewrite Hat.
  - intros k pc Hin. by rewrite Hat in Hin.
Qed.

(** The rounds of [Get]. *)
Lemma get_fuel_spec fuel noop clock p key r closed p' :
  (length (conns_at p key) < fuel)%nat -> get_fuel fuel noop clock p key = (r, closed, p') ->
  match r with
  | Some c => noop c = true /\ exists pc gone, conns_at p key = conns_at p' key ++ pc :: gone /\
                pc_client pc = c /\ (exists i, expired p (clock i) pc = false) /\
                Forall (fun g => noop (pc_client g) = false \/ exists i, expired p (clock i) g = true) gone
  | None => conns_at p' key = [] /\
            Forall (fun g => noop (pc_client g) = false \/ exists i, expired p (clock i) g = true)
              (conns_at p key)
  end.
Proof.
  revert p r closed p'. induction fuel as [|fuel IH]; intros p r closed p' Hl; [lia|].
  cbn [get_fuel]. destruct (pop_candidate p (clock fuel) key) as [[r1 closed1] p1] eqn:Hp.
  apply pop_candidate_spec in Hp as (Httl & _ & _ & dead & Hd & Hr).
  assert (He : forall now g, expired p1 now g = expired p now g)
    by (intros; unfold expired; by rewrite Httl).
  assert (Hd' : Forall (fun g => noop (pc_client g) = false \/ exists i, expired p (clock i) g = true) dead).
  { eapply Forall_impl; [exact Hd|]. intros g Hg. right. by exists fuel. }
  destruct r1 as [c|].
  2:{ intros [= <- <- <-]. destruct Hr as [-> ->]. done. }
  destruct Hr as (pc & Hl1 & Hc & He1). destruct (noop c) eqn:Hn.
  { intros [= <- <- <-]. split; [done|]. exists pc, dead. split_and!; eauto. }
  destruct (get_fuel fuel noop clock p1 key) as [[r2 closed2] p2] eqn:Hg.
  intros [= <- <- <-].
  assert (length (conns_at p1 key) < fuel)%nat by (rewrite Hl1, length_app in Hl; simpl in Hl; lia).
  specialize (IH p1 r2 closed2 p2 ltac:(done) Hg).
  assert (Hgone : Forall (fun g => noop (pc_client g) = false \/
                    exists i, expired p (clock i) g = true) (pc :: dead)).
  { constructor; [left; by rewrite Hc|done]. }
  destruct r2 as [c2|].
  - destruct IH as (Hn2 & pc2 & gone & Hl2 & Hc2 & (i & Hi) & Hg2). split; [done|].
    exists pc2, (gone ++ pc :: dead). rewrite Hl1, Hl2, <- app_assoc. split_and!; try done.
    + exists i. by rewrite <- He.
    + apply Forall_app. split; [|done]. eapply Forall_impl; [exact Hg2|]. simpl.
      intros g [?|[j Hj]]; [by left|right; exists j; by rewrite <- He].
  - destruct IH as [-> Hg2]. split; [done|]. rewrite Hl1. apply Forall_app. split; [|done].
    eapply Forall_impl; [exact Hg2|]. simpl.
    intros g [?|[j Hj]]; [by left|right; exists j; by rewrite <- He].
Qed.

(** ** Properties *)

(** C19: exclusive ownership.  In every interleaving of dials, pops, NOOP
    failures, puts, cleanups and shutdown, a connection that some delivery
    holds is not idle in the pool, an idle connection is idle once and under
    one key, and no key has more than ten. *)
Theorem pool_exclusive ttlSeconds s :
  reachable (pool_init ttlSeconds) pool_step s ->
  (forall key c, idle (ps_pool s) key c -> c ∉ in_use s) /\
  (forall key, NoDup (map pc_client (conns_at (ps_pool s) key))) /\
  (forall k1 k2 c, idle (ps_pool s) k1 c -> idle (ps_pool s) k2 c -> k1 = k2) /\
  (forall key, Z.of_nat (length (conns_at (ps_pool s) key)) <= 10).
Proof.
  intros Hr.
  assert (pool_inv s /\ maxIdle (ps_pool s) = 10) as [[H1 H2 H3 H4 H5 H6 H7] H10].
  { revert Hr. apply (invariant_reachable _ _ (fun s => pool_inv s /\ maxIdle (ps_pool s) = 10)).
    - intros s0 H0. split; [by eapply pool_init_inv|by rewrite H0].
    - intros s1 s2 [Hi Hm] Hst. split; [by eapply pool_step_inv|].
      destruct Hst as [| ? ? ? ? ? ? ? H | | ? ? ? ? ? ? ? ? H | ? ? ? ? H | ? ? ? H]; simpl; try done.
      + by apply pop_candidate_spec in H as (_ & -> & _).
      + unfold pool_put in H. destruct (_ <=? _); by injection H as _ <-.
      + by injection H as _ <-.
      + by injection H as _ <-. }
  split_and!; try done. intros key. specialize (H6 key). lia.
Qed.

(** What [Get] hands out.  It always returns; a connection it hands out
    answered NOOP, had not expired, was idle under the key of this host and
    source address and is no longer; every more recent one was dropped because
    it had expired or did not answer.  Without an answer, none is left. *)
Theorem pool_get_spec noop clock p mxHost sourceIP r closed p' :
  pool_get noop clock p mxHost sourceIP = (r, closed, p') ->
  let key := pool_key mxHost sourceIP in
  let dropped g := noop (pc_client g) = false \/ exists i, expired p (clock i) g = true in
  match r with
  | Some c => noop c = true /\ exists pc gone, conns_at p key = conns_at p' key ++ pc :: gone /\
                pc_client pc = c /\ (exists i, expired p (clock i) pc = false) /\ Forall dropped gone
  | None => conns_at p' key = [] /\ Forall dropped (conns_at p key)
  end.
Proof. unfold pool_get. intros H. eapply get_fuel_spec; [|exact H]. lia. Qed.

(** The keys do not confuse destinations: two pairs of a host and a source
    address (which never contains a bar) share a key only if they are equal. *)
Theorem pool_key_injective h1 s1 h2 s2 :
  no_byte "|" s1 = true -> no_byte "|" s2 = true ->
  pool_key h1 s1 = pool_key h2 s2 -> h1 = h2 /\ s1 = s2.
Proof.
  intros H1 H2 E. unfold pool_key in E. apply (f_equal sreverse) in E.
  rewrite !sreverse_app in E.
  assert (no_byte "|" (sreverse s1) = true) as H1' by (unfold no_byte; by rewrite sall_sreverse).
  assert (no_byte "|" (sreverse s2) = true) as H2' by (unfold no_byte; by rewrite sall_sreverse).
  rewrite !sapp_assoc in E. cbn [sreverse srev String.append] in E.
  pose proof (f_equal (index_byte "|") E) as Hi. rewrite !index_byte_app in Hi by done.
  injection Hi as Hi.
  assert (sreverse s1 = sreverse s2) as Hs.
  { apply (f_equal (stake (slen (sreverse s1)))) in E. rewrite stake_app_len in E.
    by rewrite Hi, stake_app_len in E. }
  rewrite Hs in E. apply (f_equal (sdrop (slen (sreverse s2)))) in E.
  rewrite !sdrop_app_len in E. injection E as E.
  split; [|by rewrite <- (sreverse_involutive s1), Hs, sreverse_involutive].
  by rewrite <- (sreverse_involutive h1), E, sreverse_involutive.
Qed.

(** ** Witnesses *)

Lemma pool_exclusive_witness :
  let s := mkPS (new_connection_pool 5) ({[0%nat]} ∪ ∅) 1 in
  (forall key c, idle (ps_pool s) key c -> c ∉ in_use s) /\
  (forall key, NoDup (map pc_client (conns_at (ps_pool s) key))) /\
  (forall k1 k2 c, idle (ps_pool s) k1 c -> idle (ps_pool s) k2 c -> k1 = k2) /\
  (forall key, Z.of_nat (length (conns_at (ps_pool s) key)) <= 10).
Proof.
  apply (pool_exclusive 5). eapply reachable_step; [apply reachable_init; reflexivity|].
  apply (step_dial (mkPS (new_connection_pool 5) ∅ 0)).
Defined.

Definition example_pool : ConnectionPool :=
  let '(_, p) := pool_put (new_connection_pool 5) 0 (Some 1%nat) "mx.example.net" "192.0.2.1" in
  let '(_, p) := pool_put p second (Some 2%nat) "mx.example.net" "192.0.2.1" in
  (pool_put p (2 * second) (Some 3%nat) "mx.example.net" "192.0.2.1").2.

(** Connection 3 does not answer, connection 2 is handed out. *)
Lemma pool_get_spec_witness :
  let noop := fun c => negb (c =? 3)%nat in
  let p' := (pool_get noop (fun _ => 3 * second) example_pool "mx.example.net" "192.0.2.1").2 in
  noop 2%nat = true /\ exists pc gone,
    conns_at example_pool "mx.example.net|192.0.2.1" = conns_at p' "mx.example.net|192.0.2.1" ++ pc :: gone /\
    pc_client pc = 2%nat /\ (exists i : nat, expired example_pool (3 * second) pc = false) /\
    Forall (fun g => noop (pc_client g) = false \/ exists i : nat, expired example_pool (3 * second) g = true)
      gone.
Proof.
  apply (pool_get_spec (fun c => negb (c =? 3)%nat) (fun _ => 3 * second) example_pool
           "mx.example.net" "192.0.2.1" (Some 2%nat) [3%nat]).
  vm_compute. reflexivity.
Defined.

Lemma pool_key_injective_witness : "a|b" = "a|b" /\ "1.2.3.4" = "1.2.3.4".
Proof. apply (pool_key_injective "a|b" "1.2.3.4" "a|b" "1.2.3.4"); reflexivity. Defined.
