(* ===== verification/MXLookup.v ===== *)
(** * MX lookup (internal/delivery/mx_lookup.go, internal/delivery/dns_resolver.go)

    [DNSResolver] dials the configured servers in rotation and labels their
    errors; [MXLookup] classifies the DNS answers, sorts and caches them, and
    coalesces concurrent lookups of a domain ([singleflightGroup], the step
    relation at the end).  The queries themselves are the answers of Go's
    [net.Resolver], arguments of the operations. *)

From stdpp Require Import base gmap sets list strings.
From Stdlib Require Import ZArith Lia Sorted Permutation.
From S2P Require Import Prelude GoString GoError NetIP Config.
#[local] Open Scope Z_scope.

(** ** The resolver *)

Record DNSResolver : Type := mkDNSResolver {
  resolvers : list string;
  dns_timeout : Z;
  currentIdx : Z                 (* uint32 *)
}.

(** [NewDNSResolver] *)
Definition new_dns_resolver (cfg : DNSConfig) : DNSResolver :=
  mkDNSResolver (dns_Resolvers cfg) (seconds (dns_TimeoutSeconds cfg)) 0.

(** The loop of [dialResolver] over the servers in trial order: the connection
    or the last error, and the dials made. *)
Fixpoint dial_loop {Conn : Type} (dial : string -> string -> result error Conn) (wantTCP : bool)
    (servers : list string) (lastErr : error) : result error Conn * list (string * string) :=
  match servers with
  | [] => (Err (ErrWrap ("all DNS resolvers failed, last error: " +:+ error_text lastErr) lastErr), [])
  | server :: servers =>
      let tcp (made : list (string * string)) :=
        match dial "tcp" server with
        | Ok c => (Ok c, made ++ [("tcp", server)])
        | Err e => let '(r, more) := dial_loop dial wantTCP servers e in
                   (r, made ++ ("tcp", server) :: more)
        end in
      if wantTCP then tcp []
      else match dial "udp" server with
           | Ok c => (Ok c, [("udp", server)])
           | Err _ => tcp [("udp", server)]
           end
  end.

(** [l] from its [k]-th element on, then the elements before. *)
Definition rotate_from {A} (k : nat) (l : list A) : list A := drop k l ++ take k l.

(** [dialResolver]; with no server configured it is not called. *)
Definition dial_resolver {Conn : Type} (dial : string -> string -> result error Conn)
    (d : DNSResolver) (network : string) : result error Conn * list (string * string) * DNSResolver :=
  let wantTCP := has_prefix network "tcp" in
  let idx := wrapu32 (currentIdx d + 1) in
  let startIdx := Z.to_nat (idx mod Z.of_nat (length (resolvers d))) in
  let '(r, made) := dial_loop dial wantTCP (rotate_from startIdx (resolvers d)) (ErrText "") in
  (r, made, mkDNSResolver (resolvers d) (dns_timeout d) idx).

(** [resolverError] *)
Definition resolver_error (d : DNSResolver) (err : error) : error :=
  match resolvers d, as_dns err with
  | _ :: _, Some (ErrDNS name _ e nf t) => ErrDNS name (join (resolvers d) ",") e nf t
  | _, _ => err
  end.

(** [LookupMX], [LookupHost], [LookupTXT]; [answer] is that of [net.Resolver]. *)
Definition resolver_lookup_mx (d : DNSResolver) (answer : result error (list (string * Z)))
    : result error (list (string * Z)) :=
  match answer with
  | Err e => let e := resolver_error d e in Err (ErrWrap ("MX lookup failed: " +:+ error_text e) e)
  | Ok l => Ok l
  end.
Definition resolver_lookup_host (d : DNSResolver) (answer : result error (list string))
    : result error (list string) :=
  match answer with
  | Err e => let e := resolver_error d e in Err (ErrWrap ("host lookup failed: " +:+ error_text e) e)
  | Ok l => Ok l
  end.
Definition resolver_lookup_txt (d : DNSResolver) (answer : result error (list string))
    : result error (list string) :=
  match answer with
  | Err e => let e := resolver_error d e in Err (ErrWrap ("TXT lookup failed: " +:+ error_text e) e)
  | Ok l => Ok l
  end.

(** ** The lookup and its cache *)

Record MXRecord : Type := mkMXRecord { Host : string; Priority : Z (* uint16 *) }.

Record mxCacheEntry : Type := mkEntry {
  ce_records : list MXRecord; ce_err : option error; ce_expiresAt : Z
}.

Record MXLookup : Type := mkMXLookup {
  dnsResolver : DNSResolver;
  cache : gmap string mxCacheEntry;
  cacheTTL : Z;
  negativeTTL : Z
}.

Definition with_cache (m : MXLookup) (c : gmap string mxCacheEntry) : MXLookup :=
  mkMXLookup (dnsResolver m) c (cacheTTL m) (negativeTTL m).

(** [NewMXLookup], [ReloadConfig] *)
Definition new_mx_lookup (cfg : DNSConfig) : MXLookup :=
  mkMXLookup (new_dns_resolver cfg) ∅ (seconds (dns_CacheTTLSeconds cfg))
    (seconds (dns_CacheNegativeTTLSeconds cfg)).
Definition mx_reload_config (m : MXLookup) (cfg : DNSConfig) : MXLookup :=
  mkMXLookup (new_dns_resolver cfg) (cache m) (seconds (dns_CacheTTLSeconds cfg))
    (seconds (dns_CacheNegativeTTLSeconds cfg)).

Definition errNoMXRecords : error := ErrSentinel "no MX records found".
Definition no_mx_for (domain : string) : error :=
  ErrWrap ("no MX records found for domain " +:+ domain) errNoMXRecords.

(** [isDNSNotFound] *)
Definition is_dns_not_found (err : error) : bool :=
  match as_dns err with Some (ErrDNS _ _ _ nf _) => nf | _ => false end.

(** The answers of [net.Resolver] to the two queries of a lookup. *)
Record answers : Type := mkAnswers {
  mx_answer : result error (list (string * Z));
  host_answer : result error (list string)
}.

(** [lookupDNS] *)
Definition lookup_dns (m : MXLookup) (domain : string) (a : answers) : result error (list MXRecord) :=
  let by_address :=
    match resolver_lookup_host (dnsResolver m) (host_answer a) with
    | Err e => if is_dns_not_found e then Err (no_mx_for domain)
               else Err (ErrWrap ("address lookup failed: " +:+ error_text e) e)
    | Ok [] => Err (no_mx_for domain)
    | Ok _ => Ok [mkMXRecord domain 0]
    end in
  match resolver_lookup_mx (dnsResolver m) (mx_answer a) with
  | Err e => if negb (is_dns_not_found e)
             then Err (ErrWrap ("MX lookup failed: " +:+ error_text e) e)
             else by_address
  | Ok [] => by_address
  | Ok l => Ok (map (fun hp => mkMXRecord hp.1 hp.2) l)
  end.

(** [getFromCache] *)
Definition get_from_cache (m : MXLookup) (now : Z) (domain : string)
    : option (list MXRecord * option error) * MXLookup :=
  match cache m !! domain with
  | None => (None, m)
  | Some e => if time_after now (ce_expiresAt e) then (None, with_cache m (delete domain (cache m)))
              else (Some (ce_records e, ce_err e), m)
  end.

(** [storeInCache] *)
Definition store_in_cache (m : MXLookup) (now : Z) (domain : string) (records : list MXRecord)
    (err : option error) (ttl : Z) : MXLookup :=
  with_cache m (<[domain := mkEntry records err (now + ttl)]> (cache m)).

(** [InvalidateCache], [CleanupExpiredCache] *)
Definition invalidate_cache (m : MXLookup) (domain : string) : MXLookup :=
  with_cache m (delete domain (cache m)).
Definition cleanup_expired_cache (m : MXLookup) (now : Z) : nat * MXLookup :=
  let c := map_keep (fun _ e => negb (time_after now (ce_expiresAt e))) (cache m) in
  ((size (cache m) - size c)%nat, with_cache m c).

Section Lookup.
(** [sort.Slice] by priority: some order-respecting permutation. *)
Context (sort : list MXRecord -> list MXRecord).

(** The shared lookup that [singleflight] runs; [now] is the clock when its
    result is stored. *)
Definition shared_lookup (m : MXLookup) (domain : string) (a : answers) (now : Z)
    : result error (list MXRecord) * MXLookup :=
  match lookup_dns m domain a with
  | Err e =>
      (Err e, if error_is e errNoMXRecords then store_in_cache m now domain [] None (negativeTTL m)
              else store_in_cache m now domain [] (Some e) (negativeTTL m))
  | Ok records =>
      let records := sort records in
      (Ok records, store_in_cache m now domain records None (cacheTTL m))
  end.

(** [Lookup]: [ctx0] is [ctx.Err()] at the start; [ctx1] is the context's
    error when it ends before the shared lookup does (which goes on for the
    others); [t0] is the clock at the cache, [t1] at the store. *)
Definition lookup (m : MXLookup) (ctx0 ctx1 : option error) (t0 t1 : Z) (domain : string)
    (a : answers) : result error (list MXRecord) * MXLookup :=
  match ctx0 with
  | Some e => (Err e, m)
  | None =>
      match get_from_cache m t0 domain with
      | (Some (records, Some e), m) => (Err e, m)
      | (Some (records, None), m) => (Ok records, m)
      | (None, m) =>
          let '(r, m) := shared_lookup m domain a t1 in
          (match ctx1 with Some e => Err e | None => r end, m)
      end
  end.

(** ** What a result means to the deliverer *)

Inductive route : Type :=
| Route (records : list MXRecord)     (* try these hosts *)
| NoRoute                             (* permanent: hard bounce *)
| Retry.                              (* transient: temporary failure *)

Definition route_of (r : result error (list MXRecord)) : route :=
  match r with
  | Ok [] => NoRoute
  | Ok l => Route l
  | Err e => if error_is e errNoMXRecords then NoRoute else Retry
  end.

(** A definitive negative answer. *)
Definition none_found {A} (r : result error (list A)) : bool :=
  match r with Ok [] => true | Ok _ => false | Err e => is_dns_not_found e end.

(** ** Lemmas *)

Lemma not_found_relabelled d e : is_dns_not_found (resolver_error d e) = is_dns_not_found e.
Proof.
  unfold resolver_error, is_dns_not_found.
  destruct (resolvers d); [done|]. destruct (as_dns e) as [[]|] eqn:E; simpl; by rewrite ?E.
Qed.

Lemma relabelled_not_nomx d e :
  error_is e errNoMXRecords = false -> error_is (resolver_error d e) errNoMXRecords = false.
Proof.
  unfold resolver_error. destruct (resolvers d); [done|]. destruct (as_dns e) as [[]|]; done.
Qed.

Lemma wrap_not_nomx t e :
  error_is e errNoMXRecords = false -> error_is (ErrWrap t e) errNoMXRecords = false.
Proof. intros He. cbn [error_is]. rewrite He. by rewrite bool_decide_false. Qed.

(** The errors of [net.Resolver] are not the package's own sentinel. *)
Definition foreign_errors (a : answers) : Prop :=
  (forall e, mx_answer a = Err e -> error_is e errNoMXRecords = false) /\
  (forall e, host_answer a = Err e -> error_is e errNoMXRecords = false).

Lemma lookup_dns_route m domain a :
  foreign_errors a ->
  route_of (lookup_dns m domain a) =
  match mx_answer a with
  | Ok ((_ :: _) as l) => Route (map (fun hp => mkMXRecord hp.1 hp.2) l)
  | _ =>
      if negb (none_found (mx_answer a)) then Retry
      else if none_found (host_answer a) then NoRoute
      else match host_answer a with Ok _ => Route [mkMXRecord domain 0] | Err _ => Retry end
  end.
Proof.
  intros [Hm Hh]. unfold lookup_dns, none_found, resolver_lookup_mx, resolver_lookup_host.
  assert (Hhost : forall t, route_of (match
      match host_answer a with
      | Ok l => Ok l
      | Err e => let e := resolver_error (dnsResolver m) e in
                 Err (ErrWrap ("host lookup failed: " +:+ error_text e) e)
      end with
      | Err e => if is_dns_not_found e then Err (no_mx_for domain) else Err (ErrWrap (t e) e)
      | Ok [] => Err (no_mx_for domain)
      | Ok (_ :: _) => Ok [mkMXRecord domain 0]
      end) =
      if none_found (host_answer a) then NoRoute
      else match host_answer a with Ok _ => Route [mkMXRecord domain 0] | Err _ => Retry end).
  { intros t. unfold none_found. destruct (host_answer a) as [[|x l]|e]; [done|done|].
    cbv zeta. change (is_dns_not_found (ErrWrap ?t ?e)) with (is_dns_not_found e).
    rewrite not_found_relabelled.
    destruct (is_dns_not_found e); [done|]. unfold route_of.
    rewrite wrap_not_nomx; [done|]. apply wrap_not_nomx, relabelled_not_nomx. by apply Hh. }
  destruct (mx_answer a) as [[|hp l]|e].
  - apply (Hhost (fun e => "address lookup failed: " +:+ error_text e)).
  - done.
  - cbv zeta. change (is_dns_not_found (ErrWrap ?t ?e)) with (is_dns_not_found e).
    rewrite not_found_relabelled. destruct (is_dns_not_found e); cbn [negb].
    + apply (Hhost (fun e => "address lookup failed: " +:+ error_text e)).
    + unfold route_of. rewrite wrap_not_nomx; [done|].
      apply wrap_not_nomx, relabelled_not_nomx. by apply Hm.
Qed.
End Lookup.

Section LookupProperties.
Context (sort : list MXRecord -> list MXRecord).
(** [sort.Slice] permutes its argument. *)
Context (sort_permutes : forall l, Permutation l (sort l)).

Lemma sort_nonempty r l : route_of (Ok (sort (r :: l))) = Route (sort (r :: l)).
Proof.
  pose proof (Permutation_length (sort_permutes (r :: l))) as Hl.
  destruct (sort (r :: l)); done.
Qed.

Lemma shared_lookup_route m domain a now :
  route_of (shared_lookup sort m domain a now).1 =
  match route_of (lookup_dns m domain a) with Route l => Route (sort l) | r => r end.
Proof.
  unfold shared_lookup. destruct (lookup_dns m domain a) as [[|r l]|e] eqn:E; cbn [fst].
  - pose proof (Permutation_length (sort_permutes [])) as Hl.
    destruct (sort []); done.
  - by rewrite sort_nonempty.
  - unfold route_of. by destruct (error_is e errNoMXRecords).
Qed.

(** The entry a shared lookup leaves, and what a later hit makes of it. *)
Lemma shared_lookup_entry m domain a now :
  exists entry, cache (shared_lookup sort m domain a now).2 !! domain = Some entry /\
    route_of (match ce_err entry with Some e => Err e | None => Ok (ce_records entry) end) =
      route_of (shared_lookup sort m domain a now).1 /\
    ce_expiresAt entry =
      now + match (shared_lookup sort m domain a now).1 with
            | Ok _ => cacheTTL m | Err _ => negativeTTL m end.
Proof.
  unfold shared_lookup. destruct (lookup_dns m domain a) as [l|e].
  - eexists. split; [apply lookup_insert_eq|]. done.
  - cbn [fst snd]. destruct (error_is e errNoMXRecords) eqn:E;
      (eexists; split; [apply lookup_insert_eq|split; [|done]]); simpl; by rewrite E.
Qed.

(** Classification by the DNS outcome.  On a cache miss, the deliverer
    bounces only when the MX query and the address query both gave a
    definitive negative answer; it retries on any other resolver failure; an
    address without MX records is the implicit MX; otherwise it gets the
    published records, sorted. *)
Theorem lookup_classifies m t0 t1 domain a :
  foreign_errors a -> cache m !! domain = None ->
  route_of (lookup sort m None None t0 t1 domain a).1 =
  match mx_answer a with
  | Ok ((_ :: _) as l) => Route (sort (map (fun hp => mkMXRecord hp.1 hp.2) l))
  | _ =>
      if negb (none_found (mx_answer a)) then Retry
      else if none_found (host_answer a) then NoRoute
      else match host_answer a with
           | Ok _ => Route (sort [mkMXRecord domain 0])
           | Err _ => Retry
           end
  end.
Proof.
  intros Ha Hc. unfold lookup, get_from_cache. rewrite Hc.
  pose proof (shared_lookup_route m domain a t1) as Hr.
  destruct (shared_lookup sort m domain a t1) as [r m']. cbn [fst] in *. rewrite Hr.
  rewrite lookup_dns_route by done.
  destruct (mx_answer a) as [[|hp l]|e]; [|done|];
    (destruct (negb (none_found _)); [done|]; destruct (none_found (host_answer a)); [done|];
     destruct (host_answer a); done).
Qed.

(** The cache repeats the verdict.  Until the entry expires, every lookup
    of the domain means the same to the deliverer as the lookup that filled
    the cache: routes stay routes, a permanent failure stays permanent, and a
    transient one stays retryable; after it expires the DNS is asked again. *)
Theorem cache_keeps_verdict m t0 t1 domain a t0' t1' a' :
  cache m !! domain = None ->
  let '(r, m') := lookup sort m None None t0 t1 domain a in
  let ttl := match r with Ok _ => cacheTTL m | Err _ => negativeTTL m end in
  route_of (lookup sort m' None None t0' t1' domain a').1 =
  if t0' <=? t1 + ttl then route_of r
  else route_of (lookup sort (invalidate_cache m' domain) None None t0' t1' domain a').1.
Proof.
  intros Hc. unfold lookup at 1. unfold get_from_cache at 1. rewrite Hc.
  pose proof (shared_lookup_entry m domain a t1) as (entry & He & Hr & Hx).
  destruct (shared_lookup sort m domain a t1) as [r m'] eqn:Hs. cbn [fst snd] in *. cbv zeta.
  unfold lookup, get_from_cache at 1. rewrite He. unfold time_after. rewrite Hx.
  destruct (Z.leb_spec t0' (t1 + match r with Ok _ => cacheTTL m | Err _ => negativeTTL m end)) as [Hle|Hlt].
  - rewrite (proj2 (Z.ltb_ge _ _)) by lia. rewrite <- Hr.
    destruct (ce_err entry); done.
  - rewrite (proj2 (Z.ltb_lt _ _)) by lia. unfold get_from_cache, invalidate_cache. simpl.
    by rewrite lookup_delete_eq.
Qed.
End LookupProperties.

(** ** Dialling the servers *)

Definition unreachable {Conn} (dial : string -> string -> result error Conn) (wantTCP : bool)
    (server : string) : bool :=
  negb (is_ok (dial "tcp" server)) && (wantTCP || negb (is_ok (dial "udp" server))).

Lemma dial_loop_fails {Conn} (dial : string -> string -> result error Conn) wantTCP servers e :
  is_ok (dial_loop dial wantTCP servers e).1 = negb (forallb (unreachable dial wantTCP) servers).
Proof.
  revert e. induction servers as [|s l IH]; intros e; [done|]. cbn [dial_loop forallb].
  unfold unreachable at 1.
  destruct wantTCP; cbn [orb].
  - destruct (dial "tcp" s) as [c|e1]; [done|]. specialize (IH e1).
    destruct (dial_loop dial true l e1). cbn [is_ok negb andb fst] in *. done.
  - destruct (dial "udp" s) as [c|e0]; cbn [is_ok negb andb]; [by rewrite andb_false_r|].
    destruct (dial "tcp" s) as [c|e1]; [done|]. specialize (IH e1).
    destruct (dial_loop dial false l e1). cbn [is_ok negb andb fst] in *. done.
Qed.

(** The servers dialled over TCP, in order. *)
Definition tcp_dials (made : list (string * string)) : list string :=
  map snd (List.filter (fun ns => seqb ns.1 "tcp") made).

Lemma dial_loop_order {Conn} (dial : string -> string -> result error Conn) wantTCP servers e :
  exists n, tcp_dials (dial_loop dial wantTCP servers e).2 = take n servers.
Proof.
  revert e. induction servers as [|s l IH]; intros e; [by exists O|]. cbn [dial_loop].
  assert (Htcp : forall made, tcp_dials made = [] ->
    exists n, tcp_dials (match dial "tcp" s with
                         | Ok c => (Ok c, made ++ [("tcp", s)])
                         | Err e => let '(r, more) := dial_loop dial wantTCP l e in
                                    (r, made ++ ("tcp", s) :: more)
                         end).2 = take n (s :: l)).
  { intros made Hm. unfold tcp_dials in *. destruct (dial "tcp" s) as [c|e1]; simpl.
    - exists 1%nat. by rewrite List.filter_app, map_app, Hm.
    - destruct (IH e1) as [n Hn]. destruct (dial_loop dial wantTCP l e1). exists (S n). simpl in *.
      by rewrite List.filter_app, map_app, Hm, <- Hn. }
  destruct wantTCP; [by apply (Htcp [])|].
  destruct (dial "udp" s); [by exists O|]. by apply (Htcp [("udp", s)]).
Qed.

Lemma forallb_rotate {A} (f : A -> bool) k l : forallb f (rotate_from k l) = forallb f l.
Proof.
  unfold rotate_from. rewrite <- (take_drop k l) at 3. rewrite !forallb_app. apply andb_comm.
Qed.

(** Every configured DNS server gets its chance.  A dial fails only when
    no server can be reached (over UDP, where allowed, or TCP), the servers
    are tried in rotation, and the starting point moves by one each time. *)
Theorem dial_resolver_spec {Conn} (dial : string -> string -> result error Conn) d network r made d' :
  dial_resolver dial d network = (r, made, d') ->
  let wantTCP := has_prefix network "tcp" in
  let start := Z.to_nat (wrapu32 (currentIdx d + 1) mod Z.of_nat (length (resolvers d))) in
  is_ok r = negb (forallb (unreachable dial wantTCP) (resolvers d)) /\
  (exists n, tcp_dials made = take n (rotate_from start (resolvers d))) /\
  currentIdx d' = wrapu32 (currentIdx d + 1) /\ resolvers d' = resolvers d.
Proof.
  unfold dial_resolver. cbv zeta. set (wantTCP := has_prefix network "tcp").
  set (servers := rotate_from _ _).
  pose proof (dial_loop_fails dial wantTCP servers (ErrText "")) as Hf.
  pose proof (dial_loop_order dial wantTCP servers (ErrText "")) as Ho.
  destruct (dial_loop dial wantTCP servers (ErrText "")) as [r0 made0]. intros [= <- <- <-].
  cbn [fst snd] in *. rewrite Hf. unfold servers. rewrite forallb_rotate. done.
Qed.

(** ** Request coalescing: [singleflightGroup.do]

    Goroutines are natural numbers; a [singleflightCall] is named by the
    natural number of its creation.  [calls] is the map [g.m], [running] the
    calls whose function is executing (in the goroutine of the leader),
    [done_] the results of those that finished, [deleting] the leaders that
    have still to remove their call from the map, [waiting] the goroutines in
    [c.wg.Wait()]. *)

Record sf_state (V : Type) : Type := mkSF {
  calls : gmap string nat;
  running : gmap nat string;
  done_ : gmap nat (string * V);
  deleting : gmap nat string;
  waiting : gmap nat nat;
  returned : list (nat * string * V);
  fresh_call : nat
}.
Arguments mkSF {V}. Arguments calls {V}. Arguments running {V}. Arguments done_ {V}.
Arguments deleting {V}. Arguments waiting {V}. Arguments returned {V}. Arguments fresh_call {V}.

Section Singleflight.
Context {V : Type}.
Implicit Types s : sf_state V.

Definition sf_init s : Prop := s = mkSF ∅ ∅ ∅ ∅ ∅ [] 0.

Inductive sf_step : sf_state V -> sf_state V -> Prop :=
| sf_join s g key c :       (* a call for the key exists: wait for it *)
    calls s !! key = Some c -> waiting s !! g = None ->
    sf_step s (mkSF (calls s) (running s) (done_ s) (deleting s) (<[g := c]> (waiting s))
                 (returned s) (fresh_call s))
| sf_lead s key :           (* none: create it and run the function *)
    calls s !! key = None ->
    sf_step s (mkSF (<[key := fresh_call s]> (calls s)) (<[fresh_call s := key]> (running s))
                 (done_ s) (deleting s) (waiting s) (returned s) (S (fresh_call s)))
| sf_finish s c key v :     (* the function returned: c.val, c.err, wg.Done() *)
    running s !! c = Some key ->
    sf_step s (mkSF (calls s) (delete c (running s)) (<[c := (key, v)]> (done_ s))
                 (<[c := key]> (deleting s)) (waiting s) (returned s) (fresh_call s))
| sf_delete s c key :       (* the leader: delete(g.m, key) *)
    deleting s !! c = Some key ->
    sf_step s (mkSF (delete key (calls s)) (running s) (done_ s) (delete c (deleting s))
                 (waiting s) (returned s) (fresh_call s))
| sf_return s g c key v :   (* a waiter wakes up *)
    waiting s !! g = Some c -> done_ s !! c = Some (key, v) ->
    sf_step s (mkSF (calls s) (running s) (done_ s) (deleting s) (delete g (waiting s))
                 ((g, key, v) :: returned s) (fresh_call s)).

(** A call of the map is running or about to be removed by its own leader, and
    nothing else is. *)
Record sf_inv s : Prop := {
  sf_running : forall c key, running s !! c = Some key -> calls s !! key = Some c;
  sf_deleting : forall c key, deleting s !! c = Some key -> calls s !! key = Some c;
  sf_calls : forall key c, calls s !! key = Some c ->
    (running s !! c = Some key) \/ (deleting s !! c = Some key);
  sf_disjoint : forall c, is_Some (running s !! c) -> deleting s !! c = None;
  sf_done : forall c key, deleting s !! c = Some key -> exists v, done_ s !! c = Some (key, v);
  sf_fresh : forall c, (fresh_call s <= c)%nat ->
    running s !! c = None /\ deleting s !! c = None
}.

Lemma sf_init_inv s : sf_init s -> sf_inv s.
Proof.
  intros ->. split; simpl; intros *; rewrite ?lookup_empty; done.
Qed.

Lemma sf_lead_inv s key :
  sf_inv s -> calls s !! key = None ->
  sf_inv (mkSF (<[key := fresh_call s]> (calls s)) (<[fresh_call s := key]> (running s))
            (done_ s) (deleting s) (waiting s) (returned s) (S (fresh_call s))).
Proof.
  intros [H1 H2 H3 H4 H5 H6] Hk. destruct (H6 (fresh_call s) ltac:(lia)) as [Hr Hd].
  split; simpl.
  - intros c k [[<- <-]|[Hne Hc]]%lookup_insert_Some; [apply lookup_insert_eq|].
    rewrite lookup_insert_ne; [by apply H1|]. intros <-. apply H1 in Hc. congruence.
  - intros c k Hc. rewrite lookup_insert_ne; [by apply H2|]. intros <-. apply H2 in Hc. congruence.
  - intros k c [[<- <-]|[Hne Hc]]%lookup_insert_Some; [left; apply lookup_insert_eq|].
    destruct (H3 _ _ Hc) as [Hc'|Hc']; [left|by right].
    rewrite lookup_insert_ne; [done|]. intros <-. congruence.
  - intros c [k Hc]. apply lookup_insert_Some in Hc as [[<- <-]|[Hne Hc]]; [done|].
    apply H4. by exists k.
  - done.
  - intros c Hc. rewrite lookup_insert_ne by lia. apply H6. lia.
Qed.

Lemma sf_finish_inv s c key v :
  sf_inv s -> running s !! c = Some key ->
  sf_inv (mkSF (calls s) (delete c (running s)) (<[c := (key, v)]> (done_ s))
            (<[c := key]> (deleting s)) (waiting s) (returned s) (fresh_call s)).
Proof.
  intros [H1 H2 H3 H4 H5 H6] Hc. split; simpl.
  - intros c' k [? Hr]%lookup_delete_Some. by apply H1.
  - intros c' k [[<- <-]|[? Hd]]%lookup_insert_Some; [by apply H1|by apply H2].
  - intros k c' Hk. destruct (decide (c = c')) as [<-|Hne].
    + right. destruct (H3 _ _ Hk) as [Hr|Hd].
      * rewrite lookup_insert_eq. congruence.
      * rewrite H4 in Hd by by exists key. done.
    + rewrite lookup_delete_ne, lookup_insert_ne by done. by apply H3.
  - intros c' [k Hr]. apply lookup_delete_Some in Hr as [Hne Hr]. rewrite lookup_insert_ne by done. apply H4. by exists k.
  - intros c' k [[<- <-]|[Hne Hd]]%lookup_insert_Some.
    + exists v. apply lookup_insert_eq.
    + rewrite lookup_insert_ne by done. by apply H5.
  - intros c' Hf. destruct (H6 c' Hf). assert (c <> c') by congruence.
    by rewrite lookup_delete_ne, lookup_insert_ne by done.
Qed.

Lemma sf_delete_inv s c key :
  sf_inv s -> deleting s !! c = Some key ->
  sf_inv (mkSF (delete key (calls s)) (running s) (done_ s) (delete c (deleting s))
            (waiting s) (returned s) (fresh_call s)).
Proof.
  intros [H1 H2 H3 H4 H5 H6] Hc. split; simpl.
  - intros c' k Hr. pose proof (H1 _ _ Hr). rewrite lookup_delete_ne; [done|]. intros <-.
    assert (c' = c) as -> by (apply H2 in Hc; congruence).
    rewrite H4 in Hc by by exists key. done.
  - intros c' k [Hne Hd]%lookup_delete_Some. pose proof (H2 _ _ Hd). rewrite lookup_delete_ne; [done|].
    intros <-. apply H2 in Hc. congruence.
  - intros k c' [Hne Hk]%lookup_delete_Some. destruct (H3 _ _ Hk) as [?|Hd]; [by left|right].
    rewrite lookup_delete_ne; [done|]. congruence.
  - intros c' Hs. apply H4 in Hs. apply lookup_delete_None. by right.
  - intros c' k [_ Hd]%lookup_delete_Some. by apply H5.
  - intros c' Hf. destruct (H6 c' Hf). split; [done|]. apply lookup_delete_None. by right.
Qed.

Lemma sf_step_inv s s' : sf_inv s -> sf_step s s' -> sf_inv s'.
Proof.
  intros Hi Hs. destruct Hs.
  - by destruct Hi.
  - by apply sf_lead_inv.
  - by apply sf_finish_inv.
  - by apply sf_delete_inv.
  - by destruct Hi.
Qed.

(** At most one DNS lookup per domain is in flight, in every
    interleaving; a goroutine that joins gets in behind a call for its own
    domain, and a leader only ever removes its own call from the map. *)
Theorem singleflight_coalesces s :
  reachable sf_init sf_step s ->
  (forall c1 c2 key, running s !! c1 = Some key -> running s !! c2 = Some key -> c1 = c2) /\
  (forall key c, calls s !! key = Some c ->
     running s !! c = Some key \/ exists v, done_ s !! c = Some (key, v)) /\
  (forall c key, deleting s !! c = Some key -> calls s !! key = Some c).
Proof.
  intros Hr. assert (sf_inv s) as [H1 H2 H3 H4 H5 H6].
  { revert Hr. apply (invariant_reachable _ _ sf_inv); [apply sf_init_inv|apply sf_step_inv]. }
  split; [|split].
  - intros c1 c2 key Hc1%H1 Hc2%H1. congruence.
  - intros key c Hk. destruct (H3 _ _ Hk) as [?|Hd]; [by left|right; by apply H5].
  - exact H2.
Qed.

(** *** Progress *)

(** A step of the requests that are there already. *)
Definition sf_quiet_step s s' : Prop :=
  sf_step s s' /\ fresh_call s' = fresh_call s /\ waiting s' ⊆ waiting s.

(** What is left to do: two steps for a lookup, one for its removal from the
    map, one for each goroutine that waits. *)
Definition sf_pending s : nat := 2 * size (running s) + size (deleting s) + size (waiting s).

(** Every goroutine waits for a lookup that runs or is done, and a lookup is
    run once. *)
Record sf_live s : Prop := {
  sf_waiting : forall g c, waiting s !! g = Some c -> is_Some (running s !! c) \/ is_Some (done_ s !! c);
  sf_once : forall c, is_Some (running s !! c) -> done_ s !! c = None;
  sf_unborn : forall c, (fresh_call s <= c)%nat -> done_ s !! c = None
}.

Lemma sf_step_live s s' : sf_inv s -> sf_live s -> sf_step s s' -> sf_live s'.
Proof.
  intros Hi [L1 L2 L3] Hs. destruct Hs as [s g key c Hc Hg|s key Hk|s c key v Hc|s c key Hc|s g c key v Hg Hc];
    split; cbn [waiting running done_ fresh_call] in *; try done.
  - intros g' c' [[<- <-]|[_ Hw]]%lookup_insert_Some; [|by eauto].
    destruct (sf_calls _ Hi _ _ Hc) as [Hr|Hd]; [left; by eexists|right].
    destruct (sf_done _ Hi _ _ Hd) as [v ->]. by eexists.
  - intros g c Hw. destruct (L1 _ _ Hw) as [Hr|?]; [left|by right].
    destruct (decide (c = fresh_call s)) as [->|]; [by rewrite lookup_insert_eq; eexists|by rewrite lookup_insert_ne].
  - intros c [k [[<- _]|[_ Hr]]%lookup_insert_Some]; [by apply L3|apply L2; by eexists].
  - intros c Hc. apply L3. lia.
  - intros g c' Hw. destruct (decide (c' = c)) as [->|Hne].
    + right. rewrite lookup_insert_eq. by eexists.
    + rewrite lookup_delete_ne, lookup_insert_ne by done. by eauto.
  - intros c' [k [Hne Hr]%lookup_delete_Some]. rewrite lookup_insert_ne by done. apply L2. by eexists.
  - intros c' Hf. rewrite lookup_insert_ne; [by apply L3|]. intros ->.
    destruct (sf_fresh _ Hi _ Hf). congruence.
  - intros g' c' [_ Hw]%lookup_delete_Some. by eauto.
Qed.

Lemma sf_reachable_inv s : reachable sf_init sf_step s -> sf_inv s /\ sf_live s.
Proof.
  apply (invariant_reachable _ _ (fun s => sf_inv s /\ sf_live s)).
  - intros s0 H0. split; [by apply sf_init_inv|]. rewrite H0. split; cbn; intros *; by rewrite ?lookup_empty.
  - intros s1 s2 [Hi Hl] Hs. split; [by eapply sf_step_inv|by eapply sf_step_live].
Qed.

(** Each step takes something off. *)
Lemma sf_quiet_less s s' : sf_inv s -> sf_quiet_step s s' -> (sf_pending s' < sf_pending s)%nat.
Proof.
  intros Hi (Hs & Hf & Hw). unfold sf_pending.
  destruct Hs as [s g key c Hc Hg|s key Hk|s c key v Hc|s c key Hc|s g c key v Hg Hc];
    cbn [waiting running deleting fresh_call] in *.
  - exfalso. rewrite map_subseteq_spec in Hw. specialize (Hw g c). rewrite lookup_insert_eq in Hw.
    specialize (Hw eq_refl). congruence.
  - lia.
  - pose proof (sf_disjoint _ Hi c ltac:(by eexists)) as Hd.
    rewrite map_size_insert_None by done. rewrite map_size_delete_Some by (by eexists).
    pose proof (map_size_ne_0_lookup_2 (running s) c ltac:(by eexists)). lia.
  - rewrite map_size_delete_Some by (by eexists).
    pose proof (map_size_ne_0_lookup_2 (deleting s) c ltac:(by eexists)). lia.
  - rewrite map_size_delete_Some by (by eexists).
    pose proof (map_size_ne_0_lookup_2 (waiting s) g ltac:(by eexists)). lia.
Qed.

(** The step of a running lookup, of a finished one, of a waiting goroutine. *)
Lemma sf_enabled (v : V) s : sf_live s -> sf_inv s -> (forall s', ~ sf_quiet_step s s') ->
  waiting s = ∅ /\ calls s = ∅.
Proof.
  intros Hl Hi Hno.
  assert (Hr : forall c, running s !! c = None).
  { intros c. destruct (running s !! c) as [key|] eqn:E; [|done]. exfalso.
    eapply Hno. split; [by apply (sf_finish s c key v)|by split]. }
  assert (Hd : forall c, deleting s !! c = None).
  { intros c. destruct (deleting s !! c) as [key|] eqn:E; [|done]. exfalso.
    eapply Hno. split; [by apply (sf_delete s c key)|by split]. }
  split; apply map_empty.
  - intros g. destruct (waiting s !! g) as [c|] eqn:E; [|done]. exfalso.
    destruct (sf_waiting _ Hl _ _ E) as [[key Hk]|[[key v'] Hk]]; [by rewrite Hr in Hk|].
    eapply Hno. split; [by apply (sf_return s g c key v')|]. split; [done|apply delete_subseteq].
  - intros key. destruct (calls s !! key) as [c|] eqn:E; [|done]. exfalso.
    destruct (sf_calls _ Hi _ _ E) as [H|H]; [by rewrite Hr in H|by rewrite Hd in H].
Qed.

(** A lookup keeps its name, and its answer. *)
Definition sf_names s (c : nat) (key : string) : Prop :=
  running s !! c = Some key \/ exists v, done_ s !! c = Some (key, v).

Lemma sf_step_names s s' c key : sf_inv s -> sf_live s -> sf_names s c key -> sf_step s s' -> sf_names s' c key.
Proof.
  intros Hi Hl Hn Hs. destruct Hs as [s g k c' Hc Hg|s k Hk|s c' k v Hc|s c' k Hc|s g c' k v Hg Hc];
    unfold sf_names in *; cbn [running done_] in *; try done.
  - destruct Hn as [Hr|?]; [left|by right]. rewrite lookup_insert_ne; [done|]. intros <-.
    destruct (sf_fresh _ Hi (fresh_call s)); [done|congruence].
  - destruct (decide (c' = c)) as [->|Hne].
    + right. exists v. rewrite lookup_insert_eq. destruct Hn as [Hr|[v' Hd]]; [congruence|].
      rewrite (sf_once _ Hl c) in Hd by by eexists. done.
    + by rewrite lookup_delete_ne, lookup_insert_ne.
Qed.

(** What became of a goroutine that waited for [c]. *)
Definition sf_served g c key s : Prop :=
  waiting s !! g = Some c \/ exists v, done_ s !! c = Some (key, v) /\ In (g, key, v) (returned s).

Lemma sf_step_served g c key s s' :
  sf_inv s -> sf_live s -> sf_names s c key -> sf_quiet_step s s' -> sf_served g c key s -> sf_served g c key s'.
Proof.
  intros Hi Hl Hn (Hs & _ & Hsub) Hserved.
  destruct Hs as [s g' k c' Hc Hg|s k Hk|s c' k v Hc|s c' k Hc|s g' c' k v Hg Hc];
    unfold sf_served, sf_names in *; cbn [running done_ waiting returned] in *; try done.
  - exfalso. rewrite map_subseteq_spec in Hsub. specialize (Hsub g' c'). rewrite lookup_insert_eq in Hsub.
    specialize (Hsub eq_refl). congruence.
  - destruct Hserved as [?|(v' & Hd & ?)]; [by left|right]. exists v'. rewrite lookup_insert_ne; [done|].
    intros ->. rewrite (sf_once _ Hl c) in Hd by by eexists. done.
  - destruct Hserved as [Hw|(v' & Hd & ?)]; [|right; exists v'; split; [done|by right]].
    destruct (decide (g' = g)) as [->|Hne]; [|left; by rewrite lookup_delete_ne].
    assert (c' = c) as -> by congruence. right. exists v. destruct Hn as [Hr|[v' Hd]].
    + rewrite (sf_once _ Hl c) in Hc by by eexists. done.
    + assert (k = key) as -> by congruence. split; [done|by left].
Qed.

Lemma sf_quiet_run s s' :
  sf_inv s -> sf_live s -> rtc sf_quiet_step s s' ->
  sf_inv s' /\ sf_live s' /\
  forall g c key, sf_names s c key -> sf_served g c key s -> sf_served g c key s'.
Proof.
  intros Hi Hl Hr. induction Hr as [s|s s1 s' Hs _ IH]; [by split_and!|].
  pose proof (sf_step_inv _ _ Hi (proj1 Hs)) as Hi1. pose proof (sf_step_live _ _ Hi Hl (proj1 Hs)) as Hl1.
  destruct (IH Hi1 Hl1) as (Hi' & Hl' & Hk). split_and!; [done..|]. intros g c key Hn Hg.
  apply Hk; [by apply (sf_step_names s); [..|apply Hs]|by apply (sf_step_served g c key s)].
Qed.

(** C34: every request is answered.  Without new requests, a lookup group takes
    at most as many steps as it has work left, whatever their order; when no
    step is left, nobody waits, the map of calls is empty, and each goroutine
    that waited has the answer of the lookup it waited for, which is one for
    the domain of that lookup. *)
Theorem singleflight_serves `{Inhabited V} s :
  reachable sf_init sf_step s ->
  (forall n s', nsteps sf_quiet_step n s s' -> (n <= sf_pending s)%nat) /\
  forall s', rtc sf_quiet_step s s' -> (forall s'', ~ sf_quiet_step s' s'') ->
    waiting s' = ∅ /\ calls s' = ∅ /\
    forall g c, waiting s !! g = Some c -> exists key v,
      sf_names s c key /\ done_ s' !! c = Some (key, v) /\ In (g, key, v) (returned s').
Proof.
  intros Hr. apply sf_reachable_inv in Hr as [Hi Hl]. split.
  - intros n s' Hn. induction Hn as [s|n s s1 s' Hs _ IH]; [lia|].
    pose proof (sf_quiet_less _ _ Hi Hs).
    specialize (IH (sf_step_inv _ _ Hi (proj1 Hs)) (sf_step_live _ _ Hi Hl (proj1 Hs))). lia.
  - intros s' Hrun Hend. destruct (sf_quiet_run _ _ Hi Hl Hrun) as (Hi' & Hl' & Hk).
    destruct (sf_enabled inhabitant s' Hl' Hi' Hend) as [Hw Hc]. split_and!; [done..|]. intros g c Hg.
    assert (exists key, sf_names s c key) as [key Hn].
    { destruct (sf_waiting _ Hl _ _ Hg) as [[key ?]|[[key v] ?]]; exists key; [by left|right; by exists v]. }
    destruct (Hk g c key Hn (or_introl Hg)) as [Hw'|(v & Hd & Hin)]; [by rewrite Hw in Hw'|].
    exists key, v. auto.
Qed.

(** *** A lookup that panics

    [wg.Done] and the removal from the map are not deferred: when the function
    panics, [SafeGo] ends the goroutine, and the call stays as if it ran for
    ever.  Nobody who waits for it gets an answer any more, and every later
    request for its domain joins them. *)
Theorem crash_blocks_domain s s' c key :
  reachable sf_init sf_step s -> running s !! c = Some key ->
  rtc (fun x y => sf_step x y /\ is_Some (running y !! c)) s s' ->
  calls s' !! key = Some c /\ forall g, waiting s !! g = Some c -> waiting s' !! g = Some c.
Proof.
  intros Hr Hc Hrun. apply sf_reachable_inv in Hr as [Hi Hl].
  induction Hrun as [s|s s1 s' [Hs Hc1] _ IH]; [by split; [apply Hi|]|].
  pose proof (sf_step_inv _ _ Hi Hs) as Hi1. pose proof (sf_step_live _ _ Hi Hl Hs) as Hl1.
  assert (Hk : running s1 !! c = Some key).
  { destruct (sf_step_names s s1 c key Hi Hl (or_introl Hc) Hs) as [?|[v Hd]]; [done|].
    by rewrite (sf_once _ Hl1 c Hc1) in Hd. }
  destruct (IH Hi1 Hl1 Hk) as [Hcalls Hw]. split; [done|]. intros g Hg. apply Hw. clear Hw.
  destruct Hs as [s g' k c' Hc' Hg'|s k Hk'|s c' k v Hc'|s c' k Hc'|s g' c' k v Hg' Hc']; cbn in *; try done.
  - rewrite lookup_insert_ne; [done|]. congruence.
  - rewrite lookup_delete_ne; [done|]. intros ->. assert (c' = c) as -> by congruence.
    by rewrite (sf_once _ Hl c ltac:(by eexists)) in Hc'.
Qed.

End Singleflight.

(** ** Witnesses *)

(** An insertion sort, the one [sort.Slice] runs on a short slice. *)
Fixpoint insert_mx (r : MXRecord) (l : list MXRecord) : list MXRecord :=
  match l with
  | [] => [r]
  | x :: l' => if Priority r <? Priority x then r :: l else x :: insert_mx r l'
  end.
Definition sort_mx (l : list MXRecord) : list MXRecord := foldl (fun acc r => insert_mx r acc) [] l.

Lemma insert_mx_permutes r l : Permutation (r :: l) (insert_mx r l).
Proof.
  induction l as [|x l IH]; simpl; [done|]. destruct (_ <? _); [done|].
  etrans; [apply perm_swap|]. by constructor.
Qed.
Lemma sort_mx_permutes l : Permutation l (sort_mx l).
Proof.
  unfold sort_mx. assert (forall acc, Permutation (acc ++ l) (foldl (fun acc r => insert_mx r acc) acc l))
    as H; [|apply (H [])].
  induction l as [|r l IH]; intros acc; simpl; [by rewrite app_nil_r|].
  etrans; [|apply IH]. rewrite <- Permutation_middle. apply (Permutation_app_tail l (insert_mx_permutes r acc)).
Qed.

Definition example_mx : MXLookup := new_mx_lookup (mkDNSConfig ["192.0.2.53:53"] 5 3600 60).
Definition servfail : error := ErrDNS "example.org" "127.0.0.53:53" "server misbehaving" false false.
Definition nxdomain : error := ErrDNS "example.org" "127.0.0.53:53" "no such host" true false.

Lemma lookup_classifies_witness :
  route_of (lookup sort_mx example_mx None None 0 0 "example.org"
              (mkAnswers (Ok [("mx2.example.org.", 20); ("mx1.example.org.", 10)]) (Err servfail))).1
  = Route [mkMXRecord "mx1.example.org." 10; mkMXRecord "mx2.example.org." 20].
Proof.
  apply (lookup_classifies sort_mx sort_mx_permutes example_mx 0 0 "example.org"
           (mkAnswers (Ok [("mx2.example.org.", 20); ("mx1.example.org.", 10)]) (Err servfail))).
  - split; intros e [= <-]; reflexivity.
  - reflexivity.
Defined.

Lemma cache_keeps_verdict_witness :
  let a := mkAnswers (Err servfail) (Err nxdomain) in
  let '(r, m') := lookup sort_mx example_mx None None 0 0 "example.org" a in
  let ttl := match r with Ok _ => cacheTTL example_mx | Err _ => negativeTTL example_mx end in
  route_of (lookup sort_mx m' None None (30 * second) (30 * second) "example.org" a).1 =
  if 30 * second <=? 0 + ttl then route_of r
  else route_of (lookup sort_mx (invalidate_cache m' "example.org") None None (30 * second)
                   (30 * second) "example.org" a).1.
Proof.
  apply (cache_keeps_verdict sort_mx example_mx 0 0 "example.org"
           (mkAnswers (Err servfail) (Err nxdomain))).
  reflexivity.
Defined.

Lemma dial_resolver_spec_witness :
  let dial (net server : string) := if seqb server "b:53" then Ok net else Err (ErrText "refused") in
  is_ok (@Ok error string "udp") = negb (forallb (unreachable dial false) ["a:53"; "b:53"; "c:53"]) /\
  (exists n, tcp_dials [("udp", "b:53")] = take n (rotate_from 1 ["a:53"; "b:53"; "c:53"])) /\
  1 = wrapu32 (0 + 1) /\ ["a:53"; "b:53"; "c:53"] = ["a:53"; "b:53"; "c:53"].
Proof.
  apply (dial_resolver_spec
           (fun net server => if seqb server "b:53" then Ok net else Err (ErrText "refused"))
           (mkDNSResolver ["a:53"; "b:53"; "c:53"] 5 0) "udp" (Ok "udp") [("udp", "b:53")]
           (mkDNSResolver ["a:53"; "b:53"; "c:53"] 5 1)).
  vm_compute. reflexivity.
Defined.

Lemma singleflight_coalesces_witness :
  let s := mkSF (V:=nat) (<["d" := 0%nat]> ∅) (<[0%nat := "d"]> ∅) ∅ ∅ ∅ [] 1 in
  (forall c1 c2 key, running s !! c1 = Some key -> running s !! c2 = Some key -> c1 = c2) /\
  (forall key c, calls s !! key = Some c ->
     running s !! c = Some key \/ exists v, done_ s !! c = Some (key, v)) /\
  (forall c key, deleting s !! c = Some key -> calls s !! key = Some c).
Proof.
  apply (singleflight_coalesces (V:=nat) (mkSF (<["d" := 0%nat]> ∅) (<[0%nat := "d"]> ∅) ∅ ∅ ∅ [] 1)).
  eapply reachable_step; [apply reachable_init; reflexivity|].
  apply (sf_lead (mkSF ∅ ∅ ∅ ∅ ∅ [] 0) "d"). reflexivity.
Defined.

(** One goroutine looks "d" up, another waits for it. *)
Definition joined : sf_state nat :=
  mkSF (<["d" := 0%nat]> ∅) (<[0%nat := "d"]> ∅) ∅ ∅ (<[7%nat := 0%nat]> ∅) [] 1.
Lemma joined_reachable : reachable sf_init sf_step joined.
Proof.
  apply (reachable_step _ _ (mkSF (<["d" := 0%nat]> ∅) (<[0%nat := "d"]> ∅) ∅ ∅ ∅ [] 1)).
  - apply (reachable_step _ _ (mkSF ∅ ∅ ∅ ∅ ∅ [] 0)); [by apply reachable_init|].
    by apply (sf_lead (mkSF ∅ ∅ ∅ ∅ ∅ [] 0) "d").
  - refine (sf_join (mkSF (<["d" := 0%nat]> ∅) (<[0%nat := "d"]> ∅) ∅ ∅ ∅ [] 1) 7 "d" 0 _ _); done.
Qed.

Lemma singleflight_serves_witness :
  sf_pending joined = 3%nat /\
  (forall n s', nsteps sf_quiet_step n joined s' -> (n <= sf_pending joined)%nat) /\
  forall s', rtc sf_quiet_step joined s' -> (forall s'', ~ sf_quiet_step s' s'') ->
    waiting s' = ∅ /\ calls s' = ∅ /\
    forall g c, waiting joined !! g = Some c -> exists key v,
      sf_names joined c key /\ done_ s' !! c = Some (key, v) /\ In (g, key, v) (returned s').
Proof. split; [reflexivity|]. apply (singleflight_serves joined joined_reachable). Defined.

Lemma crash_blocks_domain_witness :
  calls joined !! "d" = Some 0%nat /\ forall g, waiting joined !! g = Some 0%nat -> waiting joined !! g = Some 0%nat.
Proof.
  apply (crash_blocks_domain joined joined 0 "d" joined_reachable); [reflexivity|apply rtc_refl].
Defined.

(** A cached permanent failure comes back as an empty list without an error,
    not as [errNoMXRecords]. *)
Example cached_no_mx_is_empty :
  let a := mkAnswers (Err nxdomain) (Err nxdomain) in
  let m := (lookup sort_mx example_mx None None 0 0 "example.org" a).2 in
  (lookup sort_mx m None None 1 1 "example.org" a).1 = Ok [].
Proof. vm_compute. reflexivity. Qed.
