(* ===== verification/IPRotator.v ===== *)
(** * Source address rotation (internal/delivery/delivery.go, [IPRotator])

    [SelectIPs] orders the pool of one IP version: the configured strategy
    chooses where to start and the rest follow in rotation.  [rnd] is the
    answer of [rand.Intn(len(ips))]. *)

From stdpp Require Import base list strings.
From Stdlib Require Import ZArith Lia Permutation.
From S2P Require Import Prelude GoString Digest MXLookup.
#[local] Open Scope Z_scope.

Record IPRotator : Type := mkIPRotator {
  ipsV4 : list string;
  ipsV6 : list string;
  strategy : string;
  counterV4 : Z;    (* uint32 *)
  counterV6 : Z
}.

(** [NewIPRotator] *)
Definition new_ip_rotator (v4 v6 : list string) (strategy : string) : IPRotator :=
  mkIPRotator v4 v6 strategy 0 0.

Definition pool_of (r : IPRotator) (useIPv6 : bool) : list string :=
  if useIPv6 then ipsV6 r else ipsV4 r.
Definition counter_of (r : IPRotator) (useIPv6 : bool) : Z :=
  if useIPv6 then counterV6 r else counterV4 r.
Definition set_counter_of (r : IPRotator) (useIPv6 : bool) (c : Z) : IPRotator :=
  if useIPv6 then mkIPRotator (ipsV4 r) (ipsV6 r) (strategy r) (counterV4 r) c
  else mkIPRotator (ipsV4 r) (ipsV6 r) (strategy r) c (counterV6 r).

(** The copying loop: [ips[(start+i) % len(ips)]] for each [i]. *)
Definition rotated (ips : list string) (startIndex : Z) : list string :=
  map (fun i => nth (Z.to_nat ((startIndex + Z.of_nat i) mod Z.of_nat (length ips))) ips "")
    (seq 0 (length ips)).

(** [SelectIPs] *)
Definition select_ips (r : IPRotator) (useIPv6 : bool) (domain : string) (rnd : Z)
    : list string * IPRotator :=
  let ips := pool_of r useIPv6 in
  let n := Z.of_nat (length ips) in
  match ips with
  | [] => ([], r)
  | [ip] => ([ip], r)
  | _ =>
      if seqb (strategy r) "random" then (rotated ips rnd, r)
      else if seqb (strategy r) "hash-domain" then
        (rotated ips (wrapu32 (fnv32a domain) mod wrapu32 n), r)
      else
        let c := wrapu32 (counter_of r useIPv6 + 1) in
        (rotated ips (wrapu32 (c - 1) mod wrapu32 n), set_counter_of r useIPv6 c)
  end.

(** [GetAllIPsV4], [GetAllIPsV6], [HasIPv4], [HasIPv6] *)
Definition get_all_ips_v4 (r : IPRotator) : list string := ipsV4 r.
Definition get_all_ips_v6 (r : IPRotator) : list string := ipsV6 r.
Definition has_ipv4 (r : IPRotator) : bool := (0 <? length (ipsV4 r))%nat.
Definition has_ipv6 (r : IPRotator) : bool := (0 <? length (ipsV6 r))%nat.

(** ** Lemmas *)

Lemma rotated_rotate ips k :
  (k < length ips)%nat -> rotated ips (Z.of_nat k) = rotate_from k ips.
Proof.
  intros Hk. unfold rotated, rotate_from. apply nth_ext with "" "".
  { rewrite length_map, length_seq, length_app, length_drop, length_take. lia. }
  intros i Hi. rewrite length_map, length_seq in Hi.
  rewrite (nth_indep _ "" (nth (Z.to_nat ((Z.of_nat k + Z.of_nat 0) mod Z.of_nat (length ips))) ips ""))
    by by rewrite length_map, length_seq.
  rewrite (map_nth (fun i => nth (Z.to_nat ((Z.of_nat k + Z.of_nat i) mod Z.of_nat (length ips))) ips "")).
  rewrite seq_nth by done. cbn [Nat.add].
  destruct (decide (k + i < length ips)%nat) as [Hlt|Hge].
  - rewrite Z.mod_small by lia. rewrite app_nth1 by (rewrite length_drop; lia).
    rewrite <- (take_drop k ips) at 1. rewrite app_nth2 by (rewrite length_take; lia).
    f_equal. rewrite length_take. lia.
  - replace ((Z.of_nat k + Z.of_nat i) mod Z.of_nat (length ips))
      with (Z.of_nat (k + i - length ips)).
    2:{ apply Z.mod_unique with 1; lia. }
    rewrite Nat2Z.id, app_nth2 by (rewrite length_drop; lia). rewrite length_drop.
    replace (i - (length ips - k))%nat with (k + i - length ips)%nat by lia.
    rewrite <- (take_drop k ips) at 2. rewrite app_nth1 by (rewrite length_take; lia). done.
Qed.

Lemma rotate_permutation {A} k (l : list A) : Permutation (rotate_from k l) l.
Proof. unfold rotate_from. rewrite Permutation_app_comm. by rewrite take_drop. Qed.

(** The start index is in range. *)
Lemma select_start r useIPv6 domain rnd :
  let ips := pool_of r useIPv6 in
  ips <> [] -> Z.of_nat (length ips) < 2 ^ 32 -> 0 <= rnd < Z.of_nat (length ips) ->
  exists k, (k < length ips)%nat /\ (select_ips r useIPv6 domain rnd).1 = rotate_from k ips.
Proof.
  intros ips Hne Hlen Hr. unfold select_ips. fold ips. destruct ips as [|a [|b l]] eqn:E; [done| |].
  { exists O. split; [simpl; lia|done]. }
  set (ips' := a :: b :: l) in *.
  assert (Hn : wrapu32 (Z.of_nat (length ips')) = Z.of_nat (length ips')).
  { unfold wrapu32. apply Z.mod_small. lia. }
  assert (Hex : forall z, 0 <= z < Z.of_nat (length ips') ->
    exists k, (k < length ips')%nat /\ rotated ips' z = rotate_from k ips').
  { intros z Hz. exists (Z.to_nat z). split; [lia|].
    rewrite <- rotated_rotate by lia. by rewrite Z2Nat.id by lia. }
  assert (0 < Z.of_nat (length ips')) by (unfold ips'; simpl; lia).
  destruct (seqb (strategy r) "random"); [by apply Hex|].
  destruct (seqb (strategy r) "hash-domain"); apply Hex; rewrite Hn; apply Z.mod_pos_bound; lia.
Qed.

(** [n] selections of the same version. *)
Fixpoint select_first (n : nat) (r : IPRotator) (useIPv6 : bool) (domain : string) : list string :=
  match n with
  | O => []
  | S n => let '(l, r) := select_ips r useIPv6 domain 0 in
           default "" (head l) :: select_first n r useIPv6 domain
  end.

(** ** Properties *)

(** An attempt tries every source address of the version exactly once:
    whatever the strategy, the selection is a rotation of the pool, so a
    permutation of it, and empty only if the pool is. *)
Theorem select_is_rotation r useIPv6 domain rnd :
  Z.of_nat (length (pool_of r useIPv6)) < 2 ^ 32 ->
  0 <= rnd < Z.max 1 (Z.of_nat (length (pool_of r useIPv6))) ->
  (exists k, (select_ips r useIPv6 domain rnd).1 = rotate_from k (pool_of r useIPv6)) /\
  Permutation (select_ips r useIPv6 domain rnd).1 (pool_of r useIPv6).
Proof.
  intros Hlen Hr. destruct (decide (pool_of r useIPv6 = [])) as [E|Hne].
  - unfold select_ips. rewrite E. split; [by exists O|done].
  - assert (0 < Z.of_nat (length (pool_of r useIPv6))) by (destruct (pool_of r useIPv6); [done|simpl; lia]).
    destruct (select_start r useIPv6 domain rnd) as (k & Hk & Hs); [done|done|lia|].
    rewrite Hs. split; [by exists k|apply rotate_permutation].
Qed.

(** Round-robin spreads the load: over consecutive deliveries the first
    address tried walks through the pool, for each IP version on its own
    counter. *)
Theorem round_robin_first r useIPv6 domain n :
  seqb (strategy r) "random" = false -> seqb (strategy r) "hash-domain" = false ->
  (1 < length (pool_of r useIPv6))%nat -> Z.of_nat (length (pool_of r useIPv6)) < 2 ^ 32 ->
  0 <= counter_of r useIPv6 -> counter_of r useIPv6 + Z.of_nat n < 2 ^ 32 ->
  select_first n r useIPv6 domain =
  map (fun i => nth (Z.to_nat ((counter_of r useIPv6 + Z.of_nat i)
                               mod Z.of_nat (length (pool_of r useIPv6)))) (pool_of r useIPv6) "")
    (seq 0 n).
Proof.
  intros Hr Hh Hlen Hlen2. revert r Hr Hh Hlen Hlen2.
  induction n as [|n IH]; intros r Hr Hh Hlen Hlen2 Hc Hn; [done|].
  cbn [select_first seq map].
  destruct (select_ips r useIPv6 domain 0) as [l r'] eqn:Hsel.
  unfold select_ips in Hsel. rewrite Hr, Hh in Hsel.
  destruct (pool_of r useIPv6) as [|a [|b ips]] eqn:Hp; [simpl in Hlen; lia..|].
  set (ips' := a :: b :: ips) in *.
  injection Hsel as Hl Hr'. unfold wrapu32 in Hl, Hr'.
  rewrite (Z.mod_small (counter_of r useIPv6 + 1)) in Hl, Hr' by lia.
  rewrite (Z.mod_small (counter_of r useIPv6 + 1 - 1)), (Z.mod_small (Z.of_nat (length ips'))) in Hl by lia.
  replace (counter_of r useIPv6 + 1 - 1) with (counter_of r useIPv6) in Hl by lia.
  assert (Hpool : pool_of r' useIPv6 = ips') by (rewrite <- Hr'; by destruct useIPv6).
  assert (Hcnt : counter_of r' useIPv6 = counter_of r useIPv6 + 1) by (rewrite <- Hr'; by destruct useIPv6).
  assert (Hst : strategy r' = strategy r) by (rewrite <- Hr'; by destruct useIPv6).
  f_equal.
  - rewrite <- Hl. unfold rotated. change (length ips') with (S (S (length ips))).
    cbn [seq map head default]. f_equal. f_equal.
    rewrite Z.add_0_r. rewrite Z.mod_mod by lia. by rewrite Z.add_0_r.
  - rewrite IH; rewrite ?Hst, ?Hpool, ?Hcnt; try done; try lia.
    rewrite <- seq_shift, map_map. apply map_ext. intros i. do 3 f_equal. lia.
Qed.

(** ** Witnesses *)

Definition example_rotator : IPRotator :=
  new_ip_rotator ["192.0.2.1"; "192.0.2.2"; "192.0.2.3"] ["2001:db8::1"] "round-robin".

Lemma select_is_rotation_witness :
  (exists k, (select_ips example_rotator false "example.org" 0).1
             = rotate_from k ["192.0.2.1"; "192.0.2.2"; "192.0.2.3"]) /\
  Permutation (select_ips example_rotator false "example.org" 0).1
    ["192.0.2.1"; "192.0.2.2"; "192.0.2.3"].
Proof. apply (select_is_rotation example_rotator false "example.org" 0); done. Defined.

Lemma round_robin_first_witness :
  select_first 4 example_rotator false "example.org" =
  ["192.0.2.1"; "192.0.2.2"; "192.0.2.3"; "192.0.2.1"].
Proof.
  apply (round_robin_first example_rotator false "example.org" 4);
    try reflexivity; simpl; lia.
Defined.
