(* ===== verification/DomainLimiter.v ===== *)
(** * Per-domain rate limiting (internal/delivery/delivery.go)

    The token bucket of [waitForDomainRateLimit], in IEEE 754 double precision
    as Go's [float64] computes it (GoFloat.v), the whitelist, and the periodic
    cleanup. *)

From stdpp Require Import base gmap sets list strings.
From Stdlib Require Import ZArith Lia.
From S2P Require Import Prelude GoString GoFloat GoError NetIP Config.
#[local] Open Scope Z_scope.

(** ** The limiter *)

Record domainRateLimiter : Type := mkLimiter { tokens : float64; lastUpdate : Z }.

(** The refill and the consumption of one token: the body of
    [waitForDomainRateLimit] once it holds the limiter. *)
Definition take_token (intervalSeconds perDomainBurst : Z) (now : Z) (l : domainRateLimiter)
    : bool * domainRateLimiter :=
  let interval := seconds intervalSeconds in
  let burst := float_of_int perDomainBurst in
  let burst := if fle burst fzero then fone else burst in
  let rate := if 0 <? interval then fdiv fone (duration_seconds interval)
              else float_of_int 1000000 in
  let elapsed := duration_seconds (time_sub now (lastUpdate l)) in
  let tk := if lastUpdate l =? zero_time then burst
            else let tk := fadd (tokens l) (fmul elapsed rate) in
                 if fgt tk burst then burst else tk in
  if fge tk fone then (true, mkLimiter (fsub tk fone) now) else (false, mkLimiter tk now).

(** [waitForDomainRateLimit]: [t0] is the clock for a new limiter, [now] the
    one under the lock; [true] is a nil error. *)
Definition wait_for_domain_rate_limit (limiters : gmap string domainRateLimiter)
    (cfg : OutboundConfig) (t0 now : Z) (domain : string)
    : bool * gmap string domainRateLimiter :=
  let initialTokens := float_of_int (out_PerDomainBurst cfg) in
  let initialTokens := if fle initialTokens fzero then fone else initialTokens in
  let limiter := default (mkLimiter initialTokens t0) (limiters !! domain) in
  let '(ok, limiter) := take_token (out_PerDomainIntervalSeconds cfg) (out_PerDomainBurst cfg)
                          now limiter in
  (ok, <[domain := limiter]> limiters).

Definition ErrDomainRateLimitExceeded : error := ErrSentinel "domain rate limit exceeded".

(** [cleanupDomainLimiters] *)
Definition cleanup_domain_limiters (limiters : gmap string domainRateLimiter) (now : Z)
    : gmap string domainRateLimiter :=
  map_keep (fun _ l => negb (time_before (lastUpdate l) (now - 10 * minute))) limiters.

(** [isDomainWhitelisted] *)
Definition is_domain_whitelisted `{Unicode} (cfg : OutboundConfig) (domain : string) : bool :=
  let domainLower := to_lower domain in
  existsb (fun w => seqb (to_lower w) domainLower) (out_RateLimitWhitelist cfg).

(** ** Properties *)

(** [n] requests at the times [ts]: which are let through. *)
Fixpoint requests (limiters : gmap string domainRateLimiter) (cfg : OutboundConfig)
    (domain : string) (ts : list Z) : list bool :=
  match ts with
  | [] => []
  | t :: ts => let '(ok, limiters) := wait_for_domain_rate_limit limiters cfg t t domain in
               ok :: requests limiters cfg domain ts
  end.

(** The floats of small integers, computed: [k + 1 - 1], the refill by zero,
    the comparisons. *)
Definition exact_at (k : Z) : bool :=
  bool_decide (fsub (float_of_int (k + 1)) fone = float_of_int k)
  && bool_decide (fadd (float_of_int k) fzero = float_of_int k)
  && bool_decide (fadd (float_of_int (k + 1)) fzero = float_of_int (k + 1))
  && fge (float_of_int (k + 1)) fone
  && negb (fle (float_of_int (k + 1)) fzero).
Definition not_above_at (b : Z) : bool :=
  forallb (fun k => negb (fgt (float_of_int (Z.of_nat k)) (float_of_int b))) (seq 0 (S (Z.to_nat b))).
Definition rate_of (interval : Z) : float64 := fdiv fone (duration_seconds (seconds interval)).
Definition rate_at (interval : Z) : bool := bool_decide (fmul fzero (rate_of interval) = fzero).
Definition refill_at (interval : Z) : bool :=
  (take_token interval 1 (interval * second + 1000000) (mkLimiter fzero 0)).1.

(** A check of all the integers from [lo] on, [n] of them. *)
Definition all_from (f : Z -> bool) (lo : Z) (n : nat) : bool :=
  forallb (fun i => f (lo + Z.of_nat i)) (seq 0 n).

Lemma all_from_at f lo n k : all_from f lo n = true -> lo <= k < lo + Z.of_nat n -> f k = true.
Proof.
  unfold all_from. rewrite forallb_forall. intros H Hk.
  specialize (H (Z.to_nat (k - lo)) ltac:(apply in_seq; lia)). cbv beta in H.
  by replace (lo + Z.of_nat (Z.to_nat (k - lo))) with k in H by lia.
Qed.

Lemma exact_100 : all_from exact_at 0 100 = true.
Proof. vm_compute. reflexivity. Qed.
Lemma not_above_100 : all_from not_above_at 1 100 = true.
Proof. vm_compute. reflexivity. Qed.
Lemma rates_600 : all_from rate_at 1 600 = true.
Proof. vm_compute. reflexivity. Qed.

Lemma exact_small k :
  0 <= k < 100 ->
  fsub (float_of_int (k + 1)) fone = float_of_int k /\
  fadd (float_of_int k) fzero = float_of_int k /\
  fadd (float_of_int (k + 1)) fzero = float_of_int (k + 1) /\
  fge (float_of_int (k + 1)) fone = true /\ fle (float_of_int (k + 1)) fzero = false.
Proof.
  intros Hk. pose proof (all_from_at _ _ _ k exact_100 ltac:(lia)) as H. unfold exact_at in H.
  repeat (apply andb_prop in H as [H ?]).
  repeat match goal with H : bool_decide _ = true |- _ => apply bool_decide_eq_true in H end.
  by rewrite negb_true_iff in *.
Qed.

Lemma not_above k b :
  0 <= k <= b -> 1 <= b <= 100 -> fgt (float_of_int k) (float_of_int b) = false.
Proof.
  intros Hk Hb. pose proof (all_from_at _ _ _ b not_above_100 ltac:(lia)) as H.
  unfold not_above_at in H. rewrite forallb_forall in H.
  specialize (H (Z.to_nat k) ltac:(apply in_seq; lia)). cbv beta in H.
  rewrite Z2Nat.id in H by lia. by apply negb_true_iff.
Qed.

Lemma rate_zero interval : 1 <= interval <= 600 -> fmul fzero (rate_of interval) = fzero.
Proof.
  intros Hi. pose proof (all_from_at _ _ _ interval rates_600 ltac:(lia)) as H.
  by apply bool_decide_eq_true in H.
Qed.

(** A request without elapsed time, on a bucket of [k] whole tokens. *)
Lemma take_token_same_instant interval b k t :
  1 <= interval <= 600 -> 1 <= b <= 100 -> 0 <= k <= b -> t <> zero_time ->
  take_token interval b t (mkLimiter (float_of_int k) t) =
  if 0 <? k then (true, mkLimiter (float_of_int (k - 1)) t)
  else (false, mkLimiter (float_of_int 0) t).
Proof.
  intros Hi Hb Hk Ht. unfold take_token. cbn [tokens lastUpdate].
  destruct (exact_small (b - 1) ltac:(lia)) as (_ & _ & _ & _ & Hb1).
  replace (b - 1 + 1) with b in Hb1 by lia. rewrite Hb1.
  rewrite (seconds_small interval) by lia.
  destruct (Z.ltb_spec 0 (interval * second)); [|unfold second in *; lia].
  assert (time_sub t t = 0) as -> by (unfold time_sub, int64_min, int64_max; lia).
  change (duration_seconds 0) with fzero.
  rewrite <- (seconds_small interval) by lia. fold (rate_of interval). rewrite rate_zero by done.
  destruct (Z.eqb_spec t zero_time); [done|].
  assert (fadd (float_of_int k) fzero = float_of_int k) as ->.
  { destruct (decide (k = 0)) as [->|]; [by vm_compute|].
    destruct (exact_small (k - 1) ltac:(lia)) as (_ & _ & Hf & _).
    by replace (k - 1 + 1) with k in Hf by lia. }
  rewrite not_above by lia. destruct (Z.ltb_spec 0 k) as [Hpos|Hz].
  - destruct (exact_small (k - 1) ltac:(lia)) as (Hs & _ & _ & Hge & _).
    replace (k - 1 + 1) with k in Hs, Hge by lia. by rewrite Hge, Hs.
  - assert (k = 0) as -> by lia. reflexivity.
Qed.

Lemma requests_burst cfg domain t k n limiters :
  1 <= out_PerDomainIntervalSeconds cfg <= 600 -> 1 <= out_PerDomainBurst cfg <= 100 ->
  t <> zero_time -> 0 <= k <= out_PerDomainBurst cfg ->
  default (mkLimiter (float_of_int (out_PerDomainBurst cfg)) t) (limiters !! domain) =
    mkLimiter (float_of_int k) t ->
  requests limiters cfg domain (replicate n t) =
  replicate (Nat.min n (Z.to_nat k)) true ++ replicate (n - Z.to_nat k) false.
Proof.
  intros Hi Hb Ht. revert k limiters. induction n as [|n IH]; intros k limiters Hk Hd; [done|].
  cbn [replicate requests]. unfold wait_for_domain_rate_limit.
  destruct (exact_small (out_PerDomainBurst cfg - 1) ltac:(lia)) as (_ & _ & _ & _ & Hb1).
  replace (out_PerDomainBurst cfg - 1 + 1) with (out_PerDomainBurst cfg) in Hb1 by lia.
  rewrite Hb1, Hd, take_token_same_instant by done.
  destruct (Z.ltb_spec 0 k) as [Hpos|Hz].
  - rewrite (IH (k - 1)); [|lia|by rewrite lookup_insert_eq].
    replace (Z.to_nat k) with (S (Z.to_nat (k - 1))) by lia. done.
  - assert (k = 0) as -> by lia. rewrite (IH 0); [|lia|by rewrite lookup_insert_eq].
    change (Z.to_nat 0) with O. rewrite Nat.min_0_r, !Nat.sub_0_r. done.
Qed.

Lemma refills_600 : all_from refill_at 1 600 = true.
Proof. vm_compute. reflexivity. Qed.

(** The burst is the limit.  For a domain not seen before, of any number
    of requests at one instant exactly the first [per_domain_burst] are let
    through, whatever the interval, up to a burst of 100 and an interval of
    ten minutes. *)
Theorem burst_is_limit cfg domain t n :
  1 <= out_PerDomainIntervalSeconds cfg <= 600 -> 1 <= out_PerDomainBurst cfg <= 100 ->
  t <> zero_time ->
  requests ∅ cfg domain (replicate n t) =
  replicate (Nat.min n (Z.to_nat (out_PerDomainBurst cfg))) true ++
  replicate (n - Z.to_nat (out_PerDomainBurst cfg)) false.
Proof.
  intros Hi Hb Ht. apply requests_burst; try done; lia.
Qed.

(** An exhausted domain is not starved: for every interval from a second
    to ten minutes, an empty bucket lets a request through one millisecond after
    the interval (double rounding can make it refuse one at the exact
    interval, see [refill_rounds_down]). *)
Theorem bucket_refills interval :
  1 <= interval <= 600 ->
  (take_token interval 1 (interval * second + 1000000) (mkLimiter fzero 0)).1 = true.
Proof.
  intros Hi. exact (all_from_at _ _ _ interval refills_600 ltac:(lia)).
Qed.

(** ** Witnesses and examples *)

Lemma burst_is_limit_witness :
  requests ∅ (Outbound default_config) "example.org" (replicate 12 second) =
  replicate 10 true ++ replicate 2 false.
Proof. apply (burst_is_limit (Outbound default_config) "example.org" second 12); done. Defined.

Lemma bucket_refills_witness :
  (take_token 2 1 (2 * second + 1000000) (mkLimiter fzero 0)).1 = true.
Proof. apply (bucket_refills 2). done. Defined.

Example refill_rounds_down :
  (take_token 49 1 (49 * second) (mkLimiter fzero 0)).1 = false.
Proof. vm_compute. reflexivity. Qed.
