(* ===== verification/LMTP.v ===== *)
(** * The LMTP wire format (internal/delivery/delivery.go)

    Strela speaks LMTP on the raw connection: [writeLMTPCommand],
    [writeLMTPData] (dot-stuffing and the terminating dot) and
    [readLMTPResponse] (multi-line replies).  The bytes written are the result;
    the bytes to read are a string, followed by an end of file or an error. *)

From stdpp Require Import base list strings pretty.
From Stdlib Require Import ZArith Lia Ascii.
From S2P Require Import Prelude GoString GoError.
#[local] Open Scope Z_scope.

Definition CRs : string := str1 CR.
Definition DOT : ascii := "."%char.

(** ** [writeLMTPCommand], [writeLMTPData] *)

Definition lmtp_command (cmd : string) : string := cmd +:+ CRLF.

(** One turn of the loop: strip one CR, stuff a leading dot, end the line. *)
Definition stuff_line (line : string) : string :=
  let line := trim_suffix line CRs in
  (if has_prefix line "." then "." else "") +:+ line +:+ CRLF.

Fixpoint data_loop (fuel : nat) (remaining : string) : string :=
  match fuel with
  | O => ""
  | S fuel =>
      if is_empty remaining then ""
      else match index_byte LF remaining with
           | None => stuff_line remaining
           | Some i => stuff_line (stake i remaining) +:+ data_loop fuel (sdrop (S i) remaining)
           end
  end.
Definition lmtp_data (message : string) : string :=
  data_loop (S (slen message)) message +:+ "." +:+ CRLF.

(** ** [readLMTPResponse] *)

(** [fail] is the error of the connection at the end of the input, [None] an
    end of file; [lines] are the texts read so far. *)
Fixpoint read_loop (fuel : nat) `{Unicode} (fail : option error) (input : string)
    (lines : list string) : result error (Z * string) * string :=
  match fuel with
  | O => (Err (ErrText "connection closed by server"), input)
  | S fuel =>
      match index_byte LF input with
      | None => (Err (match fail with None => ErrText "connection closed by server" | Some e => e end), "")
      | Some i =>
          let line := trim_right (stake i input) CRLF in
          let rest := sdrop (S i) input in
          if (slen line <? 3)%nat then (Err (ErrText ("invalid response line: " +:+ quote line)), rest)
          else match atoi (stake 3 line) with
               | None => (Err (ErrText ("invalid response code in: " +:+ quote line)), rest)
               | Some code =>
                   let lines := if (4 <? slen line)%nat then lines ++ [sdrop 4 line] else lines in
                   if (slen line =? 3)%nat || bool_decide (snth line 3 = Some " "%char)
                   then (Ok (code, join lines " "), rest)
                   else read_loop fuel fail rest lines
               end
      end
  end.
Definition read_lmtp_response `{Unicode} (fail : option error) (input : string)
    : result error (Z * string) * string :=
  read_loop (S (slen input)) fail input [].

(** Every reply line takes its line feed: the fuel is enough. *)
Lemma read_loop_fuel `{Unicode} n m fail input lines :
  (slen input < n)%nat -> (slen input < m)%nat -> read_loop n fail input lines = read_loop m fail input lines.
Proof.
  revert m input lines. induction n as [|n IH]; intros [|m] input lines Hn Hm; try lia. cbn [read_loop].
  destruct (index_byte LF input) as [i|] eqn:Ei; [|done]. apply index_byte_bound in Ei.
  cbv zeta. destruct (slen (trim_right (stake i input) CRLF) <? 3)%nat; [done|]. destruct (atoi _); [|done].
  destruct ((slen (trim_right (stake i input) CRLF) =? 3)%nat || _); [done|]. apply IH; rewrite slen_sdrop; lia.
Qed.

(** ** The other side: what an LMTP server does with the data (RFC 5321 4.5.2) *)

Fixpoint receive_data (fuel : nat) (s : string) : option (list string * string) :=
  match fuel with
  | O => None
  | S fuel =>
      match index_str CRLF s with
      | None => None
      | Some i =>
          let line := stake i s in
          let rest := sdrop (i + 2) s in
          if seqb line "." then Some ([], rest)
          else match receive_data fuel rest with
               | None => None
               | Some (lines, rest) =>
                   Some ((if has_prefix line "." then sdrop 1 line else line) :: lines, rest)
               end
      end
  end.

(** What it does with a reply it sends: one line per text, [-] on all but the
    last. *)
Fixpoint format_reply (code : string) (texts : list string) : string :=
  match texts with
  | [] => code +:+ CRLF
  | [t] => code +:+ " " +:+ t +:+ CRLF
  | t :: texts => code +:+ "-" +:+ t +:+ CRLF +:+ format_reply code texts
  end.

(** The lines of a message: split at LF, without one CR at the end; no line
    for what follows a final LF. *)
Fixpoint message_lines (fuel : nat) (s : string) : list string :=
  match fuel with
  | O => []
  | S fuel =>
      if is_empty s then []
      else match index_byte LF s with
           | None => [trim_suffix s CRs]
           | Some i => trim_suffix (stake i s) CRs :: message_lines fuel (sdrop (S i) s)
           end
  end.

(** ** Lemmas *)

Lemma no_byte_trim_suffix c s p : no_byte c s = true -> no_byte c (trim_suffix s p) = true.
Proof. unfold trim_suffix. destruct (has_suffix s p); [apply sall_stake|done]. Qed.

(** A line without LF ends at the first CRLF. *)
Lemma index_crlf line rest :
  no_byte LF line = true -> index_str CRLF (line +:+ CRLF +:+ rest) = Some (slen line).
Proof.
  unfold no_byte. induction line as [|c line IH]; [by destruct rest|]. cbn [sall]. intros [Hc Hl]%andb_prop.
  cbn [String.append index_str slen].
  assert (has_prefix (String c (line +:+ CRLF +:+ rest)) CRLF = false) as ->.
  { unfold CRLF, str1. cbn [has_prefix]. destruct line as [|d line]; cbn [String.append].
    - change ((bool_decide (c = CR) && (bool_decide (CR = LF) && true)) = false).
      rewrite (bool_decide_false (CR = LF)) by done. by rewrite andb_false_r.
    - simpl in Hl. apply andb_prop in Hl as [Hd _]. cbn [has_prefix].
      assert (bool_decide (d = LF) = false) as ->.
      { apply bool_decide_eq_false. intros ->. by rewrite bool_decide_true in Hd. }
      cbn [andb]. by rewrite andb_false_r. }
  rewrite IH by done. done.
Qed.

Lemma receive_line fuel line rest :
  no_byte LF line = true -> line <> "." ->
  receive_data (S fuel) (line +:+ CRLF +:+ rest) =
  match receive_data fuel rest with
  | None => None
  | Some (lines, r) => Some ((if has_prefix line "." then sdrop 1 line else line) :: lines, r)
  end.
Proof.
  intros Hl Hd. cbn [receive_data]. rewrite index_crlf by done.
  rewrite stake_app_len, sdrop_app_plus. rewrite (proj2 (seqb_false line ".")) by done.
  change (sdrop 2 (CRLF +:+ rest)) with rest. done.
Qed.

Lemma receive_stuffed fuel line rest :
  no_byte LF line = true ->
  receive_data (S fuel) (stuff_line line +:+ rest) =
  match receive_data fuel rest with
  | None => None
  | Some (lines, r) => Some (trim_suffix line CRs :: lines, r)
  end.
Proof.
  intros Hl. unfold stuff_line. pose proof (no_byte_trim_suffix LF line CRs Hl) as Ht.
  set (t := trim_suffix line CRs) in *. clearbody t.
  destruct (has_prefix t ".") eqn:Hp.
  - replace (("." +:+ t +:+ CRLF) +:+ rest) with (("." +:+ t) +:+ CRLF +:+ rest)
      by by rewrite !sapp_assoc.
    rewrite receive_line.
    + assert (has_prefix ("." +:+ t) "." = true) as -> by (by destruct t).
      by destruct (receive_data fuel rest) as [[]|].
    + unfold no_byte in *. rewrite sall_app, Ht. done.
    + destruct t; [done|]. by injection.
  - change (("" +:+ t +:+ CRLF) +:+ rest) with ((t +:+ CRLF) +:+ rest). rewrite sapp_assoc.
    rewrite receive_line; [by rewrite Hp|done|]. intros ->. done.
Qed.

Lemma no_byte_stake_index s i : index_byte LF s = Some i -> no_byte LF (stake i s) = true.
Proof. intros H. by apply index_byte_split in H as [_ ?]. Qed.

Lemma index_byte_lt c s i : index_byte c s = Some i -> (i < slen s)%nat.
Proof.
  intros H. apply index_byte_split in H as [Hs _]. apply (f_equal slen) in Hs.
  rewrite slen_app, slen_stake in Hs. simpl in Hs. lia.
Qed.

Lemma receive_end fuel rest : receive_data (S fuel) ("." +:+ CRLF +:+ rest) = Some ([], rest).
Proof. by destruct rest. Qed.

Lemma receive_loop n s fuel rest :
  (slen s < n)%nat -> (slen s < fuel)%nat ->
  receive_data fuel (data_loop n s +:+ "." +:+ CRLF +:+ rest) = Some (message_lines n s, rest).
Proof.
  revert s fuel. induction n as [|n IH]; intros s fuel Hn Hf; [lia|].
  destruct fuel as [|fuel]; [lia|]. cbn [data_loop message_lines].
  destruct (is_empty s) eqn:He; [apply receive_end|].
  destruct (index_byte LF s) as [i|] eqn:Hi.
  - rewrite sapp_assoc, receive_stuffed by by apply no_byte_stake_index.
    apply index_byte_lt in Hi.
    rewrite (IH (sdrop (S i) s) fuel) by (rewrite slen_sdrop; lia). done.
  - rewrite receive_stuffed by by apply index_byte_None.
    destruct fuel as [|fuel]; [destruct s; [done|simpl in Hf; lia]|]. by rewrite receive_end.
Qed.

(** The three digits of a reply code. *)
Definition code_ok (code : Z) : bool :=
  (slen (fmt_d code) =? 3)%nat && bool_decide (atoi (fmt_d code) = Some code)
  && no_byte LF (fmt_d code) && no_byte CR (fmt_d code).
Lemma codes_ok : forallb (fun i => code_ok (100 + Z.of_nat i)) (seq 0 900) = true.
Proof. vm_compute. reflexivity. Qed.
Lemma code_ok_at code : 100 <= code <= 999 -> code_ok code = true.
Proof.
  intros Hc. pose proof codes_ok as H. rewrite forallb_forall in H.
  specialize (H (Z.to_nat (code - 100)) ltac:(apply in_seq; lia)). cbv beta in H.
  by replace (100 + Z.of_nat (Z.to_nat (code - 100))) with code in H by lia.
Qed.

(** A text a server may put in a reply line. *)
Definition reply_text (t : string) : bool := no_byte LF t && no_byte CR t.

Lemma trim_right_clean s : no_byte CR s = true -> no_byte LF s = true -> trim_right (s +:+ CRs) CRLF = s.
Proof.
  intros Hc Hl. unfold trim_right, trim_right_fn, CRs. rewrite sreverse_app.
  change (sreverse (str1 CR) +:+ sreverse s) with (String CR (sreverse s)).
  cbn [trim_left_fn]. change (in_set CRLF CR) with true. cbn iota.
  assert (trim_left_fn (in_set CRLF) (sreverse s) = sreverse s) as ->; [|apply sreverse_involutive].
  assert (sall (fun c => negb (in_set CRLF c)) (sreverse s) = true) as Ha.
  { rewrite sall_sreverse. revert Hc Hl. unfold no_byte. induction s as [|d s IH]; simpl; [done|].
    intros [H1 H2]%andb_prop [H3 H4]%andb_prop. rewrite IH by done. rewrite andb_true_r.
    unfold in_set, CRLF, str1. cbn [index_byte].
    rewrite (bool_decide_false (d = CR)), (bool_decide_false (d = LF)); [done| |].
    - intros ->. by rewrite bool_decide_true in H3.
    - intros ->. by rewrite bool_decide_true in H1. }
  destruct (sreverse s) as [|d r]; [done|]. simpl in Ha. apply andb_prop in Ha as [Hd _].
  cbn [trim_left_fn]. apply negb_true_iff in Hd. by rewrite Hd.
Qed.

Lemma reply_line line rest :
  reply_text line = true ->
  index_byte LF (line +:+ CRLF +:+ rest) = Some (S (slen line)) /\
  trim_right (stake (S (slen line)) (line +:+ CRLF +:+ rest)) CRLF = line /\
  sdrop (S (S (slen line))) (line +:+ CRLF +:+ rest) = rest.
Proof.
  intros [Hl Hc]%andb_prop.
  replace (line +:+ CRLF +:+ rest) with ((line +:+ CRs) +:+ String LF rest).
  2:{ unfold CRs, CRLF. by rewrite sapp_assoc. }
  assert (Hn : slen (line +:+ CRs) = S (slen line)) by (rewrite slen_app; simpl; lia).
  rewrite <- Hn. split; [|split].
  - apply index_byte_app. unfold no_byte in *. rewrite sall_app, Hl. done.
  - rewrite stake_app_len. by apply trim_right_clean.
  - rewrite <- Nat.add_1_r, sdrop_app_plus. done.
Qed.

Section Reading.
Context `{Unicode}.

Lemma read_final n fail code text rest lines :
  100 <= code <= 999 -> reply_text text = true ->
  read_loop (S n) fail (fmt_d code +:+ " " +:+ text +:+ CRLF +:+ rest) lines =
  (Ok (code, join (if is_empty text then lines else lines ++ [text]) " "), rest).
Proof.
  intros Hc Ht. pose proof (code_ok_at code Hc) as Hok. unfold code_ok in Hok.
  apply andb_prop in Hok as [[[Hlen%Nat.eqb_eq Hat%bool_decide_eq_true]%andb_prop Hlf]%andb_prop Hcr].
  set (cs := fmt_d code) in *. clearbody cs.
  replace (cs +:+ " " +:+ text +:+ CRLF +:+ rest) with ((cs +:+ " " +:+ text) +:+ CRLF +:+ rest)
    by by rewrite !sapp_assoc.
  set (line := cs +:+ " " +:+ text).
  assert (reply_text line = true) as Hl.
  { unfold reply_text, no_byte, line in *. rewrite !sall_app, Hlf, Hcr. done. }
  destruct (reply_line line rest Hl) as (Hi & Hr & Hd).
  assert (slen line = S (S (S (S (slen text))))) as Hs by (unfold line; rewrite !slen_app, Hlen; done).
  cbn [read_loop]. rewrite Hi, Hr, Hd, Hs. cbn [Nat.ltb Nat.leb].
  assert (stake 3 line = cs) as -> by (unfold line; rewrite <- Hlen; apply stake_app_len).
  rewrite Hat. cbn [Nat.eqb orb].
  assert (snth line 3 = Some " "%char /\ sdrop 4 line = text) as [Hsp Hd4].
  { unfold line. destruct cs as [|? [|? [|? [|]]]]; done. }
  rewrite Hsp, Hd4. rewrite bool_decide_true by done.
  by destruct text.
Qed.

Lemma read_more n fail code text rest lines :
  100 <= code <= 999 -> reply_text text = true ->
  read_loop (S n) fail (fmt_d code +:+ "-" +:+ text +:+ CRLF +:+ rest) lines =
  read_loop n fail rest (if is_empty text then lines else lines ++ [text]).
Proof.
  intros Hc Ht. pose proof (code_ok_at code Hc) as Hok. unfold code_ok in Hok.
  apply andb_prop in Hok as [[[Hlen%Nat.eqb_eq Hat%bool_decide_eq_true]%andb_prop Hlf]%andb_prop Hcr].
  set (cs := fmt_d code) in *. clearbody cs.
  replace (cs +:+ "-" +:+ text +:+ CRLF +:+ rest) with ((cs +:+ "-" +:+ text) +:+ CRLF +:+ rest)
    by by rewrite !sapp_assoc.
  set (line := cs +:+ "-" +:+ text).
  assert (reply_text line = true) as Hl.
  { unfold reply_text, no_byte, line in *. rewrite !sall_app, Hlf, Hcr. done. }
  destruct (reply_line line rest Hl) as (Hi & Hr & Hd).
  assert (slen line = S (S (S (S (slen text))))) as Hs by (unfold line; rewrite !slen_app, Hlen; done).
  cbn [read_loop]. rewrite Hi, Hr, Hd, Hs. cbn [Nat.ltb Nat.leb].
  assert (stake 3 line = cs) as -> by (unfold line; rewrite <- Hlen; apply stake_app_len).
  rewrite Hat. cbn [Nat.eqb orb].
  assert (snth line 3 = Some "-"%char /\ sdrop 4 line = text) as [Hsp Hd4].
  { unfold line. destruct cs as [|? [|? [|? [|]]]]; done. }
  rewrite Hsp, Hd4. rewrite bool_decide_false by done.
  by destruct text.
Qed.

Lemma read_reply n fail code texts rest lines :
  100 <= code <= 999 -> texts <> [] -> forallb reply_text texts = true ->
  (length texts <= n)%nat ->
  read_loop n fail (format_reply (fmt_d code) texts +:+ rest) lines =
  (Ok (code, join (lines ++ List.filter (fun t => negb (is_empty t)) texts) " "), rest).
Proof.
  intros Hc. revert n lines. induction texts as [|t texts IH]; intros n lines Hne Ht Hn; [done|].
  simpl in Ht. apply andb_prop in Ht as [Ht Hts]. destruct n as [|n]; [simpl in Hn; lia|].
  destruct texts as [|t2 texts].
  - cbn [format_reply]. rewrite !sapp_assoc, read_final by done.
    simpl. destruct (is_empty t); simpl; by rewrite ?app_nil_r.
  - change (format_reply (fmt_d code) (t :: t2 :: texts)) with
      (fmt_d code +:+ "-" +:+ t +:+ CRLF +:+ format_reply (fmt_d code) (t2 :: texts)).
    rewrite !sapp_assoc, read_more by done. rewrite IH by (try done; simpl in *; lia).
    cbn [List.filter]. destruct (is_empty t); cbn [negb]; [done|]. by rewrite <- app_assoc.
Qed.

(** ** Properties *)

(** C13: dot-stuffing round trip.  A server that reads the data as RFC 5321
    says gets exactly the lines of the message (CRLF or LF line ends, dots at
    the start of lines included) and stops exactly at our terminating dot:
    no message content ends the data early. *)
Theorem lmtp_data_received message rest :
  receive_data (S (slen message)) (lmtp_data message +:+ rest) =
  Some (message_lines (S (slen message)) message, rest).
Proof. unfold lmtp_data. rewrite !sapp_assoc. apply receive_loop; lia. Qed.

(** C14: reply round trip.  Whatever code and text lines a server sends, the
    client reads that code and the non-empty texts, joined by spaces, and
    leaves the bytes of the next reply unread. *)
Theorem lmtp_reply_read fail code texts rest :
  100 <= code <= 999 -> texts <> [] -> forallb reply_text texts = true ->
  read_lmtp_response fail (format_reply (fmt_d code) texts +:+ rest) =
  (Ok (code, join (List.filter (fun t => negb (is_empty t)) texts) " "), rest).
Proof.
  intros Hc Hne Ht. unfold read_lmtp_response. apply (read_reply _ fail code texts rest []); try done.
  clear -Hne. rewrite slen_app. induction texts as [|t [|t2 texts] IH]; [done|simpl; lia|].
  specialize (IH ltac:(done)).
  change (format_reply (fmt_d code) (t :: t2 :: texts)) with
    (fmt_d code +:+ "-" +:+ t +:+ CRLF +:+ format_reply (fmt_d code) (t2 :: texts)).
  rewrite !slen_app. change (slen CRLF) with 2%nat. cbn [length] in *. lia.
Qed.

End Reading.

(** ** Witnesses and examples *)

Lemma lmtp_reply_read_witness :
  @read_lmtp_response plain_unicode None
    (format_reply (fmt_d 250) ["mail.example.net"; "PIPELINING"; ""; "8BITMIME"] +:+ "354 go") =
  (Ok (250, "mail.example.net PIPELINING 8BITMIME"), "354 go").
Proof.
  apply (@lmtp_reply_read plain_unicode None 250 ["mail.example.net"; "PIPELINING"; ""; "8BITMIME"]
           "354 go"); done.
Defined.

Example stuffed :
  lmtp_data (bytes [97; 10; 46; 13; 10; 46; 46; 98]) =
  "a" +:+ CRLF +:+ ".." +:+ CRLF +:+ "...b" +:+ CRLF +:+ "." +:+ CRLF.
Proof. vm_compute. reflexivity. Qed.
