(* ===== verification/MIMEHeader.v ===== *)
(** * MIME headers (Go package [net/textproto])

    [Reader.ReadMIMEHeader] and [MIMEHeader.Get] on a byte slice, as the
    message inspections of Strela use them: whatever was parsed before an
    error is kept. *)

From stdpp Require Import base list strings.
From Stdlib Require Import ZArith Lia Ascii.
From S2P Require Import Prelude GoString.
#[local] Open Scope Z_scope.

(** [ReadLine]: the next line without its LF or CRLF; [None] at the end. *)
Definition read_line (s : string) : option (string * string) :=
  if is_empty s then None
  else match index_byte LF s with
       | Some i => Some (trim_suffix (stake i s) (str1 CR), sdrop (S i) s)
       | None => Some (s, "")
       end.

Definition blank (c : ascii) : bool := bool_decide (c = " "%char) || bool_decide (c = TAB).

(** [textproto.trim]: spaces and tabs at both ends. *)
Definition trim_blanks (s : string) : string := trim_right_fn blank (trim_left_fn blank s).

(** The continuation lines: while the input starts with a space or a tab. *)
Fixpoint continuation (fuel : nat) (buf s : string) : string * string :=
  match fuel with
  | O => (buf, s)
  | S fuel =>
      match s with
      | EmptyString => (buf, s)
      | String c _ =>
          if blank c then
            match read_line (trim_left_fn blank s) with
            | None => (buf +:+ " ", "")
            | Some (line, rest) => continuation fuel (buf +:+ " " +:+ trim_blanks line) rest
            end
          else (buf, s)
      end
  end.

(** [validHeaderFieldByte]: RFC 7230 token characters. *)
Definition token_byte (c : ascii) : bool :=
  is_digit c || is_upper c || is_lower c || in_set "!#$%&'*+-.^_`|~" c.

(** Canonical case: the first letter and those after a dash in upper case. *)
Fixpoint canonical (upper : bool) (s : string) : string :=
  match s with
  | EmptyString => ""
  | String c s =>
      let c := if upper then upper_char c else lower_char c in
      String c (canonical (bool_decide (c = "-"%char)) s)
  end.

(** [canonicalMIMEHeaderKey]: [None] for an invalid key; a key with a space is
    kept as it is. *)
Definition canonical_key (k : string) : option string :=
  if is_empty k then None
  else if negb (sall (fun c => token_byte c || bool_decide (c = " "%char)) k) then None
  else if sany (fun c => bool_decide (c = " "%char)) k then Some k
  else Some (canonical true k).

(** [validHeaderValueByte]: no control character but the tab. *)
Definition value_byte (c : ascii) : bool :=
  bool_decide (c = TAB) || ((32 <=? byte_of c) && negb (byte_of c =? 127)).

(** The loop of [ReadMIMEHeader]: the fields parsed, in order. *)
Fixpoint header_loop (fuel : nat) (s : string) : list (string * string) :=
  match fuel with
  | O => []
  | S fuel =>
      match read_line s with
      | None => []
      | Some (line, rest) =>
          if is_empty line then []
          else match index_byte ":" line with
               | None => []        (* malformed: the first line needs a colon *)
               | Some _ =>
                   let '(kv, rest) := continuation (slen rest) (trim_blanks line) rest in
                   match index_byte ":" kv with
                   | None => []
                   | Some i =>
                       match canonical_key (stake i kv) with
                       | None => []
                       | Some key =>
                           let v := sdrop (S i) kv in
                           if sall value_byte v
                           then (key, trim_left_fn blank v) :: header_loop fuel rest
                           else []
                       end
                   end
               end
      end
  end.

Definition read_mime_header (msg : string) : list (string * string) :=
  match msg with
  | String c _ => if blank c then [] else header_loop (S (slen msg)) msg
  | EmptyString => []
  end.

(** [hdr.Get(key)] for a canonical key: the first value, or [""]. *)
Fixpoint header_get (hdr : list (string * string)) (key : string) : string :=
  match hdr with
  | [] => ""
  | (k, v) :: hdr => if seqb k key then v else header_get hdr key
  end.

(** ** Examples *)

Definition example_message : string :=
  "from: A <a@x.org>" +:+ CRLF +:+ "auto-submitted: auto-replied;" +:+ CRLF +:+ "  owner=b"
  +:+ CRLF +:+ "Subject : hi" +:+ CRLF +:+ CRLF +:+ "X-Body: no" +:+ CRLF.

Example parsed_headers :
  read_mime_header example_message =
  [("From", "A <a@x.org>"); ("Auto-Submitted", "auto-replied; owner=b"); ("Subject ", "hi")].
Proof. vm_compute. reflexivity. Qed.

(** ** The fuel is enough: every line takes at least one byte *)

Lemma read_line_rest s line rest : read_line s = Some (line, rest) -> (slen rest < slen s)%nat.
Proof.
  unfold read_line. destruct s as [|c s]; [done|]. cbn [is_empty].
  destruct (index_byte LF (String c s)) as [i|] eqn:Ei; intros [= _ <-]; [|simpl; lia].
  apply index_byte_bound in Ei.
  simpl in *. pose proof (slen_sdrop i s). lia.
Qed.
Lemma trim_left_le p s : (slen (trim_left_fn p s) <= slen s)%nat.
Proof. induction s as [|c s IH]; [done|]. cbn [trim_left_fn]. destruct (p c); simpl; lia. Qed.

Lemma continuation_rest n buf s : (slen (continuation n buf s).2 <= slen s)%nat.
Proof.
  revert buf s. induction n as [|n IH]; intros buf s; [done|]. cbn [continuation]. destruct s as [|c s]; [done|].
  destruct (blank c); [|done]. pose proof (trim_left_le blank (String c s)).
  destruct (read_line _) as [[line rest]|] eqn:Er; [|simpl; lia]. apply read_line_rest in Er.
  etrans; [apply IH|]. lia.
Qed.
Lemma continuation_fuel n m buf s : (slen s <= n)%nat -> (slen s <= m)%nat -> continuation n buf s = continuation m buf s.
Proof.
  revert m buf s. induction n as [|n IH]; intros m buf s Hn Hm.
  { destruct s; [|simpl in Hn; lia]. by destruct m. }
  destruct m as [|m]; [destruct s; [done|simpl in Hm; lia]|]. cbn [continuation]. destruct s as [|c s]; [done|].
  destruct (blank c); [|done]. pose proof (trim_left_le blank (String c s)).
  destruct (read_line _) as [[line rest]|] eqn:Er; [|done]. apply read_line_rest in Er. apply IH; simpl in *; lia.
Qed.
Lemma header_loop_fuel n m s : (slen s < n)%nat -> (slen s < m)%nat -> header_loop n s = header_loop m s.
Proof.
  revert m s. induction n as [|n IH]; intros [|m] s Hn Hm; try lia. cbn [header_loop].
  destruct (read_line s) as [[line rest]|] eqn:Er; [|done]. apply read_line_rest in Er.
  destruct (is_empty line); [done|]. destruct (index_byte ":" line); [|done].
  pose proof (continuation_rest (slen rest) (trim_blanks line) rest) as Hc.
  destruct (continuation (slen rest) (trim_blanks line) rest) as [kv rest']. cbn [snd] in Hc.
  destruct (index_byte ":" kv); [|done]. destruct (canonical_key _); [|done]. destruct (sall value_byte _); [|done].
  by rewrite (IH m) by lia.
Qed.
