(* ===== verification/DKIM.v ===== *)
(** * DKIM signing (internal/dkim/dkim.go)

    [SignMessage], [ValidateDKIMConfiguration] and their helpers.  The
    cryptography and the mail parser are libraries: the class [Crypto] names
    what the code calls of them. *)

From stdpp Require Import base list strings pretty.
From Stdlib Require Import ZArith Lia Ascii.
From S2P Require Import Prelude GoString GoError Base64.
#[local] Open Scope Z_scope.

(** The options of [dkim.Sign] (github.com/emersion/go-msgauth/dkim). *)
Inductive canonicalization : Type := CanonicalizationSimple | CanonicalizationRelaxed.

Record SignOptions (Key : Type) : Type := mkSignOptions {
  so_Domain : string;
  so_Selector : string;
  so_Signer : Key;
  so_HeaderCanonicalization : option canonicalization;
  so_BodyCanonicalization : option canonicalization;
  so_HeaderKeys : list string;
  so_Expiration : option Z
}.
Arguments mkSignOptions {Key}.
Arguments so_Domain {Key}.
Arguments so_Selector {Key}.
Arguments so_Signer {Key}.
Arguments so_HeaderCanonicalization {Key}.
Arguments so_BodyCanonicalization {Key}.
Arguments so_HeaderKeys {Key}.
Arguments so_Expiration {Key}.

(** The libraries: [encoding/pem], [crypto/x509],
    [net/mail], go-msgauth's [dkim] and [authres]. *)
Class Crypto : Type := {
  RSAKey : Type;                                   (* *rsa.PrivateKey *)
  public_key : RSAKey -> Z * Z;                    (* N and E *)
  pem_decode : string -> option (string * string); (* type and bytes *)
  ParsePKCS1PrivateKey : string -> result error RSAKey;
  ParsePKCS8PrivateKey : string -> result error (option RSAKey);  (* None: not RSA *)
  ParsePKIXPublicKey : string -> result error (option (Z * Z));   (* None: not RSA *)
  dkim_sign : string -> SignOptions RSAKey -> result error string;
  mail_from_list : string -> result error (list string);
    (* mail.ReadMessage, then the addresses of its From header *)
  authres_format_none : string -> string           (* authres.Format(domain, [none]) *)
}.

Section DKIM.
Context `{Crypto, Unicode}.

(** [big.Int.BitLen] *)
Definition bit_len (n : Z) : Z := if n =? 0 then 0 else Z.log2 (Z.abs n) + 1.

(** [parsePrivateKey]; the package [arc] has the same function. *)
Definition parse_private_key (pemData : string) : result error RSAKey :=
  match pem_decode (trim_space pemData) with
  | None => Err (ErrText "failed to decode PEM block")
  | Some (ty, der) =>
      if seqb ty "RSA PRIVATE KEY" then
        match ParsePKCS1PrivateKey der with
        | Err e => Err (ErrWrap ("failed to parse PKCS#1 RSA private key: " +:+ error_text e) e)
        | Ok key => Ok key
        end
      else if seqb ty "PRIVATE KEY" then
        match ParsePKCS8PrivateKey der with
        | Err e => Err (ErrWrap ("failed to parse PKCS#8 private key: " +:+ error_text e) e)
        | Ok None => Err (ErrText "parsed key is not an RSA private key")
        | Ok (Some key) => Ok key
        end
      else Err (ErrText ("unsupported PEM block type: " +:+ ty
                           +:+ " (expected 'RSA PRIVATE KEY' or 'PRIVATE KEY')"))
  end.

Definition unsupported_size (keySize : Z) : error :=
  ErrText ("unsupported RSA key size: " +:+ fmt_d keySize +:+ " bits (must be between 1024 and 4096)").

Definition size_ok (keySize : Z) : bool := negb ((keySize <? 1024) || (4096 <? keySize)).

(** [ValidatePrivateKey]: the size, and the error. *)
Definition validate_private_key (pemData : string) : Z * option error :=
  match parse_private_key pemData with
  | Err e => (0, Some e)
  | Ok key =>
      let keySize := bit_len (public_key key).1 in
      if size_ok keySize then (keySize, None) else (keySize, Some (unsupported_size keySize))
  end.

(** [SignMessage] *)
Definition dkim_sign_message (now : Z) (rawMessage privateKeyPEM selector domain : string)
    : result error string :=
  match parse_private_key privateKeyPEM with
  | Err e => Err (ErrWrap ("failed to parse DKIM private key: " +:+ error_text e) e)
  | Ok key =>
      let keySize := bit_len (public_key key).1 in
      if negb (size_ok keySize) then Err (unsupported_size keySize)
      else
        let options := mkSignOptions domain selector key None None
          ["from"; "to"; "subject"; "date"; "message-id"; "mime-version"; "content-type"]
          (Some (now + 7 * 24 * hour)) in
        match dkim_sign rawMessage options with
        | Err e => Err (ErrWrap ("failed to sign message with DKIM: " +:+ error_text e) e)
        | Ok signed => Ok signed
        end
  end.

(** [ExtractDomainFromEmail] *)
Definition extract_domain_from_email (email : string) : string :=
  match split email "@" with
  | [_; domain] => to_lower domain
  | _ => ""
  end.

(** [extractPublicKeyFromDKIM] *)
Fixpoint find_p_tag (parts : list string) : string :=
  match parts with
  | [] => ""
  | part :: parts =>
      let part := trim_space part in
      if has_prefix part "p=" then trim_prefix part "p=" else find_p_tag parts
  end.
Definition extract_public_key_from_dkim (record : string) : string :=
  let record := replace_all record " " "" in
  let record := replace_all record (str1 LF) "" in
  let record := replace_all record (str1 TAB) "" in
  find_p_tag (split record ";").

(** [publicKeysMatch] *)
Definition public_keys_match (key1 key2 : Z * Z) : bool :=
  if negb (key1.2 =? key2.2) then false else key1.1 =? key2.1.

(** [ValidateDKIMConfiguration]; [lookupTXT] is the resolver. *)
Definition validate_dkim_configuration (lookupTXT : string -> result error (list string))
    (selector domain privateKeyPEM : string) : result error unit :=
  let dnsName := selector +:+ "._domainkey." +:+ domain in
  match lookupTXT dnsName with
  | Err e => Err (ErrWrap ("DKIM DNS lookup failed for " +:+ dnsName +:+ ": " +:+ error_text e) e)
  | Ok [] => Err (ErrText ("no DKIM TXT record found for " +:+ dnsName))
  | Ok txtRecords =>
      let fullRecord := join txtRecords "" in
      let dkimRecord := if contains fullRecord "v=DKIM1" then fullRecord else "" in
      if is_empty dkimRecord then
        Err (ErrText ("no valid DKIM record (v=DKIM1) found for " +:+ dnsName))
      else
      let publicKeyB64 := extract_public_key_from_dkim dkimRecord in
      if is_empty publicKeyB64 then
        Err (ErrText ("no public key (p=...) found in DKIM record for " +:+ dnsName))
      else if is_empty privateKeyPEM then Ok tt
      else
      match parse_private_key privateKeyPEM with
      | Err e => Err (ErrWrap ("failed to parse private key: " +:+ error_text e) e)
      | Ok privateKey =>
          match base64_decode publicKeyB64 with
          | Err e => Err (ErrWrap ("failed to decode public key from DNS: " +:+ error_text e) e)
          | Ok publicKeyDER =>
              match ParsePKIXPublicKey publicKeyDER with
              | Err e => Err (ErrWrap ("failed to parse public key from DNS: " +:+ error_text e) e)
              | Ok None => Err (ErrText "public key in DNS is not an RSA key")
              | Ok (Some rsaPublicKey) =>
                  if public_keys_match (public_key privateKey) rsaPublicKey then Ok tt
                  else Err (ErrText "public key in DNS does not match the provided private key")
              end
          end
      end
  end.

(** [ExtractFromHeaderDomain] (keystore.go) *)
Definition extract_from_header_domain (message : string) : string :=
  match mail_from_list message with
  | Ok (a :: _) => extract_domain_from_email a
  | _ => ""
  end.

(** ** Properties *)

(** Removing every occurrence of a byte. *)
Fixpoint remove_byte (c : ascii) (s : string) : string :=
  match s with
  | EmptyString => ""
  | String d s => if bool_decide (c = d) then remove_byte c s else String d (remove_byte c s)
  end.

Lemma remove_byte_app c a b : remove_byte c (a +:+ b) = remove_byte c a +:+ remove_byte c b.
Proof.
  induction a as [|d a IH]; [done|]. cbn [String.append remove_byte].
  case_bool_decide; [done|]. cbn [String.append]. by rewrite IH.
Qed.

Lemma remove_byte_none c a : no_byte c a = true -> remove_byte c a = a.
Proof.
  induction a as [|d a IH]; [done|]. unfold no_byte. cbn [sall remove_byte].
  intros [Hc Ha]%andb_true_split. bool_norm. rewrite bool_decide_false by done.
  f_equal. by apply IH.
Qed.

Lemma sall_remove_byte p c s : sall p s = true -> sall p (remove_byte c s) = true.
Proof.
  induction s as [|d s IH]; [done|]. cbn [sall remove_byte]. intros [Hd Hs]%andb_true_split.
  case_bool_decide; cbn [sall]; rewrite ?Hd; by apply IH.
Qed.

Lemma join_empty_cons x l : join (x :: l) "" = x +:+ join l "".
Proof. destruct l; [by rewrite sapp_nil_r|done]. Qed.

Lemma replace_byte_fuel n c s :
  (slen s < n)%nat -> join (split_n n (str1 c) s) "" = remove_byte c s.
Proof.
  revert s. induction n as [|[|n] IH]; intros s Hn; [lia| |].
  { destruct s; [done|cbn [slen] in Hn; lia]. }
  rewrite split_n_step. destruct (index_byte c s) as [m|] eqn:Em.
  - apply index_byte_split in Em as (Hs & Hc). 
    rewrite join_empty_cons.
    rewrite IH.
    + rewrite Hs at 3. rewrite remove_byte_app, (remove_byte_none c (stake m s)) by done.
      cbn [remove_byte]. by rewrite bool_decide_true.
    + rewrite slen_sdrop. destruct s; [by destruct m|]. cbn [slen] in *. lia.
  - apply index_byte_None in Em. simpl. by rewrite remove_byte_none.
Qed.

Lemma replace_all_byte c s : replace_all s (str1 c) "" = remove_byte c s.
Proof. apply replace_byte_fuel. lia. Qed.

(** The tags of a record as a reader of the DNS zone sees them: white space is
    not significant. *)
Definition strip_record (r : string) : string :=
  remove_byte TAB (remove_byte LF (remove_byte " " r)).

Definition tag_ok (t : string) : Prop := t <> "" /\ sall plain_byte t = true /\ no_byte ";" t = true.

Lemma tag_trimmed t : tag_ok t -> trim_space t = t.
Proof. intros (Hne & Hp & _). apply trim_space_plain. by apply sall_ends. Qed.

Lemma find_p_tag_first before key after :
  Forall (fun t => tag_ok t /\ has_prefix t "p=" = false) before -> tag_ok ("p=" +:+ key) ->
  find_p_tag (before ++ ("p=" +:+ key) :: after) = key.
Proof.
  intros Hb Hk. induction Hb as [|t l [Ht Hp] Hb IH].
  - cbn [app find_p_tag]. rewrite tag_trimmed by done. rewrite has_prefix_app.
    unfold trim_prefix. rewrite has_prefix_app. apply (sdrop_app_len "p=").
  - cbn [app find_p_tag]. rewrite tag_trimmed by done. by rewrite Hp.
Qed.

(** The public key of a DKIM record is the value of its first [p=] tag,
    wherever spaces, tabs and line breaks are put in the record. *)
Theorem dkim_record_key record before key after :
  strip_record record = join (before ++ ("p=" +:+ key) :: after) ";" ->
  Forall (fun t => tag_ok t /\ has_prefix t "p=" = false) before ->
  tag_ok ("p=" +:+ key) -> Forall tag_ok after ->
  extract_public_key_from_dkim record = key.
Proof.
  intros Hr Hb Hk Ha. unfold extract_public_key_from_dkim.
  change (replace_all record " " "") with (replace_all record (str1 " ") "").
  rewrite !replace_all_byte. unfold strip_record in Hr. rewrite Hr.
  rewrite (split_join ";"); [by apply find_p_tag_first| |by destruct before].
  apply Forall_app. split; [|constructor; [apply Hk|]].
  - eapply Forall_impl; [done|]. intros t [(_ & _ & Ht) _]. exact Ht.
  - eapply Forall_impl; [done|]. intros t (_ & _ & Ht). exact Ht.
Qed.

Lemma encoded_tag der : tag_ok ("p=" +:+ base64_encode der).
Proof.
  assert (He : forall p, all_below 64 (fun d => p (b64_char d)) = true -> p "="%char = true ->
                sall p (base64_encode der) = true).
  { intros p Hp Hpad. apply encode_bytes; [|done]. intros d Hd. by apply (all_below_spec _ _ Hp d Hd). }
  split_and!; [done| |].
  - cbn [String.append sall]. by rewrite He by reflexivity.
  - unfold no_byte. cbn [String.append sall]. by rewrite He by reflexivity.
Qed.

Lemma contains_prefix s sub : has_prefix s sub = true -> contains s sub = true.
Proof. intros Hp. unfold contains. destruct s; cbn [index_str]; by rewrite Hp. Qed.

Lemma keys_match_iff k1 k2 : public_keys_match k1 k2 = bool_decide (k2 = k1).
Proof.
  destruct k1 as [n1 e1], k2 as [n2 e2]. unfold public_keys_match. cbn [fst snd].
  destruct (Z.eqb_spec e1 e2), (Z.eqb_spec n1 n2); cbn [negb]; symmetry;
    first [apply bool_decide_true; congruence | apply bool_decide_false; congruence].
Qed.


End DKIM.

(** ** Witnesses and examples *)

(** A library with one key, published under its base64 form "QUJD". *)
Definition toy_key : Z * Z := (2 ^ 2047 + 9, 65537).
Definition toy_crypto : Crypto := {|
  RSAKey := Z * Z;
  public_key k := k;
  pem_decode s := if seqb s "PEM" then Some ("RSA PRIVATE KEY", "ABC") else None;
  ParsePKCS1PrivateKey der := if seqb der "ABC" then Ok toy_key else Err (ErrText "asn1");
  ParsePKCS8PrivateKey _ := Ok None;
  ParsePKIXPublicKey der := if seqb der "ABC" then Ok (Some toy_key) else Err (ErrText "asn1");
  dkim_sign msg o := Ok ("DKIM-Signature: a=rsa-sha256; v=1; d=" +:+ so_Domain o
                           +:+ ";" +:+ CRLF +:+ " b=c2ln" +:+ CRLF +:+ msg);
  mail_from_list msg := if contains msg "From: a@x.org" then Ok ["a@X.org"]
                        else Err (ErrText "mail: header not in message");
  authres_format_none domain := domain +:+ "; none"
|}.

Definition toy_record : string := "v=DKIM1; k=rsa; p=QU" +:+ str1 LF +:+ " JD; t=s".
Definition toy_txt (name : string) : result error (list string) :=
  if seqb name "s1._domainkey.x.org" then Ok [toy_record] else Err (ErrDNS name "" "no such host" true false).

Lemma dkim_record_key_witness :
  extract_public_key_from_dkim toy_record = "QUJD".
Proof.
  apply (dkim_record_key toy_record ["v=DKIM1"; "k=rsa"] "QUJD" ["t=s"]).
  - reflexivity.
  - repeat constructor; done.
  - repeat constructor; done.
  - repeat constructor; done.
Defined.

Example validations :
  let try strings := @validate_dkim_configuration toy_crypto (fun _ => Ok strings) "s1" "x.org" "PEM" in
  (try ["v=DKIM1; k=rsa; "; "p=QU"; "JD"], try ["v=DKIM1; p="], try ["v=DKIM1; p=QUJE"]) =
  (Ok tt, Err (ErrText "no public key (p=...) found in DKIM record for s1._domainkey.x.org"),
   Err (ErrWrap "failed to parse public key from DNS: asn1" (ErrText "asn1"))).
Proof. vm_compute. reflexivity. Qed.

(** A record need not start with "v=DKIM1", and a second TXT record at the name
    is joined to the key: the first is accepted, the second refused. *)
Example version_anywhere :
  let try strings := @validate_dkim_configuration toy_crypto (fun _ => Ok strings) "s1" "x.org" "PEM" in
  (try ["not v=DKIM1 at all;p=QUJD"], is_ok (try ["v=DKIM1; p=QUJD"; "a note"])) = (Ok tt, false).
Proof. vm_compute. reflexivity. Qed.

(** A key of 512 bits is refused, and an address with two at signs has no
    domain. *)
Example small_key_refused : size_ok (bit_len (2 ^ 511 + 1)) = false /\ size_ok (bit_len toy_key.1) = true.
Proof. vm_compute. done. Qed.
Example two_at_signs :
  @extract_domain_from_email plain_unicode "a@b@c.org" = "" /\
  @extract_domain_from_email plain_unicode "a@Example.ORG" = "example.org".
Proof. vm_compute. done. Qed.
