(* ===== verification/KeyStore.v ===== *)
(** * The DKIM key store (internal/dkim/keystore.go)

    Keys found in a directory by domain and selector, the selector map that is
    read again when its modification time changes, and the bounded cache of
    key files.  Files are arguments: what opening, [Stat] and reading gave. *)

From stdpp Require Import base gmap sets list strings pretty.
From Stdlib Require Import ZArith Lia Ascii.
From S2P Require Import Prelude GoString GoError DKIM.
#[local] Open Scope Z_scope.

(** ** Standard library *)

(** [strings.Fields]: the runs of bytes between white space. *)
Fixpoint fields_loop (fuel : nat) (acc s : string) : list string :=
  let emit l := if is_empty acc then l else sreverse acc :: l in
  match fuel with
  | O => emit []
  | S fuel =>
      match head_space wide_spaces s with
      | Some n => emit (fields_loop fuel "" (sdrop n s))
      | None => match s with
                | EmptyString => emit []
                | String c s => fields_loop fuel (String c acc) s
                end
      end
  end.
Definition fields (s : string) : list string := fields_loop (S (slen s)) "" s.

(** [bufio.Scanner] on lines: the lines, and its error: a line that does not
    end within 64 KiB stops it. *)
Definition max_token : Z := 65536.
Fixpoint scan_lines (fuel : nat) (readErr : option error) (s : string) : list string * option error :=
  match fuel with
  | O => ([], None)
  | S fuel =>
      match index_byte LF s with
      | Some i =>
          if max_token <=? Z.of_nat i then ([], Some (ErrText "bufio.Scanner: token too long"))
          else let '(ls, e) := scan_lines fuel readErr (sdrop (S i) s) in
               (trim_suffix (stake i s) (str1 CR) :: ls, e)
      | None =>
          if max_token <=? Z.of_nat (slen s) then ([], Some (ErrText "bufio.Scanner: token too long"))
          else (if is_empty s then [] else [trim_suffix s (str1 CR)], readErr)
      end
  end.

(** The next line starts past a line feed, so the fuel is enough. *)
Lemma scan_lines_fuel n m readErr s : (slen s < n)%nat -> (slen s < m)%nat -> scan_lines n readErr s = scan_lines m readErr s.
Proof.
  revert m s. induction n as [|n IH]; intros [|m] s Hn Hm; try lia. cbn [scan_lines].
  destruct (index_byte LF s) as [i|] eqn:Ei; [|done]. destruct (max_token <=? Z.of_nat i); [done|].
  apply index_byte_bound in Ei. by rewrite (IH m) by (rewrite slen_sdrop; lia).
Qed.

(** [path.Clean], [filepath.Join] *)
Fixpoint clean_comps (rooted : bool) (stack comps : list string) : list string :=
  match comps with
  | [] => rev stack
  | c :: comps =>
      if is_empty c || seqb c "." then clean_comps rooted stack comps
      else if seqb c ".." then
        match stack with
        | top :: stack' =>
            if seqb top ".." then clean_comps rooted (c :: stack) comps
            else clean_comps rooted stack' comps
        | [] => clean_comps rooted (if rooted then [] else [c]) comps
        end
      else clean_comps rooted (c :: stack) comps
  end.
Definition path_comps (path : string) : list string :=
  clean_comps (has_prefix path "/") [] (split path "/").
Definition clean (path : string) : string :=
  let body := join (path_comps path) "/" in
  if has_prefix path "/" then "/" +:+ body else if is_empty body then "." else body.
Definition filepath_join (elems : list string) : string :=
  match List.filter (fun e => negb (is_empty e)) elems with
  | [] => ""
  | es => clean (join es "/")
  end.

(** ** Data *)

Definition defaultKeyCacheSize : Z := 20000.
Definition positiveCacheTTL : Z := 1 * hour.
Definition negativeCacheTTL : Z := 5 * minute.
Definition selectorMapCheckIntv : Z := 1 * minute.

Record keyCacheEntry : Type := mkKeyEntry { keyPEM : string; found : bool; expires : Z }.

Record KeyStore : Type := mkKeyStore {
  keyDir : string;
  selectorMapPath : string;
  fallbackSelector : string;
  cacheSize : Z;
  selectors : gmap string string;
  mapModTime : Z;
  nextMapCheck : Z;
  kcache : gmap string keyCacheEntry
}.

Definition with_kcache (ks : KeyStore) (c : gmap string keyCacheEntry) : KeyStore :=
  mkKeyStore (keyDir ks) (selectorMapPath ks) (fallbackSelector ks) (cacheSize ks)
    (selectors ks) (mapModTime ks) (nextMapCheck ks) c.
Definition with_map (ks : KeyStore) (m : gmap string string) (modTime : Z) : KeyStore :=
  mkKeyStore (keyDir ks) (selectorMapPath ks) (fallbackSelector ks) (cacheSize ks)
    m modTime (nextMapCheck ks) (kcache ks).
Definition with_next_check (ks : KeyStore) (t : Z) : KeyStore :=
  mkKeyStore (keyDir ks) (selectorMapPath ks) (fallbackSelector ks) (cacheSize ks)
    (selectors ks) (mapModTime ks) t (kcache ks).

(** What the file system answers: opening the map, [Stat] of the open file,
    and reading it. *)
Record map_file : Type := mkMapFile {
  mf_open : option error;
  mf_stat : result error Z;
  mf_content : string;
  mf_read_err : option error
}.

Section KeyStore.
Context `{Crypto, Unicode}.

(** [safePathComponent] *)
Definition safe_path_component (s : string) : bool :=
  negb (is_empty s) && negb (contains_any s "/\") && negb (contains s "..").

(** [reloadSelectorMap] *)
Definition parse_map_line (selectors : gmap string string) (text : string) : gmap string string :=
  let line := trim_space text in
  if is_empty line || has_prefix line "#" then selectors
  else match fields line with
       | d :: sel :: _ => <[to_lower d := sel]> selectors
       | _ => selectors
       end.

Definition reload_selector_map (ks : KeyStore) (f : map_file) : option error * KeyStore :=
  match mf_open f with
  | Some e => (Some (ErrWrap ("failed to open DKIM selector map: " +:+ error_text e) e), ks)
  | None =>
      match mf_stat f with
      | Err e => (Some (ErrWrap ("failed to stat DKIM selector map: " +:+ error_text e) e), ks)
      | Ok modTime =>
          let '(lines, err) := scan_lines (S (slen (mf_content f))) (mf_read_err f) (mf_content f) in
          let selectors := foldl parse_map_line ∅ lines in
          match err with
          | Some e => (Some (ErrWrap ("failed to read DKIM selector map: " +:+ error_text e) e), ks)
          | None => (None, with_map ks selectors modTime)
          end
      end
  end.

(** [NewKeyStore]; [stat] tells whether the path is a directory. *)
Definition new_key_store (stat : result error bool) (f : map_file)
    (keyDir selectorMapPath fallbackSelector : string) (cacheSize : Z) : result error KeyStore :=
  match stat with
  | Err e => Err (ErrWrap ("DKIM key directory not accessible: " +:+ error_text e) e)
  | Ok false => Err (ErrText ("DKIM key directory is not a directory: " +:+ keyDir))
  | Ok true =>
      let cacheSize := if cacheSize <=? 0 then defaultKeyCacheSize else cacheSize in
      let ks := mkKeyStore keyDir selectorMapPath fallbackSelector cacheSize ∅ zero_time zero_time ∅ in
      if is_empty selectorMapPath then Ok ks
      else match reload_selector_map ks f with
           | (Some e, _) => Err e
           | (None, ks) => Ok ks
           end
  end.

(** [maybeReloadSelectorMap]; [stat] is the modification time of the map. *)
Definition maybe_reload_selector_map (ks : KeyStore) (now : Z) (stat : result error Z) (f : map_file)
    : KeyStore :=
  if is_empty (selectorMapPath ks) then ks
  else if negb (time_after now (nextMapCheck ks)) then ks
  else
    let ks := with_next_check ks (now + selectorMapCheckIntv) in
    match stat with
    | Err _ => ks
    | Ok t => if t =? mapModTime ks then ks else snd (reload_selector_map ks f)
    end.

(** [storeCacheEntry]; the two loops that stop when there is room visit the
    keys in some order of the runtime's choice, [order1] and [order2]. *)
Fixpoint evict (drop : keyCacheEntry -> bool) (cacheSize : Z) (order : list string)
    (c : gmap string keyCacheEntry) : gmap string keyCacheEntry :=
  match order with
  | [] => c
  | k :: order =>
      if Z.of_nat (size c) <? cacheSize then c
      else evict drop cacheSize order
             (match c !! k with Some e => if drop e then delete k c else c | None => c end)
  end.

Definition store_cache_entry (ks : KeyStore) (now : Z) (order1 order2 : list string)
    (key : string) (entry : keyCacheEntry) : KeyStore :=
  let c := kcache ks in
  let c :=
    if cacheSize ks <=? Z.of_nat (size c) then
      let c := map_keep (fun _ e => negb (time_after now (expires e))) c in
      let c := evict (fun e => negb (found e)) (cacheSize ks) order1 c in
      evict (fun _ => true) (cacheSize ks) order2 c
    else c in
  with_kcache ks (<[key := entry]> c).

(** What one lookup meets: the clock readings, the files, the map orders. *)
Record lookup_env : Type := mkLookupEnv {
  le_map_now : Z;
  le_map_stat : result error Z;
  le_map_file : map_file;
  le_now : Z;
  le_read : string -> result error string;     (* os.ReadFile *)
  le_store_now : Z;
  le_order1 : list string;
  le_order2 : list string
}.

Definition key_path (ks : KeyStore) (selector domain : string) : string :=
  filepath_join [keyDir ks; selector; domain +:+ ".key"].

(** [Lookup]: the selector, read under the lock of the map; the cache, under
    its own lock; the file; and the entry that is stored for it. *)
Definition chosen_selector (ks : KeyStore) (domain : string) : string :=
  let selector := default "" (selectors ks !! domain) in
  if is_empty selector then fallbackSelector ks else selector.
Definition cache_key (selector domain : string) : string := selector +:+ "/" +:+ domain.
Definition live_entry (ks : KeyStore) (now : Z) (cacheKey : string) : option keyCacheEntry :=
  match kcache ks !! cacheKey with
  | Some entry => if time_before now (expires entry) then Some entry else None
  | None => None
  end.
Definition file_entry (now : Z) (file : result error string) : keyCacheEntry :=
  match file with
  | Err _ => mkKeyEntry "" false (now + negativeCacheTTL)
  | Ok data =>
      if negb (is_ok (parse_private_key data)) then mkKeyEntry "" false (now + negativeCacheTTL)
      else mkKeyEntry data true (now + positiveCacheTTL)
  end.
Definition entry_answer (selector : string) (entry : keyCacheEntry) : option (string * string) :=
  if found entry then Some (keyPEM entry, selector) else None.

(** The answer when the map is as in [ks1] and the cache as in [ks2], with the
    entry to store. *)
Definition lookup_answer (ks1 ks2 : KeyStore) (env : lookup_env) (domain : string)
    : option (string * string) * option (string * keyCacheEntry) :=
  let selector := chosen_selector ks1 domain in
  if is_empty selector || negb (safe_path_component selector) then (None, None)
  else
  let cacheKey := cache_key selector domain in
  let now := le_now env in
  match live_entry ks2 now cacheKey with
  | Some entry => (entry_answer selector entry, None)
  | None =>
      let entry := file_entry now (le_read env (key_path ks1 selector domain)) in
      (entry_answer selector entry, Some (cacheKey, entry))
  end.

Definition ks_lookup (ks : KeyStore) (env : lookup_env) (domain : string)
    : option (string * string) * KeyStore :=
  let domain := to_lower (trim_space domain) in
  if is_empty domain || negb (safe_path_component domain) then (None, ks)
  else
  let ks := maybe_reload_selector_map ks (le_map_now env) (le_map_stat env) (le_map_file env) in
  match lookup_answer ks ks env domain with
  | (r, None) => (r, ks)
  | (r, Some (cacheKey, entry)) =>
      (r, store_cache_entry ks (le_store_now env) (le_order1 env) (le_order2 env) cacheKey entry)
  end.

(** ** Lemmas *)

Lemma evict_subseteq drop n order c : evict drop n order c ⊆ c.
Proof.
  revert c. induction order as [|k order IH]; intros c; [done|]. cbn [evict].
  destruct (Z.of_nat (size c) <? n); [done|].
  destruct (c !! k) as [e|]; [|by apply IH]. destruct (drop e); [|by apply IH].
  etrans; [apply IH|apply delete_subseteq].
Qed.

Lemma evict_keeps drop n order c k e :
  c !! k = Some e -> drop e = false -> evict drop n order c !! k = Some e.
Proof.
  revert c. induction order as [|k' order IH]; intros c Hk Hd; [done|]. cbn [evict].
  destruct (Z.of_nat (size c) <? n); [done|]. apply IH; [|done].
  destruct (c !! k') as [e'|] eqn:E; [|done]. destruct (drop e') eqn:Hd'; [|done].
  destruct (decide (k = k')) as [->|]; [congruence|]. by rewrite lookup_delete_ne.
Qed.

(** Either there is room, or nothing evictable is left. *)
Lemma evict_done drop n order c :
  (forall k e, c !! k = Some e -> drop e = true -> k ∈ order) ->
  Z.of_nat (size (evict drop n order c)) < n \/
  forall k e, evict drop n order c !! k = Some e -> drop e = false.
Proof.
  revert c. induction order as [|k order IH]; intros c Hc; cbn [evict].
  { right. intros k e Hk. destruct (drop e) eqn:Hd; [|done].
    specialize (Hc k e Hk Hd). by apply elem_of_nil in Hc. }
  destruct (Z.ltb_spec (Z.of_nat (size c)) n); [by left|]. apply IH.
  intros k' e' Hk' Hd'.
  assert (c !! k' = Some e' /\ k' <> k) as [Hin Hne].
  { destruct (c !! k) as [e|] eqn:E.
    - destruct (drop e) eqn:Hd.
      + apply lookup_delete_Some in Hk' as [? ?]. done.
      + split; [done|]. intros ->. congruence.
    - split; [done|]. intros ->. congruence. }
  specialize (Hc k' e' Hin Hd'). apply elem_of_cons in Hc as [?|?]; done.
Qed.

Lemma size_insert_le (c : gmap string keyCacheEntry) k e : (size (<[k:=e]> c) <= S (size c))%nat.
Proof. rewrite map_size_insert. destruct (c !! k); simpl; lia. Qed.

(** The cache after making room. *)
Definition make_room (n : Z) (now : Z) (order1 order2 : list string) (c : gmap string keyCacheEntry) :=
  evict (fun _ => true) n order2
    (evict (fun e => negb (found e)) n order1 (map_keep (fun _ e => negb (time_after now (expires e))) c)).

Lemma make_room_spec n now order1 order2 c :
  1 <= n -> (forall k e, c !! k = Some e -> k ∈ order1 /\ k ∈ order2) ->
  let c' := make_room n now order1 order2 c in
  c' ⊆ c /\ Z.of_nat (size c') < n /\
  (forall k e, c !! k = Some e -> time_after now (expires e) = false -> found e = true ->
     c' !! k = None -> forall k' e', c' !! k' = Some e' -> found e' = true).
Proof.
  intros Hn Hord c'. subst c'. unfold make_room.
  set (c1 := map_keep _ c). set (c2 := evict _ n order1 c1).
  assert (H1 : c1 ⊆ c) by apply map_keep_subseteq.
  assert (H2 : c2 ⊆ c1) by apply evict_subseteq.
  assert (H3 : evict (fun _ => true) n order2 c2 ⊆ c2) by apply evict_subseteq.
  split; [etrans; [exact H3|]; by etrans|]. split.
  - destruct (evict_done (fun _ => true) n order2 c2) as [?|Hnone]; [|done|].
    { intros k e Hk _. eapply lookup_weaken in Hk; [|exact H2].
      eapply lookup_weaken in Hk; [|exact H1]. by apply Hord in Hk as [? ?]. }
    assert (evict (fun _ => true) n order2 c2 = ∅) as ->.
    { apply map_eq. intros k. rewrite lookup_empty.
      destruct (evict _ n order2 c2 !! k) eqn:E; [|done]. by apply Hnone in E. }
    rewrite map_size_empty. lia.
  - intros k e Hk Hlive Hf Hgone k' e' Hk'.
    assert (Hc1 : c1 !! k = Some e) by (apply map_keep_lookup; split; [done|by cbn; rewrite Hlive]).
    assert (Hc2 : c2 !! k = Some e) by (apply evict_keeps; [done|by rewrite Hf]).
    destruct (evict_done (fun e => negb (found e)) n order1 c1) as [Hsz|Hnone].
    { intros k0 e0 Hk0 _. eapply lookup_weaken in Hk0; [|exact H1]. by apply Hord in Hk0 as [? ?]. }
    + exfalso. fold c2 in Hsz. 
      assert (evict (fun _ => true) n order2 c2 = c2) as Heq.
      { destruct order2; [done|]. cbn [evict]. by rewrite (proj2 (Z.ltb_lt _ _) Hsz). }
      rewrite Heq in Hgone. congruence.
    + eapply lookup_weaken in Hk'; [|exact H3]. fold c2 in Hnone.
      specialize (Hnone k' e' Hk'). by apply negb_false_iff in Hnone.
Qed.

Lemma store_as_room ks now order1 order2 key entry :
  kcache (store_cache_entry ks now order1 order2 key entry) =
  <[key := entry]> (if cacheSize ks <=? Z.of_nat (size (kcache ks))
                    then make_room (cacheSize ks) now order1 order2 (kcache ks) else kcache ks).
Proof. done. Qed.

(** ** Properties *)

(** Storing a key file in the cache keeps it within its size, whatever
    order the runtime visits the map in, and evicts no live key while an
    entry for a missing key is left: unknown From domains cannot push the
    signing keys out. *)
Theorem key_cache_bounded ks now order1 order2 key entry :
  1 <= cacheSize ks -> Z.of_nat (size (kcache ks)) <= cacheSize ks ->
  (forall k e, kcache ks !! k = Some e -> k ∈ order1 /\ k ∈ order2) ->
  let c' := kcache (store_cache_entry ks now order1 order2 key entry) in
  Z.of_nat (size c') <= cacheSize ks /\ c' !! key = Some entry /\
  (forall k e, k <> key -> kcache ks !! k = Some e -> found e = true ->
     time_after now (expires e) = false -> c' !! k = None ->
     forall k' e', k' <> key -> c' !! k' = Some e' -> found e' = true).
Proof.
  intros Hn Hsz Hord c'. subst c'. rewrite store_as_room.
  destruct (Z.leb_spec (cacheSize ks) (Z.of_nat (size (kcache ks)))) as [Hfull|Hroom].
  - pose proof (make_room_spec _ now order1 order2 (kcache ks) Hn Hord) as (Hsub & Hlt & Hpos).
    split; [|split; [by rewrite lookup_insert_eq|]].
    + assert (size (<[key:=entry]> (make_room (cacheSize ks) now order1 order2 (kcache ks)))
              <= S (size (make_room (cacheSize ks) now order1 order2 (kcache ks))))%nat; [|lia].
      apply size_insert_le.
    + intros k e Hne Hk Hf Hl. rewrite lookup_insert_ne by done. intros Hgone k' e' Hne'.
      rewrite lookup_insert_ne by done. by eapply Hpos.
  - split; [|split; [by rewrite lookup_insert_eq|]].
    + assert (size (<[key:=entry]> (kcache ks)) <= S (size (kcache ks)))%nat; [|lia].
      apply size_insert_le.
    + intros k e Hne Hk _ _. rewrite lookup_insert_ne by done. congruence.
Qed.

(** *** Paths *)

Lemma split_slash s : split s "/" = splits "/" s.
Proof. apply split_splits. Qed.

(** A component that is neither empty, [.] nor [..]. *)
Definition plain_comp (c : string) : bool := negb (is_empty c || seqb c "." || seqb c "..").

Lemma long_comp_plain c : (2 < slen c)%nat -> plain_comp c = true.
Proof.
  intros Hl. unfold plain_comp. apply negb_true_iff. rewrite !orb_false_iff.
  split_and!; [apply is_empty_false|apply seqb_false|apply seqb_false]; intros ->; simpl in Hl; lia.
Qed.

Lemma clean_comps_plain rooted stack l tl :
  Forall (fun c => plain_comp c = true) tl ->
  clean_comps rooted stack (l ++ tl) = clean_comps rooted stack l ++ tl.
Proof.
  intros Htl. revert stack. induction l as [|c l IH]; intros stack; cbn [app clean_comps].
  - revert stack. induction Htl as [|t tl Ht Htl IH]; intros stack; cbn [clean_comps].
    { by rewrite app_nil_r. }
    unfold plain_comp in Ht. bool_norm. destruct Ht as [[Ht1 Ht2] Ht3].
    apply is_empty_false in Ht1 as ->. apply seqb_false in Ht2 as ->. apply seqb_false in Ht3 as ->.
    cbn [orb]. rewrite IH. cbn [rev]. by rewrite <- app_assoc.
  - destruct (is_empty c || seqb c "."); [apply IH|]. destruct (seqb c ".."); [|apply IH].
    destruct stack as [|top stack]; [apply IH|]. destruct (seqb top ".."); apply IH.
Qed.

Lemma clean_comps_dot rooted stack l tl :
  clean_comps rooted stack (l ++ "." :: tl) = clean_comps rooted stack (l ++ tl).
Proof.
  revert stack. induction l as [|c l IH]; intros stack; cbn [app clean_comps]; [done|].
  destruct (is_empty c || seqb c "."); [apply IH|]. destruct (seqb c ".."); [|apply IH].
  destruct stack as [|top stack]; [apply IH|]. destruct (seqb top ".."); apply IH.
Qed.

Lemma safe_component_spec s :
  safe_path_component s = true -> s <> "" /\ no_byte "/" s = true /\ s <> "..".
Proof.
  unfold safe_path_component. intros Hs. apply andb_prop in Hs as [Hs Hs2].
  apply andb_prop in Hs as [Hs0 Hs1]. apply negb_true_iff in Hs0, Hs1, Hs2.
  split; [by apply is_empty_false|]. split; [by eapply contains_any_none|].
  intros ->. done.
Qed.

Lemma app_nonempty a b : b <> "" -> is_empty (a +:+ b) = false.
Proof. by destruct a, b. Qed.

(** The path of a key file, component by component. *)
Lemma key_path_comps ks selector domain :
  keyDir ks <> "" ->
  safe_path_component selector = true -> safe_path_component domain = true ->
  exists path,
    key_path ks selector domain = clean path /\
    has_prefix path "/" = has_prefix (keyDir ks) "/" /\
    path_comps path = path_comps (keyDir ks)
      ++ (if seqb selector "." then [] else [selector]) ++ [domain +:+ ".key"].
Proof.
  intros Hdir (Hs0 & Hs1 & Hs2)%safe_component_spec (Hd0 & Hd1 & Hd2)%safe_component_spec.
  exists (keyDir ks +:+ String "/" (selector +:+ String "/" (domain +:+ ".key"))).
  assert (Hpre : forall r, has_prefix (keyDir ks +:+ r) "/" = has_prefix (keyDir ks) "/").
  { intros r. by destruct (keyDir ks) as [|c k]; [|destruct k, r]. }
  split; [|split; [apply Hpre|]].
  - unfold key_path, filepath_join. cbn [List.filter].
    rewrite (proj2 (is_empty_false _) Hdir), (proj2 (is_empty_false _) Hs0).
    rewrite app_nonempty by done. done.
  - unfold path_comps. rewrite Hpre.
    rewrite !split_slash.
    rewrite !splits_app, (splits_none "/" selector) by done.
    assert (splits "/" (domain +:+ ".key") = [domain +:+ ".key"]) as ->.
    { apply splits_none. unfold no_byte in *. by rewrite sall_app, Hd1. }
    assert (Hk : plain_comp (domain +:+ ".key") = true).
    { apply long_comp_plain. rewrite slen_app. simpl. lia. }
    destruct (seqb selector ".") eqn:Hdot.
    + apply seqb_true in Hdot as ->. cbn [app]. rewrite clean_comps_dot.
      by apply clean_comps_plain; constructor.
    + rewrite clean_comps_plain; [done|]. constructor; [|by constructor].
      unfold plain_comp. rewrite (proj2 (is_empty_false _) Hs0), Hdot.
      by rewrite (proj2 (seqb_false _ _) Hs2).
Qed.

(** *** Lookups *)

Lemma maybe_reload_same ks now stat f :
  let ks' := maybe_reload_selector_map ks now stat f in
  kcache ks' = kcache ks /\ fallbackSelector ks' = fallbackSelector ks /\ keyDir ks' = keyDir ks.
Proof.
  unfold maybe_reload_selector_map, reload_selector_map. cbv zeta.
  repeat case_match; simplify_eq/=; done.
Qed.

(** A cleaned path under a directory: the directory's components, then some
    more, none of which goes up. *)
Definition inside (dir p : string) : Prop :=
  exists path rest, p = clean path /\ has_prefix path "/" = has_prefix dir "/" /\
    path_comps path = path_comps dir ++ rest /\ rest <> [] /\ ~ In ".." rest.

Lemma key_path_in_dir ks selector domain :
  keyDir ks <> "" -> safe_path_component selector = true -> safe_path_component domain = true ->
  inside (keyDir ks) (key_path ks selector domain).
Proof.
  intros Hdir Hs Hd. destruct (key_path_comps ks selector domain Hdir Hs Hd) as (path & -> & Hp & Hc).
  apply safe_component_spec in Hs as (_ & _ & Hs).
  eexists path, _. split_and!; [done|done|exact Hc|by destruct (seqb selector ".")|].
  assert (domain +:+ ".key" <> "..").
  { intros E%(f_equal slen). rewrite slen_app in E. simpl in E. lia. }
  rewrite in_app_iff. intros [Hin|[Hin|[]]]; [|done].
  destruct (seqb selector "."); [done|]. by destruct Hin.
Qed.

(** The environment with other files. *)
Definition with_read (env : lookup_env) (read : string -> result error string) : lookup_env :=
  mkLookupEnv (le_map_now env) (le_map_stat env) (le_map_file env) (le_now env) read (le_store_now env)
    (le_order1 env) (le_order2 env).

(** C35: [Lookup] depends on no file outside the key directory, apart from
    the selector map itself: whatever the domain (it comes from the From header)
    and the map say, and whatever is in the cache, files elsewhere can have any
    contents without a difference to the answer or to what is cached. *)
Theorem key_path_inside ks env domain read :
  keyDir ks <> "" -> (forall p, inside (keyDir ks) p -> read p = le_read env p) ->
  ks_lookup ks (with_read env read) domain = ks_lookup ks env domain.
Proof.
  intros Hdir Hread. unfold ks_lookup. set (d := to_lower (trim_space domain)).
  destruct (is_empty d || negb (safe_path_component d)) eqn:Hd; [done|].
  apply orb_false_elim in Hd as [_ Hd%negb_false_iff]. cbn [with_read le_map_now le_map_stat le_map_file].
  pose proof (maybe_reload_same ks (le_map_now env) (le_map_stat env) (le_map_file env)) as (_ & _ & Hk).
  set (ks1 := maybe_reload_selector_map _ _ _ _) in *.
  unfold lookup_answer. cbn [with_read le_now le_read le_store_now le_order1 le_order2].
  destruct (is_empty (chosen_selector ks1 d) || _) eqn:Hs; [done|].
  apply orb_false_elim in Hs as [_ Hs%negb_false_iff].
  destruct (live_entry ks1 _ _); [done|]. rewrite Hread; [done|].
  rewrite <- Hk. apply key_path_in_dir; [by rewrite Hk|done..].
Qed.

(** *** Where keys come from *)

Lemma first_sep_inj c a a' b b' :
  no_byte c a = true -> no_byte c a' = true -> a +:+ String c b = a' +:+ String c b' -> a = a' /\ b = b'.
Proof.
  unfold no_byte. revert a'. induction a as [|x a IH]; intros [|y a']; cbn [sall String.append].
  - by intros _ _ [= ->].
  - intros _ [Hy _]%andb_prop [= -> _]. by rewrite bool_decide_true in Hy.
  - intros [Hx _]%andb_prop _ [= <- _]. by rewrite bool_decide_true in Hx.
  - intros [_ Ha]%andb_prop [_ Ha']%andb_prop [= -> E]. by destruct (IH a' Ha Ha' E) as [-> ->].
Qed.

Lemma cache_key_inj sel d sel' d' :
  safe_path_component sel = true -> safe_path_component sel' = true ->
  cache_key sel d = cache_key sel' d' -> sel = sel' /\ d = d'.
Proof.
  intros (_ & Hs & _)%safe_component_spec (_ & Hs' & _)%safe_component_spec. by apply first_sep_inj.
Qed.

Lemma store_cache_lookup ks now o1 o2 key entry k e :
  kcache (store_cache_entry ks now o1 o2 key entry) !! k = Some e ->
  (k = key /\ e = entry) \/ kcache ks !! k = Some e.
Proof.
  rewrite store_as_room. destruct (decide (k = key)) as [->|Hne]; [rewrite lookup_insert_eq; intros [= <-]; by left|].
  rewrite lookup_insert_ne by done. intros Hk. right. case_match; [|done]. eapply lookup_weaken; [done|].
  etrans; [apply evict_subseteq|]. etrans; [apply evict_subseteq|]. apply map_keep_subseteq.
Qed.

Section Provenance.
(** [Read t path r]: a lookup that looked at the clock at [t] read the file
    [path], and got [r]. *)
Context (Read : Z -> string -> result error string -> Prop) (dir fallback : string).

(** A store at the start, and what lookups do to it, each section a step. *)
Definition ks_start (ks : KeyStore) : Prop :=
  kcache ks = ∅ /\ keyDir ks = dir /\ fallbackSelector ks = fallback.
Inductive ks_step (ks : KeyStore) : KeyStore -> Prop :=
| ks_step_map now stat f : ks_step ks (maybe_reload_selector_map ks now stat f)
| ks_step_store t r sel d now o1 o2 :
    safe_path_component sel = true -> safe_path_component d = true ->
    Read t (key_path ks sel d) r ->
    ks_step ks (store_cache_entry ks now o1 o2 (cache_key sel d) (file_entry t r)).

Definition ks_inv (ks : KeyStore) : Prop :=
  keyDir ks = dir /\ fallbackSelector ks = fallback /\
  forall k e, kcache ks !! k = Some e -> exists sel d t r,
    safe_path_component sel = true /\ k = cache_key sel d /\
    Read t (filepath_join [dir; sel; d +:+ ".key"]) r /\ e = file_entry t r.

Lemma ks_step_inv ks ks' : ks_inv ks -> ks_step ks ks' -> ks_inv ks'.
Proof.
  intros (Hd & Hf & Hc) [now stat f|t r sel d now o1 o2 Hs Hsd Hr].
  - destruct (maybe_reload_same ks now stat f) as (Hc' & Hf' & Hd').
    split_and!; [congruence..|]. intros k e. rewrite Hc'. apply Hc.
  - split_and!; [done..|]. intros k e [[-> ->]|Hk]%store_cache_lookup; [|by apply Hc].
    exists sel, d, t, r. split_and!; [done..| |done]. unfold key_path in Hr. by rewrite Hd in Hr.
Qed.

Lemma ks_reachable_inv ks : reachable ks_start ks_step ks -> ks_inv ks.
Proof.
  apply invariant_reachable; [|apply ks_step_inv]. intros k (Hc & Hd & Hf). split_and!; [done..|].
  intros x e. by rewrite Hc, lookup_empty.
Qed.

Lemma file_entry_found t r sel pem s :
  entry_answer sel (file_entry t r) = Some (pem, s) ->
  s = sel /\ r = Ok pem /\ is_ok (parse_private_key pem) = true /\
  expires (file_entry t r) = t + positiveCacheTTL.
Proof.
  unfold entry_answer, file_entry. destruct r as [data|e]; [|done].
  destruct (is_ok (parse_private_key data)) eqn:Hp; [|done]. cbn. by intros [= <- <-].
Qed.

End Provenance.

End KeyStore.

(** ** Witnesses and examples *)

Definition example_env : lookup_env :=
  mkLookupEnv (100 * second) (Ok (50 * second))
    (mkMapFile None (Ok (50 * second)) ("# map" +:+ str1 LF +:+ "Example.org  s2" +:+ CRLF +:+ "bad") None)
    (101 * second)
    (fun path => if seqb path "/etc/dkim/s2/example.org.key" then Ok "PEM" else Err (ErrText "not found"))
    (101 * second) ["a"; "b"; "c"] ["a"; "b"; "c"].
Definition example_store : KeyStore :=
  mkKeyStore "/etc/dkim" "/etc/dkim/map" "" 2 ∅ zero_time zero_time
    (list_to_map [("a", mkKeyEntry "PEM" true (1000 * second)); ("b", mkKeyEntry "" false (1000 * second))]).

(** The map is read, the key found, and the negative entry makes room for it. *)
Example lookup_finds_key :
  let '(r, ks') := @ks_lookup toy_crypto plain_unicode example_store example_env " Example.ORG" in
  r = Some ("PEM", "s2") /\ map fst (map_to_list (kcache ks')) = ["s2/example.org"; "a"].
Proof. vm_compute. done. Qed.

Lemma example_keys k e : kcache example_store !! k = Some e -> k = "a" \/ k = "b".
Proof.
  unfold example_store. cbn [kcache list_to_map foldr uncurry].
  intros [[<- _]|[_ [[<- _]|[_ Hk]]%lookup_insert_Some]]%lookup_insert_Some; [by left|by right|].
  by rewrite lookup_empty in Hk.
Qed.

Lemma key_cache_bounded_witness :
  Z.of_nat (size (kcache (store_cache_entry example_store (101 * second) ["a"; "b"] ["b"; "a"] "n"
    (mkKeyEntry "" false (500 * second))))) <= 2.
Proof.
  apply (key_cache_bounded example_store (101 * second) ["a"; "b"] ["b"; "a"] "n"
           (mkKeyEntry "" false (500 * second))).
  - vm_compute. discriminate.
  - vm_compute. discriminate.
  - intros k e [-> | ->]%example_keys; split; set_solver.
Defined.

(** The file system, and another one that differs outside the key directory:
    somebody has put a key where "../../tmp/x" would lead. *)
Definition planted (path : string) : result error string :=
  if seqb path "/tmp/x.key" then Ok "EVIL" else le_read example_env path.

Lemma key_path_inside_witness :
  @ks_lookup toy_crypto plain_unicode example_store (with_read example_env planted) " Example.ORG" =
  @ks_lookup toy_crypto plain_unicode example_store example_env " Example.ORG".
Proof.
  apply (@key_path_inside toy_crypto plain_unicode example_store example_env " Example.ORG" planted); [done|].
  intros p (path & rest & -> & Hroot & Hc & _ & _). unfold planted.
  destruct (seqb (clean path) "/tmp/x.key") eqn:E; [|reflexivity]. apply seqb_true in E.
  unfold clean in E. rewrite Hroot, Hc in E. change (path_comps (keyDir example_store)) with ["etc"; "dkim"] in E.
  cbn in E. discriminate.
Defined.
Example guards_hold :
  let lookup domain := (@ks_lookup toy_crypto plain_unicode example_store (with_read example_env planted) domain).1 in
  lookup "../../tmp/x" = None /\ planted (key_path example_store "s2" "../../../tmp/x") = Ok "EVIL".
Proof. vm_compute. done. Qed.

(** Every reading of a file answers as [example_env] does. *)
Definition steady_read (t : Z) (path : string) (r : result error string) : Prop := r = le_read example_env path.
Definition empty_store : KeyStore := mkKeyStore "/etc/dkim" "/etc/dkim/map" "" 2 ∅ zero_time zero_time ∅.
(** The map is loaded; later another lookup has stored its key. *)
Definition mapped_store : KeyStore :=
  @maybe_reload_selector_map plain_unicode empty_store (100 * second) (Ok (50 * second)) (le_map_file example_env).
Definition filled_store : KeyStore :=
  store_cache_entry mapped_store (100 * second) [] [] (cache_key "s2" "example.org")
    (@file_entry toy_crypto (100 * second) (Ok "PEM")).

Example lookup_answers :
  (@lookup_answer toy_crypto mapped_store filled_store example_env "example.org",
   (@lookup_answer toy_crypto mapped_store empty_store example_env "example.org").1,
   @lookup_answer toy_crypto empty_store filled_store example_env "example.org") =
  ((Some ("PEM", "s2"), None), Some ("PEM", "s2"), (None, None)).
Proof. vm_compute. reflexivity. Qed.
