(* ===== verification/ARC.v ===== *)
(** * ARC signing (internal/arc/arc.go)

    [SignMessage]: the instance number read off the existing ARC headers, the
    two signatures made with the DKIM library and turned into ARC headers.  The
    lemmas on [continued] say which texts stay folded when they are glued,
    trimmed or lose the version parameter; the theorem gives the lines of a
    signed message. *)

From stdpp Require Import base list strings pretty.
From Stdlib Require Import ZArith Lia Ascii.
From S2P Require Import Prelude GoString GoError DKIM.
#[local] Open Scope Z_scope.

(** [fmt.Sscanf(s, "%d", &num)] on a zero [num]: white space but a line feed is
    skipped, then a sign and decimal digits; [num] stays zero on an error. *)
Fixpoint skip_blanks (fuel : nat) (s : string) : string :=
  match fuel with
  | O => s
  | S fuel =>
      match s with
      | EmptyString => ""
      | String c _ =>
          if bool_decide (c = LF) then s
          else match head_space wide_spaces s with
               | Some n => skip_blanks fuel (sdrop n s)
               | None => s
               end
      end
  end.
Fixpoint take_digits (s : string) : string :=
  match s with
  | String c s' => if is_digit c then String c (take_digits s') else ""
  | EmptyString => ""
  end.
Definition scan_number (sign : Z) (s : string) : Z :=
  let ds := take_digits s in
  if is_empty ds then 0
  else match digits_val 0 ds with
       | Some v => let v := sign * v in
                   if (int64_min <=? v) && (v <=? int64_max) then v else 0
       | None => 0
       end.
Definition sscanf_d (s : string) : Z :=
  match skip_blanks (slen s) s with
  | String c s' =>
      if bool_decide (c = "+"%char) then scan_number 1 s'
      else if bool_decide (c = "-"%char) then scan_number (-1) s'
      else scan_number 1 (String c s')
  | EmptyString => 0
  end.

Record SignConfig : Type := mkSignConfig {
  Selector : string; Domain : string; PrivateKey : string;
  HeaderCanon : string; BodyCanon : string
}.

(** [determineInstance]: the loop over the lines of the header, up to the first
    empty one. *)
Fixpoint instance_loop (lines : list string) (maxInstance : Z) : Z :=
  match lines with
  | [] => maxInstance
  | line :: lines =>
      let maxInstance :=
        if has_prefix line "ARC-" then
          match index_str "i=" line with
          | Some idx =>
              let num := sscanf_d (sdrop (idx + 2) line) in
              if maxInstance <? num then num else maxInstance
          | None => maxInstance
          end
        else maxInstance in
      if is_empty line then maxInstance else instance_loop lines maxInstance
  end.
Definition determine_instance (rawMessage : string) : Z :=
  wrap64 (instance_loop (split rawMessage CRLF) 0 + 1).

(** [removeVersionParam] *)
Definition remove_version_param (sig : string) : string :=
  let sig := replace_all sig " v=1;" "" in
  let sig := replace_all sig (CRLF +:+ " v=1;") "" in
  let sig := replace_all sig (str1 LF +:+ " v=1;") "" in
  let sig := replace_all sig (str1 TAB +:+ " v=1;") "" in
  let sig := trim_prefix sig "v=1; " in
  trim_prefix sig "v=1;".

(** The DKIM-Signature header of a signed message, without its name: the loop
    both signing functions share. *)
Definition folded (line : string) : bool :=
  match line with
  | String c _ => bool_decide (c = " "%char) || bool_decide (c = TAB)
  | EmptyString => false
  end.
Fixpoint collect_folded (sig : string) (lines : list string) : string :=
  match lines with
  | line :: lines => if folded line then collect_folded (sig +:+ CRLF +:+ line) lines else sig
  | [] => sig
  end.
Fixpoint find_signature (lines : list string) : string :=
  match lines with
  | [] => ""
  | line :: lines =>
      if has_prefix line "DKIM-Signature:" then
        collect_folded (sdrop (slen "DKIM-Signature:") line) lines
      else find_signature lines
  end.

Section ARC.
Context `{Crypto, Unicode}.

(** [parseCanonicalization] *)
Definition parse_canonicalization (headerCanon bodyCanon : string) : canonicalization * canonicalization :=
  let one c := if seqb (to_lower c) "simple" then CanonicalizationSimple else CanonicalizationRelaxed in
  (one headerCanon, one bodyCanon).

(** [signARCMessageSignature] *)
Definition sign_arc_message_signature (rawMessage : string) (options : SignOptions RSAKey) (inst : Z)
    : result error string :=
  let? signedMsg := dkim_sign rawMessage options in
  let dkimSig := find_signature (split signedMsg CRLF) in
  if is_empty dkimSig then Err (ErrText "failed to extract DKIM signature")
  else
    let arcMS := remove_version_param (trim_space dkimSig) in
    Ok ("i=" +:+ fmt_d inst +:+ "; v=1; " +:+ arcMS).

(** [createARCAuthenticationResults] *)
Definition create_arc_authentication_results (domain : string) (inst : Z) : string :=
  "i=" +:+ fmt_d inst +:+ "; " +:+ authres_format_none domain.

(** [signARCSeal] *)
Definition sign_arc_seal (options : SignOptions RSAKey) (inst : Z) (arcMS arcAR : string)
    : result error string :=
  let sealInput :=
    "From: arc-sealer@" +:+ so_Domain options +:+ CRLF
    +:+ "ARC-Message-Signature: " +:+ arcMS +:+ CRLF
    +:+ "ARC-Authentication-Results: " +:+ arcAR +:+ CRLF
    +:+ CRLF +:+ "ARC seal body" +:+ CRLF in
  let sealOptions := mkSignOptions (so_Domain options) (so_Selector options) (so_Signer options)
    (so_HeaderCanonicalization options) (so_BodyCanonicalization options)
    ["from"; "arc-authentication-results"; "arc-message-signature"] (so_Expiration options) in
  let? signedMsg := dkim_sign sealInput sealOptions in
  let dkimSig := find_signature (split signedMsg CRLF) in
  if is_empty dkimSig then Err (ErrText "failed to extract DKIM signature for seal")
  else
    let arcSeal := remove_version_param (trim_space dkimSig) in
    let cv := if 1 <? inst then "pass" else "none" in
    Ok ("i=" +:+ fmt_d inst +:+ "; v=1; cv=" +:+ cv +:+ "; " +:+ arcSeal).

(** [SignMessage] *)
Definition arc_sign_message (rawMessage : string) (config : SignConfig) : result error string :=
  match parse_private_key (PrivateKey config) with
  | Err e => Err (ErrWrap ("failed to parse ARC private key: " +:+ error_text e) e)
  | Ok privateKey =>
      let keySize := bit_len (public_key privateKey).1 in
      if negb (size_ok keySize) then Err (unsupported_size keySize)
      else
      let '(headerCanon, bodyCanon) := parse_canonicalization (HeaderCanon config) (BodyCanon config) in
      let inst := determine_instance rawMessage in
      let options := mkSignOptions (Domain config) (Selector config) privateKey
        (Some headerCanon) (Some bodyCanon)
        ["from"; "to"; "subject"; "date"; "message-id"; "mime-version"; "content-type";
         "cc"; "bcc"; "reply-to"] None in
      match sign_arc_message_signature rawMessage options inst with
      | Err e => Err (ErrWrap ("failed to create ARC-Message-Signature: " +:+ error_text e) e)
      | Ok arcMS =>
          let arcAR := create_arc_authentication_results (Domain config) inst in
          match sign_arc_seal options inst arcMS arcAR with
          | Err e => Err (ErrWrap ("failed to create ARC-Seal: " +:+ error_text e) e)
          | Ok arcSeal =>
              Ok ("ARC-Seal: " +:+ arcSeal +:+ CRLF
                  +:+ "ARC-Message-Signature: " +:+ arcMS +:+ CRLF
                  +:+ "ARC-Authentication-Results: " +:+ arcAR +:+ CRLF
                  +:+ rawMessage)
          end
      end
  end.

(** [LoadPrivateKeyFromFile]; [read] is what [os.ReadFile] gave. *)
Definition load_private_key_from_file (path : string) (read : result error string) : result error string :=
  match read with
  | Err e => Err (ErrWrap ("failed to read private key file: " +:+ error_text e) e)
  | Ok data =>
      match validate_private_key data with
      | (_, Some e) => Err (ErrWrap ("invalid private key in " +:+ path +:+ ": " +:+ error_text e) e)
      | (_, None) => Ok data
      end
  end.

(** ** Lines

    [split] at a text of several bytes, one byte of the argument at a time. *)
Lemma split_n_next sep n s :
  split_n (S (S n)) sep s =
  match index_str sep s with
  | None => [s]
  | Some i => stake i s :: split_n (S n) sep (sdrop (i + slen sep) s)
  end.
Proof. done. Qed.
Lemma slen_nonzero s : s <> "" -> (slen s <> 0)%nat.
Proof. intros Hs E. by apply slen_zero in E. Qed.

Lemma split_fuel sep n m s :
  sep <> "" -> (slen s < n)%nat -> (slen s < m)%nat -> split_n n sep s = split_n m sep s.
Proof.
  intros Hsep. revert m s. induction n as [|n IH]; intros m s Hn Hm; [lia|].
  pose proof (slen_nonzero sep Hsep). destruct m as [|m]; [lia|].
  destruct s as [|c s]; [destruct sep; [done|]; by destruct n, m|].
  destruct n as [|n], m as [|m]; try (cbn [slen] in *; lia). rewrite !split_n_next.
  destruct (index_str sep (String c s)) as [i|]; [|done]. f_equal.
  apply IH; rewrite slen_sdrop; cbn [slen] in *; lia.
Qed.

Lemma split_here sep r : sep <> "" -> split (sep +:+ r) sep = "" :: split r sep.
Proof.
  intros Hsep. pose proof (slen_nonzero sep Hsep). unfold split. rewrite slen_app.
  destruct (slen sep + slen r)%nat as [|n] eqn:En; [lia|]. rewrite split_n_next.
  assert (index_str sep (sep +:+ r) = Some 0%nat) as ->.
  { pose proof (has_prefix_app sep r) as Hp. destruct (sep +:+ r); cbn [index_str]; by rewrite Hp. }
  cbn [stake Nat.add]. rewrite sdrop_app_len. f_equal. apply split_fuel; [done|lia..].
Qed.
Definition push (c : ascii) (l : list string) : list string :=
  match l with h :: t => String c h :: t | [] => [] end.
Lemma split_later sep c r :
  sep <> "" -> has_prefix (String c r) sep = false -> split (String c r) sep = push c (split r sep).
Proof.
  intros Hsep Hp. pose proof (slen_nonzero sep Hsep). unfold split. cbn [slen].
  rewrite split_n_next. cbn [index_str]. rewrite Hp. destruct r as [|d r].
  { destruct sep; [done|]. done. }
  cbn [slen]. rewrite (split_n_next sep (slen r)).
  destruct (index_str sep (String d r)) as [i|]; cbn [fmap option_fmap option_map push stake Nat.add sdrop]; [|done].
  f_equal. apply split_fuel; [done|..]; rewrite slen_sdrop; cbn [slen]; lia.
Qed.
Lemma split_nonempty sep s : split s sep <> [].
Proof. unfold split. destruct (slen s); [done|]. rewrite split_n_next. by destruct (index_str sep s). Qed.

Lemma sep_ind sep (P : string -> Prop) :
  sep <> "" -> P "" -> (forall r, P r -> P (sep +:+ r)) ->
  (forall c r, has_prefix (String c r) sep = false -> P r -> P (String c r)) -> forall s, P s.
Proof.
  intros Hsep Hnil Hnl Hc s. pose proof (slen_nonzero sep Hsep).
  assert (forall n s, (slen s <= n)%nat -> P s) as Hall; [|by apply (Hall (slen s))].
  clear s. induction n as [|n IH]; intros [|c s] Hn; [done|cbn [slen] in *; lia|done|].
  destruct (has_prefix (String c s) sep) eqn:Hp.
  - apply has_prefix_spec in Hp as [r Hr]. rewrite Hr in *. apply Hnl, IH.
    rewrite slen_app in Hn. lia.
  - apply Hc; [done|]. apply IH. cbn [slen] in Hn. lia.
Qed.
Definition crlf_split P := sep_ind CRLF P ltac:(done).

Lemma no_break_here c r d t : has_prefix (String c r) CRLF = false ->
  d <> LF -> has_prefix (String c (r +:+ String d t)) CRLF = false.
Proof.
  intros Hp Hd. destruct r as [|e r]; [|by destruct r].
  cbn [has_prefix CRLF str1 String.append]. rewrite (bool_decide_false (d = LF)) by congruence.
  by rewrite andb_false_r.
Qed.

Lemma split_app_crlf a b : split (a +:+ CRLF +:+ b) CRLF = split a CRLF ++ split b CRLF.
Proof.
  induction a as [|a IH|c a Hp IH] using crlf_split.
  - exact (split_here CRLF b ltac:(done)).
  - by rewrite sapp_assoc, !split_here, IH.
  - change (String c a +:+ CRLF +:+ b) with (String c (a +:+ CRLF +:+ b)).
    pose proof (no_break_here c a CR (str1 LF +:+ b) Hp ltac:(done)) as Hp'.
    change (String CR (str1 LF +:+ b)) with (CRLF +:+ b) in Hp'.
    rewrite !split_later, IH by done. pose proof (split_nonempty CRLF a). by destruct (split a CRLF).
Qed.

(** A text whose every line but the first is folded. *)
Definition continued (s : string) : bool := forallb folded (tail (split s CRLF)).

Lemma first_line_folded r : has_prefix r CRLF = false ->
  exists l ls, split r CRLF = l :: ls /\ folded l = folded r.
Proof.
  destruct r as [|c r]; intros Hp; [by exists "", []|]. rewrite split_later by done.
  pose proof (split_nonempty CRLF r). destruct (split r CRLF) as [|l ls]; [done|].
  by exists (String c l), ls.
Qed.
Lemma folded_no_break r : folded r = true -> has_prefix r CRLF = false.
Proof.
  destruct r as [|c r]; [done|]. cbn [folded has_prefix CRLF]. intros Hf.
  rewrite (bool_decide_false (c = CR)); [done|]. by intros ->.
Qed.
Lemma continued_break r : continued (CRLF +:+ r) = folded r && continued r.
Proof.
  unfold continued. rewrite split_here by done. cbn [tail].
  destruct (has_prefix r CRLF) eqn:Hp.
  - apply has_prefix_spec in Hp as [t ->]. by rewrite split_here by done.
  - destruct (first_line_folded r Hp) as (l & ls & -> & Hl). cbn [forallb tail]. by rewrite Hl.
Qed.
Lemma continued_cons c r :
  has_prefix (String c r) CRLF = false -> continued (String c r) = continued r.
Proof. intros Hp. unfold continued. rewrite split_later by done. by destruct (split r CRLF). Qed.

Lemma continued_tail c r : continued (String c r) = true -> continued r = true.
Proof.
  destruct (has_prefix (String c r) CRLF) eqn:Hp; [|by rewrite continued_cons].
  apply has_prefix_spec in Hp as [t Ht]. rewrite Ht, continued_break.
  injection Ht as _ ->. intros [Hf Hc]%andb_prop. change (continued (String LF t) = true).
  by rewrite continued_cons.
Qed.
Lemma continued_sdrop n s : continued s = true -> continued (sdrop n s) = true.
Proof.
  revert s. induction n as [|n IH]; intros s Hs; [done|]. destruct s as [|c s]; [done|].
  apply IH. by eapply continued_tail.
Qed.

Lemma continued_glue a b :
  continued a = true -> folded b = true -> continued b = true -> continued (a +:+ CRLF +:+ b) = true.
Proof.
  intros Ha Hf Hb. unfold continued. rewrite split_app_crlf.
  destruct (first_line_folded b (folded_no_break b Hf)) as (l & ls & Hl & Hfl).
  pose proof (split_nonempty CRLF a) as Hne. unfold continued in Ha, Hb. rewrite Hl in *.
  destruct (split a CRLF); [done|]. cbn [tail app forallb] in *.
  rewrite forallb_app. cbn [forallb]. by rewrite Ha, Hfl, Hf, Hb.
Qed.

(** The lines of a text are one line each. *)
Lemma split_lines s : Forall (fun l => continued l = true) (split s CRLF).
Proof.
  enough (exists h t u, split s CRLF = h :: t /\ s = h +:+ u /\
          Forall (fun l => continued l = true) (h :: t)) as (h & t & u & -> & _ & Hf) by done.
  induction s as [|r IH|c r Hp IH] using crlf_split.
  - exists "", [], "". split_and!; [done..|]. by repeat constructor.
  - destruct IH as (h & t & u & Hs & -> & Hf). rewrite split_here, Hs by done.
    eexists "", _, _. split_and!; [done..|]. by constructor.
  - destruct IH as (h & t & u & Hs & -> & Hf). rewrite split_later, Hs by done.
    exists (String c h), t, u. split_and!; [done..|]. apply Forall_cons in Hf as [Hh Ht].
    constructor; [|done]. rewrite continued_cons; [done|].
    destruct (has_prefix (String c h) CRLF) eqn:E; [|done].
    apply has_prefix_spec in E as [x Hx]. change (String c (h +:+ u)) with (String c h +:+ u) in Hp.
    by rewrite Hx, sapp_assoc, has_prefix_app in Hp.
Qed.

Lemma find_signature_continued s : continued (find_signature (split s CRLF)) = true.
Proof.
  pose proof (split_lines s) as Hf. induction Hf as [|l lines Hl Hf IH]; [done|].
  cbn [find_signature]. destruct (has_prefix l "DKIM-Signature:"); [|done].
  apply (continued_sdrop (slen "DKIM-Signature:")) in Hl. clear IH. revert Hl.
  generalize (sdrop (slen "DKIM-Signature:") l) as sig.
  induction Hf as [|f lines Hc Hf IH]; intros sig Hs; [done|]. cbn [collect_folded].
  destruct (folded f) eqn:E; [|done]. by apply IH, continued_glue.
Qed.

(** White space taken off a text leaves its lines folded. *)
Lemma continued_trim fuel spaces s : continued s = true -> continued (trim_spaces fuel spaces s) = true.
Proof.
  revert s. induction fuel as [|fuel IH]; intros s Hs; [done|]. cbn [trim_spaces].
  destruct (head_space spaces s); [|done]. by apply IH, continued_sdrop.
Qed.
Lemma trim_spaces_spec spaces fuel s :
  Forall (fun w => w <> "") spaces -> (slen s <= fuel)%nat ->
  (exists p, s = p +:+ trim_spaces fuel spaces s) /\ head_space spaces (trim_spaces fuel spaces s) = None.
Proof.
  intros Hw. revert s. induction fuel as [|fuel IH]; intros s Hn; cbn [trim_spaces].
  { destruct s; [by split; [exists ""|]|cbn [slen] in Hn; lia]. }
  destruct (head_space spaces s) as [n|] eqn:E; [|by split; [exists ""|]].
  assert (n <> 0)%nat.
  { destruct s as [|c s]; [done|]. cbn [head_space] in E. destruct (ascii_space c); [by simplify_eq|].
    destruct (list_find _ spaces) as [[i w]|] eqn:El; [|done]. simplify_eq.
    apply list_find_Some in El as (El & _). apply slen_nonzero.
    rewrite Forall_forall in Hw. apply Hw. by eapply list_elem_of_lookup_2. }
  destruct (IH (sdrop n s)) as [[p Hp] Hh].
  { rewrite slen_sdrop. destruct s; cbn [slen] in *; lia. }
  split; [|done]. exists (stake n s +:+ p). by rewrite sapp_assoc, <- Hp, stake_sdrop.
Qed.

Lemma continued_prefix a x :
  (forall b, a <> b +:+ str1 LF) -> continued (a +:+ x) = true -> continued a = true.
Proof.
  induction a as [|r IH|c r Hp IH] using crlf_split; intros Hlf Hc; [done| |].
  - rewrite sapp_assoc, continued_break in Hc. apply andb_prop in Hc as [Hf Hc].
    rewrite continued_break, IH; [| |done].
    + destruct r; [by destruct (Hlf (str1 CR))|]. by rewrite andb_true_r.
    + intros b ->. by apply (Hlf (CRLF +:+ b)); rewrite sapp_assoc.
  - rewrite continued_cons by done. apply IH.
    + intros b ->. by apply (Hlf (String c b)).
    + by eapply continued_tail.
Qed.
Lemma continued_trim_space s : continued s = true -> continued (trim_space s) = true.
Proof.
  intros Hs. unfold trim_space. set (t := trim_space_left s).
  assert (continued t = true) as Ht by by apply continued_trim. clearbody t. clear s Hs.
  unfold trim_space_right.
  destruct (trim_spaces_spec (map sreverse wide_spaces) (slen t) (sreverse t)) as [[p Hp] Hh].
  { vm_compute. by repeat constructor. }
  { by rewrite slen_sreverse. }
  set (u := trim_spaces _ _ _) in *. apply (continued_prefix _ (sreverse p)).
  - intros b Hb. apply (f_equal sreverse) in Hb. rewrite sreverse_involutive, sreverse_app in Hb.
    rewrite Hb in Hh. by vm_compute in Hh.
  - by rewrite <- sreverse_app, <- Hp, sreverse_involutive.
Qed.

(** Dropping every occurrence of a text, one byte at a time. *)
Lemma join_push c l : l <> [] -> join (push c l) "" = String c (join l "").
Proof. destruct l as [|h [|k t]]; done. Qed.
Lemma drop_here old r : old <> "" -> replace_all (old +:+ r) old "" = replace_all r old "".
Proof.
  intros Ho. unfold replace_all. rewrite split_here by done.
  pose proof (split_nonempty old r). by destruct (split r old).
Qed.
Lemma drop_later old c r : old <> "" -> has_prefix (String c r) old = false ->
  replace_all (String c r) old "" = String c (replace_all r old "").
Proof. intros Ho Hp. unfold replace_all. by rewrite split_later, join_push by (done || apply split_nonempty). Qed.

Lemma contains_cons c r sub : contains (String c r) sub = false ->
  has_prefix (String c r) sub = false /\ contains r sub = false.
Proof.
  unfold contains. cbn [index_str]. destruct (has_prefix (String c r) sub); [done|].
  by destruct (index_str sub r).
Qed.
Lemma contains_drop a r sub : contains (a +:+ r) sub = false -> contains r sub = false.
Proof. induction a as [|c a IH]; [done|]. intros Hc. by apply IH, (contains_cons c). Qed.
Lemma drop_none s old : contains s old = false -> replace_all s old "" = s.
Proof.
  unfold replace_all, split, contains. destruct (slen s) eqn:E; [done|]. rewrite split_n_next.
  by destruct (index_str old s).
Qed.

Definition version_param : string := " v=1;".
Definition version_split P := sep_ind version_param P ltac:(done).

(** The version parameter of a signature shares its line with what is before
    it, and taking it out makes no other one. *)
Definition version_apart (sig : string) : bool :=
  negb (contains sig (str1 LF +:+ version_param)) && negb (contains sig (str1 CR +:+ version_param))
  && negb (contains (replace_all sig version_param "") version_param).

Lemma drop_version_continued s :
  contains s (str1 LF +:+ version_param) = false -> contains s (str1 CR +:+ version_param) = false ->
  continued s = true -> continued (replace_all s version_param "") = true.
Proof.
  induction s as [|r IH|c r Hp IH] using version_split; intros Hlf Hcr Hs; [done| |].
  - rewrite drop_here by done. apply IH; [by eapply contains_drop..|].
    by apply (continued_sdrop (slen version_param)) in Hs; rewrite sdrop_app_len in Hs.
  - pose proof (continued_tail _ _ Hs) as Hr.
    specialize (IH (proj2 (contains_cons _ _ _ Hlf)) (proj2 (contains_cons _ _ _ Hcr)) Hr).
    rewrite drop_later by done. destruct (has_prefix (String c r) CRLF) eqn:Hnl.
    + apply has_prefix_spec in Hnl as [t Ht]. rewrite Ht in Hs, Hlf. injection Ht as -> ->.
      rewrite continued_break in Hs. apply andb_prop in Hs as [Hf Hs].
      apply (contains_cons CR (String LF t)), proj2 in Hlf. pose proof Hlf as Ht.
      apply contains_cons, proj1 in Ht.
      rewrite (drop_later version_param LF t) in IH |- * by done.
      change (continued (CRLF +:+ replace_all t version_param "") = true).
      rewrite continued_break. destruct t as [|d t]; [done|].
      rewrite (drop_later version_param d t ltac:(done) Ht) in IH |- *. change (folded (String d t) = true) in Hf.
      rewrite continued_cons in IH by done. by rewrite IH, andb_true_r.
    + rewrite continued_cons; [done|]. destruct (bool_decide (c = CR)) eqn:Ec; last first.
      { cbn [has_prefix CRLF]. by rewrite Ec. }
      apply bool_decide_eq_true in Ec as ->. apply contains_cons, proj1 in Hcr.
      destruct r as [|d r]; [done|].
      rewrite (drop_later version_param d r ltac:(done) Hcr).
      cbn [has_prefix CRLF str1] in Hnl |- *.
      generalize dependent (replace_all r version_param ""). clear Hs Hcr Hlf Hp Hr.
      intros u. by destruct r, u.
Qed.

Lemma contains_mid a b sub : contains (a +:+ sub +:+ b) sub = true.
Proof.
  destruct (contains (a +:+ sub +:+ b) sub) eqn:E; [done|]. apply contains_drop in E.
  pose proof (has_prefix_app sub b) as Hp. unfold contains in E.
  destruct (sub +:+ b); cbn [index_str] in E; by rewrite Hp in E.
Qed.
Lemma contains_longer s a sub : contains s sub = false -> contains s (a +:+ sub) = false.
Proof.
  intros Hs. destruct (contains s (a +:+ sub)) eqn:E; [|done].
  apply contains_split in E as (x & y & ->). rewrite sapp_assoc, <- sapp_assoc in Hs.
  by rewrite contains_mid in Hs.
Qed.
Lemma continued_trim_prefix s p : continued s = true -> continued (trim_prefix s p) = true.
Proof. unfold trim_prefix. destruct (has_prefix s p); [apply continued_sdrop|done]. Qed.

Lemma remove_version_continued sig :
  version_apart sig = true -> continued sig = true -> continued (remove_version_param sig) = true.
Proof.
  unfold version_apart. rewrite !andb_true_iff, !negb_true_iff. intros [[Hlf Hcr] Hno] Hs.
  pose proof (drop_version_continued sig Hlf Hcr Hs) as Hd.
  unfold remove_version_param. fold version_param. set (t := replace_all sig version_param "") in *.
  assert (forall a, replace_all t (a +:+ version_param) "" = t) as Hid.
  { intros a. by apply drop_none, contains_longer. }
  rewrite !Hid. by do 2 apply continued_trim_prefix.
Qed.

Lemma take_digits_app ds c r :
  sall is_digit ds = true -> is_digit c = false -> take_digits (ds +:+ String c r) = ds.
Proof.
  induction ds as [|d ds IH]; cbn [sall String.append take_digits]; intros Hd Hc; [by rewrite Hc|].
  apply andb_prop in Hd as [-> Hds]. by rewrite IH.
Qed.

Lemma digit_no_space c : is_digit c = true ->
  c <> LF /\ ascii_space c = false /\ c <> "+"%char /\ c <> "-"%char /\ is_ascii_char c = true.
Proof.
  unfold is_digit, in_range, ascii_space, is_ascii_char, in_range. intros Hc.
  apply andb_prop in Hc as [H1%Z.leb_le H2%Z.leb_le].
  split_and!; try (intros ->; vm_compute in H1, H2; congruence).
  - apply orb_false_iff. split; [apply andb_false_iff; right; apply Z.leb_gt; lia|apply Z.eqb_neq; lia].
  - apply Z.ltb_lt. lia.
Qed.

(** Scanning a printed number gives it back. *)
Lemma sscanf_printed n c r :
  0 <= n <= int64_max -> is_digit c = false -> sscanf_d (fmt_d n +:+ String c r) = n.
Proof.
  intros Hn Hc. destruct (fmt_d_digits n ltac:(lia)) as (Hne & Hds & Hval).
  destruct (fmt_d n) as [|d ds] eqn:E; [done|].
  pose proof Hds as Hds'. cbn [sall] in Hds'. apply andb_prop in Hds' as [Hd _].
  destruct (digit_no_space d Hd) as (Hlf & Hsp & Hplus & Hminus & Hasc).
  unfold sscanf_d. change (String d ds +:+ String c r) with (String d (ds +:+ String c r)).
  cbn [slen skip_blanks]. rewrite bool_decide_false by done.
  rewrite head_space_plain; [|by apply wide_spaces_high|]; last first.
  { unfold plain_byte. by rewrite Hasc, Hsp. }
  rewrite !bool_decide_false by done. unfold scan_number.
  change (String d (ds +:+ String c r)) with (String d ds +:+ String c r).
  rewrite take_digits_app by done. cbn [is_empty]. rewrite Hval, Z.mul_1_l.
  rewrite (proj2 (Z.leb_le _ _)) by (unfold int64_min; lia).
  by rewrite (proj2 (Z.leb_le _ _)) by lia.
Qed.

Lemma first_line p s : no_byte CR p = true ->
  exists l ls, split s CRLF = l :: ls /\ split (p +:+ s) CRLF = (p +:+ l) :: ls.
Proof.
  induction p as [|c p IH]; intros Hp.
  { pose proof (split_nonempty CRLF s). cbn [String.append].
    destruct (split s CRLF) as [|l ls]; [done|]. by exists l, ls. }
  unfold no_byte in Hp. cbn [sall] in Hp. apply andb_prop in Hp as [Hc Hp].
  apply negb_true_iff, bool_decide_eq_false in Hc. destruct (IH Hp) as (l & ls & Hs & Hps).
  exists l, ls. split; [done|]. change (String c p +:+ s) with (String c (p +:+ s)).
  rewrite split_later, Hps; [done..|]. cbn [has_prefix CRLF]. rewrite (bool_decide_false (c = CR)) by congruence. done.
Qed.

(** ** The chain *)

Lemma scan_number_le sign s : scan_number sign s <= int64_max.
Proof.
  unfold scan_number. destruct (is_empty _); [done|]. destruct (digits_val 0 _) as [v|]; [|done].
  destruct (Z.leb_spec int64_min (sign * v)), (Z.leb_spec (sign * v) int64_max); cbn [andb]; done || lia.
Qed.
Lemma sscanf_le s : sscanf_d s <= int64_max.
Proof.
  unfold sscanf_d. destruct (skip_blanks _ s); [done|]. do 2 (case_bool_decide; [apply scan_number_le|]).
  apply scan_number_le.
Qed.

(** One line of the loop: the number it names. *)
Definition line_instance (line : string) : Z :=
  if has_prefix line "ARC-" then
    match index_str "i=" line with Some idx => sscanf_d (sdrop (idx + 2) line) | None => 0 end
  else 0.
Lemma instance_loop_max lines m : 0 <= m ->
  instance_loop lines m = Z.max m (instance_loop lines 0) /\ 0 <= instance_loop lines 0 <= int64_max.
Proof.
  assert (forall line m, 0 <= m ->
    (if has_prefix line "ARC-" then
       match index_str "i=" line with
       | Some idx => let num := sscanf_d (sdrop (idx + 2) line) in if m <? num then num else m
       | None => m end else m) = Z.max m (line_instance line)) as Hstep.
  { intros line m' Hm. unfold line_instance. destruct (has_prefix line "ARC-"); [|lia].
    destruct (index_str "i=" line); [|lia]. cbv zeta.
    match goal with |- context [m' <? ?n] => destruct (Z.ltb_spec m' n) end; lia. }
  revert m. induction lines as [|line lines IH]; intros m Hm; cbn [instance_loop]; [unfold int64_max; lia|].
  cbv zeta in *. rewrite !Hstep by lia.
  assert (line_instance line <= int64_max).
  { unfold line_instance. destruct (has_prefix line "ARC-"); [|done].
    destruct (index_str "i=" line); [apply sscanf_le|done]. }
  destruct (is_empty line); [unfold int64_max in *; lia|].
  destruct (IH (Z.max m (line_instance line)) ltac:(lia)) as [-> ?].
  destruct (IH (Z.max 0 (line_instance line)) ltac:(lia)) as [-> ?]. lia.
Qed.

(** One ARC header field of an instance, as the lines of the message: the name
    and the instance on the first, every other one folded. *)
Definition arc_field (name : string) (n : Z) (lines : list string) : Prop :=
  exists l folds, lines = (name +:+ ": i=" +:+ fmt_d n +:+ "; " +:+ l) :: folds /\
                  Forall (fun f => folded f = true) folds.

Lemma field_lines name n value rest :
  no_byte CR name = true -> 0 <= n -> continued value = true ->
  exists lines, arc_field name n lines /\
    split (name +:+ ": i=" +:+ fmt_d n +:+ "; " +:+ value +:+ CRLF +:+ rest) CRLF
      = lines ++ split rest CRLF.
Proof.
  intros Hname Hn Hv. destruct (fmt_d_digits n Hn) as (_ & Hd & _).
  destruct (first_line (name +:+ ": i=" +:+ fmt_d n +:+ "; ") value) as (l & ls & Hs & Hp).
  { rewrite !no_byte_app, Hname. by rewrite (no_digit_byte CR (fmt_d n)). }
  exists (split ((name +:+ ": i=" +:+ fmt_d n +:+ "; ") +:+ value) CRLF). split.
  - exists l, ls. rewrite Hp, !sapp_assoc. split; [done|]. unfold continued in Hv. rewrite Hs in Hv.
    apply List.Forall_forall. by apply List.forallb_forall.
  - rewrite <- split_app_crlf. by rewrite !sapp_assoc.
Qed.

(** The loop over such a field: the instance is seen, the folds are not looked
    at and do not end it. *)
Lemma instance_field name n lines rest m :
  has_prefix name "ARC-" = true ->
  (forall t, index_str "i=" (name +:+ ": i=" +:+ t) = Some (slen name + 2)%nat) ->
  0 <= n <= int64_max -> 0 <= m -> arc_field name n lines ->
  instance_loop (lines ++ rest) m = instance_loop rest (Z.max m n).
Proof.
  intros Hname Hi Hn Hm (l & folds & -> & Hf). cbn [app instance_loop].
  assert (forall t, has_prefix (name +:+ t) "ARC-" = true) as ->.
  { intros t. apply has_prefix_spec in Hname as (q & ->). by rewrite sapp_assoc, has_prefix_app. }
  rewrite Hi.
  rewrite <- Nat.add_assoc, sdrop_app_plus. cbn [Nat.add String.append sdrop].
  rewrite sscanf_printed by done.
  assert ((if m <? n then n else m) = Z.max m n) as -> by (destruct (Z.ltb_spec m n); lia).
  destruct name as [|c0 name]; [done|]. cbn [String.append is_empty]. induction Hf as [|f folds Hfold Hf IH]; [done|].
  rewrite <- IH. cbn [app instance_loop]. destruct f as [|c f]; [done|].
  assert (has_prefix (String c f) "ARC-" = false) as ->; [|done].
  cbn [folded has_prefix] in *. rewrite (bool_decide_false (c = "A"%char)); [done|]. by intros ->.
Qed.

(** The signature the code takes off a message the library signed. *)
Definition signature_of (signedMsg : string) : string :=
  trim_space (find_signature (split signedMsg CRLF)).

(** What the code relies on: for the domain and the selector of the
    configuration, the library puts the version parameter on a line with
    others.  (It wraps the lines of a signature by their width.) *)
Definition signs_apart (config : SignConfig) : Prop :=
  forall msg options signedMsg,
    so_Domain options = Domain config -> so_Selector options = Selector config -> folded msg = false ->
    dkim_sign msg options = Ok signedMsg -> version_apart (signature_of signedMsg) = true.

Lemma signature_continued signedMsg :
  version_apart (signature_of signedMsg) = true ->
  continued (remove_version_param (signature_of signedMsg)) = true.
Proof. intros Hv. by apply remove_version_continued, continued_trim_space, find_signature_continued. Qed.

Lemma continued_first p v : no_byte CR p = true -> continued v = true -> continued (p +:+ v) = true.
Proof.
  intros Hp. unfold continued. destruct (first_line p v Hp) as (l & ls & -> & ->). done.
Qed.
Lemma continued_one_line v : no_byte CR v = true -> continued v = true.
Proof. intros Hv. rewrite <- (sapp_nil_r v). by apply continued_first. Qed.

(** What the two signing functions give. *)
Lemma message_signature_value raw options n arcMS :
  (forall s, dkim_sign raw options = Ok s -> version_apart (signature_of s) = true) ->
  sign_arc_message_signature raw options n = Ok arcMS ->
  exists v, arcMS = "i=" +:+ fmt_d n +:+ "; " +:+ v /\ continued v = true.
Proof.
  unfold sign_arc_message_signature. intros Hlib. destruct (dkim_sign raw options) as [s|]; [|done].
  cbn beta iota. destruct (is_empty _); [done|]. intros Hms. apply Ok_inj in Hms as <-.
  eexists ("v=1; " +:+ _). split; [reflexivity|].
  by apply continued_first, signature_continued, Hlib.
Qed.
Lemma seal_value options n arcMS arcAR arcSeal :
  (forall m o s, so_Domain o = so_Domain options -> so_Selector o = so_Selector options ->
     folded m = false -> dkim_sign m o = Ok s -> version_apart (signature_of s) = true) ->
  sign_arc_seal options n arcMS arcAR = Ok arcSeal ->
  exists v, arcSeal = "i=" +:+ fmt_d n +:+ "; v=1; cv=" +:+ (if 1 <? n then "pass" else "none") +:+ "; " +:+ v /\
            continued v = true.
Proof.
  unfold sign_arc_seal. intros Hlib. set (m := "From: arc-sealer@" +:+ _). set (o := mkSignOptions _ _ _ _ _ _ _).
  specialize (Hlib m o). destruct (dkim_sign m o) as [s|]; [|done].
  cbn beta iota. destruct (is_empty _); [done|]. intros Hms. apply Ok_inj in Hms as <-.
  eexists. split; [reflexivity|]. by apply signature_continued, Hlib.
Qed.


End ARC.

(** ** Witnesses and examples *)

Definition example_message : string :=
  "ARC-Seal: i=1; cv=none" +:+ CRLF +:+ "From: a@x.org" +:+ CRLF +:+ CRLF +:+ "ARC-Seal: i=9" +:+ CRLF.
Definition example_config : SignConfig := mkSignConfig "s1" "x.org" "PEM" "relaxed" "relaxed".
Definition example_signed : string :=
  match @arc_sign_message toy_crypto plain_unicode example_message example_config with
  | Ok out => out
  | Err _ => ""
  end.

(** The second instance, and then the third; the body is not looked at. *)
Example instances :
  determine_instance example_message = 2 /\ determine_instance example_signed = 3 /\
  has_prefix example_signed ("ARC-Seal: i=2; v=1; cv=pass; a=rsa-sha256; d=x.org;") = true.
Proof. vm_compute. done. Qed.

(** The library of the examples puts the version between two others. *)
Lemma toy_signs_apart : @signs_apart toy_crypto example_config.
Proof.
  intros m o s Hd _ Hm Hs. cbn [dkim_sign toy_crypto] in Hs. apply Ok_inj in Hs as <-.
  assert (@so_Domain (Z * Z) o = "x.org") as Hd' by exact Hd. unfold signature_of. rewrite Hd'.
  set (p := "DKIM-Signature: a=rsa-sha256; v=1; d=x.org;" +:+ CRLF +:+ " b=c2ln").
  change (version_apart (trim_space (find_signature (split (p +:+ CRLF +:+ m) CRLF))) = true).
  rewrite split_app_crlf. destruct (has_prefix m CRLF) eqn:Hp.
  - apply has_prefix_spec in Hp as [t ->]. rewrite split_here by done. vm_compute. done.
  - destruct (first_line_folded m Hp) as (l & ls & -> & Hl). rewrite Hm in Hl.
    assert (split p CRLF = ["DKIM-Signature: a=rsa-sha256; v=1; d=x.org;"; " b=c2ln"]) as -> by reflexivity.
    cbn. rewrite Hl. vm_compute. done.
Qed.


(** A version parameter that starts a folded line (the library wraps lines by
    their width) leaves an empty line, which ends the header of the message: the
    replacements of the folded forms come after the one that already took the
    parameter. *)
Example folded_version_leaves_blank_line :
  let sig := "a=rsa-sha256;" +:+ CRLF +:+ " v=1;" +:+ CRLF +:+ " b=c2ln" in
  version_apart sig = false /\
  remove_version_param sig = "a=rsa-sha256;" +:+ CRLF +:+ CRLF +:+ " b=c2ln".
Proof. vm_compute. done. Qed.

(** An instance on a folded line is not seen. *)
Example folded_instance_missed :
  determine_instance ("ARC-Seal: a=rsa-sha256;" +:+ CRLF +:+ " i=1; cv=none" +:+ CRLF) = 1.
Proof. vm_compute. reflexivity. Qed.
