(* ===== verification/Delivery.v ===== *)
(** * Delivery results (internal/delivery/delivery.go)

    [DeliveryResult], the mapping of errors and LMTP codes to statuses, the
    choice of the target address, the timeouts, and the small helpers of the
    delivery engine; Deliverer.v composes them. *)

From stdpp Require Import base list strings pretty.
From Stdlib Require Import ZArith Lia Ascii.
From S2P Require Import Prelude GoString GoFloat GoError NetIP Config ErrorClassifier MIMEHeader.
#[local] Open Scope Z_scope.

(** ** Data *)

Record DeliveryResult : Type := mkResult {
  TraceID : string;
  Status : string;
  dr_SMTPCode : Z;
  SMTPMessage : string;
  MXHost : string;
  SourceIP : string;
  AttemptDurationMs : Z;
  dr_Error : string;
  classifiedErr : option DeliveryError
}.

(** [DeliveryResult{TraceID, Status, MXHost, SourceIP, Error}] *)
Definition failure (traceID status mxHost sourceIP err : string) : DeliveryResult :=
  mkResult traceID status 0 "" mxHost sourceIP 0 err None.
Definition empty_result : DeliveryResult := failure "" "" "" "" "".
Definition with_duration (r : DeliveryResult) (ms : Z) : DeliveryResult :=
  mkResult (TraceID r) (Status r) (dr_SMTPCode r) (SMTPMessage r) (MXHost r) (SourceIP r) ms
    (dr_Error r) (classifiedErr r).

(** [isFinalResult] *)
Definition is_final_result (status : string) : bool :=
  existsb (seqb status) ["delivered"; "hard_bounce"; "temp_fail"; "unknown"].

(** [isBindError], on a non-nil error *)
Definition is_bind_error (err : error) : bool :=
  let s := error_text err in
  contains s "bind" || contains s "cannot assign requested address" || contains s "EADDRNOTAVAIL".

(** [isTimeoutError], [lmtpStatus] *)
Definition is_timeout_error (err : error) : bool := net_timeout err.
Definition lmtp_status (ctxErr : option error) (err : error) : string :=
  if is_timeout_error err || match ctxErr with Some _ => true | None => false end
  then "timeout" else "error".

(** [splitEmail] *)
Definition split_email (email : string) : string * string :=
  match last_index_byte "@" email with
  | None => ("", "")
  | Some i => (stake i email, sdrop (S i) email)
  end.

(** [stripAngleBrackets] *)
Definition strip_angle_brackets (addr : string) : string :=
  if (2 <=? slen addr)%nat && bool_decide (snth addr 0 = Some "<"%char)
     && bool_decide (snth addr (slen addr - 1) = Some ">"%char)
  then stake (slen addr - 2) (sdrop 1 addr) else addr.

(** [needsUTF8Address] *)
Definition needs_utf8_address (email : string) : bool :=
  existsb (fun r => 127 <? r) (decode_runes email).

(** [extractHeaders] *)
Definition extract_headers (msg : string) : string :=
  let e := match index_str (CRLF +:+ CRLF) msg with
           | Some i => i
           | None => match index_str (str1 LF +:+ str1 LF) msg with Some i => i | None => slen msg end
           end in
  stake (if (2048 <? e)%nat then 2048%nat else e) msg.

Definition minSMTPTimeout : Z := 5 * second.

(** [dataTerminationTimeout]; [remaining] is [time.Until] of the context's
    deadline, when it has one. *)
Definition data_termination_timeout (remaining : option Z) (cfg : OutboundConfig) (fallback : Z) : Z :=
  let timeout := if 0 <? out_DataTerminationTimeoutSeconds cfg
                 then seconds (out_DataTerminationTimeoutSeconds cfg) else fallback in
  match remaining with
  | Some r => Z.min timeout (Z.max r minSMTPTimeout)
  | None => timeout
  end.

Section WithUnicode.
Context `{Unicode}.

(** [isAutoReply] *)
Definition is_auto_reply (msg : string) : bool :=
  let hdr := read_mime_header msg in
  if has_prefix (to_lower (trim_space (header_get hdr "Auto-Submitted"))) "auto-replied" then true
  else equal_fold (trim_space (header_get hdr "X-Auto-Response-Suppress")) "all".

(** [mapSMTPError] *)
Definition map_smtp_error (traceID : string) (err : error) (mxHost sourceIP : string) : DeliveryResult :=
  let '(smtpCode, smtpMessage) := match as_smtp err with
                                  | Some (c, m) => (c, replace_all m (str1 LF) " ")
                                  | None => (0, "")
                                  end in
  let res status text cls := mkResult traceID status smtpCode smtpMessage mxHost sourceIP 0 text cls in
  if (smtpCode =? 0) && as_indeterminate err then
    res "unknown" ("Delivery outcome unknown (message fully sent, no acknowledgement): "
                     +:+ error_text err) None
  else
  match classify_error smtpCode smtpMessage sourceIP (Some err) with
  | None => res "error" ("Inconsistent state: error with success SMTP code " +:+ fmt_d smtpCode
                           +:+ ": " +:+ error_text err) None
  | Some classified =>
      let status :=
        if 0 <? smtpCode then (if 500 <=? smtpCode then "hard_bounce" else "temp_fail")
        else
          let s := match Category classified with
                   | ErrorPermanent => "hard_bounce"
                   | ErrorTemporary | ErrorGreylist | ErrorThrottled => "temp_fail"
                   | ErrorNetwork => "timeout"
                   | ErrorReputation => "temp_fail"
                   | ErrorOther _ => "error"
                   end in
          if is_bind_error err then "error" else s in
      res status (Message classified) (Some classified)
  end.

(** [classifyLMTPResult] *)
Definition classify_lmtp_result (traceID mxHost sourceIP : string) (code : Z) (msg : string)
    : DeliveryResult :=
  let res status text := mkResult traceID status code msg mxHost sourceIP 0 text None in
  if is_2xx code then res "delivered" ""
  else if is_4xx code then res "temp_fail" ""
  else if is_5xx code then res "hard_bounce" ""
  else res "error" ("unexpected LMTP code: " +:+ fmt_d code).

(** ** The target of a connection ([dialAndHello], before the dial) *)

Definition is_v6 (ip : IP) : bool := match to4 ip with Some _ => false | None => true end.

(** The loop over the addresses of the MX: the first of the wanted version,
    and the first of the other one. *)
Fixpoint pick_target (wantIPv6 : bool) (mxIPs : list string) (fallbackIP : string) : string * string :=
  match mxIPs with
  | [] => ("", fallbackIP)
  | ip :: rest =>
      match parse_ip ip with
      | None => pick_target wantIPv6 rest fallbackIP
      | Some p =>
          if Bool.eqb wantIPv6 (is_v6 p) then (ip, fallbackIP)
          else pick_target wantIPv6 rest (if is_empty fallbackIP then ip else fallbackIP)
      end
  end.

Definition want_ipv6 (sourceIP : string) (preferIPv6 : bool) : bool :=
  if is_empty sourceIP then preferIPv6
  else match parse_ip sourceIP with Some p => is_v6 p | None => false end.

Definition select_target (mxIPs : list string) (sourceIP : string) (preferIPv6 : bool) : string :=
  let '(target, fallback) := pick_target (want_ipv6 sourceIP preferIPv6) mxIPs "" in
  if is_empty target && is_empty sourceIP && negb (is_empty fallback) then fallback else target.

(** [fixedDestination] *)
Definition fixed_destination (cfg : OutboundConfig) (protocol : string) : string :=
  if seqb protocol ProtocolLMTP then out_DefaultLMTPDestination cfg
  else out_DefaultSMTPDestination cfg.

Definition invalid_destination (protocol dest : string) (e : error) : string :=
  "Invalid " +:+ protocol +:+ " destination " +:+ quote dest +:+ ": " +:+ error_text e.

(** The target port. *)
Definition target_port (cfg : OutboundConfig) (protocol : string) : result error string :=
  let port := if seqb protocol ProtocolLMTP then fmt_d (out_LMTPPort cfg)
              else fmt_d (out_SMTPPort cfg) in
  let dest := fixed_destination cfg protocol in
  if is_empty dest then Ok port
  else let? hp := split_host_port dest in Ok hp.2.

(** The connection timeout, and the phase timeouts (banner, handshake,
    delivery), for [remaining] time to the deadline; [None]: it has passed. *)
Definition connection_timeout (cfg : OutboundConfig) (remaining : option Z) : Z :=
  let t := seconds (out_ConnectionTimeoutSeconds cfg) in
  match remaining with Some r => if r <? t then r else t | None => t end.

Definition phase_timeouts (cfg : OutboundConfig) (remaining : option Z) : option (Z * Z * Z) :=
  let b := seconds (out_BannerTimeoutSeconds cfg) in
  let h := seconds (out_HandshakeTimeoutSeconds cfg) in
  let s := seconds (out_SMTPTimeoutSeconds cfg) in
  match remaining with
  | None => Some (b, h, s)
  | Some r =>
      if r <=? 0 then None
      else
      let total := wrap64 (wrap64 (b + h) + s) in
      if r <? total then
        let scale := fdiv (float_of_int r) (float_of_int total) in
        let scaled d := int_of_float (fmul (float_of_int d) scale) in
        Some (scaled b, scaled h, scaled s)
      else Some (b, h, s)
  end.

(** ** Lemmas *)

Lemma final_statuses s :
  is_final_result s = true <-> s = "delivered" \/ s = "hard_bounce" \/ s = "temp_fail" \/ s = "unknown".
Proof.
  unfold is_final_result. rewrite existsb_exists. split.
  - intros (x & Hx & ->%seqb_true). simpl in Hx. intuition.
  - intros [->|[->|[->| ->]]]; eexists; (split; [|apply seqb_refl]); simpl; auto.
Qed.

Lemma pick_target_spec want mxIPs fb :
  let '(t, f) := pick_target want mxIPs fb in
  (t <> "" -> In t mxIPs /\ exists p, parse_ip t = Some p /\ is_v6 p = want) /\
  (t = "" -> forall ip p, In ip mxIPs -> ip <> "" -> parse_ip ip = Some p -> is_v6 p = negb want) /\
  (f = fb \/ In f mxIPs).
Proof.
  revert fb. induction mxIPs as [|ip rest IH]; intros fb; cbn [pick_target].
  { split; [done|split; [intros _ ? ? []|by left]]. }
  destruct (parse_ip ip) as [p|] eqn:Hp.
  - destruct (Bool.eqb want (is_v6 p)) eqn:He.
    + apply eqb_prop in He. split; [|split; [|by left]].
      * intros _. split; [by left|]. by exists p.
      * intros -> ip' p' _ Hne Hp'. vm_compute in Hp. done.
    + specialize (IH (if is_empty fb then ip else fb)).
      destruct (pick_target want rest _) as [t f]. destruct IH as (H1 & H2 & H3).
      split; [|split].
      * intros [? ?]%H1. split; [by right|done].
      * intros Ht ip' p' [<-|Hin] Hne Hp'; [|by eapply H2].
        rewrite Hp in Hp'. injection Hp' as <-.
        destruct want, (is_v6 p); done.
      * destruct H3 as [->|?]; [|by right; right]. destruct (is_empty fb); [by right; left|by left].
  - specialize (IH fb). destruct (pick_target want rest fb) as [t f]. destruct IH as (H1 & H2 & H3).
    split; [|split].
    + intros [? ?]%H1. split; [by right|done].
    + intros Ht ip' p' [<-|Hin] Hne Hp'; [congruence|by eapply H2].
    + destruct H3; [by left|by right; right].
Qed.

(** The statuses [mapSMTPError] can give. *)
Lemma map_smtp_error_cases traceID err mxHost sourceIP :
  let r := map_smtp_error traceID err mxHost sourceIP in
  match as_smtp err with
  | Some (code, _) =>
      if code =? 0 then Status r = if as_indeterminate err then "unknown"
                                   else if is_bind_error err then "error" else "timeout"
      else if is_2xx code then Status r = "error"
      else if 500 <=? code then Status r = "hard_bounce"
      else if 0 <? code then Status r = "temp_fail"
      else Status r = "error" \/ Status r = "timeout" \/ Status r = "temp_fail"
  | None => Status r = if as_indeterminate err then "unknown"
                       else if is_bind_error err then "error" else "timeout"
  end.
Proof.
  cbv zeta. unfold map_smtp_error.
  assert (Hnet : forall m c, c = 0 ->
    Status (if (c =? 0) && as_indeterminate err then
              mkResult traceID "unknown" c m mxHost sourceIP 0
                ("Delivery outcome unknown (message fully sent, no acknowledgement): "
                     +:+ error_text err) None
            else match classify_error c m sourceIP (Some err) with
              | None => mkResult traceID "error" c m mxHost sourceIP 0
                  ("Inconsistent state: error with success SMTP code " +:+ fmt_d c
                           +:+ ": " +:+ error_text err) None
              | Some cl => mkResult traceID
                  (if 0 <? c then (if 500 <=? c then "hard_bounce" else "temp_fail")
                   else if is_bind_error err then "error" else
                     match Category cl with
                     | ErrorPermanent => "hard_bounce"
                     | ErrorTemporary | ErrorGreylist | ErrorThrottled => "temp_fail"
                     | ErrorNetwork => "timeout"
                     | ErrorReputation => "temp_fail"
                     | ErrorOther _ => "error"
                     end) c m mxHost sourceIP 0 (Message cl) (Some cl)
              end) = if as_indeterminate err then "unknown"
                     else if is_bind_error err then "error" else "timeout").
  { intros m c ->. cbn [Z.eqb andb]. destruct (as_indeterminate err); [done|].
    unfold classify_error. cbn [Z.eqb Z.ltb Z.compare].
    rewrite (proj1 (classify_network_category err)). by destruct (is_bind_error err). }
  destruct (as_smtp err) as [[code m]|]; [|exact (Hnet "" 0 eq_refl)].
  destruct (Z.eqb_spec code 0) as [->|Hne]; [exact (Hnet _ 0 eq_refl)|]. cbn [andb].
  unfold classify_error. rewrite (proj2 (Z.eqb_neq code 0) Hne).
  pose proof (classify_smtp_code_cases code (replace_all m (str1 LF) " ") sourceIP) as Hc.
  destruct (classify_smtp_code code _ sourceIP) as [d|]; [|by rewrite Hc].
  destruct Hc as (H2 & Hcode & _ & Hcat). rewrite H2. cbn [Status].
  destruct (Z.leb_spec 500 code).
  { destruct (Z.ltb_spec 0 code); [done|lia]. }
  destruct (Z.ltb_spec 0 code); [done|]. destruct (is_bind_error err); [by left|].
  assert (is_4xx code = false) as H4.
  { unfold is_4xx. destruct (Z.leb_spec 400 code); [lia|done]. }
  assert (is_5xx code = false) as H5.
  { unfold is_5xx. destruct (Z.leb_spec 500 code); [lia|done]. }
  destruct (Category d); rewrite ?H4, ?H5 in Hcat; intuition discriminate.
Qed.

(** ** Properties *)

(** An error is only reported as a final failure of the message when the
    server said so: "hard_bounce" needs a reply code of at least 500,
    "temp_fail" a code (below 500), "unknown" an error after the whole message
    was sent without any code, and an error is never "delivered". *)
Theorem status_is_justified traceID err mxHost sourceIP :
  let r := map_smtp_error traceID err mxHost sourceIP in
  let code := match as_smtp err with Some (c, _) => c | None => 0 end in
  0 <= code ->
  (Status r = "hard_bounce" -> 500 <= code) /\
  (Status r = "temp_fail" -> 0 < code < 500 /\ is_2xx code = false) /\
  (Status r = "unknown" <-> code = 0 /\ as_indeterminate err = true) /\
  Status r <> "delivered".
Proof.
  pose proof (map_smtp_error_cases traceID err mxHost sourceIP) as Hc. cbv zeta in *.
  set (r := map_smtp_error traceID err mxHost sourceIP) in *. clearbody r.
  assert (Hnet : Status r = (if as_indeterminate err then "unknown"
                             else if is_bind_error err then "error" else "timeout") ->
    (Status r = "hard_bounce" -> 500 <= 0) /\ (Status r = "temp_fail" -> 0 < 0 < 500 /\ is_2xx 0 = false) /\
    (Status r = "unknown" <-> 0 = 0 /\ as_indeterminate err = true) /\ Status r <> "delivered").
  { intros ->. destruct (as_indeterminate err), (is_bind_error err); split_and!; try done; by intuition. }
  destruct (as_smtp err) as [[code m]|]; [|by auto].
  destruct (Z.eqb_spec code 0) as [->|Hne]; [by auto|]. intros Hpos.
  destruct (is_2xx code) eqn:H2; [rewrite Hc; split_and!; try done; by intuition|].
  destruct (Z.leb_spec 500 code); [rewrite Hc; split_and!; try done; by intuition|].
  destruct (Z.ltb_spec 0 code); [|lia].
  rewrite Hc. split_and!; try done; intuition; done.
Qed.

(** A bound source address is never paired with a target of the other IP
    version; without one, any parseable address of the MX is used before
    giving up, and the preferred version first. *)
Theorem target_matches_source mxIPs sourceIP preferIPv6 :
  let t := select_target mxIPs sourceIP preferIPv6 in
  let want := want_ipv6 sourceIP preferIPv6 in
  (sourceIP <> "" -> t <> "" ->
     In t mxIPs /\ exists p, parse_ip t = Some p /\ is_v6 p = want) /\
  (sourceIP = "" ->
     (exists ip p, In ip mxIPs /\ ip <> "" /\ parse_ip ip = Some p /\ is_v6 p = want) ->
     exists p, parse_ip t = Some p /\ is_v6 p = want) /\
  (t <> "" -> In t mxIPs).
Proof.
  cbv zeta. unfold select_target. set (want := want_ipv6 sourceIP preferIPv6).
  pose proof (pick_target_spec want mxIPs "") as Hp.
  destruct (pick_target want mxIPs "") as [t f]. destruct Hp as (H1 & H2 & H3).
  split; [|split].
  - intros Hs. rewrite (proj2 (is_empty_false sourceIP) Hs), andb_false_r. cbn [andb]. exact H1.
  - intros -> (ip & p & Hin & Hne & Hip & Hv). destruct t as [|c t]; [|apply H1; done].
    specialize (H2 eq_refl ip p Hin Hne Hip). destruct want, (is_v6 p); done.
  - destruct (is_empty t && is_empty sourceIP && negb (is_empty f)) eqn:E.
    + intros Hf. destruct H3 as [->|?]; done.
    + intros Ht. by apply H1.
Qed.

End WithUnicode.

(** The wait for the final reply is never cut below five seconds by the
    deadline, never above the configured time, and within the deadline
    whenever more than five seconds are left. *)
Theorem data_termination_bounds remaining cfg fallback :
  0 < out_DataTerminationTimeoutSeconds cfg <= 9223372036 ->
  let t := data_termination_timeout remaining cfg fallback in
  let configured := out_DataTerminationTimeoutSeconds cfg * second in
  t <= configured /\
  match remaining with
  | None => t = configured
  | Some r => Z.min configured minSMTPTimeout <= t /\ (minSMTPTimeout <= r -> t = Z.min configured r)
  end.
Proof.
  intros Hc. cbv zeta. unfold data_termination_timeout.
  destruct (Z.ltb_spec 0 (out_DataTerminationTimeoutSeconds cfg)); [|lia].
  rewrite seconds_small by lia. destruct remaining as [r|]; [|split; lia].
  split; [lia|]. split; [lia|]. intros. f_equal. lia.
Qed.

(** ** Witnesses and examples *)

Definition reply_550 : error := ErrIndeterminate (ErrSMTP 550 "5.1.1 no such user" "SMTP error 550").

Lemma status_is_justified_witness :
  (Status (@map_smtp_error plain_unicode "t" reply_550 "mx" "") = "hard_bounce" -> 500 <= 550) /\
  (Status (@map_smtp_error plain_unicode "t" reply_550 "mx" "") = "temp_fail" ->
     0 < 550 < 500 /\ is_2xx 550 = false) /\
  (Status (@map_smtp_error plain_unicode "t" reply_550 "mx" "") = "unknown" <->
     550 = 0 /\ as_indeterminate reply_550 = true) /\
  Status (@map_smtp_error plain_unicode "t" reply_550 "mx" "") <> "delivered".
Proof. apply (@status_is_justified plain_unicode "t" reply_550 "mx" ""). simpl. lia. Defined.

Lemma data_termination_bounds_witness :
  data_termination_timeout (Some (20 * second)) (Outbound default_config) 0 <= 600 * second /\
  Z.min (600 * second) minSMTPTimeout <=
    data_termination_timeout (Some (20 * second)) (Outbound default_config) 0 /\
  (minSMTPTimeout <= 20 * second ->
   data_termination_timeout (Some (20 * second)) (Outbound default_config) 0 =
   Z.min (600 * second) (20 * second)).
Proof.
  apply (data_termination_bounds (Some (20 * second)) (Outbound default_config) 0). split; [reflexivity|].
  vm_compute. discriminate.
Defined.

(** A reply to the end of the data that is positive but not 250 is an error of
    the client library; it is reported as "error", which is not final. *)
Example positive_reply_not_250 :
  let r := @map_smtp_error plain_unicode "t"
             (ErrIndeterminate (ErrSMTP 252 "accepted" "SMTP error 252: accepted")) "mx" "" in
  Status r = "error" /\ is_final_result (Status r) = false.
Proof. vm_compute. done. Qed.
