(* ===== verification/Address.v ===== *)
(** * Envelope addresses at the API (internal/handler/handler_new.go)

    [validateEmailAddress]: which envelope addresses a request may carry.  The
    main theorem describes the accepted addresses without the order of the
    code's checks; another says what the engine makes of an accepted
    recipient. *)

From stdpp Require Import base list strings.
From Stdlib Require Import ZArith Lia Ascii.
From S2P Require Import Prelude GoString GoError Delivery.
#[local] Open Scope Z_scope.

Section Address.
Context `{Unicode}.

(** The letters, digits and hyphen of a label. *)
Definition ldh (c : Z) : bool :=
  ((97 <=? c) && (c <=? 122)) || ((65 <=? c) && (c <=? 90)) || ((48 <=? c) && (c <=? 57)) || (c =? 45).

(** The first rune of a label that is refused. *)
Definition bad_rune (label : string) : option Z :=
  find (fun c => negb (ldh c) && (c <=? 127)) (decode_runes label).

Fixpoint check_labels (fieldName domain : string) (labels : list string) : option error :=
  match labels with
  | [] => None
  | label :: labels =>
      if (slen label =? 0)%nat then
        Some (ErrText (fieldName +:+ ": domain " +:+ quote domain +:+ " has empty label"))
      else if (63 <? slen label)%nat then
        Some (ErrText (fieldName +:+ ": domain label " +:+ quote label +:+ " exceeds 63 characters"))
      else match bad_rune label with
           | Some c => Some (ErrText (fieldName +:+ ": domain " +:+ quote domain
                               +:+ " contains invalid character " +:+ quote (encode_rune c)))
           | None => check_labels fieldName domain labels
           end
  end.

Definition dot_or_hyphen (c : option ascii) : bool :=
  bool_decide (c = Some "."%char) || bool_decide (c = Some "-"%char).

(** [None]: the address is accepted.  The angle brackets are removed by the
    same code as [stripAngleBrackets]. *)
Definition validate_email_address (addr fieldName : string) (allowNull : bool) : option error :=
  let addr := strip_angle_brackets addr in
  let reject what := Some (ErrText (fieldName +:+ ": " +:+ what)) in
  if is_empty addr then
    (if allowNull then None else reject "address is empty")
  else
  match last_index_byte "@" addr with
  | None => reject ("missing '@' separator in " +:+ quote addr)
  | Some atIdx =>
      let localPart := stake atIdx addr in
      let domain := sdrop (S atIdx) addr in
      if is_empty localPart then reject ("empty local part in " +:+ quote addr)
      else if is_empty domain then reject ("empty domain in " +:+ quote addr)
      else if (255 <? slen domain)%nat then reject ("domain exceeds 255 characters in " +:+ quote addr)
      else if negb (contains domain ".") then
        reject ("domain " +:+ quote domain +:+ " has no TLD (expected domain.tld format)")
      else if dot_or_hyphen (snth domain 0) then
        reject ("domain " +:+ quote domain +:+ " starts with invalid character")
      else if dot_or_hyphen (snth domain (slen domain - 1)) then
        reject ("domain " +:+ quote domain +:+ " ends with invalid character")
      else if contains domain ".." then
        reject ("domain " +:+ quote domain +:+ " contains consecutive dots")
      else match check_labels fieldName domain (split domain ".") with
           | Some e => Some e
           | None => if (254 <? slen addr)%nat then reject "address exceeds 254 characters" else None
           end
  end.

(** ** What is accepted *)

(** A byte of a label: a letter, a digit, a hyphen, or not ASCII. *)
Definition label_byte (c : ascii) : bool := ldh (byte_of c) || (128 <=? byte_of c).
Definition valid_label (l : string) : Prop := (1 <= slen l <= 63)%nat /\ sall label_byte l = true.

Definition hostname (d : string) : Prop :=
  exists labels, d = join labels "." /\ (2 <= length labels)%nat /\ Forall valid_label labels /\
    snth d 0 <> Some "-"%char /\ snth d (slen d - 1) <> Some "-"%char /\ (slen d <= 255)%nat.

(** A label passes when it has no bad byte. *)
Lemma bad_rune_None label : bad_rune label = None <-> sall label_byte label = true.
Proof.
  set (p := fun c => negb (negb (ldh c) && (c <=? 127))).
  assert (Hf : forall l, find (fun c => negb (ldh c) && (c <=? 127)) l = None <-> forallb p l = true).
  { induction l as [|c l IH]; [done|]. cbn [find forallb]. unfold p at 1.
    destruct (negb (ldh c) && (c <=? 127)); [done|apply IH]. }
  unfold bad_rune. rewrite Hf, decode_runes_forallb.
  - assert (forall s, sall (fun c => p (byte_of c)) s = sall label_byte s) as ->; [|done].
    intros s. induction s as [|c s IH]; [done|]. cbn [sall]. rewrite IH. f_equal. unfold p, label_byte.
    destruct (ldh (byte_of c)); [done|]. simpl. destruct (Z.leb_spec (byte_of c) 127), (Z.leb_spec 128 (byte_of c)); done || lia.
  - intros r Hr. unfold p. destruct (Z.leb_spec r 127); [lia|]. by rewrite andb_false_r.
Qed.

(** ** Labels *)

Lemma check_labels_None fieldName domain labels :
  check_labels fieldName domain labels = None <-> Forall valid_label labels.
Proof.
  induction labels as [|l labels IH]; [done|]. rewrite Forall_cons, <- IH. cbn [check_labels].
  unfold valid_label. rewrite <- bad_rune_None.
  destruct (Nat.eqb_spec (slen l) 0); [split; [done|intros [[? _] _]; lia]|].
  destruct (Nat.ltb_spec 63 (slen l)); [split; [done|intros [[? _] _]; lia]|].
  destruct (bad_rune l); [split; [done|by intros [[_ ?] _]]|].
  split; [intros ?; repeat split; lia || done|by intros [_ ?]].
Qed.

(** Labels that are not empty: no dot at either end, no two in a row. *)
Lemma no_empty_label d :
  Forall (fun l => l <> "") (splits "." d) ->
  snth d 0 <> Some "."%char /\ snth d (slen d - 1) <> Some "."%char /\ contains d ".." = false.
Proof.
  intros Hl. assert (Hbad : forall a b, d = a +:+ String "." b -> b <> "" /\ a <> "" /\ has_prefix b "." = false).
  { intros a b ->. rewrite splits_app in Hl. apply Forall_app in Hl as [Ha Hb].
    split; [|split]; [intros ->; by inversion Hb|intros ->; by inversion Ha|].
    destruct (has_prefix b ".") eqn:E; [|done]. apply has_prefix_spec in E as [r ->].
    change ("." +:+ r) with (String "." r) in Hb. cbn [splits] in Hb.
    rewrite bool_decide_true in Hb by done. by inversion Hb. }
  split; [|split].
  - intros Hd. destruct d as [|c d]; [done|]. cbn in Hd. injection Hd as ->. by destruct (Hbad "" d eq_refl) as (_ & [] & _).
  - intros Hd. apply snth_last in Hd as [a Ha]. by destruct (Hbad a "" Ha) as ([] & _).
  - destruct (contains d "..") eqn:E; [|done]. apply contains_split in E as (a & b & Hd).
    destruct (Hbad a (String "." b) Hd) as (_ & _ & E). by destruct b.
Qed.

(** ** The accepted addresses *)

Definition accepted (a : string) : Prop :=
  exists l d, a = l +:+ String "@" d /\ l <> "" /\ hostname d /\ (slen a <= 254)%nat.

Lemma valid_label_no l c : label_byte c = false -> valid_label l -> no_byte c l = true.
Proof.
  intros Hc [_ Hl]. eapply sall_impl; [|done]. intros d Hd. simpl in *.
  apply negb_true_iff, bool_decide_eq_false. by intros ->; congruence.
Qed.

(** The labels of a host name are its pieces between dots. *)
Lemma hostname_splits d :
  hostname d <-> (2 <= length (splits "." d))%nat /\ Forall valid_label (splits "." d) /\
    snth d 0 <> Some "-"%char /\ snth d (slen d - 1) <> Some "-"%char /\ (slen d <= 255)%nat.
Proof.
  split.
  - intros (labels & Hd & Hn & Hl & Hrest).
    assert (splits "." d = labels) as ->; [|done].
    rewrite Hd, <- split_splits. apply split_join; [|by destruct labels; simpl in *; [lia|]].
    eapply Forall_impl; [exact Hl|]. intros l. by apply valid_label_no.
  - intros (Hn & Hl & Hrest). exists (splits "." d). split; [|done].
    symmetry. apply (splits_join "."%char).
Qed.

Lemma hostname_no d c : label_byte c = false -> c <> "."%char -> hostname d -> no_byte c d = true.
Proof.
  intros Hc Hdot (labels & -> & _ & Hl & _). apply sall_join.
  - simpl. by rewrite bool_decide_false.
  - eapply Forall_impl; [exact Hl|]. intros l. by apply valid_label_no.
Qed.

(** The checks before the labels follow from the labels. *)
Lemma checks_hostname d :
  ((is_empty d || (255 <? slen d)%nat || negb (contains d ".") || dot_or_hyphen (snth d 0) ||
    dot_or_hyphen (snth d (slen d - 1)) || contains d "..") = false /\
   Forall valid_label (splits "." d)) <-> hostname d.
Proof.
  rewrite hostname_splits. unfold dot_or_hyphen, contains at 1.
  change "." with (str1 "."%char) at 1. rewrite index_str_str1.
  assert (Hlen : (2 <= length (splits "." d))%nat <-> index_byte "." d <> None).
  { rewrite splits_index. destruct (index_byte "." d); [|simpl; split; [lia|done]].
    pose proof (splits_nonempty "."%char (sdrop (S n) d)). destruct (splits _ _); [done|]. simpl. split; [done|lia]. }
  split.
  - intros [Hc Hl]. bool_norm. destruct Hc as (((((? & ?) & ?) & [? ?]) & [? ?]) & ?).
    repeat split; try done; [|by apply Nat.ltb_ge].
    apply Hlen. by destruct (index_byte "." d).
  - intros (Hn & Hl & H0 & H1 & H2). split; [|done].
    destruct (no_empty_label d) as (Hd0 & Hd1 & Hd).
    { eapply Forall_impl; [exact Hl|]. intros l [[? _] _] ->. simpl in *. lia. }
    bool_norm. repeat split; try done.
    + destruct d; [|done]. simpl in Hn. lia.
    + by apply Nat.ltb_ge.
    + apply Hlen in Hn. by destruct (index_byte "." d).
Qed.

Lemma accepted_split a i :
  last_index_byte "@" a = Some i ->
  accepted a <-> stake i a <> "" /\ hostname (sdrop (S i) a) /\ (slen a <= 254)%nat.
Proof.
  intros Hi. split.
  - intros (l & d & -> & Hl & Hd & Hn).
    rewrite (last_index_byte_app "@" l d) in Hi by (by apply hostname_no). injection Hi as <-.
    rewrite stake_app_len. replace (S (slen l)) with (slen l + 1)%nat by lia.
    rewrite sdrop_app_plus. by destruct d.
  - intros (Hl & Hd & Hn). exists (stake i a), (sdrop (S i) a). split; [|done].
    by apply last_index_byte_split.
Qed.

(** C39: an address is accepted exactly when, without its angle brackets, it
    is the null sender where that is allowed, or a non-empty local part, "@",
    and a host name, of at most 254 bytes in all.  A host name is two or more
    labels of 1 to 63 letters, digits, hyphens and bytes that are not ASCII,
    separated by single dots, with no hyphen at its ends: nothing after the
    last "@" can hold a space, a line break or another separator. *)
Theorem validate_email_spec addr fieldName allowNull :
  validate_email_address addr fieldName allowNull = None <->
  (strip_angle_brackets addr = "" /\ allowNull = true) \/ accepted (strip_angle_brackets addr).
Proof.
  unfold validate_email_address. cbv zeta. set (a := strip_angle_brackets addr).
  destruct (is_empty a) eqn:Ha.
  { apply is_empty_true in Ha as ->. destruct allowNull; [intuition|].
    split; [done|intros [[_ ?]|(l & d & Hd & _)]; [done|by destruct l]]. }
  apply is_empty_false in Ha.
  destruct (last_index_byte "@" a) as [i|] eqn:Hi.
  - rewrite (accepted_split a i Hi), <- checks_hostname, <- (check_labels_None fieldName (sdrop (S i) a)).
    change (split (sdrop (S i) a) ".") with (split (sdrop (S i) a) (str1 "."%char)). rewrite split_splits.
    destruct (is_empty (stake i a)) eqn:Hl.
    { apply is_empty_true in Hl. split; [done|]. by intros [[? _]|[? _]]. }
    apply is_empty_false in Hl.
    destruct (is_empty (sdrop (S i) a)); [split; [done|by intros [[? _]|(_ & [? _] & _)]]|].
    destruct (255 <? slen (sdrop (S i) a))%nat; [split; [done|by intros [[? _]|(_ & [? _] & _)]]|].
    destruct (negb (contains (sdrop (S i) a) ".")); [split; [done|by intros [[? _]|(_ & [? _] & _)]]|].
    destruct (dot_or_hyphen (snth (sdrop (S i) a) 0)); [split; [done|by intros [[? _]|(_ & [? _] & _)]]|].
    destruct (dot_or_hyphen (snth (sdrop (S i) a) _)); [split; [done|by intros [[? _]|(_ & [? _] & _)]]|].
    destruct (contains (sdrop (S i) a) ".."); [split; [done|by intros [[? _]|(_ & [? _] & _)]]|].
    destruct (check_labels _ _ _); [split; [done|by intros [[? _]|(_ & [_ ?] & _)]]|].
    destruct (Nat.ltb_spec 254 (slen a)); [split; [done|intros [[? _]|(_ & _ & ?)]; done || lia]|].
    split; [intros _; right; repeat split; done || lia|done].
  - split; [done|]. intros [[? _]|(l & d & Hd & _ & Hh & _)]; [done|].
    rewrite Hd, (last_index_byte_app "@" l d) in Hi by (by apply hostname_no). done.
Qed.

(** What the engine looks up for an accepted recipient is its host name: no
    accepted recipient is refused by [DeliverMessage] as an invalid address,
    provided it comes without angle brackets. *)
Lemma accepted_recipient_routes addr fieldName :
  validate_email_address addr fieldName false = None -> strip_angle_brackets addr = addr ->
  exists l d, split_email addr = (l, d) /\ l <> "" /\ hostname d /\ addr = l +:+ String "@" d.
Proof.
  intros Hv Hb. apply validate_email_spec in Hv. rewrite Hb in Hv.
  destruct Hv as [[_ ?]|(l & d & -> & Hl & Hd & _)]; [done|]. exists l, d.
  unfold split_email. rewrite (last_index_byte_app "@" l d) by (by apply hostname_no).
  rewrite stake_app_len. replace (S (slen l)) with (slen l + 1)%nat by lia. by rewrite sdrop_app_plus.
Qed.

End Address.

(** ** Examples *)

Section Examples.
#[local] Existing Instance plain_unicode.
#[local] Abbreviation verdicts := (map (fun a => is_ok (match validate_email_address a "to" false with
                                                         | None => Ok tt | Some e => Err e end))).

Example accepted_addresses :
  verdicts ["user@example.org"; "<user@example.org>"; "a b@example.org"; "a@b@example.org";
            "user@b" +:+ bytes [195; 188] +:+ "cher.example"; "u@a-.b"; "u@" +:+ bytes [255] +:+ ".b"] =
  [true; true; true; true; true; true; true].
Proof. vm_compute. reflexivity. Qed.

Example refused_addresses :
  verdicts [""; "<>"; "user"; "@example.org"; "user@"; "user@localhost"; "user@.example.org"; "user@example.org.";
            "user@-example.org"; "user@a..b"; "user@exa mple.org"; "user@[192.0.2.1]"; "user@example.org" +:+ CRLF] =
  [false; false; false; false; false; false; false; false; false; false; false; false; false].
Proof. vm_compute. reflexivity. Qed.

(** The local part is not looked at: a line break in it is accepted. *)
Example local_part_unchecked :
  validate_email_address ("a" +:+ CRLF +:+ "DATA" +:+ CRLF +:+ "b@example.org") "to" false = None.
Proof. vm_compute. reflexivity. Qed.

(** A recipient in angle brackets is accepted, and looked up with its bracket. *)
Example bracketed_recipient :
  validate_email_address "<b@example.org>" "to" false = None /\
  split_email "<b@example.org>" = ("<b", "example.org>").
Proof. split; vm_compute; reflexivity. Qed.

End Examples.
