(* ===== verification/Effects.v ===== *)
(** * The effects of a delivery

    A delivery reads the clock and its context, calls DNS, the network and the
    go-smtp client, and updates state that other deliveries share.  Here are
    the calls and what they answer ([Env], functions of everything that
    happened before), the state, the monad of operations, and a program logic
    on the events an operation performs. *)

From stdpp Require Import base gmap sets list strings.
From Stdlib Require Import ZArith Lia.
From S2P Require Import Prelude GoString GoError Config Reload NetIP ErrorClassifier IPReputation ConnectionPool.
From S2P Require Import MXLookup IPRotator DomainLimiter LMTP SRS DKIM KeyStore.
#[local] Open Scope Z_scope.

(** ** Calls and events *)

(** A connection, and the go-smtp client on it, are the same number. *)
Definition conn : Type := nat.

(** Calls that answer with an error or nothing. *)
Inductive request : Type :=
| RDial (source target : string) (timeout : Z)       (* net.Dialer.DialContext *)
| RTLSHandshake (c : conn)                            (* tls.Conn.HandshakeContext *)
| RHello (c : client) (hostname : string)             (* smtp.NewClient, Client.Hello *)
| RStartTLS (c : client) (hostname : string)          (* smtp.NewClientStartTLSWithName *)
| RMail (c : client) (from : string) (utf8 : bool)    (* Client.Mail *)
| RRcpt (c : client) (to : string)                    (* Client.Rcpt *)
| RData (c : client)                                  (* Client.Data *)
| RWrite (c : client) (data : string)                 (* the writer's Write *)
| RReset (c : client)                                 (* Client.Reset *)
| RNoop (c : client)                                  (* Client.Noop *)
| RWriteLine (c : conn) (timeout : Z) (data : string) (* a write of the LMTP connection *)
| RWriteData (c : conn) (timeout : Z) (data : string). (* the buffered writes of the message *)

(** What a reply of the LMTP connection answers to. *)
Inductive lmtp_phase : Type := PGreeting | PLhlo | PMail | PRcpt | PData | PFinal.

Inductive release : Type := Close | Quit | PutBack.

Inductive event : Type :=
| EvTick                                              (* a reading: clock, context, ... *)
| EvCall (q : request) (r : result error unit)
| EvEnd (c : client) (r : result error string)        (* CloseWithResponse *)
| EvReply (p : lmtp_phase) (c : conn) (r : result error (Z * string))
| EvHost (host : string) (r : result error (list string))
| EvLookup (domain : string) (r : result error (list MXRecord))
| EvTimeouts (c : client) (command submission : Z)
| EvOpen (c : conn)                                     (* a dial that succeeded *)
| EvAcquire (c : client) (mxHost sourceIP : string) (closed : list client)  (* from the pool *)
| EvRelease (how : release) (c : client)
| EvReputation (evs : list rep_event)
| EvMetrics (outcome domain : string) (durationMs : Z).

Definition history : Type := list event.              (* newest first *)

(** ** The environment *)

(** The state shared with other goroutines. *)
Record shared : Type := mkShared {
  sh_config : OutboundConfig;
  sh_pool : ConnectionPool;
  sh_reputation : IPReputationTracker;
  sh_rotator : IPRotator;
  sh_limiters : gmap string domainRateLimiter;
  sh_srs : option SRS;
  sh_mx : MXLookup;
  sh_keys : option KeyStore;
  sh_fresh : nat
}.

Record Env : Type := mkEnv {
  e_trace_id : string;                                (* the values of the context *)
  e_deadline : option Z;
  e_ctx_err : history -> option error;
  e_now : history -> Z;
  e_stop : history -> bool;                           (* the stop function of AfterFunc *)
  e_done_first : history -> bool;                     (* select takes ctx.Done() *)
  e_call : history -> request -> result error unit;
  e_nil_writer : history -> bool;
  e_end : history -> client -> result error string;
  e_extension : history -> client -> string -> bool;
  e_input : history -> conn -> Z -> result error (option error * string);
  e_rounds : history -> nat;                          (* of the loop in Get of the pool *)
  e_health_clock : history -> string -> Z;            (* and inside GetHealthyIPs *)
  e_mx : history -> option error * answers;           (* the context, and DNS, in a lookup *)
  e_sort : list MXRecord -> list MXRecord;
  e_host : history -> string -> result error (list string);
  e_txt : history -> string -> result error (list string);
  e_random : history -> Z;
  e_keys : history -> lookup_env;
  e_interfere : history -> shared -> shared           (* what other goroutines do meanwhile *)
}.

Record world : Type := mkWorld {
  w_shared : shared;
  w_trace : history;
  w_timeouts : gmap nat (Z * Z);       (* CommandTimeout, SubmissionTimeout *)
  w_unread : gmap nat string           (* the buffered reader of an LMTP connection *)
}.

(** ** Operations; [None] is a run-time panic *)

Definition M (A : Type) : Type := world -> option A * world.

Definition ret {A} (a : A) : M A := fun w => (Some a, w).
Definition panic {A} : M A := fun w => (None, w).
Definition bind {A B} (m : M A) (k : A -> M B) : M B := fun w =>
  match m w with
  | (Some a, w) => k a w
  | (None, w) => (None, w)
  end.

Declare Scope effect_scope.
Notation "'let!' x ':=' m 'in' k" := (bind m (fun x => k))
  (at level 10, x pattern, m at level 100, k at level 200) : effect_scope.
#[global] Open Scope effect_scope.

Section Effects.
Context (env : Env).

(** One event; then the others may act. *)
Definition record (ev : event) (w : world) : world :=
  mkWorld (e_interfere env (ev :: w_trace w) (w_shared w)) (ev :: w_trace w)
    (w_timeouts w) (w_unread w).

Definition log (ev : event) : M unit := fun w => (Some tt, record ev w).

Definition ask {A} (oracle : history -> A) : M A := fun w =>
  (Some (oracle (w_trace w)), record EvTick w).

Definition call (q : request) : M (result error unit) := fun w =>
  let r := e_call env (w_trace w) q in (Some r, record (EvCall q r) w).

(** An atomic step on the shared state. *)
Definition on_shared {A} (f : history -> shared -> A * shared) (ev : A -> event) : M A := fun w =>
  let '(a, s) := f (w_trace w) (w_shared w) in
  (Some a, record (ev a) (mkWorld s (w_trace w) (w_timeouts w) (w_unread w))).

Definition ctx_err : M (option error) := ask (e_ctx_err env).
Definition now : M Z := ask (e_now env).

(** [ctx.Deadline()] and [time.Until] of it *)
Definition remaining : M (option Z) :=
  match e_deadline env with
  | None => ret None
  | Some d => let! t := now in ret (Some (time_sub d t))
  end.

Definition timeouts (c : client) : M (Z * Z) := fun w => (Some (default (0, 0) (w_timeouts w !! c)), w).
Definition set_timeouts (c : client) (t : Z * Z) : M unit := fun w =>
  (Some tt, record (EvTimeouts c t.1 t.2)
              (mkWorld (w_shared w) (w_trace w) (<[c := t]> (w_timeouts w)) (w_unread w))).

Definition end_data (c : client) : M (result error string) := fun w =>
  let r := e_end env (w_trace w) c in (Some r, record (EvEnd c r) w).

Definition release_conn (how : release) (c : client) : M unit := log (EvRelease how c).

(** A fresh connection. *)
Definition new_conn : M conn :=
  on_shared (fun _ s =>
    (sh_fresh s, mkShared (sh_config s) (sh_pool s) (sh_reputation s) (sh_rotator s) (sh_limiters s)
                   (sh_srs s) (sh_mx s) (sh_keys s) (S (sh_fresh s))))
    EvOpen.

(** [readLMTPResponse] on the connection's reader: what was left over from the
    previous reply comes first. *)
Definition read_response `{Unicode} (p : lmtp_phase) (c : conn) (timeout : Z) : M (result error (Z * string)) := fun w =>
  match e_input env (w_trace w) c timeout with
  | Err e => (Some (Err e), record (EvReply p c (Err e)) w)
  | Ok (fail, more) =>
      let '(r, rest) := read_lmtp_response fail (default "" (w_unread w !! c) +:+ more) in
      (Some r, record (EvReply p c r)
                 (mkWorld (w_shared w) (w_trace w) (w_timeouts w) (<[c := rest]> (w_unread w))))
  end.

(** The parts of the shared state. *)
Definition get_config : M OutboundConfig := on_shared (fun _ s => (sh_config s, s)) (fun _ => EvTick).

Definition on_pool {A} (f : history -> ConnectionPool -> A * ConnectionPool) (ev : A -> event) : M A :=
  on_shared (fun h s =>
    let '(a, p) := f h (sh_pool s) in
    (a, mkShared (sh_config s) p (sh_reputation s) (sh_rotator s) (sh_limiters s) (sh_srs s)
          (sh_mx s) (sh_keys s) (sh_fresh s))) ev.
Definition on_reputation {A} (f : IPReputationTracker -> A * IPReputationTracker) (ev : A -> event) : M A :=
  on_shared (fun _ s =>
    let '(a, rt) := f (sh_reputation s) in
    (a, mkShared (sh_config s) (sh_pool s) rt (sh_rotator s) (sh_limiters s) (sh_srs s)
          (sh_mx s) (sh_keys s) (sh_fresh s))) ev.
Definition on_rotator {A} (f : IPRotator -> A * IPRotator) : M A :=
  on_shared (fun _ s =>
    let '(a, r) := f (sh_rotator s) in
    (a, mkShared (sh_config s) (sh_pool s) (sh_reputation s) r (sh_limiters s) (sh_srs s)
          (sh_mx s) (sh_keys s) (sh_fresh s))) (fun _ => EvTick).
Definition on_limiters {A} (f : gmap string domainRateLimiter -> A * gmap string domainRateLimiter) : M A :=
  on_shared (fun _ s =>
    let '(a, l) := f (sh_limiters s) in
    (a, mkShared (sh_config s) (sh_pool s) (sh_reputation s) (sh_rotator s) l (sh_srs s)
          (sh_mx s) (sh_keys s) (sh_fresh s))) (fun _ => EvTick).
Definition on_srs {A} (f : option SRS -> A * option SRS) : M A :=
  on_shared (fun _ s =>
    let '(a, x) := f (sh_srs s) in
    (a, mkShared (sh_config s) (sh_pool s) (sh_reputation s) (sh_rotator s) (sh_limiters s) x
          (sh_mx s) (sh_keys s) (sh_fresh s))) (fun _ => EvTick).
Definition on_mx {A} (f : MXLookup -> A * MXLookup) (ev : A -> event) : M A :=
  on_shared (fun _ s =>
    let '(a, m) := f (sh_mx s) in
    (a, mkShared (sh_config s) (sh_pool s) (sh_reputation s) (sh_rotator s) (sh_limiters s) (sh_srs s)
          m (sh_keys s) (sh_fresh s))) ev.
Definition on_keys {A} (f : option KeyStore -> A * option KeyStore) : M A :=
  on_shared (fun _ s =>
    let '(a, k) := f (sh_keys s) in
    (a, mkShared (sh_config s) (sh_pool s) (sh_reputation s) (sh_rotator s) (sh_limiters s) (sh_srs s)
          (sh_mx s) k (sh_fresh s))) (fun _ => EvTick).

(** ** The logic: what an operation does from a history [h]

    [I] is an invariant of the shared state that the others keep. *)

Context (I : shared -> Prop).

Definition runs {A} (m : M A) (h : history) (Q : history -> option A -> Prop) : Prop :=
  forall w, w_trace w = h -> I (w_shared w) ->
  let '(o, w') := m w in I (w_shared w') /\ Q (w_trace w') o.

Lemma runs_mono {A} (m : M A) h (Q Q' : history -> option A -> Prop) :
  runs m h Q -> (forall t o, Q t o -> Q' t o) -> runs m h Q'.
Proof.
  intros Hm HQ w Hw HI. specialize (Hm w Hw HI). destruct (m w) as [o w']. intuition.
Qed.

Lemma runs_ret {A} (a : A) h Q : Q h (Some a) -> runs (ret a) h Q.
Proof. intros HQ w <- HI. by split. Qed.

Lemma runs_panic {A} h (Q : history -> option A -> Prop) : Q h None -> runs panic h Q.
Proof. intros HQ w <- HI. by split. Qed.

Lemma runs_bind {A B} (m : M A) (k : A -> M B) h Q :
  runs m h (fun t o => match o with Some a => runs (k a) t Q | None => Q t None end) ->
  runs (bind m k) h Q.
Proof.
  intros Hm w Hw HI. specialize (Hm w Hw HI). unfold bind.
  destruct (m w) as [[a|] w']; destruct Hm as [HI' Hk]; [|by split]. by apply Hk.
Qed.

(** The others keep the invariant. *)
Definition keeps : Prop := forall h s, I s -> I (e_interfere env h s).
Context (Hkeeps : keeps).

Lemma runs_log ev h (Q : history -> option unit -> Prop) :
  Q (ev :: h) (Some tt) -> runs (log ev) h Q.
Proof. intros HQ w <- HI. split; [by apply Hkeeps|done]. Qed.

Lemma runs_ask {A} (oracle : history -> A) h Q :
  Q (EvTick :: h) (Some (oracle h)) -> runs (ask oracle) h Q.
Proof. intros HQ w <- HI. split; [by apply Hkeeps|done]. Qed.

Lemma runs_call q h Q :
  Q (EvCall q (e_call env h q) :: h) (Some (e_call env h q)) -> runs (call q) h Q.
Proof. intros HQ w <- HI. split; [by apply Hkeeps|done]. Qed.

Lemma runs_end_data c h Q :
  Q (EvEnd c (e_end env h c) :: h) (Some (e_end env h c)) -> runs (end_data c) h Q.
Proof. intros HQ w <- HI. split; [by apply Hkeeps|done]. Qed.

Lemma runs_on_shared {A} (f : history -> shared -> A * shared) ev h (Q : history -> option A -> Prop) :
  (forall s, I s -> I (f h s).2 /\ Q (ev (f h s).1 :: h) (Some (f h s).1)) ->
  runs (on_shared f ev) h Q.
Proof.
  intros HQ w <- HI. unfold on_shared. specialize (HQ (w_shared w) HI).
  destruct (f (w_trace w) (w_shared w)) as [a s]. destruct HQ as [HI' HQ].
  split; [by apply Hkeeps|done].
Qed.

Lemma runs_timeouts c h Q : (forall t, Q h (Some t)) -> runs (timeouts c) h Q.
Proof. intros HQ w <- HI. by split. Qed.

Lemma runs_set_timeouts c t h (Q : history -> option unit -> Prop) :
  Q (EvTimeouts c t.1 t.2 :: h) (Some tt) -> runs (set_timeouts c t) h Q.
Proof. intros HQ w <- HI. split; [by apply Hkeeps|done]. Qed.

Lemma runs_read_response `{Unicode} p c timeout h Q :
  (forall r, Q (EvReply p c r :: h) (Some r)) -> runs (read_response p c timeout) h Q.
Proof.
  intros HQ w <- HI. unfold read_response.
  destruct (e_input env (w_trace w) c timeout) as [[fail more]|e].
  - destruct (read_lmtp_response fail _) as [r rest]. split; [by apply Hkeeps|apply HQ].
  - split; [by apply Hkeeps|apply HQ].
Qed.

End Effects.
