(* ===== verification/Deliverer.v ===== *)
(** * The delivery engine (internal/delivery/delivery.go)

    [DeliverMessage] and everything below it, in the monad of Effects.v: the
    SMTP and LMTP transactions, the connection set-up, the loops over source
    addresses and MX hosts, and the signing of the message.  Log output is
    left out. *)

From stdpp Require Import base gmap sets list strings.
From Stdlib Require Import ZArith Lia.
From S2P Require Import Prelude GoString GoError NetIP Config IPExpansion ErrorClassifier IPReputation ConnectionPool.
From S2P Require Import MXLookup IPRotator DomainLimiter LMTP SRS DKIM KeyStore ARC MIMEHeader.
From S2P Require Import Delivery Effects.
#[local] Open Scope Z_scope.

(** What a delivery is asked to do, beside addresses and message. *)
Record InboundAuthResults : Type := mkInboundAuth { ia_DKIM : string; ia_SPF : string; ia_DMARC : string }.

(** The constant fields of the engine. *)
Record Deliverer : Type := mkDeliverer {
  d_arcConfig : option ARCConfig;
  d_arcPrivateKey : string;
  d_metrics : bool
}.

Inductive dialResult : Type := DialClient (c : client) | DialConn (c : conn).

Section Deliverer.
Context `{Crypto, Unicode}.
Context (env : Env).

#[local] Abbreviation traceID := (e_trace_id env).
#[local] Abbreviation call := (call env).
#[local] Abbreviation ctx_err := (ctx_err env).
#[local] Abbreviation now := (now env).
#[local] Abbreviation remaining := (remaining env).

(** ** Shared helpers *)

Definition close (c : client) : M unit := release_conn env Close c.
Definition stop (c : client) : M bool := ask env (e_stop env).

(** [d.pool.Get]: a connection is taken out under the pool's lock and probed
    outside it, until one answers or none is left.  The loop has no bound, since
    others may put connections back meanwhile; [e_rounds] is how many rounds
    this call takes. *)
Fixpoint pool_get_rounds (rounds : nat) (mxHost sourceIP : string) : M (option client) :=
  match rounds with
  | O => ret None
  | S rounds =>
      let! t := now in
      let! r := on_pool env (fun _ p =>
                  let '(r, closed, p) := pop_candidate p t (pool_key mxHost sourceIP) in ((r, closed), p))
                  (fun a => match a.1 with Some c => EvAcquire c mxHost sourceIP a.2 | None => EvTick end) in
      match r.1 with
      | None => ret None
      | Some c =>
          let! noop := call (RNoop c) in
          match noop with
          | Ok _ => ret (Some c)
          | Err _ => let! _ := close c in pool_get_rounds rounds mxHost sourceIP
          end
      end
  end.
Definition pool_get_conn (mxHost sourceIP : string) : M (option client) :=
  let! rounds := ask env (e_rounds env) in pool_get_rounds rounds mxHost sourceIP.
(** [d.pool.Put] *)
Definition pool_put_conn (c : client) (mxHost sourceIP : string) : M unit :=
  let! t := now in
  let! closed := on_pool env (fun _ p => pool_put p t (Some c) mxHost sourceIP)
                   (fun _ => EvRelease PutBack c) in
  ret tt.

(** ** The SMTP transaction *)

(** [shouldSkipSRS] *)
Definition should_skip_srs (s : SRS) (from to : string) (inboundAuth : option InboundAuthResults)
    : bool * string :=
  should_skip s from to (match inboundAuth with Some a => ia_DKIM a | None => "" end).

(** The sender of MAIL FROM, as SRS leaves it. *)
Definition rewritten_sender (t : Z) (from to msg : string) (inboundAuth : option InboundAuthResults)
    (srs : option SRS) : string * option SRS :=
  match srs with
  | None => (from, None)
  | Some s =>
      if is_auto_reply msg then (from, Some s)
      else if (should_skip_srs s from to inboundAuth).1 then (from, Some s)
      else match forward s t from with
           | (Ok rewritten, s) => (rewritten, Some s)
           | (Err _, s) => (from, Some s)
           end
  end.

Definition ctx_wrapped (what : string) (e : error) : error :=
  ErrWrap ("context cancelled before " +:+ what +:+ ": " +:+ error_text e) e.

Definition envelope_header (to : string) : string := "X-Envelope-To: " +:+ to +:+ CRLF.

(** [deliverPayload] *)
Definition deliver_payload (c : client) (from to msg : string)
    (inboundAuth : option InboundAuthResults) (cfg : OutboundConfig) : M (result error string) :=
  let from := strip_angle_brackets from in
  let to := strip_angle_brackets to in
  let! t := now in
  let! mailFrom := on_srs env (rewritten_sender t from to msg inboundAuth) in
  let needsUTF8 := needs_utf8_address mailFrom || needs_utf8_address to in
  let! utf8 := (if needsUTF8 then ask env (fun h => e_extension env h c "SMTPUTF8") else ret false) in
  let! e := ctx_err in
  match e with
  | Some e => ret (Err (ctx_wrapped "MAIL FROM" e))
  | None =>
  let! r := call (RMail c mailFrom utf8) in
  match r with
  | Err e => ret (Err e)
  | Ok _ =>
  let! e := ctx_err in
  match e with
  | Some e => ret (Err (ctx_wrapped "RCPT TO" e))
  | None =>
  let! r := call (RRcpt c to) in
  match r with
  | Err e => ret (Err e)
  | Ok _ =>
  let! e := ctx_err in
  match e with
  | Some e => ret (Err (ctx_wrapped "DATA" e))
  | None =>
  let msg := envelope_header to +:+ msg in
  let! r := call (RData c) in
  match r with
  | Err e => ret (Err e)
  | Ok _ =>
  let! isNil := ask env (e_nil_writer env) in
  if isNil : bool then ret (Err (ErrText "DATA command returned nil writer"))
  else
  let! r := call (RWrite c msg) in
  match r with
  | Err e => ret (Err e)
  | Ok _ =>
  let! ts := timeouts c in
  let! rem := remaining in
  let! _ := set_timeouts env c (ts.1, data_termination_timeout rem cfg ts.2) in
  let! resp := end_data env c in
  match resp with
  | Err e => ret (Err (ErrIndeterminate e))
  | Ok text => ret (Ok (replace_all text (str1 LF) " "))
  end end end end end end end end.

(** The error of a transaction whose connection the end of the context closed. *)
Definition closed_by_context (ctxErr : option error) (err : error) : error :=
  match ctxErr with
  | Some e => ErrWrap2 (error_text e +:+ " (connection closed: " +:+ error_text err +:+ ")") e err
  | None => ErrWrap ("%!w(<nil>) (connection closed: " +:+ error_text err +:+ ")") err
  end.

(** [performDeliveryTransaction] *)
Definition perform_delivery_transaction (c : client) (from to msg mxHost sourceIP : string)
    (reused : bool) (inboundAuth : option InboundAuthResults) (cfg : OutboundConfig)
    : M DeliveryResult :=
  let! e := ctx_err in
  match e with
  | Some _ =>
      let! _ := close c in
      ret (failure traceID "timeout" mxHost sourceIP "context cancelled before delivery transaction")
  | None =>
  let! ts := timeouts c in
  let! _ := (if reused && (0 <? out_SMTPTimeoutSeconds cfg)
             then set_timeouts env c (seconds (out_SMTPTimeoutSeconds cfg), ts.2) else ret tt) in
  let! rem := remaining in
  let! ts := timeouts c in
  let! _ := (match rem with
             | Some r => if (minSMTPTimeout <? r) && (r <? ts.1) then set_timeouts env c (r, ts.2)
                         else ret tt
             | None => ret tt
             end) in
  let! p := deliver_payload c from to msg inboundAuth cfg in
  match p with
  | Err err =>
      let! stopped := stop c in
      let! err := (if stopped : bool then ret err
                   else let! e := ctx_err in ret (closed_by_context e err)) in
      let! _ := close c in
      ret (map_smtp_error traceID err mxHost sourceIP)
  | Ok smtpMsg =>
      let! resetErr := call (RReset c) in
      let! stopped := stop c in
      let! _ := (if (stopped : bool) && is_ok resetErr then pool_put_conn c mxHost sourceIP
                 else release_conn env Quit c) in
      ret (mkResult traceID "delivered" 250 smtpMsg mxHost sourceIP 0 "" None)
  end
  end.

(** ** The LMTP transaction *)

Definition write_command (c : conn) (timeout : Z) (cmd : string) : M (result error unit) :=
  call (RWriteLine c timeout (lmtp_command cmd)).

Definition lmtp_failure (mxHost sourceIP what : string) (e : error) : M DeliveryResult :=
  let! ctxErr := ctx_err in
  ret (failure traceID (lmtp_status ctxErr e) mxHost sourceIP (what +:+ ": " +:+ error_text e)).

(** One command and its reply: [expect] goes on with [k]. *)
Definition lmtp_exchange (c : conn) (timeout : Z) (mxHost sourceIP name cmd : string)
    (phase : lmtp_phase) (expect : Z) (k : M DeliveryResult) : M DeliveryResult :=
  let! w := write_command c timeout cmd in
  match w with
  | Err e => lmtp_failure mxHost sourceIP (name +:+ " write") e
  | Ok _ =>
      let! r := read_response env phase c timeout in
      match r with
      | Err e => lmtp_failure mxHost sourceIP (name +:+ " response") e
      | Ok (code, msg2) =>
          if negb (code =? expect) then ret (classify_lmtp_result traceID mxHost sourceIP code msg2)
          else k
      end
  end.

(** [performLMTPTransaction] *)
Definition perform_lmtp_transaction (c : conn) (from to msg mxHost sourceIP : string) : M DeliveryResult :=
  let! cfg := get_config env in
  let cmdTimeout := seconds (out_LMTPTimeoutSeconds cfg) in
  let cmdTimeout := if cmdTimeout =? 0 then 60 * second else cmdTimeout in
  let from := strip_angle_brackets from in
  let to := strip_angle_brackets to in
  let exchange := lmtp_exchange c cmdTimeout mxHost sourceIP in
  let! result :=
    exchange "MAIL FROM" ("MAIL FROM:<" +:+ from +:+ ">") PMail 250
   (exchange "RCPT TO" ("RCPT TO:<" +:+ to +:+ ">") PRcpt 250
   (exchange "DATA" "DATA" PData 354
   (let! w := call (RWriteData c cmdTimeout (lmtp_data msg)) in
    match w with
    | Err e => lmtp_failure mxHost sourceIP "DATA body write" e
    | Ok _ =>
        let! r := read_response env PFinal c cmdTimeout in
        match r with
        | Err e =>
            ret (failure traceID "unknown" mxHost sourceIP
              ("Delivery outcome unknown (message fully sent, no acknowledgement): DATA final response: "
                 +:+ error_text e))
        | Ok (code, msg2) => ret (classify_lmtp_result traceID mxHost sourceIP code msg2)
        end
    end))) in
  (* deferred: stop(), then a best-effort QUIT and the close *)
  let! _ := stop c in
  let! _ := call (RWriteLine c (1 * second) (lmtp_command "QUIT")) in
  let! _ := close c in
  ret result.

(** ** Setting up a connection *)

(** What [dialAndHello] returns: a [dialResult] or nil, a result, an error. *)
Definition dial_outcome : Type := option dialResult * DeliveryResult * option error.

Definition dial_failure (r : DeliveryResult) (e : error) : M dial_outcome :=
  ret (None, r, Some e).

(** The goroutine's result: a usable client or connection, or an error. *)
Definition handshake_outcome : Type := result error dialResult.

(** LMTP: raw protocol, with implicit TLS when configured. *)
Definition lmtp_handshake (c : conn) (timeout : Z) (cfg : OutboundConfig) : M handshake_outcome :=
  let fail text e := let! _ := close c in ret (Err (ErrWrap (text +:+ error_text e) e)) in
  let rejected text := let! _ := close c in ret (Err (ErrText text)) in
  let! tls := (if out_LMTPImplicitTLS cfg then call (RTLSHandshake c) else ret (Ok tt)) in
  match tls with
  | Err e => fail "implicit TLS handshake for LMTP failed: " e
  | Ok _ =>
  let! r := read_response env PGreeting c timeout in
  match r with
  | Err e => fail "LMTP greeting: " e
  | Ok (code, _) =>
  if negb (code =? 220) then rejected ("LMTP unexpected greeting code: " +:+ fmt_d code)
  else
  let! w := write_command c timeout ("LHLO " +:+ out_HelloHostname cfg) in
  match w with
  | Err e => fail "LHLO write: " e
  | Ok _ =>
  let! r := read_response env PLhlo c timeout in
  match r with
  | Err e => fail "LHLO response: " e
  | Ok (code, _) =>
  if negb (code =? 250) then rejected ("LHLO rejected: " +:+ fmt_d code)
  else ret (Ok (DialConn c))
  end end end end.

(** A client whose timeouts are set for the delivery. *)
Definition ready_client (c : client) (deliveryTimeout : Z) : M handshake_outcome :=
  let! _ := set_timeouts env c (deliveryTimeout, deliveryTimeout) in
  ret (Ok (DialClient c)).

(** SMTP: implicit TLS, or STARTTLS with a plaintext second connection when the
    server does not offer it. *)
Definition smtp_handshake (c : conn) (source target : string)
    (connectionTimeout deliveryTimeout : Z) (cfg : OutboundConfig) : M handshake_outcome :=
  if out_SMTPImplicitTLS cfg then
    let! tls := call (RTLSHandshake c) in
    match tls with
    | Err e => let! _ := close c in
               ret (Err (ErrWrap ("implicit TLS handshake failed: " +:+ error_text e) e))
    | Ok _ =>
        let! hello := call (RHello c (out_HelloHostname cfg)) in
        match hello with
        | Err e => let! _ := close c in
                   ret (Err (ErrWrap ("EHLO failed over implicit TLS: " +:+ error_text e) e))
        | Ok _ => ready_client c deliveryTimeout
        end
    end
  else
    let! tls := call (RStartTLS c (out_HelloHostname cfg)) in
    match tls with
    | Ok _ => ready_client c deliveryTimeout
    | Err e =>
        let! _ := close c in
        if contains (error_text e) "server doesn't support STARTTLS" then
          let! dialed := call (RDial source target connectionTimeout) in
          match dialed with
          | Err e => ret (Err (ErrWrap ("reconnect for plaintext failed: " +:+ error_text e) e))
          | Ok _ =>
              let! c' := new_conn env in
              let! hello := call (RHello c' (out_HelloHostname cfg)) in
              match hello with
              | Err e => let! _ := close c' in
                         ret (Err (ErrWrap ("EHLO/HELO failed: " +:+ error_text e) e))
              | Ok _ => ready_client c' deliveryTimeout
              end
          end
        else ret (Err (ErrWrap ("STARTTLS handshake failed: " +:+ error_text e) e))
    end.

(** After the dial: the phase timeouts, the handshake, and the [select] between
    its result and the end of the context. *)
Definition say_hello (c : conn) (source target mxHost sourceIP protocol : string)
    (connectionTimeout : Z) (cfg : OutboundConfig) : M dial_outcome :=
  let timeout text := failure traceID "timeout" mxHost sourceIP text in
  let! rem := remaining in
  match phase_timeouts cfg rem with
  | None =>
      let! e := ctx_err in
      let! _ := close c in
      ret (None, timeout "context deadline exceeded before handshake", e)
  | Some (bannerTimeout, handshakeTimeout, deliveryTimeout) =>
      let handshakePhaseTimeout := wrap64 (bannerTimeout + handshakeTimeout) in
      let! outcome :=
        (if seqb protocol ProtocolLMTP then lmtp_handshake c handshakePhaseTimeout cfg
         else smtp_handshake c source target connectionTimeout deliveryTimeout cfg) in
      let! done_first := ask env (e_done_first env) in
      if done_first : bool then
        let! _ := close c in
        let! e := ctx_err in
        ret (None, timeout "SMTP handshake timed out", e)
      else
        match outcome with
        | Err e => dial_failure (timeout ("Handshake failed: " +:+ error_text e)) e
        | Ok dr => ret (Some dr, empty_result, None)
        end
  end.

(** [dialAndHello] *)
Definition dial_and_hello (mxHost : string) (mxIPs : list string) (sourceIP : string)
    (preferIPv6 : bool) (protocol : string) (cfg : OutboundConfig) : M dial_outcome :=
  let fail status text := failure traceID status mxHost sourceIP text in
  let targetIP := select_target mxIPs sourceIP preferIPv6 in
  if is_empty targetIP then
    match mxIPs with
    | _ :: _ =>
        dial_failure (fail "error" ("MX host has no "
                        +:+ (if want_ipv6 sourceIP preferIPv6 then "IPv6" else "IPv4") +:+ " addresses"))
          (ErrText "no matching IP version")
    | [] => dial_failure (fail "temp_fail" "No IP addresses resolved for MX host") (ErrText "no IP")
    end
  else
  match target_port cfg protocol with
  | Err e => dial_failure (fail "error" (invalid_destination protocol (fixed_destination cfg protocol) e)) e
  | Ok targetPort =>
  let! rem := remaining in
  let connectionTimeout := connection_timeout cfg rem in
  if negb (is_empty sourceIP) && bool_decide (parse_ip sourceIP = None) then
    dial_failure (fail "error" ("Invalid source IP address: " +:+ sourceIP)) (ErrText "invalid IP")
  else
  let target := join_host_port targetIP targetPort in
  let! dialed := call (RDial sourceIP target connectionTimeout) in
  match dialed with
  | Err e =>
      if negb (is_empty sourceIP) && is_bind_error e then
        dial_failure (fail "error" ("Cannot bind to source IP " +:+ sourceIP +:+ " for target "
                                      +:+ targetIP +:+ ": " +:+ error_text e)) e
      else dial_failure (fail "timeout" (error_text e)) e
  | Ok _ =>
      let! c := new_conn env in
      say_hello c sourceIP target mxHost sourceIP protocol connectionTimeout cfg
  end
  end.

(** ** Attempts *)

(** [attemptDelivery] *)
Definition fresh_attempt (from to msg mxHost : string) (mxIPs : list string) (sourceIP : string)
    (preferIPv6 : bool) (protocol : string) (inboundAuth : option InboundAuthResults)
    (cfg : OutboundConfig) : M DeliveryResult :=
  let! outcome := dial_and_hello mxHost mxIPs sourceIP preferIPv6 protocol cfg in
  match outcome with
  | (_, result, Some _) => ret result
  | (Some (DialClient c), _, None) =>
      perform_delivery_transaction c from to msg mxHost sourceIP false inboundAuth cfg
  | (Some (DialConn c), _, None) => perform_lmtp_transaction c from to msg mxHost sourceIP
  | (None, _, None) => panic               (* dr is nil *)
  end.

Definition attempt_delivery (from to msg mxHost : string) (mxIPs : list string) (sourceIP : string)
    (preferIPv6 : bool) (protocol : string) (inboundAuth : option InboundAuthResults)
    (cfg : OutboundConfig) : M DeliveryResult :=
  let fresh := fresh_attempt from to msg mxHost mxIPs sourceIP preferIPv6 protocol inboundAuth cfg in
  if seqb protocol ProtocolLMTP then fresh
  else
    let! pooled := pool_get_conn mxHost sourceIP in
    match pooled with
    | Some c =>
        let! result := perform_delivery_transaction c from to msg mxHost sourceIP true inboundAuth cfg in
        if seqb (Status result) "delivered" || seqb (Status result) "hard_bounce"
           || seqb (Status result) "timeout" || seqb (Status result) "unknown"
        then ret result
        else fresh
    | None => fresh
    end.

(** [d.reputationTracker.RecordDeliveryAttempt], section by section. *)
Fixpoint record_sections (fuel : nat) (a : attempt) (pc : attempt_pc) : M unit :=
  match fuel with
  | O => ret tt
  | S fuel =>
      let! t := now in
      let! r := on_reputation env (fun rt =>
                  let '(pc, (rt, evs)) := section rt t a pc in ((pc, evs), rt)) (fun r => EvReputation r.2) in
      match r.1 with
      | AtEnd => ret tt
      | pc => record_sections fuel a pc
      end
  end.
Definition record_attempt (sourceIP : string) (result : DeliveryResult) (from to mxHost : string) : M unit :=
  let a := mkAttempt sourceIP (seqb (Status result) "delivered") (classifiedErr result)
             (mkDeliveryInfo from to "" "" mxHost) in
  let! pc := on_reputation env (fun rt => (start_attempt rt a, rt)) (fun _ => EvTick) in
  record_sections max_sections a pc.

(** The loop of [tryDeliveryWithIPVersion] over the source addresses. *)
Fixpoint try_sources (from to msg mxHost : string) (mxIPs : list string) (useIPv6 : bool)
    (protocol : string) (inboundAuth : option InboundAuthResults) (cfg : OutboundConfig)
    (sourceIPs : list string) (lastResult : DeliveryResult) : M DeliveryResult :=
  match sourceIPs with
  | [] => ret lastResult
  | sourceIP :: rest =>
      let! e := ctx_err in
      match e with
      | Some _ => ret (failure traceID "timeout" mxHost sourceIP "Context canceled")
      | None =>
          let! result := attempt_delivery from to msg mxHost mxIPs sourceIP useIPv6 protocol
                           inboundAuth cfg in
          let! _ := record_attempt sourceIP result from to mxHost in
          if is_final_result (Status result) || seqb (Status result) "timeout" then ret result
          else try_sources from to msg mxHost mxIPs useIPv6 protocol inboundAuth cfg rest result
      end
  end.

(** [tryDeliveryWithIPVersion] *)
Definition try_delivery_with_ip_version (from to msg mxHost : string) (mxIPs : list string)
    (useIPv6 : bool) (protocol : string) (inboundAuth : option InboundAuthResults)
    (cfg : OutboundConfig) : M DeliveryResult :=
  let '(_, domain) := split_email to in
  let! rnd := ask env (e_random env) in
  let! sourceIPs := on_rotator env (fun r => select_ips r useIPv6 domain rnd) in
  let! clock := ask env (e_health_clock env) in
  let! healthyIPs := on_reputation env (fun rt => (get_healthy_ips rt clock sourceIPs, rt))
                       (fun _ => EvTick) in
  let healthyIPs := match healthyIPs with [] => sourceIPs | _ => healthyIPs end in
  try_sources from to msg mxHost mxIPs useIPv6 protocol inboundAuth cfg healthyIPs empty_result.

(** [resolveMXHost]: the addresses, and whether there are IPv4 and IPv6 ones. *)
Definition has_version (v6 : bool) (mxIPs : list string) : bool :=
  existsb (fun ip => match parse_ip ip with Some p => Bool.eqb (is_v6 p) v6 | None => false end) mxIPs.
Definition resolve_mx_host (mxHost : string) : M (result error (list string * bool * bool)) :=
  let! answer := ask env (fun h => e_host env h mxHost) in
  let! r := on_mx env (fun m => (resolver_lookup_host (dnsResolver m) answer, m)) (EvHost mxHost) in
  ret (match r with
       | Err e => Err e
       | Ok mxIPs => Ok (mxIPs, has_version false mxIPs, has_version true mxIPs)
       end).

(** ** The MX loop of [DeliverMessage] *)

(** The order of the IP versions. *)
Record egress : Type := mkEgress {
  eg_tryIPv4 : bool; eg_tryIPv6 : bool; eg_tryIPv6First : bool; eg_targetPreferIPv6 : bool
}.
Definition choose_egress (cfg : OutboundConfig) (protocol : string) (rot : IPRotator) : egress :=
  let ipMode := ip_mode_for_protocol cfg protocol in
  let preferIPv6 := prefer_ipv6_for_protocol cfg protocol in
  let lmtp := seqb protocol ProtocolLMTP in
  let tryIPv4 := (seqb ipMode IPModeDual || seqb ipMode IPModeIPv4) && has_ipv4 rot && negb lmtp in
  let tryIPv6 := (seqb ipMode IPModeDual || seqb ipMode IPModeIPv6) && has_ipv6 rot && negb lmtp in
  mkEgress tryIPv4 tryIPv6
    (tryIPv6 && (seqb ipMode IPModeIPv6 || (seqb ipMode IPModeDual && preferIPv6)))
    (if seqb ipMode IPModeIPv4 then false else if seqb ipMode IPModeIPv6 then true else preferIPv6).

(** The IP versions to try for one MX with the given addresses. *)
Definition versions (eg : egress) (hasIPv4 hasIPv6 : bool) : list bool :=
  let v4 := if eg_tryIPv4 eg && hasIPv4 then [false] else [] in
  let v6 := if eg_tryIPv6 eg && hasIPv6 then [true] else [] in
  if eg_tryIPv6First eg then v6 ++ v4 else v4 ++ v6.

(** The attempts for one MX; [true]: a final result, which is returned. *)
Fixpoint try_versions (from to msg mxHost : string) (mxIPs : list string) (vs : list bool)
    (protocol : string) (inboundAuth : option InboundAuthResults) (cfg : OutboundConfig)
    (lastResult : DeliveryResult) : M (DeliveryResult * bool) :=
  match vs with
  | [] => ret (lastResult, false)
  | v :: vs =>
      let! result := try_delivery_with_ip_version from to msg mxHost mxIPs v protocol inboundAuth cfg in
      if is_final_result (Status result) then ret (result, true)
      else try_versions from to msg mxHost mxIPs vs protocol inboundAuth cfg result
  end.

Definition try_mx (from to msg mxHost : string) (mxIPs : list string) (hasIPv4 hasIPv6 : bool)
    (eg : egress) (protocol : string) (inboundAuth : option InboundAuthResults)
    (cfg : OutboundConfig) (lastResult : DeliveryResult) : M (DeliveryResult * bool) :=
  if eg_tryIPv6First eg || eg_tryIPv4 eg then
    try_versions from to msg mxHost mxIPs (versions eg hasIPv4 hasIPv6) protocol inboundAuth cfg lastResult
  else
    let! result := attempt_delivery from to msg mxHost mxIPs "" (eg_targetPreferIPv6 eg) protocol
                     inboundAuth cfg in
    let! _ := record_attempt "" result from to mxHost in
    ret (result, is_final_result (Status result)).

Fixpoint mx_loop (from to msg : string) (mxs : list MXRecord) (eg : egress) (protocol : string)
    (inboundAuth : option InboundAuthResults) (cfg : OutboundConfig) (lastResult : DeliveryResult)
    : M DeliveryResult :=
  match mxs with
  | [] => ret lastResult
  | mx :: rest =>
      let! e := ctx_err in
      match e with
      | Some _ => ret (failure traceID "timeout" (Host mx) "" "Context canceled")
      | None =>
          let! r := resolve_mx_host (Host mx) in
          match r with
          | Err e =>
              mx_loop from to msg rest eg protocol inboundAuth cfg
                (failure traceID "temp_fail" (Host mx) "" ("Failed to resolve MX host: " +:+ error_text e))
          | Ok (mxIPs, hasIPv4, hasIPv6) =>
              let! tried := try_mx from to msg (Host mx) mxIPs hasIPv4 hasIPv6 eg protocol
                              inboundAuth cfg lastResult in
              let '(result, final) := tried in
              if final : bool then ret result
              else mx_loop from to msg rest eg protocol inboundAuth cfg result
          end
      end
  end.

(** ** Signing *)

(** What the caller asks for. *)
Record sign_request : Type := mkSignRequest {
  dkimPrivateKey : string; dkimSelector : string; dkimDomain : string; skipDKIMValidation : bool;
  arcPrivateKey : string; arcSelector : string; arcDomain : string
}.

(** The key, selector and domain to sign with: an explicit key first, then the
    key store; [None]: an explicit key, and a sender without a domain. *)
Definition dkim_parameters (from message : string) (req : sign_request)
    : M (option (string * string * string)) :=
  let explicit := (dkimPrivateKey req, dkimSelector req, dkimDomain req) in
  if negb (is_empty (dkimPrivateKey req)) && negb (is_empty (dkimSelector req)) then
    if is_empty (dkimDomain req) then
      let signDomain := extract_domain_from_email from in
      ret (if is_empty signDomain then None else Some (dkimPrivateKey req, dkimSelector req, signDomain))
    else ret (Some explicit)
  else if is_empty (dkimPrivateKey req) then
    let lookupDomain := extract_from_header_domain message in
    let lookupDomain := if is_empty lookupDomain then extract_domain_from_email from else lookupDomain in
    if is_empty lookupDomain then ret (Some explicit)
    else
      let! lenv := ask env (e_keys env) in
      let! found := on_keys env (fun ks =>
        match ks with
        | None => (None, None)
        | Some ks => let '(r, ks) := ks_lookup ks lenv lookupDomain in (r, Some ks)
        end) in
      ret (Some (match found with
                 | Some (keyPEM, selector) => (keyPEM, selector, lookupDomain)
                 | None => explicit
                 end))
  else ret (Some explicit).

(** The DKIM step; [None]: the delivery ends with an error. *)
Definition sign_dkim (from message : string) (req : sign_request) : M (option string) :=
  let! params := dkim_parameters from message req in
  match params with
  | None => ret None
  | Some (signKey, signSelector, signDomain) =>
      if negb (is_empty signKey) && negb (is_empty signSelector) && negb (is_empty signDomain) then
        let! dkimValid :=
          (if skipDKIMValidation req then ret true
           else
             let! txt := ask env (e_txt env) in
             on_mx env (fun m =>
               (is_ok (validate_dkim_configuration
                         (fun name => resolver_lookup_txt (dnsResolver m) (txt name))
                         signSelector signDomain signKey), m)) (fun _ => EvTick)) in
        if dkimValid : bool then
          let! t := now in
          ret (Some (match dkim_sign_message t message signKey signSelector signDomain with
                     | Ok signed => signed
                     | Err _ => message
                     end))
        else ret (Some message)
      else ret (Some message)
  end.

(** The ARC step: request parameters before the configuration's. *)
Definition arc_default (v : string) (d : Deliverer) (field : ARCConfig -> string) : string :=
  if is_empty v then match d_arcConfig d with Some c => field c | None => v end else v.
Definition sign_arc (d : Deliverer) (req : sign_request) (signedMessage : string) : string :=
  let key := if is_empty (arcPrivateKey req) &&
                match d_arcConfig d with Some c => arc_Enabled c | None => false end
                && negb (is_empty (d_arcPrivateKey d))
             then d_arcPrivateKey d else arcPrivateKey req in
  let selector := arc_default (arcSelector req) d arc_Selector in
  let domain := arc_default (arcDomain req) d arc_Domain in
  if negb (is_empty key) && negb (is_empty selector) && negb (is_empty domain) then
    match arc_sign_message signedMessage (mkSignConfig selector domain key "relaxed" "relaxed") with
    | Ok arcSigned => arcSigned
    | Err _ => signedMessage
    end
  else signedMessage.

(** ** [DeliverMessage] *)

(** The per-domain rate limit; [true]: go on. *)
Definition check_rate_limit (cfg : OutboundConfig) (domain : string) : M bool :=
  if (0 <? out_PerDomainIntervalSeconds cfg) && negb (is_domain_whitelisted cfg domain) then
    let! t0 := now in
    let! t1 := now in
    on_limiters env (fun l => wait_for_domain_rate_limit l cfg t0 t1 domain)
  else ret true.

(** The hosts to try, or the result that ends the delivery. *)
Definition route_message (cfg : OutboundConfig) (protocol domain : string)
    : M (result DeliveryResult (list MXRecord)) :=
  let fail status text := Err (failure traceID status "" "" text) in
  let fixedDest := fixed_destination cfg protocol in
  if negb (is_empty fixedDest) then
    ret (match split_host_port fixedDest with
         | Err e => fail "error" (invalid_destination protocol fixedDest e)
         | Ok (host, _) => Ok [mkMXRecord host 0]
         end)
  else
    let! ctx0 := ctx_err in
    let! t0 := now in
    let! answered := ask env (e_mx env) in
    let '(ctx1, a) := answered in
    let! t1 := now in
    let! r := on_mx env (fun m => lookup (e_sort env) m ctx0 ctx1 t0 t1 domain a) (EvLookup domain) in
    ret (match r with
         | Err e => if error_is e errNoMXRecords then fail "hard_bounce" "No MX records found"
                    else fail "temp_fail" ("MX lookup failed: " +:+ error_text e)
         | Ok [] => fail "hard_bounce" "No MX records found"
         | Ok l => Ok l
         end).

(** The end of every delivery that reached the MX loop. *)
Definition finish (d : Deliverer) (start : Z) (domain : string) (r : DeliveryResult) : M DeliveryResult :=
  let! t := now in
  let r := with_duration r (Z.quot (time_sub t start) 1000000) in
  let! _ := (if d_metrics d then log env (EvMetrics (Status r) domain (AttemptDurationMs r))
             else ret tt) in
  ret r.

(** What follows the reading of the clock and of the configuration. *)
Definition deliver_under (d : Deliverer) (start : Z) (cfg : OutboundConfig)
    (from to message transport : string) (req : sign_request)
    (inboundAuth : option InboundAuthResults) : M DeliveryResult :=
  let fail status text := ret (failure traceID status "" "" text) in
  let protocol := if is_empty transport then out_DefaultProtocol cfg else transport in
  let '(_, domain) := split_email to in
  if is_empty domain then fail "hard_bounce" "Invalid recipient address"
  else
  let! allowed := check_rate_limit cfg domain in
  if negb allowed then fail "rate_limit" "Domain rate limit exceeded"
  else
  let! signed := sign_dkim from message req in
  match signed with
  | None => fail "error" "Invalid sender address for DKIM signing"
  | Some signedMessage =>
  let signedMessage := sign_arc d req signedMessage in
  let! route := route_message cfg protocol domain in
  match route with
  | Err r => ret r
  | Ok mxRecords =>
  let! rot := on_rotator env (fun r => (r, r)) in
  let eg := choose_egress cfg protocol rot in
  let! result := mx_loop from to signedMessage mxRecords eg protocol inboundAuth cfg empty_result in
  finish d start domain result
  end end.

Definition deliver_message (d : Deliverer) (from to message transport : string) (req : sign_request)
    (inboundAuth : option InboundAuthResults) : M DeliveryResult :=
  let! start := now in
  let! cfg := get_config env in
  deliver_under d start cfg from to message transport req inboundAuth.

(** The configuration that a delivery works under: the one in force when it
    starts. *)
Definition config_read (w : world) : OutboundConfig :=
  sh_config (e_interfere env (EvTick :: w_trace w) (w_shared w)).

Lemma deliver_message_reads d from to message transport req ia w :
  deliver_message d from to message transport req ia w =
  deliver_under d (e_now env (w_trace w)) (config_read w) from to message transport req ia
    (record env EvTick (record env EvTick w)).
Proof. reflexivity. Qed.

End Deliverer.

(** ** The engine's life *)

(** [NewDeliverer]; [keyFile] is the file of the ARC key. *)
Definition new_deliverer `{Unicode} (cfg : OutboundConfig) (expandedIPs : ExpandedSourceIPs)
    (mx : MXLookup) (repCfg : ReputationConfig) (arcCfg : option ARCConfig) (srsCfg : option SRSConfig)
    (keyFile : result error string) : Deliverer * shared :=
  let arcKey := match arcCfg with
                | Some a => if arc_Enabled a && negb (is_empty (arc_PrivateKeyPath a)) then
                              match keyFile with Ok k => k | Err _ => "" end
                            else ""
                | None => ""
                end in
  let srs := match srsCfg with
             | Some c =>
                 if srs_Enabled c && negb (length (srs_Domains c) =? 0)%nat then
                   match new_srs (srs_Domains c) (srs_Selection c) (srs_Secret c) (srs_MaxAge c)
                           (srs_HashLength c) (srs_Separator c) (srs_SkipDomains c)
                           (srs_SkipIfDKIMPass c) (srs_SkipIfSameDomain c) (srs_UseDynamicSubdomain c) with
                   | Ok s => Some s
                   | Err _ => None
                   end
                 else None
             | None => None
             end in
  (mkDeliverer arcCfg arcKey false,
   mkShared cfg (new_connection_pool (out_ConnectionPoolTTLSeconds cfg)) (new_tracker repCfg)
     (new_ip_rotator (IPv4 expandedIPs) (IPv6 expandedIPs) (out_SourceIPSelection cfg))
     ∅ srs mx None 0).

(** [ReloadConfig], [SetDKIMKeyStore]: deliveries that follow see the new
    value; [Stop]: the pool is closed and the tracker cleaned. *)
Definition deliverer_reload_config (s : shared) (cfg : OutboundConfig) : shared :=
  mkShared cfg (sh_pool s) (sh_reputation s) (sh_rotator s) (sh_limiters s) (sh_srs s) (sh_mx s)
    (sh_keys s) (sh_fresh s).
Definition set_dkim_key_store (s : shared) (ks : KeyStore) : shared :=
  mkShared (sh_config s) (sh_pool s) (sh_reputation s) (sh_rotator s) (sh_limiters s) (sh_srs s)
    (sh_mx s) (Some ks) (sh_fresh s).
Definition deliverer_stop (s : shared) (t1 : Z) (tloop : string -> Z) (t3 : Z) : list client * shared :=
  let '(closed, p) := close_all (sh_pool s) in
  (closed, mkShared (sh_config s) p (rep_cleanup (sh_reputation s) t1 tloop t3) (sh_rotator s)
             (sh_limiters s) (sh_srs s) (sh_mx s) (sh_keys s) (sh_fresh s)).
