(* ===== verification/DelivererSafety.v ===== *)
(** * What a delivery does and reports (properties of Deliverer.v)

    One pass over the engine with the logic of Effects.v: how many copies of
    the message an operation may have handed over, and what its result says
    about that. *)

From stdpp Require Import base gmap sets list strings.
From Stdlib Require Import ZArith Lia.
From S2P Require Import Prelude GoString GoError NetIP Config IPExpansion ErrorClassifier IPReputation ConnectionPool.
From S2P Require Import MXLookup IPRotator DomainLimiter LMTP SRS DKIM KeyStore ARC MIMEHeader.
From S2P Require Import Delivery Effects Deliverer.
#[local] Open Scope Z_scope.

(** ** Copies handed over *)

(** The peer has taken responsibility for the message. *)
Definition accepted (ev : event) : bool :=
  match ev with
  | EvEnd _ (Ok _) => true
  | EvReply PFinal _ (Ok (code, _)) => is_2xx code
  | _ => false
  end.

(** The whole message was sent, and nothing says whether it was taken. *)
Definition unanswered (ev : event) : bool :=
  match ev with
  | EvEnd _ (Err e) => match as_smtp e with Some (code, _) => code =? 0 | None => true end
  | EvReply PFinal _ (Err _) => true
  | _ => false
  end.

(** A positive reply that go-smtp takes for an error. *)
Definition odd_positive (ev : event) : bool :=
  match ev with
  | EvEnd _ (Err e) => match as_smtp e with Some (code, _) => is_2xx code | None => false end
  | _ => false
  end.

(** The peer may have taken a copy. *)
Definition may_deliver (ev : event) : bool := accepted ev || unanswered ev || odd_positive ev.
Definition copies (t : history) : nat := length (List.filter may_deliver t).

(** An LMTP server that answers a command before the message with an unexpected
    positive code. *)
Definition early_positive (ev : event) : bool :=
  match ev with
  | EvReply (PMail | PRcpt | PData) _ (Ok (code, _)) => is_2xx code
  | _ => false
  end.

(** What the environment does, as its documentation says: the context ends
    with an error of its own, and stays ended; go-smtp's errors are not the
    engine's wrapper; and no server answers the end of the data with a positive
    code other than 250. *)
Record polite (env : Env) : Prop := {
  polite_ctx h e : e_ctx_err env h = Some e -> as_smtp e = None /\ as_indeterminate e = false;
  polite_call h q e : e_call env h q = Err e -> as_indeterminate e = false;
  polite_end h c e code m :
    e_end env h c = Err e -> as_smtp e = Some (code, m) -> is_2xx code = false;
  polite_done h evs : e_done_first env h = true -> e_ctx_err env (evs ++ h) <> None
}.

(** The same, whatever the servers answer to the end of the data. *)
Record documented (env : Env) : Prop := {
  doc_ctx h e : e_ctx_err env h = Some e -> as_smtp e = None /\ as_indeterminate e = false;
  doc_call h q e : e_call env h q = Err e -> as_indeterminate e = false;
  doc_done h evs : e_done_first env h = true -> e_ctx_err env (evs ++ h) <> None
}.

Lemma polite_documented env : polite env -> documented env.
Proof. intros []. by split. Qed.

(** The deadline has passed, and the context does not know it yet. *)
Definition late_context (env : Env) : Prop :=
  exists d h, e_deadline env = Some d /\ time_sub d (e_now env h) <= 0 /\
              e_ctx_err env (EvTick :: h) = None.

(** What a result tells: a delivered message was accepted once, an unknown one
    was sent once without an answer, and anything else was not taken by
    anyone. *)
Inductive verdict (t : history) : DeliveryResult -> Prop :=
| verdict_delivered r :
    Status r = "delivered" -> copies t = 1%nat -> existsb accepted t = true -> verdict t r
| verdict_early r :
    Status r = "delivered" -> copies t = 0%nat -> existsb early_positive t = true -> verdict t r
| verdict_unknown r :
    Status r = "unknown" -> copies t = 1%nat -> existsb unanswered t = true -> verdict t r
| verdict_failed r :
    Status r <> "delivered" -> Status r <> "unknown" -> copies t = 0%nat -> verdict t r.

Section Safety.
Context `{Crypto, Unicode}.
Context (env : Env) (Hdoc : documented env) (from to : string).

(** Nothing is asked of the state that others share. *)
#[local] Abbreviation anything := (fun _ : shared => True).
Lemma Hkeeps : keeps env anything.
Proof. by intros h s. Qed.

(** The answer to the end of the data is the server's. *)
Definition heard (ev : event) : Prop :=
  match ev with EvEnd c r => exists h, r = e_end env h c | _ => True end.

(** ** Specifications *)

Definition does {A} (m : M A) (R : history -> option A -> Prop) : Prop :=
  forall h, runs anything m h (fun t o => exists new, t = new ++ h /\ Forall heard new /\ R new o).

Definition quiet_event (ev : event) : Prop := may_deliver ev = false.

(** Nothing is handed over, and there is a value, which satisfies [P]. *)
Definition quiet {A} (m : M A) (P : A -> Prop) : Prop :=
  does m (fun new o => Forall quiet_event new /\ exists a, o = Some a /\ P a).

(** A server answered the end of the data with a positive code other than 250:
    nothing is said about such a run.  Otherwise a result has its verdict, and
    nothing was handed over before a panic. *)
Definition odd (new : history) : Prop := existsb odd_positive new = true.
Definition settled (new : history) (r : DeliveryResult) : Prop := odd new \/ verdict new r.
Definition clear (new : history) : Prop := odd new \/ copies new = 0%nat.

(** A delivery operation: its verdict; a panic needs a late context. *)
Definition delivers_if (P : DeliveryResult -> Prop) (m : M DeliveryResult) : Prop :=
  does m (fun new o => match o with
                       | Some r => settled new r /\ P r
                       | None => clear new /\ late_context env
                       end).
Definition delivers (m : M DeliveryResult) : Prop := delivers_if (fun _ => True) m.

Lemma copies_app a b : copies (a ++ b) = (copies a + copies b)%nat.
Proof. unfold copies. by rewrite List.filter_app, length_app. Qed.

Lemma quiet_zero t : Forall quiet_event t -> copies t = 0%nat.
Proof.
  unfold copies. induction 1 as [|ev t Hev _ IH]; [done|]. cbn. unfold quiet_event in Hev.
  by rewrite Hev.
Qed.

(** Events before and after that hand nothing over do not change a verdict. *)
Lemma verdict_app a b r :
  verdict a r -> copies b = 0%nat -> verdict (a ++ b) r.
Proof.
  intros Hv Hb. destruct Hv.
  - apply verdict_delivered; [done| |by rewrite existsb_app, orb_true_iff; left].
    rewrite copies_app. lia.
  - apply verdict_early; [done| |by rewrite existsb_app, orb_true_iff; left].
    rewrite copies_app. lia.
  - apply verdict_unknown; [done| |by rewrite existsb_app, orb_true_iff; left].
    rewrite copies_app. lia.
  - apply verdict_failed; [done..|]. rewrite copies_app. lia.
Qed.

Lemma verdict_after a b r :
  verdict b r -> copies a = 0%nat -> verdict (a ++ b) r.
Proof.
  intros Hv Hb. destruct Hv.
  - apply verdict_delivered; [done| |by rewrite existsb_app, orb_true_iff; right].
    rewrite copies_app. lia.
  - apply verdict_early; [done| |by rewrite existsb_app, orb_true_iff; right].
    rewrite copies_app. lia.
  - apply verdict_unknown; [done| |by rewrite existsb_app, orb_true_iff; right].
    rewrite copies_app. lia.
  - apply verdict_failed; [done..|]. rewrite copies_app. lia.
Qed.

Lemma verdict_status t r r' : Status r = Status r' -> verdict t r -> verdict t r'.
Proof.
  intros Hs Hv. destruct Hv; [eapply verdict_delivered|eapply verdict_early|eapply verdict_unknown
    |eapply verdict_failed]; rewrite <- ?Hs; done.
Qed.

Lemma odd_app a b : odd a \/ odd b -> odd (a ++ b).
Proof. unfold odd. by rewrite existsb_app, orb_true_iff. Qed.

Lemma clear_app a b : clear a -> clear b -> clear (a ++ b).
Proof.
  unfold clear. rewrite copies_app.
  intros [Ha|Ha] [Hb|Hb]; [left; apply odd_app; auto..|right; lia].
Qed.

Lemma settled_app a b r : settled a r -> clear b -> settled (a ++ b) r.
Proof.
  intros [Ha|Ha] [Hb|Hb]; [left; apply odd_app; auto..|right; by apply verdict_app].
Qed.

Lemma settled_after a b r : settled b r -> clear a -> settled (a ++ b) r.
Proof.
  intros [Ha|Ha] [Hb|Hb]; [left; apply odd_app; auto..|right; by apply verdict_after].
Qed.

Lemma settled_status t r r' : Status r = Status r' -> settled t r -> settled t r'.
Proof. intros Hs [Ho|Hv]; [by left|right; by eapply verdict_status]. Qed.

Lemma quiet_clear t : Forall quiet_event t -> clear t.
Proof. intros Hq. right. by apply quiet_zero. Qed.

Lemma clear_nil : clear [].
Proof. by right. Qed.
#[local] Hint Resolve clear_nil : core.

Lemma settled_failed t r :
  Status r <> "delivered" -> Status r <> "unknown" -> clear t -> settled t r.
Proof. intros H1 H2 [Ho|Hc]; [by left|right; by apply verdict_failed]. Qed.

(** *** Rules *)

Lemma does_ret {A} (a : A) R : R [] (Some a) -> does (ret a) R.
Proof. intros HR h. apply runs_ret. exists []. by split_and!. Qed.

Lemma does_bind {A B} (m : M A) (k : A -> M B) R1 R :
  does m R1 ->
  (forall a n1, R1 n1 (Some a) -> does (k a) (fun n2 o => R (n2 ++ n1) o)) ->
  (forall n1, R1 n1 None -> R n1 None) ->
  does (bind m k) R.
Proof.
  intros Hm Hk Hn h. apply runs_bind. eapply runs_mono; [apply Hm|].
  intros t [a|] (n1 & -> & HF & HR); [|by exists n1; auto].
  eapply runs_mono; [by apply Hk|]. intros t o (n2 & -> & HF2 & HR2).
  exists (n2 ++ n1). rewrite app_assoc. split_and!; [done| |done]. by apply Forall_app.
Qed.

Lemma does_mono {A} (m : M A) (R R' : history -> option A -> Prop) :
  does m R -> (forall n o, R n o -> R' n o) -> does m R'.
Proof.
  intros Hm HR h. eapply runs_mono; [apply Hm|]. intros t o (n & -> & HF & Hn). exists n. auto.
Qed.

Lemma does_ask {A} (oracle : history -> A) R : (forall a, R [EvTick] (Some a)) -> does (ask env oracle) R.
Proof.
  intros HR h. apply runs_ask; [apply Hkeeps|]. exists [EvTick]. split_and!; [done|by repeat constructor|done].
Qed.

Lemma does_log ev R : heard ev -> R [ev] (Some tt) -> does (log env ev) R.
Proof.
  intros Ha HR h. apply runs_log; [apply Hkeeps|]. exists [ev]. split_and!; [done|by repeat constructor|done].
Qed.

Lemma does_call q R :
  (forall r, (forall e, r = Err e -> as_indeterminate e = false) -> R [EvCall q r] (Some r)) ->
  does (call env q) R.
Proof.
  intros HR h. apply runs_call; [done|]. exists [EvCall q (e_call env h q)].
  split_and!; [done|by repeat constructor|]. apply HR. intros e. apply Hdoc.
Qed.

Lemma does_on_shared {A} (f : history -> shared -> A * shared) ev (P : A -> Prop) R :
  (forall h s, P (f h s).1) ->
  (forall a, heard (ev a)) -> (forall a, P a -> R [ev a] (Some a)) ->
  does (on_shared env f ev) R.
Proof.
  intros Hf Ha HR h. apply runs_on_shared; [done|]. intros s _.
  split; [done|]. eexists [_]. split_and!; [done|by repeat constructor|by apply HR].
Qed.

Lemma does_timeouts c R : (forall t, R [] (Some t)) -> does (timeouts c) R.
Proof. intros HR h. apply runs_timeouts. intros t. exists []. by split_and!. Qed.

Lemma does_set_timeouts c t R :
  R [EvTimeouts c t.1 t.2] (Some tt) -> does (set_timeouts env c t) R.
Proof.
  intros HR h. apply runs_set_timeouts; [done|]. eexists [_].
  split_and!; [done|by repeat constructor|done].
Qed.

Lemma does_read p c timeout R :
  (forall r, R [EvReply p c r] (Some r)) -> does (read_response env p c timeout) R.
Proof.
  intros HR h. apply runs_read_response; [done|]. intros r. eexists [_].
  split_and!; [done|by repeat constructor|done].
Qed.

(** *** Quiet operations *)

Lemma quiet_ret {A} (a : A) (P : A -> Prop) : P a -> quiet (ret a) P.
Proof. intros HP. apply does_ret. split; [constructor|by exists a]. Qed.

Lemma quiet_bind {A B} (m : M A) (k : A -> M B) (P : A -> Prop) (Q : B -> Prop) :
  quiet m P -> (forall a, P a -> quiet (k a) Q) -> quiet (bind m k) Q.
Proof.
  intros Hm Hk. eapply does_bind; [apply Hm| |].
  - intros a n1 (Hq & a' & [= <-] & HP). eapply does_mono; [by apply Hk|].
    intros n2 o (Hq2 & b & -> & HQ). split; [by apply Forall_app|by exists b].
  - by intros n1 (_ & a' & ? & _).
Qed.

Lemma quiet_mono {A} (m : M A) (P Q : A -> Prop) : quiet m P -> (forall a, P a -> Q a) -> quiet m Q.
Proof.
  intros Hm HQ. eapply does_mono; [apply Hm|]. intros n o (Hq & a & -> & HP). split; [done|].
  exists a. auto.
Qed.

(** A quiet step before anything. *)
Lemma delivers_quiet {A} (m : M A) (k : A -> M DeliveryResult) (P : A -> Prop) Q :
  quiet m P -> (forall a, P a -> delivers_if Q (k a)) -> delivers_if Q (bind m k).
Proof.
  intros Hm Hk. eapply does_bind; [apply Hm| |].
  - intros a n1 (Hq & a' & [= <-] & HP). eapply does_mono; [by apply Hk|].
    apply quiet_clear in Hq.
    intros n2 [r|]; [intros [Hv HQ]; split; [by apply settled_app|done]|].
    intros [Hc Hl]. split; [by apply clear_app|done].
  - by intros n1 (_ & a' & ? & _).
Qed.

Lemma quiet_ask {A} (oracle : history -> A) : quiet (ask env oracle) (fun _ => True).
Proof. apply does_ask. intros a. split; [by repeat constructor|by exists a]. Qed.

Lemma quiet_log ev : heard ev -> may_deliver ev = false -> quiet (log env ev) (fun _ => True).
Proof. intros Ha Hm. apply does_log; [done|]. split; [by repeat constructor|by exists tt]. Qed.

Lemma quiet_call q :
  quiet (call env q) (fun r => forall e, r = Err e -> as_indeterminate e = false).
Proof.
  apply does_call. intros r Hr. split; [by repeat constructor|by exists r].
Qed.

Lemma quiet_on_shared {A} (f : history -> shared -> A * shared) ev (P : A -> Prop) :
  (forall h s, P (f h s).1) ->
  (forall a, heard (ev a)) -> (forall a, may_deliver (ev a) = false) ->
  quiet (on_shared env f ev) P.
Proof.
  intros Hf Ha Hm. eapply does_on_shared; [done..|]. intros a HP.
  split; [constructor; [apply Hm|constructor]|by exists a].
Qed.

Lemma quiet_timeouts c : quiet (timeouts c) (fun _ => True).
Proof. apply does_timeouts. intros t. split; [constructor|by exists t]. Qed.

Lemma quiet_set_timeouts c t : quiet (set_timeouts env c t) (fun _ => True).
Proof. apply does_set_timeouts. split; [by repeat constructor|by exists tt]. Qed.

Lemma quiet_read p c timeout : p <> PFinal -> quiet (read_response env p c timeout) (fun _ => True).
Proof.
  intros Hp. apply does_read. intros r. split; [|by exists r]. constructor; [|constructor].
  unfold quiet_event, may_deliver. by destruct p, r as [[]|].
Qed.

Lemma quiet_if {A} (b : bool) (m1 m2 : M A) P : quiet m1 P -> quiet m2 P -> quiet (if b then m1 else m2) P.
Proof. by destruct b. Qed.

Definition ctx_answer (o : option error) : Prop :=
  forall e, o = Some e -> as_smtp e = None /\ as_indeterminate e = false.

Lemma quiet_ctx_err : quiet (ctx_err env) ctx_answer.
Proof.
  intros h. apply runs_ask; [apply Hkeeps|]. exists [EvTick].
  split_and!; [done|by repeat constructor|by repeat constructor|].
  eexists. split; [done|]. intros e. apply Hdoc.
Qed.

Lemma quiet_remaining : quiet (remaining env) (fun _ => True).
Proof.
  unfold remaining. destruct (e_deadline env); [|by apply quiet_ret].
  eapply quiet_bind; [apply quiet_ask|]. intros. by apply quiet_ret.
Qed.

Lemma quiet_close c : quiet (close env c) (fun _ => True).
Proof. by apply quiet_log. Qed.

Lemma quiet_true {A} (m : M A) (P : A -> Prop) : quiet m P -> quiet m (fun _ => True).
Proof. intros Hm. by eapply quiet_mono. Qed.

(** *** The SMTP transaction *)

(** A post-condition that events before it, which hand nothing over, keep. *)
Definition absorbs {A} (R : history -> option A -> Prop) : Prop :=
  forall n1 n2 o, Forall quiet_event n1 -> R n2 o -> R (n2 ++ n1) o.

Lemma does_quiet {A B} (m : M A) (k : A -> M B) (P : A -> Prop) R :
  absorbs R -> quiet m P -> (forall a, P a -> does (k a) R) -> does (bind m k) R.
Proof.
  intros HR Hm Hk. eapply does_bind; [apply Hm| |].
  - intros a n1 (Hq & a' & [= <-] & HP). eapply does_mono; [by apply Hk|]. auto.
  - by intros n1 (_ & a' & ? & _).
Qed.

(** A quiet end after something that may have handed a copy over. *)
Lemma quiet_end (m : M DeliveryResult) n1 :
  quiet m (settled n1) ->
  does m (fun n2 o => match o with
                      | Some r => settled (n2 ++ n1) r /\ True
                      | None => clear (n2 ++ n1) /\ late_context env
                      end).
Proof.
  intros Hm. eapply does_mono; [apply Hm|]. intros n2 o (Hq & r & -> & Hv).
  split; [|done]. apply settled_after; [done|by apply quiet_clear].
Qed.

(** A step whose answer does not matter. *)
Lemma quiet_shared {A} (f : history -> shared -> A * shared) ev :
  (forall a, heard (ev a)) -> (forall a, may_deliver (ev a) = false) ->
  quiet (on_shared env f ev) (fun _ => True).
Proof. intros. by apply (quiet_on_shared _ _ (fun _ => True)). Qed.

(** What [deliverPayload] tells. *)
Definition payload_told (new : history) (p : result error string) : Prop :=
  match p with
  | Ok _ => copies new = 1%nat /\ existsb accepted new = true
  | Err e =>
      if as_indeterminate e then
        match as_smtp e with
        | Some (code, _) => if code =? 0 then copies new = 1%nat /\ existsb unanswered new = true
                            else copies new = 0%nat
        | None => copies new = 1%nat /\ existsb unanswered new = true
        end
      else copies new = 0%nat
  end.
Definition payload_post (new : history) (p : result error string) : Prop := odd new \/ payload_told new p.
Definition payload_spec (new : history) (o : option (result error string)) : Prop :=
  exists p, o = Some p /\ payload_post new p.

Lemma payload_absorbs : absorbs payload_spec.
Proof.
  intros n1 n2 o Hq%quiet_zero (p & -> & [Ho|Hp]); exists p; (split; [done|]);
    [left; apply odd_app; auto|right].
  unfold payload_told in *. rewrite copies_app, Hq, Nat.add_0_r, !existsb_app.
  destruct p as [x|e]; [destruct Hp as [-> ->]; done|].
  destruct (as_indeterminate e); [|done]. destruct (as_smtp e) as [[code m]|].
  - destruct (code =? 0); [|done]. destruct Hp as [-> ->]; done.
  - destruct Hp as [-> ->]; done.
Qed.

Lemma payload_err e : as_indeterminate e = false -> does (ret (Err e)) payload_spec.
Proof. intros He. apply does_ret. exists (Err e). split; [done|]. right. cbn. by rewrite He. Qed.

Lemma payload_end c :
  does (bind (end_data env c) (fun resp => match resp with
          | Err e => ret (Err (ErrIndeterminate e))
          | Ok text => ret (Ok (replace_all text (str1 LF) " "))
          end)) payload_spec.
Proof.
  intros h. apply runs_bind. apply runs_end_data; [apply Hkeeps|].
  assert (Hh : Forall heard [EvEnd c (e_end env h c)]) by (repeat constructor; by exists h).
  destruct (e_end env h c) as [text|e].
  - apply runs_ret. exists [EvEnd c (Ok text)]. split_and!; [done..|].
    eexists. split; [done|]. right. by split.
  - apply runs_ret. exists [EvEnd c (Err e)]. split_and!; [done..|].
    eexists. split; [done|]. unfold payload_post, odd, payload_told. cbn [as_indeterminate as_smtp].
    unfold copies. cbn [List.filter existsb]. unfold may_deliver. cbn [accepted unanswered odd_positive].
    destruct (as_smtp e) as [[code m]|] eqn:He; [|by right].
    destruct (is_2xx code) eqn:H2; [by left|right]. by destruct (code =? 0).
Qed.

(** Closing steps of the proofs below: an error before the data. *)
Lemma ctx_wrapped_foreign what e : as_indeterminate e = false -> as_indeterminate (ctx_wrapped what e) = false.
Proof. done. Qed.

Tactic Notation "payload_step" uconstr(lem) := eapply does_quiet; [apply payload_absorbs|eapply lem|].
Ltac payload_ctx :=
  payload_step quiet_ctx_err;
  let o := fresh "o" in let Ho := fresh "Ho" in
  intros o Ho; destruct o as [?e|];
  [apply payload_err, ctx_wrapped_foreign; by eapply (Ho _ eq_refl)|clear Ho].
Ltac payload_call :=
  let r := fresh "r" in let Hr := fresh "Hr" in
  payload_step quiet_call; intros r Hr; destruct r as [?u|?e]; [|apply payload_err; by apply Hr].

Lemma deliver_payload_spec c msg ia cfg :
  does (deliver_payload env c from to msg ia cfg) payload_spec.
Proof.
  unfold deliver_payload.
  payload_step quiet_ask. intros t _.
  eapply does_quiet; [apply payload_absorbs|by apply quiet_shared|]. intros mailFrom _.
  eapply does_quiet; [apply payload_absorbs|apply quiet_if; [eapply quiet_ask|by apply quiet_ret]|].
  intros utf8 _. payload_ctx. payload_call.
  payload_ctx. payload_call. payload_ctx. payload_call.
  payload_step quiet_ask. intros isNil _. destruct isNil; [by apply payload_err|].
  payload_call. payload_step quiet_timeouts. intros ts _.
  payload_step quiet_remaining. intros rem _. payload_step quiet_set_timeouts. intros _ _.
  apply payload_end.
Qed.

(** The verdict on an error of the transaction. *)
Lemma closed_keeps ctxErr e :
  ctx_answer ctxErr ->
  as_smtp (closed_by_context ctxErr e) = as_smtp e /\
  as_indeterminate (closed_by_context ctxErr e) = as_indeterminate e.
Proof.
  destruct ctxErr as [c|]; [|done]. intros Hc. destruct (Hc c eq_refl) as [H1 H2].
  cbn. by rewrite H1, H2.
Qed.

Lemma verdict_error n1 e e' mxHost sourceIP :
  payload_post n1 (Err e) -> as_smtp e' = as_smtp e -> as_indeterminate e' = as_indeterminate e ->
  settled n1 (map_smtp_error (e_trace_id env) e' mxHost sourceIP).
Proof.
  intros [Ho|Hp] Hs Hi; [by left|right]. pose proof (map_smtp_error_cases (e_trace_id env) e' mxHost sourceIP) as Hc.
  cbv zeta in Hc. rewrite Hs, Hi in Hc. unfold payload_told in Hp.
  set (r := map_smtp_error _ _ _ _) in *. clearbody r.
  assert (Hnone : Status r = (if as_indeterminate e then "unknown"
            else if is_bind_error e' then "error" else "timeout") ->
    (if as_indeterminate e then copies n1 = 1%nat /\ existsb unanswered n1 = true
     else copies n1 = 0%nat) -> verdict n1 r).
  { intros Hst. destruct (as_indeterminate e).
    - intros [? ?]. by apply verdict_unknown.
    - intros ?. apply verdict_failed; [..|done]; rewrite Hst; by destruct (is_bind_error e'). }
  destruct (as_smtp e) as [[code m]|]; [|by auto].
  destruct (code =? 0); [by auto|].
  assert (copies n1 = 0%nat) as Hz by (destruct (as_indeterminate e); intuition).
  apply verdict_failed; [..|done];
    repeat case_match; destruct_or?; congruence.
Qed.

Lemma quiet_pool_put c mxHost sourceIP : quiet (pool_put_conn env c mxHost sourceIP) (fun _ => True).
Proof.
  unfold pool_put_conn. eapply quiet_bind; [eapply quiet_ask|]. intros t _.
  eapply quiet_bind; [|by intros; apply quiet_ret].
  by apply quiet_shared.
Qed.

Lemma perform_delivery_spec c msg mxHost sourceIP reused ia cfg :
  delivers (perform_delivery_transaction env c from to msg mxHost sourceIP reused ia cfg).
Proof.
  unfold perform_delivery_transaction.
  eapply delivers_quiet; [apply quiet_ctx_err|]. intros [e|] _.
  { eapply delivers_quiet; [apply quiet_close|]. intros _ _. apply does_ret.
    split; [by apply settled_failed|done]. }
  eapply delivers_quiet; [apply quiet_timeouts|]. intros ts _.
  eapply delivers_quiet; [apply quiet_if; [apply quiet_set_timeouts|by apply quiet_ret]|]. intros _ _.
  eapply delivers_quiet; [apply quiet_remaining|]. intros rem _.
  eapply delivers_quiet; [apply quiet_timeouts|]. intros ts' _.
  eapply (delivers_quiet _ _ (fun _ => True)).
  { destruct rem; [apply quiet_if; [apply quiet_set_timeouts|]|]; by apply quiet_ret. }
  intros _ _. eapply does_bind; [by apply deliver_payload_spec| |by intros n1 (? & ? & _)].
  intros p n1 (p' & [= <-] & Hp). destruct p as [text|e]; apply quiet_end.
  - eapply quiet_bind; [eapply (quiet_call (RReset c)); done|]. intros r _.
    eapply quiet_bind; [apply quiet_ask|]. intros stopped _.
    eapply quiet_bind; [apply quiet_if; [apply quiet_pool_put|by apply quiet_log]|]. intros _ _.
    apply quiet_ret. destruct Hp as [Ho|[]]; [by left|right; by apply verdict_delivered].
  - eapply quiet_bind; [apply quiet_ask|]. intros stopped _.
    eapply (quiet_bind _ _ (fun e' => as_smtp e' = as_smtp e /\ as_indeterminate e' = as_indeterminate e)).
    { destruct stopped; [by apply quiet_ret|].
      eapply quiet_bind; [apply quiet_ctx_err|]. intros o Ho. apply quiet_ret. by apply closed_keeps. }
    intros e' [Hs Hi]. eapply quiet_bind; [apply quiet_close|]. intros _ _.
    apply quiet_ret. by apply (verdict_error n1 e e').
Qed.

(** *** The LMTP transaction *)

(** The verdicts that earlier events, which hand nothing over, keep. *)
Definition verdict_spec (new : history) (o : option DeliveryResult) : Prop :=
  exists r, o = Some r /\ settled new r.

Lemma verdict_absorbs : absorbs verdict_spec.
Proof.
  intros n1 n2 o Hq%quiet_clear (r & -> & Hv). exists r. split; [done|]. by apply settled_app.
Qed.

Lemma failure_verdict new status mxHost sourceIP text :
  status <> "delivered" -> status <> "unknown" -> clear new ->
  settled new (failure (e_trace_id env) status mxHost sourceIP text).
Proof. intros. by apply settled_failed. Qed.

Lemma lmtp_failure_spec mxHost sourceIP what e :
  does (lmtp_failure env mxHost sourceIP what e) verdict_spec.
Proof.
  unfold lmtp_failure. eapply does_quiet; [apply verdict_absorbs|apply quiet_ctx_err|].
  intros ctxErr _. apply does_ret. eexists. split; [done|].
  unfold lmtp_status. destruct (_ || _); by apply failure_verdict.
Qed.

Lemma lmtp_status_cases traceID mxHost sourceIP code msg :
  let r := classify_lmtp_result traceID mxHost sourceIP code msg in
  if is_2xx code then Status r = "delivered" else Status r <> "delivered" /\ Status r <> "unknown".
Proof.
  unfold classify_lmtp_result. destruct (is_2xx code); [done|].
  destruct (is_4xx code); [done|]. by destruct (is_5xx code).
Qed.

(** An exchange before the message: the reply decides, or the rest does. *)
Lemma lmtp_exchange_spec c timeout mxHost sourceIP name cmd phase expect k :
  phase = PMail \/ phase = PRcpt \/ phase = PData ->
  does k verdict_spec ->
  does (lmtp_exchange env c timeout mxHost sourceIP name cmd phase expect k) verdict_spec.
Proof.
  intros Hphase Hk. unfold lmtp_exchange, write_command.
  eapply does_quiet; [apply verdict_absorbs|eapply quiet_call|]. intros [u|e] _; [|apply lmtp_failure_spec].
  assert (phase <> PFinal) as Hnf by (by destruct Hphase as [->|[->| ->]]).
  eapply does_bind; [apply (does_read _ _ _ (fun n o => exists r, o = Some r /\ n = [EvReply phase c r]))| |].
  { intros r. by exists r. }
  2: { by intros n1 (? & ? & _). }
  intros r n1 (r' & [= <-] & ->).
  assert (Hq : Forall quiet_event [EvReply phase c r]).
  { constructor; [|constructor]. unfold quiet_event, may_deliver. by destruct Hphase as [->|[->| ->]], r as [[]|]. }
  destruct r as [[code msg2]|e].
  - destruct (negb (code =? expect)).
    + apply does_ret. eexists. split; [done|]. cbn [app].
      pose proof (lmtp_status_cases (e_trace_id env) mxHost sourceIP code msg2) as Hc. cbv zeta in Hc.
      destruct (is_2xx code) eqn:H2.
      * right. apply verdict_early; [done|by apply quiet_zero|].
        destruct Hphase as [->|[->| ->]]; cbn; by rewrite H2.
      * destruct Hc. by apply settled_failed; [..|apply quiet_clear].
    + eapply does_mono; [apply Hk|]. intros n o. by apply verdict_absorbs.
  - eapply does_mono; [apply lmtp_failure_spec|]. intros n o. by apply verdict_absorbs.
Qed.

Lemma lmtp_final_spec c timeout mxHost sourceIP (text : error -> string) :
  does (bind (read_response env PFinal c timeout) (fun r => match r with
        | Err e => ret (failure (e_trace_id env) "unknown" mxHost sourceIP (text e))
        | Ok (code, msg2) => ret (classify_lmtp_result (e_trace_id env) mxHost sourceIP code msg2)
        end)) verdict_spec.
Proof.
  eapply does_bind; [apply (does_read _ _ _ (fun n o => exists r, o = Some r /\ n = [EvReply PFinal c r]))| |].
  { intros r. by exists r. }
  2: { by intros n1 (? & ? & _). }
  intros r n1 (r' & [= <-] & ->). destruct r as [[code msg2]|e]; apply does_ret; eexists; (split; [done|]).
  - pose proof (lmtp_status_cases (e_trace_id env) mxHost sourceIP code msg2) as Hc. cbv zeta in Hc.
    cbn [app]. destruct (is_2xx code) eqn:H2.
    + right. apply verdict_delivered; [done|..]; unfold copies, may_deliver; cbn; by rewrite H2.
    + destruct Hc. right. apply verdict_failed; [done..|]. unfold copies, may_deliver. cbn. by rewrite H2.
  - right. by apply verdict_unknown.
Qed.

Lemma quiet_get_config : quiet (get_config env) (fun _ => True).
Proof. by apply quiet_shared. Qed.

Lemma perform_lmtp_spec c msg mxHost sourceIP :
  delivers (perform_lmtp_transaction env c from to msg mxHost sourceIP).
Proof.
  unfold perform_lmtp_transaction.
  eapply delivers_quiet; [apply quiet_get_config|]. intros cfg _.
  eapply does_bind.
  - apply lmtp_exchange_spec; [by left|]. apply lmtp_exchange_spec; [by right; left|].
    apply lmtp_exchange_spec; [by right; right|].
    eapply does_quiet; [apply verdict_absorbs|eapply quiet_call|].
    intros [u|e] _; [|apply lmtp_failure_spec]. apply lmtp_final_spec.
  - intros r n1 (r' & [= <-] & Hv). apply quiet_end.
    eapply quiet_bind; [eapply quiet_ask|]. intros _ _.
    eapply quiet_bind; [eapply quiet_call|]. intros _ _.
    eapply quiet_bind; [apply quiet_close|]. intros _ _. by apply quiet_ret.
  - by intros n1 (? & ? & _).
Qed.

(** *** Setting up a connection *)

(** A result that says neither "delivered" nor "unknown". *)
Definition hollow (r : DeliveryResult) : Prop := Status r <> "delivered" /\ Status r <> "unknown".

Lemma hollow_verdict r : hollow r -> settled [] r.
Proof. intros []. by apply settled_failed. Qed.

Lemma hollow_failure status mxHost sourceIP text :
  status <> "delivered" -> status <> "unknown" ->
  hollow (failure (e_trace_id env) status mxHost sourceIP text).
Proof. by split. Qed.

Definition dial_post (out : dial_outcome) : Prop :=
  match out with
  | (_, r, Some _) => hollow r
  | (Some _, _, None) => True
  | (None, _, None) => late_context env
  end.

Lemma quiet_fail {A} c (r : result error A) : quiet (bind (close env c) (fun _ => ret r)) (fun _ => True).
Proof. eapply quiet_bind; [apply quiet_close|]. intros _ _. by apply quiet_ret. Qed.

Lemma lmtp_handshake_quiet c timeout cfg : quiet (lmtp_handshake env c timeout cfg) (fun _ => True).
Proof.
  unfold lmtp_handshake.
  eapply (quiet_bind _ _ (fun _ => True)).
  { apply quiet_if; [eapply quiet_true; eapply quiet_call|by apply quiet_ret]. }
  intros [u|e] _; [|apply quiet_fail].
  eapply quiet_bind; [by apply quiet_read|]. intros [[code m]|e] _; [|apply quiet_fail].
  apply quiet_if; [apply quiet_fail|].
  eapply quiet_bind; [eapply quiet_call|]. intros [u'|e] _; [|apply quiet_fail].
  eapply quiet_bind; [by apply quiet_read|]. intros [[code' m']|e] _; [|apply quiet_fail].
  apply quiet_if; [apply quiet_fail|by apply quiet_ret].
Qed.

Lemma quiet_new_conn : quiet (new_conn env) (fun _ => True).
Proof. by apply quiet_shared. Qed.

Lemma ready_quiet c t : quiet (ready_client env c t) (fun _ => True).
Proof. eapply quiet_bind; [apply quiet_set_timeouts|]. intros _ _. by apply quiet_ret. Qed.

Lemma smtp_handshake_quiet c source target t1 t2 cfg :
  quiet (smtp_handshake env c source target t1 t2 cfg) (fun _ => True).
Proof.
  unfold smtp_handshake. apply quiet_if.
  - eapply quiet_bind; [eapply quiet_call|]. intros [u|e] _; [|apply quiet_fail].
    eapply quiet_bind; [eapply quiet_call|]. intros [u'|e] _; [apply ready_quiet|apply quiet_fail].
  - eapply quiet_bind; [eapply quiet_call|]. intros [u|e] _; [apply ready_quiet|].
    eapply quiet_bind; [apply quiet_close|]. intros _ _. apply quiet_if; [|by apply quiet_ret].
    eapply quiet_bind; [eapply quiet_call|]. intros [u'|e'] _; [|by apply quiet_ret].
    eapply quiet_bind; [apply quiet_new_conn|]. intros c' _.
    eapply quiet_bind; [eapply quiet_call|]. intros [u''|e''] _; [apply ready_quiet|apply quiet_fail].
Qed.

(** The end of the context: its error is there once [Done] is closed, but not
    always once the deadline has passed. *)
Lemma done_quiet c (r : DeliveryResult) (k : M dial_outcome) :
  hollow r -> quiet k dial_post ->
  quiet (bind (ask env (e_done_first env)) (fun done_first : bool =>
    if done_first then bind (close env c) (fun _ => bind (ctx_err env) (fun e => ret (None, r, e)))
    else k)) dial_post.
Proof.
  intros Hr Hk h. apply runs_bind. apply runs_ask; [apply Hkeeps|].
  destruct (e_done_first env h) eqn:Hdone.
  - apply runs_bind, runs_log; [apply Hkeeps|]. apply runs_bind, runs_ask; [apply Hkeeps|]. apply runs_ret.
    eexists [_; _; _]. split_and!; [done|by repeat constructor|by repeat constructor|].
    eexists. split; [done|]. unfold dial_post.
    destruct (e_ctx_err env (EvRelease Close c :: EvTick :: h)) eqn:He; [done|].
    by destruct (doc_done env Hdoc h [EvRelease Close c; EvTick] Hdone).
  - eapply runs_mono; [apply Hk|]. intros t o (n & -> & HF & Hq & a & -> & HP).
    exists (n ++ [EvTick]). rewrite <- app_assoc. split_and!; [done| | |by exists a];
      apply Forall_app; split; try done; by repeat constructor.
Qed.

Lemma late_quiet c (r : DeliveryResult) cfg (k : Z * Z * Z -> M dial_outcome) :
  hollow r -> (forall ts, quiet (k ts) dial_post) ->
  quiet (bind (remaining env) (fun rem => match phase_timeouts cfg rem with
    | None => bind (ctx_err env) (fun e => bind (close env c) (fun _ => ret (None, r, e)))
    | Some ts => k ts
    end)) dial_post.
Proof.
  intros Hr Hk. unfold remaining. destruct (e_deadline env) as [d|] eqn:Hd.
  - intros h. apply runs_bind, runs_bind. apply runs_ask; [apply Hkeeps|]. apply runs_ret.
    destruct (phase_timeouts cfg _) as [ts|] eqn:Hp.
    + eapply runs_mono; [apply Hk|]. intros t o (n & -> & HF & Hq & a & -> & HP).
      exists (n ++ [EvTick]). rewrite <- app_assoc. split_and!; [done| | |by exists a];
        apply Forall_app; split; try done; by repeat constructor.
    + apply runs_bind, runs_ask; [apply Hkeeps|]. apply runs_bind, runs_log; [apply Hkeeps|]. apply runs_ret.
      eexists [_; _; _]. split_and!; [done|by repeat constructor|by repeat constructor|].
      eexists. split; [done|]. unfold dial_post.
      destruct (e_ctx_err env (EvTick :: h)) eqn:He; [done|]. exists d, h. split_and!; [done| |done].
      unfold phase_timeouts in Hp. destruct (Z.leb_spec (time_sub d (e_now env h)) 0); [done|].
      by destruct (_ <? _).
  - intros h. apply runs_bind, runs_ret. cbn [phase_timeouts]. apply Hk.
Qed.

Lemma say_hello_quiet c source target mxHost sourceIP protocol t cfg :
  quiet (say_hello env c source target mxHost sourceIP protocol t cfg) dial_post.
Proof.
  unfold say_hello.
  apply (late_quiet c _ cfg (fun ts => let '(b, hs, dl) := ts in _)); [by apply hollow_failure|].
  intros [[b hs] dl]. eapply (quiet_bind _ _ (fun _ => True)).
  { apply quiet_if; [apply lmtp_handshake_quiet|by apply smtp_handshake_quiet]. }
  intros outcome _. apply done_quiet; [by apply hollow_failure|].
  destruct outcome as [dr|e]; by apply quiet_ret.
Qed.

Lemma dial_and_hello_quiet mxHost mxIPs sourceIP preferIPv6 protocol cfg :
  quiet (dial_and_hello env mxHost mxIPs sourceIP preferIPv6 protocol cfg) dial_post.
Proof.
  unfold dial_and_hello, dial_failure.
  destruct (is_empty (select_target _ _ _)).
  { destruct mxIPs; apply quiet_ret; by apply hollow_failure. }
  destruct (target_port cfg protocol) as [port|e]; [|apply quiet_ret; by apply hollow_failure].
  eapply quiet_bind; [apply quiet_remaining|]. intros rem _.
  destruct (_ && _); [apply quiet_ret; by apply hollow_failure|].
  eapply quiet_bind; [eapply quiet_call|]. intros [u|e] _.
  - eapply quiet_bind; [apply quiet_new_conn|]. intros c _. by apply say_hello_quiet.
  - destruct (_ && _); apply quiet_ret; by apply hollow_failure.
Qed.

(** *** Attempts *)

Lemma fresh_attempt_spec msg mxHost mxIPs sourceIP preferIPv6 protocol ia cfg :
  delivers (fresh_attempt env from to msg mxHost mxIPs sourceIP preferIPv6 protocol ia cfg).
Proof.
  unfold fresh_attempt.
  eapply delivers_quiet; [by apply dial_and_hello_quiet|].
  intros [[[dr|] r] [e|]] Hpost; cbn in Hpost.
  - destruct dr; apply does_ret; (split; [by apply hollow_verdict|done]).
  - destruct dr; [by apply perform_delivery_spec|by apply perform_lmtp_spec].
  - apply does_ret. split; [by apply hollow_verdict|done].
  - intros h. apply runs_panic. exists []. by split_and!.
Qed.

Lemma pool_get_quiet mxHost sourceIP : quiet (pool_get_conn env mxHost sourceIP) (fun _ => True).
Proof.
  unfold pool_get_conn. eapply quiet_bind; [eapply quiet_ask|]. intros rounds _.
  induction rounds as [|rounds IH]; cbn [pool_get_rounds]; [by apply quiet_ret|].
  eapply quiet_bind; [eapply quiet_ask|]. intros t _.
  eapply quiet_bind; [apply quiet_shared; by intros [[c|] closed]|]. intros [[c|] closed] _; [|by apply quiet_ret].
  eapply quiet_bind; [eapply quiet_call|]. intros [u|e] _; [by apply quiet_ret|].
  eapply quiet_bind; [apply quiet_close|]. intros _ _. apply IH.
Qed.

(** An attempt that is not the last one handed nothing over. *)
Lemma verdict_not_final new r : is_final_result (Status r) = false -> settled new r -> clear new.
Proof. intros Hf [Ho|Hv]; [by left|right]. destruct Hv as [r Hs|r Hs|r Hs|r]; [by rewrite Hs in Hf..|done]. Qed.

Lemma not_final_hollow r : is_final_result (Status r) = false -> hollow r.
Proof. intros Hf. split; intros Hs; by rewrite Hs in Hf. Qed.

(** An operation that hands something over only when its result says so, and
    then another one when it did not. *)
Lemma delivers_then (m : M DeliveryResult) (k : DeliveryResult -> M DeliveryResult) :
  delivers m ->
  (forall r n1, settled n1 r ->
     (exists m', k r = m' /\ quiet m' (fun r' => settled n1 r')) \/
     (clear n1 /\ delivers (k r))) ->
  delivers (bind m k).
Proof.
  intros Hm Hk. eapply does_bind; [apply Hm| |done].
  intros r n1 [Hv _]. destruct (Hk r n1 Hv) as [(m' & -> & Hq)|[Hc Hd]]; [by apply quiet_end|].
  eapply does_mono; [apply Hd|]. intros n2 [r'|].
  - intros [Hv2 _]. split; [by apply settled_app|done].
  - intros [Hc2 Hl]. split; [by apply clear_app|done].
Qed.

Lemma attempt_delivery_spec msg mxHost mxIPs sourceIP preferIPv6 protocol ia cfg :
  delivers (attempt_delivery env from to msg mxHost mxIPs sourceIP preferIPv6 protocol ia cfg).
Proof.
  unfold attempt_delivery.
  destruct (seqb protocol ProtocolLMTP); [by apply fresh_attempt_spec|].
  eapply delivers_quiet; [apply pool_get_quiet|]. intros [c|] _; [|by apply fresh_attempt_spec].
  apply delivers_then; [by apply perform_delivery_spec|]. intros r n1 Hv.
  destruct (_ || _) eqn:Hst.
  - left. eexists. split; [done|]. by apply quiet_ret.
  - right. split; [|by apply fresh_attempt_spec].
    destruct Hv as [Ho|Hv]; [by left|right].
    destruct Hv as [r Hs|r Hs|r Hs|r]; [by rewrite Hs in Hst..|done].
Qed.

Lemma record_attempt_quiet sourceIP r mxHost :
  quiet (record_attempt env sourceIP r from to mxHost) (fun _ => True).
Proof.
  unfold record_attempt. eapply quiet_bind; [by apply quiet_shared|]. intros pc _.
  generalize max_sections as fuel. intros fuel. revert pc.
  induction fuel as [|fuel IH]; intros pc; cbn [record_sections]; [by apply quiet_ret|].
  eapply quiet_bind; [eapply quiet_ask|]. intros t _.
  eapply quiet_bind; [by apply quiet_shared|]. intros [pc' evs] _.
  destruct pc'; first [by apply quiet_ret|apply IH].
Qed.

Lemma try_sources_spec msg mxHost mxIPs useIPv6 protocol ia cfg ips lastResult :
  hollow lastResult ->
  delivers (try_sources env from to msg mxHost mxIPs useIPv6 protocol ia cfg ips lastResult).
Proof.
  revert lastResult. induction ips as [|ip ips IH]; intros lastResult Hl; cbn [try_sources].
  { apply does_ret. split; [by apply hollow_verdict|done]. }
  eapply delivers_quiet; [apply quiet_ctx_err|]. intros [e|] _.
  { apply does_ret. split; [|done]. by apply hollow_verdict, hollow_failure. }
  apply delivers_then; [apply attempt_delivery_spec|]. intros r n1 Hv.
  destruct (is_final_result (Status r) || seqb (Status r) "timeout") eqn:Hf.
  - left. eexists. split; [done|]. eapply quiet_bind; [apply record_attempt_quiet|].
    intros _ _. by apply quiet_ret.
  - right. apply orb_false_elim in Hf as [Hf _]. split; [by eapply verdict_not_final|].
    eapply delivers_quiet; [apply record_attempt_quiet|]. intros _ _.
    apply IH. by apply not_final_hollow.
Qed.

Lemma rotated_in ips k x : In x (rotated ips k) -> In x ips.
Proof.
  unfold rotated. rewrite in_map_iff. intros (i & <- & Hi%in_seq). apply nth_In.
  pose proof (Z.mod_pos_bound (k + Z.of_nat i) (Z.of_nat (length ips)) ltac:(lia)). lia.
Qed.

Lemma select_ips_in r v domain rnd x :
  In x (select_ips r v domain rnd).1 -> In x (pool_of r v).
Proof.
  unfold select_ips. destruct (pool_of r v) as [|a [|b l]]; [done|done|].
  destruct (seqb _ "random"); [apply rotated_in|].
  destruct (seqb _ "hash-domain"); apply rotated_in.
Qed.

Lemma select_ips_pools r v domain rnd :
  ipsV4 (select_ips r v domain rnd).2 = ipsV4 r /\ ipsV6 (select_ips r v domain rnd).2 = ipsV6 r.
Proof.
  unfold select_ips, set_counter_of. destruct (pool_of r v) as [|a [|b l]]; [done|done|].
  destruct (seqb _ "random"); [done|]. destruct (seqb _ "hash-domain"); [done|]. by destruct v.
Qed.

Lemma try_delivery_spec msg mxHost mxIPs v protocol ia cfg :
  delivers (try_delivery_with_ip_version env from to msg mxHost mxIPs v protocol ia cfg).
Proof.
  unfold try_delivery_with_ip_version. destruct (split_email to) as [lp domain].
  eapply delivers_quiet; [eapply quiet_ask|]. intros rnd _.
  eapply delivers_quiet; [by apply quiet_shared|]. intros ips _.
  eapply delivers_quiet; [eapply quiet_ask|]. intros clock _.
  eapply delivers_quiet; [by apply quiet_shared|]. intros healthy _. by apply try_sources_spec.
Qed.

(** *** The MX loop *)

Definition tries_post (new : history) (o : option (DeliveryResult * bool)) : Prop :=
  match o with
  | Some (r, final) => settled new r /\ (final = false -> hollow r)
  | None => clear new /\ late_context env
  end.

Lemma hollow_copies new r : hollow r -> settled new r -> clear new.
Proof. intros [H1 H2] [Ho|Hv]; [by left|right]. by destruct Hv. Qed.

Lemma tries_absorb n1 n2 o : clear n1 -> tries_post n2 o -> tries_post (n2 ++ n1) o.
Proof.
  intros Hc. destruct o as [[r final]|]; cbn.
  - intros [Hv Hf]. split; [by apply settled_app|done].
  - intros [H1 H2]. split; [by apply clear_app|done].
Qed.

Lemma try_versions_spec msg mxHost mxIPs vs protocol ia cfg lastResult :
  hollow lastResult ->
  does (try_versions env from to msg mxHost mxIPs vs protocol ia cfg lastResult) tries_post.
Proof.
  revert lastResult. induction vs as [|v vs IH]; intros lastResult Hl; cbn [try_versions].
  { apply does_ret. split; [by apply hollow_verdict|done]. }
  eapply does_bind; [apply try_delivery_spec| |done].
  intros r n1 [Hv _]. destruct (is_final_result (Status r)) eqn:Hf.
  - apply does_ret. by split.
  - eapply does_mono; [apply IH; by apply not_final_hollow|].
    intros n o. apply tries_absorb. by eapply verdict_not_final.
Qed.

Lemma try_mx_spec msg mxHost mxIPs h4 h6 eg protocol ia cfg lastResult :
  hollow lastResult ->
  does (try_mx env from to msg mxHost mxIPs h4 h6 eg protocol ia cfg lastResult) tries_post.
Proof.
  intros Hl. unfold try_mx. destruct (eg_tryIPv6First eg || eg_tryIPv4 eg).
  { by apply try_versions_spec. }
  eapply does_bind; [apply attempt_delivery_spec| |done].
  intros r n1 [Hv _]. eapply does_bind; [apply record_attempt_quiet| |by intros n (_ & ? & ? & _)].
  intros [] n2 (Hq%quiet_clear & _). apply does_ret. cbn [app]. split.
  - by apply settled_after.
  - apply not_final_hollow.
Qed.

Lemma resolve_quiet host : quiet (resolve_mx_host env host) (fun _ => True).
Proof.
  unfold resolve_mx_host. eapply quiet_bind; [eapply quiet_ask|]. intros answer _.
  eapply quiet_bind; [|by intros; apply quiet_ret].
  by apply quiet_shared.
Qed.

Lemma mx_loop_spec msg mxs eg protocol ia cfg lastResult :
  hollow lastResult ->
  delivers (mx_loop env from to msg mxs eg protocol ia cfg lastResult).
Proof.
  revert lastResult. induction mxs as [|mx mxs IH]; intros lastResult Hl; cbn [mx_loop].
  { apply does_ret. split; [by apply hollow_verdict|done]. }
  eapply delivers_quiet; [apply quiet_ctx_err|]. intros [e|] _.
  { apply does_ret. split; [|done]. by apply hollow_verdict, hollow_failure. }
  eapply delivers_quiet; [apply resolve_quiet|]. intros [[[mxIPs h4] h6]|e] _.
  - eapply does_bind; [by apply try_mx_spec| |done]. intros [r final] n1 [Hv Hf].
    destruct final.
    + apply does_ret. by split.
    + pose proof (Hf eq_refl) as Hr. pose proof (hollow_copies n1 r Hr Hv) as Hz.
      eapply does_mono; [by apply IH|].
      intros n2 [r'|].
      * intros [Hv2 _]. split; [by apply settled_app|done].
      * intros [Hc2 Hlate]. split; [by apply clear_app|done].
  - apply IH. by apply hollow_failure.
Qed.

(** *** The whole delivery *)

Lemma dkim_parameters_quiet from' message req :
  quiet (dkim_parameters env from' message req) (fun _ => True).
Proof.
  unfold dkim_parameters. apply quiet_if.
  { apply quiet_if; by apply quiet_ret. }
  apply quiet_if; [|by apply quiet_ret]. apply quiet_if; [by apply quiet_ret|].
  eapply quiet_bind; [eapply quiet_ask|]. intros lenv _.
  eapply quiet_bind; [|by intros; apply quiet_ret].
  by apply quiet_shared.
Qed.

Lemma sign_dkim_quiet from' message req : quiet (sign_dkim env from' message req) (fun _ => True).
Proof.
  unfold sign_dkim. eapply quiet_bind; [apply dkim_parameters_quiet|].
  intros [[[key sel] dom]|] _; [|by apply quiet_ret].
  apply quiet_if; [|by apply quiet_ret].
  eapply (quiet_bind _ _ (fun _ => True)).
  { apply quiet_if; [by apply quiet_ret|]. eapply quiet_bind; [eapply quiet_ask|]. intros txt _.
    by apply quiet_shared. }
  intros valid _. apply quiet_if; [|by apply quiet_ret].
  eapply quiet_bind; [eapply quiet_ask|]. intros t _. by apply quiet_ret.
Qed.

Lemma check_rate_limit_quiet cfg domain : quiet (check_rate_limit env cfg domain) (fun _ => True).
Proof.
  unfold check_rate_limit. apply quiet_if; [|by apply quiet_ret].
  do 2 (eapply quiet_bind; [eapply quiet_ask|]; intros ? _).
  by apply quiet_shared.
Qed.

Lemma route_quiet cfg protocol domain :
  quiet (route_message env cfg protocol domain)
    (fun r => match r with Err r => hollow r | Ok _ => True end).
Proof.
  unfold route_message. apply quiet_if.
  { apply quiet_ret. destruct (split_host_port _) as [[host port]|e]; [done|by apply hollow_failure]. }
  eapply quiet_bind; [apply quiet_ctx_err|]. intros ctx0 _.
  eapply quiet_bind; [eapply quiet_ask|]. intros t0 _.
  eapply quiet_bind; [eapply quiet_ask|]. intros [ctx1 a] _.
  eapply quiet_bind; [eapply quiet_ask|]. intros t1 _.
  eapply quiet_bind; [by apply quiet_shared|].
  intros [[|mx mxs]|e] _; apply quiet_ret; [by apply hollow_failure|done|].
  destruct (error_is e errNoMXRecords); by apply hollow_failure.
Qed.

Lemma finish_quiet d start domain r n1 :
  settled n1 r -> quiet (finish env d start domain r) (settled n1).
Proof.
  intros Hv. unfold finish. eapply quiet_bind; [eapply quiet_ask|]. intros t _.
  eapply quiet_bind; [apply quiet_if; [by apply quiet_log|by apply quiet_ret]|]. intros _ _.
  apply quiet_ret. by eapply settled_status; [|exact Hv].
Qed.

Lemma deliver_message_spec d message transport req ia :
  delivers (deliver_message env d from to message transport req ia).
Proof.
  unfold deliver_message, deliver_under.
  assert (Hfail : forall status text, status <> "delivered" -> status <> "unknown" ->
    delivers (ret (failure (e_trace_id env) status "" "" text))).
  { intros. apply does_ret. split; [|done]. by apply hollow_verdict, hollow_failure. }
  eapply delivers_quiet; [eapply quiet_ask|]. intros start _.
  eapply delivers_quiet; [apply quiet_get_config|]. intros cfg _.
  destruct (split_email to) as [lp domain]. destruct (is_empty domain); [by apply Hfail|].
  eapply delivers_quiet; [apply check_rate_limit_quiet|]. intros [] _; cbn [negb]; [|by apply Hfail].
  eapply delivers_quiet; [apply sign_dkim_quiet|]. intros [m|] Hm; [|by apply Hfail].
  eapply delivers_quiet; [apply route_quiet|]. intros [mxs|r] Hr.
  - eapply delivers_quiet; [by apply quiet_shared|].
    intros rot _. eapply does_bind; [by apply mx_loop_spec| |done].
    intros r n1 [Hv _]. apply quiet_end. by apply finish_quiet.
  - apply does_ret. split; [by apply hollow_verdict|done].
Qed.

End Safety.

(** ** Properties *)

Section Properties.
Context `{Crypto, Unicode}.

(** What every run tells, when servers may also answer the end of the data with
    a positive code other than 250. *)
Lemma delivery_told env d from to message transport req ia w :
  documented env ->
  let '(o, w') := deliver_message env d from to message transport req ia w in
  exists new, w_trace w' = new ++ w_trace w /\ Forall (heard env) new /\
    (existsb odd_positive new = true \/
     match o with
     | Some r => verdict new r
     | None => copies new = 0%nat /\ late_context env
     end).
Proof.
  intros Hdoc.
  pose proof (deliver_message_spec env Hdoc from to d message transport req ia (w_trace w) w eq_refl I) as Hd.
  destruct (deliver_message _ _ _ _ _ _ _ _ w) as [o w']. destruct Hd as (_ & new & Ht & Hh & Ho).
  exists new. split_and!; [done..|]. destruct o; [by destruct Ho as [[]]; auto|].
  destruct Ho as [[] ?]; auto.
Qed.

Lemma polite_not_odd env new : polite env -> Forall (heard env) new -> existsb odd_positive new = false.
Proof.
  intros Hp. induction 1 as [|ev new Hev _ IH]; [done|]. cbn [existsb]. rewrite IH, orb_false_r.
  destruct ev as [| |c [|e]| | | | | | | | |]; try done. destruct Hev as [h He]. cbn [odd_positive].
  destruct (as_smtp e) as [[code m]|] eqn:Hs; [|done]. by eapply (polite_end env Hp h c e).
Qed.

(** C1: no delivery hands over two copies of its message, and the result
    says what happened to the copy: "delivered" means one server accepted it
    (or an LMTP server answered a command before it with an unexpected
    positive code, and no copy was sent), "unknown" that it was sent in full
    and not answered; after any other result no server has it.  This holds for
    all answers of polite peers, DNS and the network, and whatever the other
    goroutines do to the shared state meanwhile; the engine panics only when
    the deadline passes before the context knows. *)
Theorem delivery_verdict env d from to message transport req ia w :
  polite env ->
  let '(o, w') := deliver_message env d from to message transport req ia w in
  exists new, w_trace w' = new ++ w_trace w /\
    match o with
    | Some r => verdict new r
    | None => copies new = 0%nat /\ late_context env
    end.
Proof.
  intros Hp. pose proof (delivery_told env d from to message transport req ia w (polite_documented env Hp)) as Hd.
  destruct (deliver_message _ _ _ _ _ _ _ _ w) as [o w']. destruct Hd as (new & Ht & Hh & Ho).
  exists new. split; [done|]. rewrite (polite_not_odd env new Hp Hh) in Ho. by destruct Ho.
Qed.

End Properties.

(** ** Witnesses and examples *)

(** A context without a deadline, servers that say yes, and nobody else. *)
Definition yes_env : Env := {|
  e_trace_id := "trace";
  e_deadline := None;
  e_ctx_err _ := None;
  e_now h := Z.of_nat (length h) * (second / 10);
  e_stop _ := true;
  e_done_first _ := false;
  e_call _ _ := Ok tt;
  e_nil_writer _ := false;
  e_end _ _ := Ok ("2.0.0" +:+ str1 LF +:+ "queued");
  e_extension _ _ _ := true;
  e_input _ _ _ := Ok (None, "");
  e_rounds _ := 11%nat;
  e_health_clock _ _ := 0;
  e_mx _ := (None, mkAnswers (Ok [("mx1.example.org.", 10); ("mx2.example.org.", 20)]) (Ok []));
  e_sort l := l;
  e_host _ host := Ok ["192.0.2.25"; "2001:db8::25"];
  e_txt _ _ := Ok [];
  e_random _ := 0;
  e_keys _ := example_env;
  e_interfere _ s := s
|}.

Lemma yes_polite : polite yes_env.
Proof. by split. Qed.

Definition start_world (cfg : OutboundConfig) (v4 v6 : list string) : world :=
  mkWorld (@new_deliverer plain_unicode cfg (mkExpandedSourceIPs v4 v6)
             (new_mx_lookup (mkDNSConfig [] 5 3600 60)) (Reputation default_config) None None (Ok "")).2
    [] ∅ ∅.
Definition example_deliverer : Deliverer := mkDeliverer None "" true.
Definition no_signing : sign_request := mkSignRequest "" "" "" false "" "" "".
Definition deliver (env : Env) (w : world) (transport : string) : option DeliveryResult * world :=
  @deliver_message toy_crypto plain_unicode env example_deliverer "<a@x.org>" "b@example.org" "Hi" transport
    no_signing None w.
Definition out_config : OutboundConfig := Outbound default_config.

(** The status, the hosts resolved and the sources bound, oldest first, and
    the number of copies. *)
Definition hosts_of (t : history) : list string :=
  rev (omap (fun ev => match ev with EvHost h _ => Some h | _ => None end) t).
Definition dials_of (t : history) : list (string * string) :=
  rev (omap (fun ev => match ev with EvCall (RDial s a _) _ => Some (s, a) | _ => None end) t).
Definition report (p : option DeliveryResult * world) : option string * list string * list (string * string) * nat :=
  (Status <$> p.1, hosts_of (w_trace p.2), dials_of (w_trace p.2), copies (w_trace p.2)).

Example delivered_first_mx :
  report (deliver yes_env (start_world out_config ["198.51.100.1"] []) "smtp") =
  (Some "delivered", ["mx1.example.org."], [("198.51.100.1", "192.0.2.25:25")], 1%nat).
Proof. vm_compute. reflexivity. Qed.

Lemma delivery_verdict_witness :
  let '(o, w') := deliver yes_env (start_world out_config ["198.51.100.1"] []) "smtp" in
  exists new, w_trace w' = new ++ [] /\
    match o with
    | Some r => verdict new r
    | None => copies new = 0%nat /\ late_context yes_env
    end.
Proof.
  apply (@delivery_verdict toy_crypto plain_unicode yes_env example_deliverer "<a@x.org>" "b@example.org"
    "Hi" "smtp" no_signing None (start_world out_config ["198.51.100.1"] []) yes_polite).
Defined.

(** *** Where the code does something else *)

(** The environment with another answer to something. *)
Definition with_end (env : Env) (f : history -> client -> result error string) : Env :=
  mkEnv (e_trace_id env) (e_deadline env) (e_ctx_err env) (e_now env) (e_stop env) (e_done_first env)
    (e_call env) (e_nil_writer env) f (e_extension env) (e_input env) (e_rounds env)
    (e_health_clock env) (e_mx env) (e_sort env) (e_host env) (e_txt env) (e_random env) (e_keys env)
    (e_interfere env).
Definition with_host (env : Env) (f : history -> string -> result error (list string)) : Env :=
  mkEnv (e_trace_id env) (e_deadline env) (e_ctx_err env) (e_now env) (e_stop env) (e_done_first env)
    (e_call env) (e_nil_writer env) (e_end env) (e_extension env) (e_input env) (e_rounds env)
    (e_health_clock env) (e_mx env) (e_sort env) f (e_txt env) (e_random env) (e_keys env)
    (e_interfere env).
Definition with_deadline (env : Env) (d : Z) : Env :=
  mkEnv (e_trace_id env) (Some d) (e_ctx_err env) (e_now env) (e_stop env) (e_done_first env)
    (e_call env) (e_nil_writer env) (e_end env) (e_extension env) (e_input env) (e_rounds env)
    (e_health_clock env) (e_mx env) (e_sort env) (e_host env) (e_txt env) (e_random env) (e_keys env)
    (e_interfere env).
Definition with_input (env : Env) (f : history -> conn -> Z -> result error (option error * string)) : Env :=
  mkEnv (e_trace_id env) (e_deadline env) (e_ctx_err env) (e_now env) (e_stop env) (e_done_first env)
    (e_call env) (e_nil_writer env) (e_end env) (e_extension env) f (e_rounds env)
    (e_health_clock env) (e_mx env) (e_sort env) (e_host env) (e_txt env) (e_random env) (e_keys env)
    (e_interfere env).

(** A server that accepts the message with 252: the client takes it for an
    error, the engine for a failure that is not final, and the next host gets
    the message as well. *)
Example positive_252_delivers_twice :
  report (deliver (with_end yes_env (fun h _ => if (0 <? copies h)%nat then Ok "queued"
            else Err (ErrSMTP 252 "accepted" "SMTP error 252: accepted")))
            (start_world out_config [] []) "smtp") =
  (Some "delivered", ["mx1.example.org."; "mx2.example.org."],
   [("", "[2001:db8::25]:25"); ("", "[2001:db8::25]:25")], 2%nat).
Proof. vm_compute. reflexivity. Qed.

(** The sender has only IPv4 source addresses and the hosts only IPv6 ones:
    no attempt is made, and the result is empty, without a status. *)
Example no_common_version_empty_status :
  report (deliver (with_host yes_env (fun _ _ => Ok ["2001:db8::25"]))
            (start_world out_config ["198.51.100.1"] []) "smtp") =
  (Some "", ["mx1.example.org."; "mx2.example.org."], [], 0%nat).
Proof. vm_compute. reflexivity. Qed.

(** Dual mode, IPv4 preferred, and only IPv6 source addresses: the pool is
    taken for empty, and the system chooses the source. *)
Example v6_pool_ignored :
  let eg := choose_egress (Outbound (set_prefer false false default_config)) "smtp"
              (new_ip_rotator [] ["2001:db8::1"] "round-robin") in
  eg_tryIPv6 eg = true /\ eg_tryIPv6First eg || eg_tryIPv4 eg = false.
Proof. vm_compute. done. Qed.

(** The deadline passes between two looks at the clock, and the context's timer
    has not fired: [dialAndHello] returns no error and no connection. *)
Example late_timer_panics :
  (deliver (with_deadline yes_env (13 * (second / 10))) (start_world out_config ["198.51.100.1"] []) "smtp").1 = None.
Proof. vm_compute. reflexivity. Qed.

(** An LMTP server that answers RCPT with 251: "delivered", and no copy. *)
Definition lmtp_config : OutboundConfig := out_config.
Definition lmtp_replies (h : history) (_ : conn) (_ : Z) : result error (option error * string) :=
  let n := length (List.filter (fun ev => match ev with EvReply _ _ _ => true | _ => false end) h) in
  Ok (None, nth n ["220 hi"; "250 hello"; "250 ok"; "251 will forward"] "500 no" +:+ CRLF).
Example lmtp_251_is_delivered :
  report (deliver (with_input yes_env lmtp_replies) (start_world lmtp_config [] []) "lmtp") =
  (Some "delivered", ["mx1.example.org."], [("", "192.0.2.25:24")], 0%nat).
Proof. vm_compute. reflexivity. Qed.
