(* ===== verification/DelivererBounds.v ===== *)
(** * What a delivery sends, and from where (properties of Deliverer.v)

    A second pass over the engine, for the content of its calls: sources,
    ports, names, envelope and message.  It asks nothing of DNS, the network or
    the servers. *)

From stdpp Require Import base gmap sets list strings.
From Stdlib Require Import ZArith Lia.
From S2P Require Import Prelude GoString GoError NetIP Config IPExpansion ErrorClassifier IPReputation ConnectionPool.
From S2P Require Import MXLookup IPRotator DomainLimiter LMTP SRS DKIM KeyStore ARC MIMEHeader.
From S2P Require Import Delivery Effects Deliverer DelivererSafety.
#[local] Open Scope Z_scope.

Definition protocol_of (cfg : OutboundConfig) (transport : string) : string :=
  if is_empty transport then out_DefaultProtocol cfg else transport.

(** The sources a delivery may bind. *)
Definition may_bind (cfg : OutboundConfig) (transport : string) (v4 v6 : list string) (ip : string) : Prop :=
  let protocol := protocol_of cfg transport in
  let mode := ip_mode_for_protocol cfg protocol in
  ip = "" \/
  (protocol <> ProtocolLMTP /\
   ((In ip v4 /\ (mode = IPModeDual \/ mode = IPModeIPv4)) \/
    (In ip v6 /\ (mode = IPModeDual \/ mode = IPModeIPv6)))).

(** SRS as it was configured, its round-robin counter anywhere. *)
Definition in_force (srs o : option SRS) : Prop :=
  match srs with
  | None => o = None
  | Some s0 => exists c, o = Some (set_counter s0 c)
  end.

Lemma in_force_refl srs : in_force srs srs.
Proof. destruct srs as [[]|]; [|done]. by eexists. Qed.

Section Bounds.
Context `{Crypto, Unicode}.

(** The message as it is sent: signed, or as it came where signing failed. *)
Definition dkim_version (message m : string) : Prop :=
  m = message \/ exists t key selector domain, dkim_sign_message t message key selector domain = Ok m.
Definition sent_message (d : Deliverer) (req : sign_request) (message m : string) : Prop :=
  exists m1, dkim_version message m1 /\ m = sign_arc d req m1.

Context (env : Env) (w0 : world) (d : Deliverer) (from to message transport : string).
Context (req : sign_request) (ia : option InboundAuthResults).

(** What a delivery that starts in [w0] works with. *)
#[local] Abbreviation cfg := (config_read env w0).
#[local] Abbreviation v4 := (ipsV4 (sh_rotator (w_shared w0))).
#[local] Abbreviation v6 := (ipsV6 (sh_rotator (w_shared w0))).
#[local] Abbreviation srs := (sh_srs (w_shared w0)).
#[local] Abbreviation sender := (strip_angle_brackets from).
#[local] Abbreviation recipient := (strip_angle_brackets to).

(** The sender of MAIL FROM: the delivery's, or what the SRS in force makes of
    it when the clock is read, unless the message is an automatic reply, a rule
    of SRS skips it, or SRS refuses it. *)
Definition mail_sender (m f : string) : Prop :=
  match srs with
  | None => f = sender
  | Some s0 => exists c h, let s := set_counter s0 c in
      if is_auto_reply m || (should_skip_srs s sender recipient ia).1 then f = sender
      else match (forward s (e_now env h) sender).1 with Ok a => f = a | Err _ => f = sender end
  end.

(** The lines an LMTP connection is sent. *)
Definition lmtp_line (line : string) : Prop :=
  In line (map lmtp_command
    ["LHLO " +:+ out_HelloHostname cfg; "MAIL FROM:<" +:+ sender +:+ ">"; "RCPT TO:<" +:+ recipient +:+ ">";
     "DATA"; "QUIT"]).

(** The events the delivery may perform. *)
Definition allowed (ev : event) : Prop :=
  match ev with
  | EvCall (RDial source target _) _ =>
      may_bind cfg transport v4 v6 source /\
      exists ip port, target = join_host_port ip port /\
                      target_port cfg (protocol_of cfg transport) = Ok port
  | EvCall (RHello _ name) _ | EvCall (RStartTLS _ name) _ => name = out_HelloHostname cfg
  | EvCall (RMail _ f _) _ => exists m, sent_message d req message m /\ mail_sender m f
  | EvCall (RRcpt _ a) _ => a = recipient
  | EvCall (RWrite _ data) _ =>
      exists m, sent_message d req message m /\ data = envelope_header recipient +:+ m
  | EvCall (RWriteLine _ _ line) _ => lmtp_line line
  | EvCall (RWriteData _ _ data) _ => exists m, sent_message d req message m /\ data = lmtp_data m
  | _ => True
  end.

(** What the other goroutines leave alone: the addresses of the rotator and the
    settings of SRS, which nothing changes once the program has started. *)
Definition settings_kept (s : shared) : Prop :=
  ipsV4 (sh_rotator s) = v4 /\ ipsV6 (sh_rotator s) = v6 /\ in_force srs (sh_srs s).
Context (Hkeeps : keeps env settings_kept).

(** ** The logic *)

Definition emits {A} (m : M A) (P : A -> Prop) : Prop :=
  forall h, runs settings_kept m h (fun t o =>
    exists new, t = new ++ h /\ Forall allowed new /\ forall a, o = Some a -> P a).

Lemma emits_ret {A} (a : A) (P : A -> Prop) : P a -> emits (ret a) P.
Proof. intros HP h. apply runs_ret. exists []. split_and!; [done..|]. by intros ? [= <-]. Qed.

Lemma emits_panic {A} (P : A -> Prop) : emits panic P.
Proof. intros h. apply runs_panic. by exists []. Qed.

Lemma emits_bind {A B} (m : M A) (k : A -> M B) (P : A -> Prop) (Q : B -> Prop) :
  emits m P -> (forall a, P a -> emits (k a) Q) -> emits (bind m k) Q.
Proof.
  intros Hm Hk h. apply runs_bind. eapply runs_mono; [apply Hm|].
  intros t [a|] (n1 & -> & HF & HP); [|by exists n1; split_and!].
  eapply runs_mono; [by apply Hk, HP|]. intros t o (n2 & -> & HF2 & HQ).
  exists (n2 ++ n1). rewrite app_assoc. split_and!; [done| |done]. by apply Forall_app.
Qed.

Lemma emits_weaken {A} (m : M A) (P Q : A -> Prop) : emits m P -> (forall a, P a -> Q a) -> emits m Q.
Proof.
  intros Hm HQ h. eapply runs_mono; [apply Hm|]. intros t o (n & -> & HF & HP).
  exists n. split_and!; [done..|]. intros a Ho. by apply HQ, HP.
Qed.

(** One event that is allowed. *)
Lemma one_event (ev : event) h {A} (a : A) (P : A -> Prop) :
  allowed ev -> P a ->
  exists new, ev :: h = new ++ h /\ Forall allowed new /\ forall a', Some a = Some a' -> P a'.
Proof. intros Ha HP. exists [ev]. split_and!; [done|by repeat constructor|]. by intros ? [= <-]. Qed.

Lemma emits_ask {A} (oracle : history -> A) : emits (ask env oracle) (fun a => exists h, a = oracle h).
Proof. intros h. apply runs_ask; [done|]. apply one_event; [done|by exists h]. Qed.

Lemma emits_log ev : allowed ev -> emits (log env ev) (fun _ => True).
Proof. intros Ha h. apply runs_log; [done|]. by apply one_event. Qed.

Lemma emits_call q : (forall r, allowed (EvCall q r)) -> emits (call env q) (fun _ => True).
Proof. intros Ha h. apply runs_call; [done|]. by apply one_event. Qed.

Lemma emits_end c : emits (end_data env c) (fun _ => True).
Proof. intros h. apply runs_end_data; [done|]. by apply one_event. Qed.

Lemma emits_read p c timeout : emits (read_response env p c timeout) (fun _ => True).
Proof. intros h. apply runs_read_response; [done|]. intros r. by apply one_event. Qed.

Lemma emits_timeouts c : emits (timeouts c) (fun _ => True).
Proof. intros h. apply runs_timeouts. intros t. exists []. by split_and!. Qed.

Lemma emits_set_timeouts c t : emits (set_timeouts env c t) (fun _ => True).
Proof. intros h. apply runs_set_timeouts; [done|]. by apply one_event. Qed.

Lemma emits_shared {A} (f : history -> shared -> A * shared) ev (P : A -> Prop) :
  (forall h s, settings_kept s -> settings_kept (f h s).2 /\ P (f h s).1) ->
  (forall a, allowed (ev a)) -> emits (on_shared env f ev) P.
Proof.
  intros Hf Ha h. apply runs_on_shared; [done|]. intros s Hs. destruct (Hf h s Hs) as [? HP].
  split; [done|]. by apply one_event.
Qed.

(** Steps on the parts of the state that hold no settings. *)
Lemma emits_other {A} (f : history -> shared -> A * shared) ev :
  (forall h s, sh_rotator (f h s).2 = sh_rotator s /\ sh_srs (f h s).2 = sh_srs s) ->
  (forall a, allowed (ev a)) -> emits (on_shared env f ev) (fun _ => True).
Proof.
  intros Hf Ha. apply emits_shared; [|done]. intros h s Hs. split; [|done].
  unfold settings_kept. destruct (Hf h s) as [-> ->]. exact Hs.
Qed.

Lemma emits_pool {A} (f : history -> ConnectionPool -> A * ConnectionPool) ev :
  (forall a, allowed (ev a)) -> emits (on_pool env f ev) (fun _ => True).
Proof. intros Ha. apply emits_other; [|done]. intros h s. by destruct (f h (sh_pool s)). Qed.

Lemma emits_reputation {A} (f : IPReputationTracker -> A * IPReputationTracker) ev :
  (forall a, allowed (ev a)) -> emits (on_reputation env f ev) (fun _ => True).
Proof. intros Ha. apply emits_other; [|done]. intros h s. by destruct (f (sh_reputation s)). Qed.

Lemma emits_mx {A} (f : MXLookup -> A * MXLookup) ev :
  (forall a, allowed (ev a)) -> emits (on_mx env f ev) (fun _ => True).
Proof. intros Ha. apply emits_other; [|done]. intros h s. by destruct (f (sh_mx s)). Qed.

Lemma emits_remaining : emits (remaining env) (fun _ => True).
Proof.
  unfold remaining. destruct (e_deadline env); [|by apply emits_ret].
  eapply emits_bind; [apply emits_ask|]. intros. by apply emits_ret.
Qed.

(** The steps below: a known operation first, then what follows it. *)
Ltac emits_one :=
  first
    [ apply emits_remaining | apply emits_ask | apply emits_timeouts | apply emits_set_timeouts
    | apply emits_end | apply emits_read
    | by apply emits_log | by apply emits_call
    | by apply emits_pool | by apply emits_reputation | by apply emits_mx ].
Ltac emits_step :=
  match goal with
  | |- emits (ret _) _ => by apply emits_ret
  | |- emits panic _ => apply emits_panic
  | |- emits (bind (if _ then _ else _) _) _ =>
      eapply (emits_bind _ _ (fun _ => True)); [|let a := fresh in intros a _]
  | |- emits (bind (match _ with _ => _ end) _) _ =>
      eapply (emits_bind _ _ (fun _ => True)); [|let a := fresh in intros a _]
  | |- emits (bind _ _) _ => eapply emits_bind; [emits_one|let a := fresh in intros a _]
  | |- emits (if ?b then _ else _) _ => destruct b
  | |- emits (match ?x with _ => _ end) _ => destruct x
  | |- emits _ (fun _ => True) => eapply emits_weaken; [emits_one|done]
  end.

(** *** The SMTP transaction *)

Lemma close_emits c : emits (close env c) (fun _ => True).
Proof. by apply emits_log. Qed.

Lemma forward_counter s t a : exists c, (forward s t a).2 = set_counter s c.
Proof.
  assert (Hid : exists c, s = set_counter s c) by (exists (counter s); by destruct s).
  unfold forward. destruct (is_empty a); [done|]. destruct (parse_email a) as [[l dom]|e]; [|done].
  destruct (has_srs_prefix s "SRS0" l); [done|]. destruct (has_srs_prefix s "SRS1" l); [done|].
  unfold forward_srs0, select_domain. repeat case_match; simplify_eq/=; eauto.
Qed.

Lemma sender_emits h m :
  sent_message d req message m ->
  emits (on_srs env (rewritten_sender (e_now env h) sender recipient m ia)) (mail_sender m).
Proof.
  intros Hm. apply emits_shared; [|done]. intros h' s Hs. unfold rewritten_sender, mail_sender.
  destruct Hs as (H4 & H6 & Hsrs). unfold in_force in Hsrs. destruct srs as [s0|] eqn:Esrs.
  - destruct Hsrs as [c Hc]. rewrite Hc.
    assert (Hkeep : forall x, in_force (Some s0) x -> settings_kept
      (mkShared (sh_config s) (sh_pool s) (sh_reputation s) (sh_rotator s) (sh_limiters s) x (sh_mx s)
         (sh_keys s) (sh_fresh s))).
    { intros x Hx. split_and!; [done..|]. by rewrite Esrs. }
    destruct (is_auto_reply m) eqn:Ha; [split; [apply Hkeep; by exists c|by exists c, h]|].
    destruct (should_skip_srs _ _ _ _).1 eqn:Hk; [split; [apply Hkeep; by exists c|exists c, h; by rewrite Hk]|].
    pose proof (forward_counter (set_counter s0 c) (e_now env h) sender) as [c' Hc'].
    destruct (forward (set_counter s0 c) (e_now env h) sender) as [[f|e] s'] eqn:Hf; cbn in Hc'; subst s';
      (split; [apply Hkeep; by exists c'|exists c, h; cbn; rewrite Hk, Hf; done]).
  - rewrite Hsrs. split; [|done]. split_and!; [done..|]. by rewrite Esrs.
Qed.

Lemma deliver_payload_emits c m cfg' :
  sent_message d req message m -> emits (deliver_payload env c from to m ia cfg') (fun _ => True).
Proof.
  intros Hm. unfold deliver_payload. eapply emits_bind; [apply emits_ask|]. intros t [h ->].
  eapply emits_bind; [by apply sender_emits|]. intros f Hf.
  emits_step; [repeat emits_step|]. emits_step. emits_step; [by emits_step|].
  eapply emits_bind; [apply emits_call; intros r; by exists m|]. intros [u|e] _; [|by emits_step].
  emits_step. emits_step; [by emits_step|]. emits_step. emits_step; [|by emits_step].
  emits_step. emits_step; [by emits_step|]. emits_step. emits_step; [|by emits_step].
  emits_step. emits_step; [by emits_step|].
  eapply emits_bind; [apply emits_call; intros r; by exists m|]. intros [u'|e] _; repeat emits_step.
Qed.

Lemma pool_put_emits c mxHost sourceIP : emits (pool_put_conn env c mxHost sourceIP) (fun _ => True).
Proof. unfold pool_put_conn. repeat emits_step. Qed.

Lemma pool_get_emits mxHost sourceIP : emits (pool_get_conn env mxHost sourceIP) (fun _ => True).
Proof.
  unfold pool_get_conn. emits_step.
  match goal with |- emits (pool_get_rounds _ ?n _ _) _ => generalize n end. intros rounds.
  induction rounds as [|rounds IH]; cbn [pool_get_rounds]; [by emits_step|].
  emits_step. eapply emits_bind; [apply emits_pool; by intros [[c|] closed]|]. intros [[c|] closed] _; cbn [fst]; [|by emits_step].
  emits_step. emits_step; [by emits_step|]. emits_step. apply IH.
Qed.

Lemma transaction_emits c m mxHost sourceIP reused cfg' :
  sent_message d req message m ->
  emits (perform_delivery_transaction env c from to m mxHost sourceIP reused ia cfg') (fun _ => True).
Proof.
  intros Hm. unfold perform_delivery_transaction. emits_step. emits_step; [repeat emits_step|].
  emits_step. emits_step; [repeat emits_step|]. emits_step. emits_step. emits_step; [repeat emits_step|].
  eapply emits_bind; [by apply deliver_payload_emits|]. intros [text|e] _; [|repeat emits_step].
  emits_step. emits_step. emits_step; [|by emits_step]. destruct (_ && _); [apply pool_put_emits|by apply emits_log].
Qed.

(** *** The LMTP transaction *)

Lemma line_emits c t line :
  In line ["LHLO " +:+ out_HelloHostname cfg; "MAIL FROM:<" +:+ sender +:+ ">"; "RCPT TO:<" +:+ recipient +:+ ">";
           "DATA"; "QUIT"] ->
  emits (call env (RWriteLine c t (lmtp_command line))) (fun _ => True).
Proof. intros Hl. apply emits_call. intros r. cbn [allowed]. unfold lmtp_line. by apply in_map. Qed.

Lemma lmtp_failure_emits mxHost sourceIP what e : emits (lmtp_failure env mxHost sourceIP what e) (fun _ => True).
Proof. unfold lmtp_failure. repeat emits_step. Qed.

Lemma lmtp_exchange_emits c t mxHost sourceIP name line phase expect k :
  In line ["LHLO " +:+ out_HelloHostname cfg; "MAIL FROM:<" +:+ sender +:+ ">"; "RCPT TO:<" +:+ recipient +:+ ">";
           "DATA"; "QUIT"] ->
  emits k (fun _ => True) ->
  emits (lmtp_exchange env c t mxHost sourceIP name line phase expect k) (fun _ => True).
Proof.
  intros Hl Hk. unfold lmtp_exchange, write_command. eapply emits_bind; [by apply line_emits|].
  intros [u|e] _; [|apply lmtp_failure_emits]. emits_step.
  emits_step; [|apply lmtp_failure_emits]. emits_step. emits_step; [by emits_step|done].
Qed.

Lemma lmtp_emits c m mxHost sourceIP :
  sent_message d req message m -> emits (perform_lmtp_transaction env c from to m mxHost sourceIP) (fun _ => True).
Proof.
  intros Hm. unfold perform_lmtp_transaction. eapply emits_bind; [by apply emits_other|]. intros cfg' _.
  eapply (emits_bind _ _ (fun _ => True)).
  - apply lmtp_exchange_emits; [cbn; tauto|]. apply lmtp_exchange_emits; [cbn; tauto|].
    apply lmtp_exchange_emits; [cbn; tauto|].
    eapply emits_bind; [apply emits_call; intros r; by exists m|]. intros [u|e] _; [|apply lmtp_failure_emits].
    repeat emits_step.
  - intros r _. emits_step. eapply emits_bind; [apply line_emits; cbn; tauto|]. intros _ _.
    eapply emits_bind; [apply close_emits|]. intros _ _. by emits_step.
Qed.

(** *** Setting up a connection *)

#[local] Abbreviation protocol := (protocol_of cfg transport).

Lemma failing_emits {A} c (r : result error A) :
  emits (bind (close env c) (fun _ => ret r)) (fun _ => True).
Proof. eapply emits_bind; [apply close_emits|]. intros _ _. by emits_step. Qed.

Lemma lmtp_handshake_emits c t : emits (lmtp_handshake env c t cfg) (fun _ => True).
Proof.
  unfold lmtp_handshake. emits_step; [repeat emits_step|]. emits_step; [|apply failing_emits].
  emits_step. emits_step; [|apply failing_emits]. emits_step. emits_step; [apply failing_emits|].
  eapply emits_bind; [apply line_emits; cbn; tauto|]. intros [u|e] _; [|apply failing_emits].
  emits_step. emits_step; [|apply failing_emits]. emits_step. emits_step; [apply failing_emits|by emits_step].
Qed.

Lemma new_conn_emits : emits (new_conn env) (fun _ => True).
Proof. by apply emits_other. Qed.

Definition dial_allowed (source target : string) : Prop := forall t r, allowed (EvCall (RDial source target t) r).

Lemma smtp_handshake_emits c source target t1 t2 :
  dial_allowed source target -> emits (smtp_handshake env c source target t1 t2 cfg) (fun _ => True).
Proof.
  intros Hd. unfold smtp_handshake, ready_client. emits_step.
  - emits_step. emits_step; [|apply failing_emits]. emits_step. emits_step; [repeat emits_step|apply failing_emits].
  - emits_step. emits_step; [repeat emits_step|]. eapply emits_bind; [apply close_emits|]. intros _ _.
    emits_step; [|by emits_step]. eapply emits_bind; [apply emits_call; intros r; apply Hd|]. intros [u|e'] _; [|by emits_step].
    eapply emits_bind; [apply new_conn_emits|]. intros c' _.
    emits_step. emits_step; [repeat emits_step|apply failing_emits].
Qed.

Lemma say_hello_emits c source target mxHost sourceIP t :
  dial_allowed source target -> emits (say_hello env c source target mxHost sourceIP protocol t cfg) (fun _ => True).
Proof.
  intros Hd. unfold say_hello, dial_failure. emits_step. emits_step.
  - match goal with |- emits (let '(_, _) := ?x in _) _ => destruct x as [[b hs] dl] end.
    eapply (emits_bind _ _ (fun _ => True)).
    { destruct (seqb _ _); [apply lmtp_handshake_emits|by apply smtp_handshake_emits]. }
    intros outcome _. emits_step. emits_step.
    + eapply emits_bind; [apply close_emits|]. intros _ _. repeat emits_step.
    + repeat emits_step.
  - emits_step. eapply emits_bind; [apply close_emits|]. intros _ _. repeat emits_step.
Qed.

Lemma dial_emits mxHost mxIPs sourceIP preferIPv6 :
  may_bind cfg transport v4 v6 sourceIP ->
  emits (dial_and_hello env mxHost mxIPs sourceIP preferIPv6 protocol cfg) (fun _ => True).
Proof.
  intros Hsrc. unfold dial_and_hello, dial_failure. emits_step.
  { repeat emits_step. }
  destruct (target_port cfg protocol) as [port|e] eqn:Hport; [|by emits_step]. emits_step.
  emits_step; [by emits_step|].
  assert (Hd : dial_allowed sourceIP (join_host_port (select_target mxIPs sourceIP preferIPv6) port)).
  { intros t r. split; [done|]. by eexists _, _. }
  eapply emits_bind; [apply emits_call; intros r; apply Hd|]. intros [u|e] _.
  - eapply emits_bind; [apply new_conn_emits|]. intros c _. by apply say_hello_emits.
  - repeat emits_step.
Qed.

(** *** Attempts *)

Section Message.
Context (m : string) (Hm : sent_message d req message m).

Lemma fresh_emits mxHost mxIPs sourceIP preferIPv6 :
  may_bind cfg transport v4 v6 sourceIP ->
  emits (fresh_attempt env from to m mxHost mxIPs sourceIP preferIPv6 protocol ia cfg) (fun _ => True).
Proof.
  intros Hsrc. unfold fresh_attempt. eapply emits_bind; [by apply dial_emits|].
  intros [[[[c|c]|] r] [e|]] _; try by emits_step.
  - by apply transaction_emits.
  - by apply lmtp_emits.
Qed.

Lemma attempt_emits mxHost mxIPs sourceIP preferIPv6 :
  may_bind cfg transport v4 v6 sourceIP ->
  emits (attempt_delivery env from to m mxHost mxIPs sourceIP preferIPv6 protocol ia cfg) (fun _ => True).
Proof.
  intros Hsrc. unfold attempt_delivery. emits_step; [by apply fresh_emits|].
  eapply emits_bind; [apply pool_get_emits|]. intros [c|] _; [|by apply fresh_emits].
  eapply emits_bind; [by apply transaction_emits|]. intros r _. emits_step; [by emits_step|by apply fresh_emits].
Qed.

Lemma record_emits sourceIP r mxHost : emits (record_attempt env sourceIP r from to mxHost) (fun _ => True).
Proof.
  unfold record_attempt. emits_step. match goal with |- emits (record_sections _ _ _ ?pc) _ => generalize pc end.
  generalize max_sections. intros fuel. induction fuel as [|fuel IH]; intros pc; cbn [record_sections]; [by emits_step|].
  emits_step. emits_step. match goal with |- emits (match ?x with _ => _ end) _ => destruct x end;
    first [by apply emits_ret|apply IH].
Qed.

Lemma sources_emits mxHost mxIPs v ips r :
  (forall ip, In ip ips -> may_bind cfg transport v4 v6 ip) ->
  emits (try_sources env from to m mxHost mxIPs v protocol ia cfg ips r) (fun _ => True).
Proof.
  revert r. induction ips as [|ip ips IH]; intros r Hips; cbn [try_sources]; [by emits_step|].
  emits_step. emits_step; [by emits_step|].
  eapply emits_bind; [apply attempt_emits, Hips; by left|]. intros r' _.
  eapply emits_bind; [apply record_emits|]. intros _ _. emits_step; [by emits_step|].
  apply IH. intros; apply Hips. by right.
Qed.

(** The addresses of one IP version, where the mode allows it. *)
Definition version_allowed (v : bool) : Prop :=
  forall ip, In ip (if v then v6 else v4) -> may_bind cfg transport v4 v6 ip.

Lemma select_emits v domain rnd :
  version_allowed v ->
  emits (on_rotator env (fun r => select_ips r v domain rnd))
    (fun ips => forall ip, In ip ips -> may_bind cfg transport v4 v6 ip).
Proof.
  intros Hv. apply emits_shared; [|done]. intros h s (H4 & H6 & Hsrs).
  destruct (select_ips_pools (sh_rotator s) v domain rnd) as [E4 E6].
  pose proof (select_ips_in (sh_rotator s) v domain rnd) as Hin.
  destruct (select_ips (sh_rotator s) v domain rnd) as [ips rot]. cbn in *.
  split; [unfold settings_kept; cbn; by rewrite E4, E6|].
  intros ip Hip. apply Hv. apply Hin in Hip. destruct v; cbn in Hip; [by rewrite H6 in Hip|by rewrite H4 in Hip].
Qed.

Lemma version_emits mxHost mxIPs v :
  version_allowed v ->
  emits (try_delivery_with_ip_version env from to m mxHost mxIPs v protocol ia cfg) (fun _ => True).
Proof.
  intros Hv. unfold try_delivery_with_ip_version. destruct (split_email to) as [lp domain].
  emits_step. eapply emits_bind; [by apply select_emits|]. intros ips Hips. emits_step.
  eapply (emits_bind _ _ (fun healthy => forall ip, In ip healthy -> In ip ips)).
  { apply emits_shared; [|done]. intros h s Hs. split; [done|]. cbn. intros ip Hip.
    unfold get_healthy_ips in Hip. destruct (negb _); [done|]. by apply filter_In in Hip as [? _]. }
  intros healthy Hh. apply sources_emits. destruct healthy; [exact Hips|]. intros ip Hip. by apply Hips, Hh.
Qed.

Lemma versions_emits mxHost mxIPs vs r :
  (forall v, In v vs -> version_allowed v) ->
  emits (try_versions env from to m mxHost mxIPs vs protocol ia cfg r) (fun _ => True).
Proof.
  revert r. induction vs as [|v vs IH]; intros r Hvs; cbn [try_versions]; [by emits_step|].
  eapply emits_bind; [apply version_emits, Hvs; by left|]. intros r' _. emits_step; [by emits_step|].
  apply IH. intros; apply Hvs. by right.
Qed.

Lemma versions_allowed rot h4 h6 v : In v (versions (choose_egress cfg protocol rot) h4 h6) -> version_allowed v.
Proof.
  intros Hv ip Hip. right. unfold versions, choose_egress in Hv. cbn [eg_tryIPv4 eg_tryIPv6 eg_tryIPv6First] in Hv.
  repeat case_match; cbn in Hv; destruct_or? Hv; subst; try done; bool_norm; destruct_and?; bool_norm; intuition.
Qed.

Lemma mx_emits mxHost mxIPs h4 h6 rot r :
  emits (try_mx env from to m mxHost mxIPs h4 h6 (choose_egress cfg protocol rot) protocol ia cfg r) (fun _ => True).
Proof.
  unfold try_mx. emits_step; [by apply versions_emits; intros v; apply versions_allowed|].
  eapply emits_bind; [apply attempt_emits; by left|]. intros r' _.
  eapply emits_bind; [apply record_emits|]. intros _ _. by emits_step.
Qed.

Lemma resolve_emits host : emits (resolve_mx_host env host) (fun _ => True).
Proof. unfold resolve_mx_host. repeat emits_step. Qed.

Lemma loop_emits mxs rot r :
  emits (mx_loop env from to m mxs (choose_egress cfg protocol rot) protocol ia cfg r) (fun _ => True).
Proof.
  revert r. induction mxs as [|mx mxs IH]; intros r; cbn [mx_loop]; [by emits_step|].
  emits_step. emits_step; [by emits_step|].
  eapply emits_bind; [apply resolve_emits|]. intros [[[mxIPs h4] h6]|e] _; [|apply IH].
  eapply emits_bind; [apply mx_emits|]. intros [r' final] _. emits_step; [by emits_step|apply IH].
Qed.

End Message.

(** *** The whole delivery *)

Lemma parameters_emits : emits (dkim_parameters env from message req) (fun _ => True).
Proof.
  unfold dkim_parameters. emits_step; [repeat emits_step|]. emits_step; [|by emits_step].
  emits_step; [by emits_step|]. emits_step. eapply (emits_bind _ _ (fun _ => True)); [|by intros; emits_step].
  apply emits_other; [|done]. intros h s. cbn. destruct (sh_keys s); [|done]. by destruct (ks_lookup _ _ _).
Qed.

Lemma sign_emits :
  emits (sign_dkim env from message req) (fun o => forall m, o = Some m -> dkim_version message m).
Proof.
  unfold sign_dkim. eapply emits_bind; [apply parameters_emits|]. intros [[[key sel] dom]|] _; [|by apply emits_ret].
  assert (Hsame : emits (ret (Some message)) (fun o => forall m, o = Some m -> dkim_version message m)).
  { apply emits_ret. intros m [= <-]. by left. }
  emits_step; [|done]. emits_step; [repeat emits_step|]. emits_step; [|done]. emits_step. apply emits_ret.
  intros m [= <-]. destruct (dkim_sign_message _ _ _ _ _) eqn:Hs; [right; eauto 10|by left].
Qed.

Lemma limit_emits cfg' domain : emits (check_rate_limit env cfg' domain) (fun _ => True).
Proof.
  unfold check_rate_limit. emits_step; [|by emits_step]. emits_step. emits_step.
  apply emits_other; [|done]. intros h s. by destruct (wait_for_domain_rate_limit _ _ _ _ _).
Qed.

Lemma route_emits domain : emits (route_message env cfg protocol domain) (fun _ => True).
Proof.
  unfold route_message. emits_step; [repeat emits_step|]. emits_step. emits_step. emits_step.
  match goal with |- emits (let '(_, _) := ?x in _) _ => destruct x end. repeat emits_step.
Qed.

Lemma deliver_emits start : emits (deliver_under env d start cfg from to message transport req ia) (fun _ => True).
Proof.
  unfold deliver_under. destruct (split_email to) as [lp domain]. emits_step; [by emits_step|].
  eapply emits_bind; [apply limit_emits|]. intros [] _; cbn [negb]; [|by emits_step].
  eapply emits_bind; [apply sign_emits|]. intros [m|] Hm; [|by emits_step].
  eapply emits_bind; [apply route_emits|]. intros [mxs|r] _; [|by emits_step].
  eapply emits_bind; [by apply emits_other|]. intros rot _.
  eapply emits_bind; [apply loop_emits; exists m; split; [by apply Hm|done]|]. intros r _.
  unfold finish. emits_step. emits_step; [repeat emits_step|]. by emits_step.
Qed.

End Bounds.

(** ** The property *)

Section Properties.
Context `{Crypto, Unicode}.

(** C2: what a delivery sends and from where, under the configuration in force
    when it starts, whatever DNS, the network and the servers answer, and
    whatever the other goroutines do meanwhile (reloads of the configuration
    included) except to the rotator's addresses and the settings of SRS, which
    nothing changes once the program has started.  It binds only source
    addresses of the pool whose IP version the protocol's mode allows, and none
    for LMTP, and dials the protocol's port; it greets with the configured name;
    the recipient of every RCPT is its recipient; every MAIL over SMTP carries
    its sender, or what the SRS in force makes of it at a reading of the clock
    where SRS applies; an LMTP connection is sent LHLO, MAIL with the sender as
    it is, RCPT, DATA and QUIT; and what follows DATA is the signed message,
    under the envelope header for SMTP. *)
Theorem delivery_stays_in_bounds env d from to message transport req ia w :
  keeps env (settings_kept w) ->
  let '(_, w') := deliver_message env d from to message transport req ia w in
  exists new, w_trace w' = new ++ w_trace w /\
    Forall (allowed env w d from to message transport req ia) new.
Proof.
  intros Hkeeps. rewrite deliver_message_reads.
  assert (Hinv : settings_kept w (w_shared (record env EvTick (record env EvTick w)))).
  { apply Hkeeps, Hkeeps. split_and!; [done..|]. apply in_force_refl. }
  pose proof (deliver_emits env w d from to message transport req ia Hkeeps (e_now env (w_trace w))
    _ _ eq_refl Hinv) as Hd.
  destruct (deliver_under _ _ _ _ _ _ _ _ _ _ _) as [o w']. destruct Hd as (_ & new & Ht & HF & _).
  exists (new ++ [EvTick; EvTick]). rewrite <- app_assoc. split; [exact Ht|].
  apply Forall_app. split; [done|by repeat constructor].
Qed.

End Properties.

(** ** A witness and an example *)

(** The environment where the others do [f]. *)
Definition with_interfere (env : Env) (f : history -> shared -> shared) : Env :=
  mkEnv (e_trace_id env) (e_deadline env) (e_ctx_err env) (e_now env) (e_stop env) (e_done_first env)
    (e_call env) (e_nil_writer env) (e_end env) (e_extension env) (e_input env) (e_rounds env)
    (e_health_clock env) (e_mx env) (e_sort env) (e_host env) (e_txt env) (e_random env) (e_keys env) f.

(** Every step of the others is a reload, back and forth between two
    configurations. *)
Definition reload_env : Env :=
  with_interfere yes_env (fun h s =>
    deliverer_reload_config s
      (if Nat.even (length h) then Outbound (set_prefer true true default_config) else out_config)).

Lemma delivery_stays_in_bounds_witness :
  let w := start_world out_config ["198.51.100.1"] [] in
  let '(_, w') := deliver reload_env w "smtp" in
  exists new, w_trace w' = new ++ [] /\
    Forall (@allowed toy_crypto plain_unicode reload_env w example_deliverer "<a@x.org>" "b@example.org"
      "Hi" "smtp" no_signing None) new.
Proof.
  apply (@delivery_stays_in_bounds toy_crypto plain_unicode reload_env example_deliverer "<a@x.org>"
    "b@example.org" "Hi" "smtp" no_signing None (start_world out_config ["198.51.100.1"] [])).
  intros h s Hs. exact Hs.
Defined.

(** With SRS on, the sender as it is sent. *)
Definition srs_world (cfg : OutboundConfig) : world :=
  let s := w_shared (start_world cfg ["198.51.100.1"] []) in
  mkWorld (mkShared (sh_config s) (sh_pool s) (sh_reputation s) (sh_rotator s) (sh_limiters s)
             (Some (mkSRS ["relay.example"] "round-robin" 0 "secret" 21 4 "=" ∅ false true false))
             (sh_mx s) (sh_keys s) (sh_fresh s)) [] ∅ ∅.
Definition senders_of (t : history) : list string :=
  rev (omap (fun ev => match ev with EvCall (RMail _ f _) _ => Some f | _ => None end) t).
Example sender_rewritten :
  let senders p := map (stake 5) (senders_of (w_trace (deliver yes_env (p out_config) "smtp").2)) in
  (senders srs_world, senders (fun cfg => start_world cfg ["198.51.100.1"] [])) = (["SRS0="], ["a@x.o"]).
Proof. vm_compute. reflexivity. Qed.
