(* ===== verification/DelivererConns.v ===== *)
(** * The connections of a delivery (properties of Deliverer.v)

    Who holds a connection: which connections a delivery has opened or taken
    from the pool and not released again, and that what it does to the pool
    are steps of the pool's own machine (ConnectionPool.v). *)

From stdpp Require Import base gmap sets list strings relations.
From Stdlib Require Import ZArith Lia.
From S2P Require Import Prelude GoString GoError NetIP Config IPExpansion ErrorClassifier IPReputation ConnectionPool.
From S2P Require Import MXLookup IPRotator DomainLimiter LMTP SRS DKIM KeyStore ARC MIMEHeader.
From S2P Require Import Delivery Effects Deliverer DelivererSafety.
#[local] Open Scope Z_scope.

(** ** What a history says about connections *)

(** The connections that are open and not released. *)
Fixpoint held (t : history) : gset nat :=
  match t with
  | [] => ∅
  | EvOpen c :: t | EvAcquire c _ _ _ :: t => {[c]} ∪ held t
  | EvRelease _ c :: t => held t ∖ {[c]}
  | _ :: t => held t
  end.

(** The connection a call is made on. *)
Definition used_by (q : request) : option conn :=
  match q with
  | RDial _ _ _ => None
  | RTLSHandshake c | RHello c _ | RStartTLS c _ | RMail c _ _ | RRcpt c _ | RData c
  | RWrite c _ | RReset c | RNoop c | RWriteLine c _ _ | RWriteData c _ _ => Some c
  end.

(** The last call was a RSET of [c], and it was answered. *)
Fixpoint reset_answered (c : client) (t : history) : bool :=
  match t with
  | [] => false
  | EvCall (RReset c') (Ok _) :: _ => (c' =? c)%nat
  | EvCall _ _ :: _ => false
  | _ :: t => reset_answered c t
  end.

(** An event is in order after [t]: a connection comes in once, is used while
    it is held, and goes back to the pool while it is held and clean. *)
Definition proper (ev : event) (t : history) : Prop :=
  match ev with
  | EvCall q _ => forall c, used_by q = Some c -> c ∈ held t
  | EvEnd c _ | EvReply _ c _ | EvTimeouts c _ _ => c ∈ held t
  | EvOpen c | EvAcquire c _ _ _ => c ∉ held t
  | EvRelease Close _ => True                   (* a second Close has no effect *)
  | EvRelease Quit c => c ∈ held t
  | EvRelease PutBack c => c ∈ held t /\ reset_answered c t = true
  | _ => True
  end.

Fixpoint orderly (new old : history) : Prop :=
  match new with
  | [] => True
  | ev :: new => proper ev (new ++ old) /\ orderly new old
  end.

Lemma orderly_app a b h : orderly (a ++ b) h <-> orderly a (b ++ h) /\ orderly b h.
Proof. induction a as [|ev a IH]; cbn; [tauto|]. rewrite IH, app_assoc. tauto. Qed.

(** ** The pool among the others *)

(** The pool as its machine sees it, when [u] are the connections in use. *)
Definition pool_of_shared (s : shared) (u : gset nat) : pool_state := mkPS (sh_pool s) u (sh_fresh s).

(** A step of somebody who does not hold [mine]. *)
Definition step_of_others (mine : gset nat) (s s' : pool_state) : Prop :=
  pool_step s s' /\ (mine ⊆ in_use s -> mine ⊆ in_use s').

(** What the other goroutines do to the pool, seen from a delivery: steps of
    the pool that leave it its connections, and those of a third party. *)
Definition pool_interference (env : Env) (third : gset nat) : Prop :=
  forall h s u, third ∪ held h ⊆ u -> exists u',
    rtc (step_of_others (third ∪ held h)) (pool_of_shared s u) (pool_of_shared (e_interfere env h s) u').

Lemma others_subset mine mine' s s' : mine ⊆ mine' -> mine' ⊆ in_use s ->
  rtc (step_of_others mine') s s' -> rtc (step_of_others mine) s s' /\ mine' ⊆ in_use s'.
Proof.
  intros Hm Hs Hr. induction Hr as [|x y z [Hst Hk] _ IH]; [done|].
  destruct (IH (Hk Hs)) as [Hr Hz]. split; [|done]. eapply rtc_l; [|exact Hr].
  split; [done|]. intros _. pose proof (Hk Hs). set_solver.
Qed.

Lemma steps_inv mine x y : pool_inv x -> rtc (step_of_others mine) x y -> pool_inv y.
Proof. intros Hx Hr. induction Hr as [|x y z [Hs _] _ IH]; [done|]. apply IH. by eapply pool_step_inv. Qed.

Section Connections.
Context `{Crypto, Unicode}.
Context (env : Env) (third : gset nat) (Hothers : pool_interference env third).
Context (start : pool_state) (Hstart : pool_inv start).

(** So far the pool has moved by steps that keep the third party's connections;
    ours are in use, and not the third party's. *)
Definition pool_so_far (h : history) (s : shared) : Prop :=
  exists u, third ∪ held h ⊆ u /\ third ## held h /\ rtc (step_of_others third) start (pool_of_shared s u).

Lemma others_keep h s : pool_so_far h s -> pool_so_far h (e_interfere env h s).
Proof.
  intros (u & Hu & Hd & Hr). destruct (Hothers h s u Hu) as (u' & Ho). exists u'.
  destruct (others_subset third (third ∪ held h) (pool_of_shared s u) _ ltac:(set_solver) Hu Ho) as [Hr' Hu']. split_and!; [done..|]. by etrans.
Qed.

(** A step of ours on the pool. *)
Lemma so_far_step h h' s s' :
  (forall u, third ∪ held h ⊆ u -> third ## held h -> pool_inv (pool_of_shared s u) ->
     exists u', third ∪ held h' ⊆ u' /\ third ## held h' /\
     rtc (step_of_others third) (pool_of_shared s u) (pool_of_shared s' u')) ->
  pool_so_far h s -> pool_so_far h' s'.
Proof.
  intros Hs (u & Hu & Hd & Hr). destruct (Hs u Hu Hd (steps_inv _ _ _ Hstart Hr)) as (u' & Hu' & Hd' & Hr').
  exists u'. split_and!; [done..|]. by etrans.
Qed.

Lemma so_far_same h h' s s' :
  held h' = held h -> sh_pool s' = sh_pool s -> sh_fresh s' = sh_fresh s ->
  pool_so_far h s -> pool_so_far h' s'.
Proof. unfold pool_so_far, pool_of_shared. by intros -> -> ->. Qed.

(** What is in use, and what is fresh, at any time. *)
Lemma so_far_inv h s : pool_so_far h s -> exists u, held h ⊆ u /\ pool_inv (pool_of_shared s u).
Proof. intros (u & Hu & _ & Hr). exists u. split; [set_solver|]. by eapply steps_inv. Qed.

(** One step that keeps the third party's connections. *)
Lemma third_step x y : pool_step x y -> third ⊆ in_use y -> rtc (step_of_others third) x y.
Proof. intros Hs Hy. by apply rtc_once. Qed.

(** ** The logic *)

Definition owns {A} (m : M A) (h : history) (R : history -> option A -> Prop) : Prop :=
  forall w, w_trace w = h -> pool_so_far h (w_shared w) ->
  let '(o, w') := m w in
  pool_so_far (w_trace w') (w_shared w') /\
  exists new, w_trace w' = new ++ h /\ orderly new h /\ R (w_trace w') o.

Lemma owns_mono {A} (m : M A) h (R R' : history -> option A -> Prop) :
  owns m h R -> (forall t o, R t o -> R' t o) -> owns m h R'.
Proof.
  intros Hm HR w Hw Hf. specialize (Hm w Hw Hf). destruct (m w) as [o w'].
  destruct Hm as (? & new & ? & ? & ?). split; [done|]. exists new. auto.
Qed.

Lemma owns_ret {A} (a : A) h (R : history -> option A -> Prop) : R h (Some a) -> owns (ret a) h R.
Proof. intros HR w <- Hf. split; [done|]. by exists []. Qed.

Lemma owns_panic {A} h (R : history -> option A -> Prop) : R h None -> owns panic h R.
Proof. intros HR w <- Hf. split; [done|]. by exists []. Qed.

Lemma owns_bind {A B} (m : M A) (k : A -> M B) h R1 (R : history -> option B -> Prop) :
  owns m h R1 -> (forall a t, R1 t (Some a) -> owns (k a) t R) -> (forall t, R1 t None -> R t None) ->
  owns (bind m k) h R.
Proof.
  intros Hm Hk Hn w Hw Hf. specialize (Hm w Hw Hf). unfold bind.
  destruct (m w) as [[a|] w']; destruct Hm as (Hf' & n1 & E1 & Ho1 & HR1); [|by split; [|exists n1; auto]].
  specialize (Hk a _ HR1 w' eq_refl Hf'). destruct (k a w') as [o w''].
  destruct Hk as (Hf'' & n2 & E2 & Ho2 & HR2). split; [done|]. exists (n2 ++ n1).
  rewrite E2, E1, app_assoc. split_and!; [done| |by rewrite E2, E1, app_assoc in HR2].
  apply orderly_app. by rewrite <- E1.
Qed.

Lemma owns_log ev h (R : history -> option unit -> Prop) :
  (forall s, pool_so_far h s -> pool_so_far (ev :: h) s) -> proper ev h ->
  R (ev :: h) (Some tt) -> owns (log env ev) h R.
Proof.
  intros Hf Hp HR w <- Hw. cbn. split; [by apply others_keep, Hf|]. by exists [ev].
Qed.

Lemma owns_ask {A} (oracle : history -> A) h (R : history -> option A -> Prop) :
  R (EvTick :: h) (Some (oracle h)) -> owns (ask env oracle) h R.
Proof. intros HR w <- Hw. cbn. split; [by apply others_keep|]. by exists [EvTick]. Qed.

Lemma owns_call q h (R : history -> option (result error unit) -> Prop) :
  (forall c, used_by q = Some c -> c ∈ held h) ->
  R (EvCall q (e_call env h q) :: h) (Some (e_call env h q)) -> owns (call env q) h R.
Proof.
  intros Hc HR w <- Hw. cbn. split; [by apply others_keep|]. by exists [EvCall q (e_call env (w_trace w) q)].
Qed.

Lemma owns_end_data c h (R : history -> option (result error string) -> Prop) :
  c ∈ held h -> (forall r, R (EvEnd c r :: h) (Some r)) -> owns (end_data env c) h R.
Proof.
  intros Hc HR w <- Hw. cbn. split; [by apply others_keep|]. by eexists [EvEnd c _].
Qed.

Lemma owns_on_shared {A} (f : history -> shared -> A * shared) ev h (R : history -> option A -> Prop) :
  (forall s, pool_so_far h s -> pool_so_far (ev (f h s).1 :: h) (f h s).2 /\
     proper (ev (f h s).1) h /\ R (ev (f h s).1 :: h) (Some (f h s).1)) ->
  owns (on_shared env f ev) h R.
Proof.
  intros HR w <- Hw. unfold on_shared. specialize (HR _ Hw).
  destruct (f (w_trace w) (w_shared w)) as [a s]. destruct HR as (Hf & Hp & HR). cbn.
  split; [by apply others_keep|]. by exists [ev a].
Qed.

Lemma owns_timeouts c h (R : history -> option (Z * Z) -> Prop) :
  (forall t, R h (Some t)) -> owns (timeouts c) h R.
Proof. intros HR w <- Hw. split; [done|]. by exists []. Qed.

Lemma owns_set_timeouts c ts h (R : history -> option unit -> Prop) :
  c ∈ held h -> R (EvTimeouts c ts.1 ts.2 :: h) (Some tt) -> owns (set_timeouts env c ts) h R.
Proof. intros Hc HR w <- Hw. cbn. split; [by apply others_keep|]. by exists [EvTimeouts c ts.1 ts.2]. Qed.

Lemma owns_read p c timeout h (R : history -> option (result error (Z * string)) -> Prop) :
  c ∈ held h -> (forall r, R (EvReply p c r :: h) (Some r)) -> owns (read_response env p c timeout) h R.
Proof.
  intros Hc HR w <- Hw. unfold read_response. destruct (e_input env (w_trace w) c timeout) as [[fail more]|e].
  - destruct (read_lmtp_response fail _) as [r rest]. cbn. split; [by apply others_keep|]. by exists [EvReply p c r].
  - cbn. split; [by apply others_keep|]. by exists [EvReply p c (Err e)].
Qed.

(** ** Operations that hold what they held *)

Definition still {A} (m : M A) (h : history) : Prop :=
  owns m h (fun t o => held t = held h /\ is_Some o).

Lemma still_seq {A B} (m : M A) (k : A -> M B) h (R : history -> option B -> Prop) :
  still m h -> (forall a t, held t = held h -> owns (k a) t R) -> owns (bind m k) h R.
Proof.
  intros Hm Hk. eapply owns_bind; [exact Hm| |by intros t [_ [? ?]]]. intros a t [E _]. by apply Hk.
Qed.

Lemma still_bind {A B} (m : M A) (k : A -> M B) h :
  still m h -> (forall a t, held t = held h -> still (k a) t) -> still (bind m k) h.
Proof.
  intros Hm Hk. eapply still_seq; [exact Hm|]. intros a t E. eapply owns_mono; [by apply Hk|].
  intros t' o [E' ?]. by rewrite E', E.
Qed.

Lemma still_ret {A} (a : A) h : still (ret a) h.
Proof. apply owns_ret. split; [done|by eexists]. Qed.
Lemma still_ask {A} (oracle : history -> A) h : still (ask env oracle) h.
Proof. apply owns_ask. split; [done|by eexists]. Qed.
Lemma still_call q h : (forall c, used_by q = Some c -> c ∈ held h) -> still (call env q) h.
Proof. intros Hc. apply owns_call; [done|]. split; [done|by eexists]. Qed.
Lemma still_timeouts c h : still (timeouts c) h.
Proof. apply owns_timeouts. split; [done|by eexists]. Qed.
Lemma still_set_timeouts c ts h : c ∈ held h -> still (set_timeouts env c ts) h.
Proof. intros Hc. apply owns_set_timeouts; [done|]. split; [done|by eexists]. Qed.
Lemma still_end_data c h : c ∈ held h -> still (end_data env c) h.
Proof. intros Hc. apply owns_end_data; [done|]. split; [done|by eexists]. Qed.
Lemma still_read p c timeout h : c ∈ held h -> still (read_response env p c timeout) h.
Proof. intros Hc. apply owns_read; [done|]. split; [done|by eexists]. Qed.
Lemma still_if {A} (b : bool) (m1 m2 : M A) h : still m1 h -> still m2 h -> still (if b then m1 else m2) h.
Proof. by destruct b. Qed.

(** Steps on the other parts of the shared state. *)
Definition neutral (ev : event) : Prop := forall t, held (ev :: t) = held t /\ proper ev t.

Lemma still_on_shared {A} (f : history -> shared -> A * shared) (ev : A -> event) h :
  (forall s, sh_pool (f h s).2 = sh_pool s /\ sh_fresh (f h s).2 = sh_fresh s) -> (forall a, neutral (ev a)) ->
  still (on_shared env f ev) h.
Proof.
  intros Hf Hev. apply owns_on_shared. intros s Hs. destruct (Hf s) as [Hp Hn].
  destruct (Hev (f h s).1 h) as [Hh Hpr]. split_and!; [by eapply so_far_same|done|done|by eexists].
Qed.

Lemma still_ctx_err h : still (ctx_err env) h.
Proof. apply still_ask. Qed.
Lemma still_now h : still (now env) h.
Proof. apply still_ask. Qed.
Lemma still_remaining h : still (remaining env) h.
Proof.
  unfold remaining. destruct (e_deadline env); [|apply still_ret].
  apply still_bind; [apply still_now|]. intros. apply still_ret.
Qed.
Lemma still_get_config h : still (get_config env) h.
Proof. by apply still_on_shared. Qed.
Lemma still_rotator {A} (f : IPRotator -> A * IPRotator) h : still (on_rotator env f) h.
Proof. apply still_on_shared; [|done]. intros s. by destruct (f (sh_rotator s)). Qed.
Lemma still_limiters {A} (f : gmap string domainRateLimiter -> A * _) h : still (on_limiters env f) h.
Proof. apply still_on_shared; [|done]. intros s. by destruct (f (sh_limiters s)). Qed.
Lemma still_srs {A} (f : option SRS -> A * option SRS) h : still (on_srs env f) h.
Proof. apply still_on_shared; [|done]. intros s. by destruct (f (sh_srs s)). Qed.
Lemma still_keys {A} (f : option KeyStore -> A * option KeyStore) h : still (on_keys env f) h.
Proof. apply still_on_shared; [|done]. intros s. by destruct (f (sh_keys s)). Qed.
Lemma still_mx {A} (f : MXLookup -> A * MXLookup) ev h : (forall a, neutral (ev a)) -> still (on_mx env f ev) h.
Proof. intros Hev. apply still_on_shared; [|done]. intros s. by destruct (f (sh_mx s)). Qed.
Lemma still_reputation {A} (f : IPReputationTracker -> A * IPReputationTracker) ev h :
  (forall a, neutral (ev a)) -> still (on_reputation env f ev) h.
Proof. intros Hev. apply still_on_shared; [|done]. intros s. by destruct (f (sh_reputation s)). Qed.

(** ** Connections come in and go *)

Definition comes_in (h t : history) (c : conn) : Prop := c ∉ held h /\ held t = {[c]} ∪ held h.
Definition goes (h t : history) (c : conn) : Prop := held t = held h ∖ {[c]}.

Lemma comes_goes h t t' c : comes_in h t c -> goes t t' c -> held t' = held h.
Proof. unfold goes. intros [Hc ->] ->. apply set_eq. set_solver. Qed.

Lemma owns_new_conn h : owns (new_conn env) h (fun t o => exists c, o = Some c /\ comes_in h t c).
Proof.
  apply owns_on_shared. intros s Hs. cbn [fst snd].
  assert (Hfree : sh_fresh s ∉ held h).
  { destruct (so_far_inv _ _ Hs) as (u & Hu & Hi). intros Hc%Hu.
    pose proof (inv_use_fresh _ Hi _ Hc) as Hlt. cbn in Hlt. lia. }
  split_and!; [|done|by eexists]. eapply so_far_step; [|exact Hs]. intros u Hu Hd Hi.
  assert (sh_fresh s ∉ u).
  { intros Hc. pose proof (inv_use_fresh _ Hi _ Hc) as Hlt. cbn in Hlt. lia. }
  exists ({[sh_fresh s]} ∪ u). split_and!; [cbn; set_solver..|].
  apply third_step; [apply (step_dial (pool_of_shared s u))|cbn; set_solver].
Qed.

Lemma owns_release how c h :
  (how = Quit -> c ∈ held h) -> how <> PutBack ->
  owns (release_conn env how c) h (fun t o => goes h t c /\ is_Some o).
Proof.
  intros Hq Hb. apply owns_log; [|destruct how; cbn; auto; done|split; [done|by eexists]].
  intros s Hs. eapply so_far_step; [|exact Hs]. intros u Hu Hd _.
  destruct (decide (c ∈ held h)) as [Hin|Hout].
  - exists (u ∖ {[c]}). split_and!; [cbn; set_solver..|].
    apply third_step; [apply (step_close (pool_of_shared s u))|]; cbn; set_solver.
  - exists u. split_and!; [cbn; set_solver..|done].
Qed.

(** Taking a connection out, as [Get] does in every round. *)
Lemma owns_pop t mxHost sourceIP h :
  owns (on_pool env (fun _ p =>
          let '(r, closed, p) := pop_candidate p t (pool_key mxHost sourceIP) in ((r, closed), p))
          (fun a => match a.1 with Some c => EvAcquire c mxHost sourceIP a.2 | None => EvTick end)) h
    (fun t o => exists a, o = Some a /\
       match a.1 with Some c => comes_in h t c | None => held t = held h end).
Proof.
  apply owns_on_shared. intros s Hs.
  destruct (pop_candidate (sh_pool s) t _) as [[r closed] p'] eqn:Hp. cbn [fst snd].
  assert (Hout : forall u c, pool_inv (pool_of_shared s u) -> r = Some c -> c ∉ u).
  { intros u c Hi ->. apply pop_candidate_spec in Hp as (_ & _ & _ & dead & _ & pc & Hl & <- & _).
    apply (inv_idle_free _ Hi (pool_key mxHost sourceIP)). exists pc. split; [|done].
    cbn. rewrite Hl. apply in_or_app. right. by left. }
  assert (Hfree : forall c, r = Some c -> c ∉ held h).
  { destruct (so_far_inv _ _ Hs) as (u & Hu & Hi). intros c Hc Hin. by apply (Hout u c Hi Hc), Hu. }
  split_and!; [|destruct r; cbn; auto|eexists; split; [done|destruct r; cbn; [split; auto|done]]].
  eapply so_far_step; [|exact Hs]. intros u Hu Hd Hi.
  exists (match r with Some c => {[c]} ∪ u | None => u end). split_and!.
  - destruct r; cbn; set_solver.
  - destruct r as [c|]; cbn; [pose proof (Hout u c Hi eq_refl)|]; set_solver.
  - apply third_step; [|destruct r; cbn; set_solver].
    exact (step_pop (pool_of_shared s u) _ _ _ _ _ _ Hp).
Qed.

(** The rounds of [Get]. *)
Lemma owns_pool_rounds rounds mxHost sourceIP h :
  owns (pool_get_rounds env rounds mxHost sourceIP) h (fun t o => exists r, o = Some r /\
    match r with Some c => comes_in h t c | None => held t = held h end).
Proof.
  revert h. induction rounds as [|rounds IH]; intros h; cbn [pool_get_rounds]; [apply owns_ret; by eexists|].
  eapply still_seq; [apply still_now|]. intros t h1 E1.
  eapply owns_bind; [apply owns_pop| |by intros ? (? & ? & _)].
  intros [r closed] h2 (a' & [= <-] & Hr). cbn [fst] in *. destruct r as [c|]; cbn [fst] in *.
  - assert (Hc : c ∈ held h2) by (destruct Hr as [_ ->]; set_solver).
    eapply still_seq; [apply still_call; by intros ? [= <-]|]. intros [u|e] h3 E3.
    + apply owns_ret. eexists. split; [done|]. unfold comes_in in *. rewrite E3, <- E1. exact Hr.
    + eapply owns_bind; [by apply (owns_release Close)| |by intros ? [_ [? ?]]]. intros [] h4 [Hg _].
      eapply owns_mono; [apply IH|].
      assert (held h4 = held h) as E4.
      { unfold goes in Hg. rewrite Hg, E3. destruct Hr as [Hf ->]. rewrite E1 in *. apply set_eq. set_solver. }
      intros h5 o (r' & -> & H5). exists r'. split; [done|]. destruct r'; unfold comes_in in *; by rewrite E4 in H5.
  - apply owns_ret. eexists. split; [done|]. cbn. by rewrite Hr.
Qed.

Lemma owns_pool_get mxHost sourceIP h :
  owns (pool_get_conn env mxHost sourceIP) h (fun t o => exists r, o = Some r /\
    match r with Some c => comes_in h t c | None => held t = held h end).
Proof.
  unfold pool_get_conn. eapply still_seq; [apply still_ask|]. intros rounds h1 E1.
  eapply owns_mono; [apply owns_pool_rounds|]. intros t o (r & -> & Hr). exists r. split; [done|].
  destruct r; unfold comes_in in *; by rewrite E1 in Hr.
Qed.

Lemma owns_pool_put c mxHost sourceIP h :
  c ∈ held h -> reset_answered c h = true ->
  owns (pool_put_conn env c mxHost sourceIP) h (fun t o => goes h t c /\ is_Some o).
Proof.
  intros Hc Hreset. unfold pool_put_conn.
  eapply owns_bind; [apply (owns_ask _ _ (fun t o => t = EvTick :: h /\ is_Some o)); split; [done|by eexists]
    | |by intros t [_ [? ?]]].
  intros now t [-> _]. eapply owns_bind.
  - apply (owns_on_shared _ _ _ (fun t o => goes h t c /\ is_Some o)). intros s Hs.
    destruct (pool_put (sh_pool s) now (Some c) mxHost sourceIP) as [closed p'] eqn:Hp. cbn [fst snd].
    split_and!; [|done|done|by eexists]. eapply so_far_step; [|exact Hs]. intros u Hu Hd _.
    exists (u ∖ {[c]}). split_and!; [cbn in *; set_solver..|].
    apply third_step; [|cbn in *; set_solver].
    eapply (step_put (pool_of_shared s u)); [cbn in *; set_solver|exact Hp].
  - intros a t [Hg _]. apply owns_ret. split; [done|by eexists].
  - by intros t [_ [? ?]].
Qed.

(** ** The transactions *)

(** Finds a connection among those held, through the equations of the steps
    since. *)
Ltac held_now :=
  cbn [used_by]; intros; simplify_eq;
  repeat match goal with E : held ?t = held _ |- _ ∈ held ?t => rewrite E end; assumption.

Ltac still_one :=
  first [ apply still_ret | apply still_ask | apply still_ctx_err | apply still_now | apply still_remaining
        | apply still_get_config | apply still_timeouts | apply still_rotator | apply still_limiters
        | apply still_srs | apply still_keys
        | apply still_call; held_now | apply still_set_timeouts; held_now
        | apply still_end_data; held_now | apply still_read; held_now
        | apply still_mx; done | apply still_reputation; done
        | apply still_if; still_one | case_match; still_one ].

(** One step of a sequence that holds what it held. *)
Ltac step := first [eapply still_bind | eapply still_seq]; [solve [still_one]|intros ? ? ?].

Lemma still_payload c from to msg ia cfg h :
  c ∈ held h -> still (deliver_payload env c from to msg ia cfg) h.
Proof.
  intros Hc. unfold deliver_payload. do 4 step. case_match; [apply still_ret|].
  step. case_match; [|apply still_ret]. step. case_match; [apply still_ret|].
  step. case_match; [|apply still_ret]. step. case_match; [apply still_ret|].
  step. case_match; [|apply still_ret]. step. case_match; [apply still_ret|].
  step. case_match; [|apply still_ret]. do 4 step. case_match; apply still_ret.
Qed.

(** A transaction gives its connection up. *)
Definition gives_up (c : conn) (m : M DeliveryResult) (h : history) : Prop :=
  owns m h (fun t o => goes h t c /\ is_Some o).

Lemma gives_up_after {A} c (m : M A) (k : A -> M DeliveryResult) h :
  still m h -> (forall a t, held t = held h -> gives_up c (k a) t) -> gives_up c (bind m k) h.
Proof.
  intros Hm Hk. eapply still_seq; [exact Hm|]. intros a t E. eapply owns_mono; [by apply Hk|].
  intros t' o [Hg ?]. unfold goes in *. by rewrite <- E.
Qed.

(** The release, then the result. *)
Lemma gives_up_ret c (m : M unit) (r : DeliveryResult) h :
  owns m h (fun t o => goes h t c /\ is_Some o) -> gives_up c (bind m (fun _ => ret r)) h.
Proof.
  intros Hm. eapply owns_bind; [exact Hm| |by intros t [_ [? ?]]].
  intros a t [Hg _]. apply owns_ret. split; [done|by eexists].
Qed.

Lemma owns_close c h : owns (close env c) h (fun t o => goes h t c /\ is_Some o).
Proof. by apply owns_release. Qed.

(** After the message: RSET, and the pool or QUIT. *)
Lemma settle_spec c mxHost sourceIP (r : DeliveryResult) h :
  c ∈ held h ->
  gives_up c (bind (call env (RReset c)) (fun resetErr =>
    bind (stop env c) (fun stopped =>
    bind (if (stopped : bool) && is_ok resetErr then pool_put_conn env c mxHost sourceIP
          else release_conn env Quit c) (fun _ => ret r)))) h.
Proof.
  intros Hc. eapply owns_bind.
  - apply (owns_call _ _ (fun t o => exists a, o = Some a /\ t = EvCall (RReset c) a :: h)); [held_now|].
    by eexists.
  - intros a t (a' & [= <-] & ->). eapply owns_bind.
    + apply (owns_ask _ _ (fun t o => t = EvTick :: EvCall (RReset c) a :: h /\ is_Some o)).
      split; [done|by eexists].
    + intros stopped t [-> _]. eapply owns_mono; [apply (gives_up_ret c)|by intros t o].
      destruct stopped; cbn [andb]; [destruct a as [u|e]; cbn [is_ok]|].
      * apply owns_pool_put; [done|]. cbn. apply Nat.eqb_refl.
      * by apply owns_release.
      * by apply owns_release.
    + by intros t [_ [? ?]].
  - by intros t (? & ? & _).
Qed.

Lemma perform_delivery_gives_up c from to msg mxHost sourceIP reused ia cfg h :
  c ∈ held h ->
  gives_up c (perform_delivery_transaction env c from to msg mxHost sourceIP reused ia cfg) h.
Proof.
  intros Hc. unfold perform_delivery_transaction.
  eapply gives_up_after; [apply still_ctx_err|]. intros o t1 E1.
  destruct o as [e|]; [apply gives_up_ret, owns_close|].
  eapply gives_up_after; [apply still_timeouts|]. intros ts t2 E2.
  eapply gives_up_after; [still_one|]. intros _ t3 E3.
  eapply gives_up_after; [apply still_remaining|]. intros rem t4 E4.
  eapply gives_up_after; [apply still_timeouts|]. intros ts' t5 E5.
  eapply gives_up_after; [still_one|]. intros _ t6 E6.
  eapply gives_up_after; [apply still_payload; held_now|]. intros p t7 E7. destruct p as [text|err].
  - apply settle_spec. held_now.
  - eapply gives_up_after; [apply still_ask|]. intros stopped t8 E8.
    eapply gives_up_after; [|intros err' t9 E9; apply gives_up_ret, owns_close].
    destruct stopped; [apply still_ret|]. step. apply still_ret.
Qed.

Lemma still_lmtp_failure mxHost sourceIP what e h : still (lmtp_failure env mxHost sourceIP what e) h.
Proof. unfold lmtp_failure. step. apply still_ret. Qed.

Lemma still_exchange c timeout mxHost sourceIP name cmd phase expect k h :
  c ∈ held h -> (forall t, held t = held h -> still k t) ->
  still (lmtp_exchange env c timeout mxHost sourceIP name cmd phase expect k) h.
Proof.
  intros Hc Hk. unfold lmtp_exchange, write_command. step. case_match; [|apply still_lmtp_failure].
  eapply still_bind; [still_one|]. intros [[code msg]|e] ? ?; [|apply still_lmtp_failure].
  destruct (negb _); [apply still_ret|]. apply Hk. congruence.
Qed.

Lemma perform_lmtp_gives_up c from to msg mxHost sourceIP h :
  c ∈ held h -> gives_up c (perform_lmtp_transaction env c from to msg mxHost sourceIP) h.
Proof.
  intros Hc. unfold perform_lmtp_transaction.
  eapply gives_up_after; [apply still_get_config|]. intros cfg t1 E1. eapply gives_up_after.
  - apply still_exchange; [held_now|]. intros t2 E2. apply still_exchange; [held_now|]. intros t3 E3.
    apply still_exchange; [held_now|]. intros t4 E4. step. case_match; [|apply still_lmtp_failure].
    eapply still_bind; [still_one|]. intros [[code msg']|e] ? ?; apply still_ret.
  - intros r t2 E2. eapply gives_up_after; [apply still_ask|]. intros stopped t3 E3.
    eapply gives_up_after; [apply still_call; held_now|]. intros q t4 E4. apply gives_up_ret, owns_close.
Qed.

(** ** Setting up a connection *)

(** Everything taken has been given back, unless a handshake was cut off by the
    end of the context. *)
Definition settled (b b' : gset nat) : Prop :=
  b ⊆ b' /\ (b' = b \/ exists h, e_done_first env h = true).

#[local] Instance settled_preorder : PreOrder settled.
Proof.
  split; [intros b; split; auto|]. intros b b' b'' [H1 H2] [H3 H4]. split; [set_solver|].
  destruct H2 as [->|?], H4 as [->|?]; auto.
Qed.

Definition conn_of (dr : dialResult) : conn := match dr with DialClient c | DialConn c => c end.

(** One connection [c] more than before, or none. *)
Definition one_more (b b' : gset nat) (c : conn) : Prop := c ∉ b /\ b' = {[c]} ∪ b.

Definition handshake_post (b : gset nat) (r : handshake_outcome) (b' : gset nat) : Prop :=
  match r with Ok dr => one_more b b' (conn_of dr) | Err _ => b' = b end.
Definition handshakes (b : gset nat) (m : M handshake_outcome) (h : history) : Prop :=
  owns m h (fun t o => exists r, o = Some r /\ handshake_post b r (held t)).

Lemma handshakes_after {A} b (m : M A) (k : A -> M handshake_outcome) h :
  still m h -> (forall a t, held t = held h -> handshakes b (k a) t) -> handshakes b (bind m k) h.
Proof. apply still_seq. Qed.

Lemma handshake_fails b c (e : error) h :
  one_more b (held h) c -> handshakes b (bind (close env c) (fun _ => ret (Err e))) h.
Proof.
  intros [Hc E]. eapply owns_bind; [apply owns_close| |by intros t [_ [? ?]]].
  intros a t [Hg _]. apply owns_ret. eexists. split; [done|]. unfold goes in Hg. cbn. rewrite Hg, E.
  apply set_eq. set_solver.
Qed.

Lemma one_more_held b h t c : one_more b (held h) c -> held t = held h -> one_more b (held t) c.
Proof. by intros ? ->. Qed.
Lemma one_more_in b h c : one_more b (held h) c -> c ∈ held h.
Proof. intros [_ ->]. set_solver. Qed.

Ltac more := repeat (eapply one_more_held; [|eassumption]); eassumption.
Ltac more_now := cbn [used_by]; intros; simplify_eq; (eapply one_more_in; more).
Ltac hs_step :=
  eapply handshakes_after;
  [solve [still_one | apply still_call; more_now | apply still_read; more_now | apply still_set_timeouts; more_now
         | apply still_if; [apply still_call; more_now|apply still_ret]]|].

Lemma lmtp_handshakes b c timeout cfg h :
  one_more b (held h) c -> handshakes b (lmtp_handshake env c timeout cfg) h.
Proof.
  intros Hc. unfold lmtp_handshake, write_command. cbv zeta.
  hs_step. intros [u|e] t1 E1; [|apply handshake_fails; more].
  hs_step. intros [[code m]|e] t2 E2; [|apply handshake_fails; more].
  destruct (negb _); [apply handshake_fails; more|].
  hs_step. intros [u'|e] t3 E3; [|apply handshake_fails; more].
  hs_step. intros [[code' m']|e] t4 E4; [|apply handshake_fails; more].
  destruct (negb _); [apply handshake_fails; more|]. apply owns_ret. eexists. split; [done|]. cbn. more.
Qed.

Lemma ready_handshakes b c timeout h : one_more b (held h) c -> handshakes b (ready_client env c timeout) h.
Proof.
  intros Hc. unfold ready_client. hs_step. intros _ t E. apply owns_ret. eexists. split; [done|]. cbn. more.
Qed.

(** The plaintext connection after a STARTTLS that was refused. *)
Lemma plain_handshakes b source target t1 t2 cfg h :
  held h = b ->
  handshakes b (bind (call env (RDial source target t1)) (fun dialed =>
    match dialed with
    | Err e => ret (Err (ErrWrap ("reconnect for plaintext failed: " +:+ error_text e) e))
    | Ok _ => bind (new_conn env) (fun c' => bind (call env (RHello c' (out_HelloHostname cfg))) (fun hello =>
        match hello with
        | Err e => bind (close env c') (fun _ => ret (Err (ErrWrap ("EHLO/HELO failed: " +:+ error_text e) e)))
        | Ok _ => ready_client env c' t2
        end))
    end)) h.
Proof.
  intros E. hs_step. intros [u|e] ta Ea; [|apply owns_ret; eexists; split; [done|cbn; congruence]].
  eapply owns_bind; [apply owns_new_conn| |by intros t (? & ? & _)].
  intros c t (c' & [= <-] & Hc1 & Hc2). assert (Hc : one_more b (held t) c) by (split; congruence).
  hs_step. intros [u'|e] tb Eb; [apply ready_handshakes; more|apply handshake_fails; more].
Qed.

Lemma smtp_handshakes b c source target t1 t2 cfg h :
  one_more b (held h) c -> handshakes b (smtp_handshake env c source target t1 t2 cfg) h.
Proof.
  intros Hc. unfold smtp_handshake. destruct (out_SMTPImplicitTLS cfg).
  - hs_step. intros [u|e] ta Ea; [|apply handshake_fails; more].
    hs_step. intros [u'|e] tb Eb; [apply ready_handshakes; more|apply handshake_fails; more].
  - hs_step. intros [u|e] ta Ea; [apply ready_handshakes; more|].
    eapply owns_bind; [apply owns_close| |by intros t [_ [? ?]]]. intros _ tb [Hg _].
    assert (Eb : held tb = b).
    { destruct Hc as [Hc Eh]. unfold goes in Hg. rewrite Hg, Ea, Eh. apply set_eq. set_solver. }
    destruct (contains _ _); [by apply plain_handshakes|]. apply owns_ret. eexists. by split.
Qed.

Definition dial_owned (b : gset nat) (out : dial_outcome) (b' : gset nat) : Prop :=
  match out with (Some dr, _, None) => one_more b b' (conn_of dr) | _ => settled b b' end.
Definition dials (b : gset nat) (m : M dial_outcome) (h : history) : Prop :=
  owns m h (fun t o => exists out, o = Some out /\ dial_owned b out (held t)).

Lemma dials_after {A} b (m : M A) (k : A -> M dial_outcome) h :
  still m h -> (forall a t, held t = held h -> dials b (k a) t) -> dials b (bind m k) h.
Proof. apply still_seq. Qed.

Lemma dial_fails r e h : dials (held h) (dial_failure r e) h.
Proof. apply owns_ret. eexists. split; [done|]. cbn. done. Qed.

(** The [select] after the handshake. *)
Lemma select_dials b c (outcome : handshake_outcome) r1 (r2 : error -> DeliveryResult) h :
  c ∉ b -> handshake_post b outcome (held h) ->
  dials b (bind (ask env (e_done_first env)) (fun done_first : bool =>
    if done_first then bind (close env c) (fun _ => bind (ctx_err env) (fun e => ret (None, r1, e)))
    else match outcome with Err e => dial_failure (r2 e) e | Ok dr => ret (Some dr, empty_result, None) end)) h.
Proof.
  intros Hc Hpost. eapply owns_bind.
  - apply (owns_ask _ _ (fun t o => held t = held h /\ o = Some (e_done_first env h))). by split.
  - intros d t [Et [= ->]]. destruct (e_done_first env h) eqn:Hd.
    + eapply owns_bind; [apply owns_close| |by intros ? [_ [? ?]]]. intros _ t2 [Hg _].
      eapply still_seq; [apply still_ctx_err|]. intros e t3 E3. apply owns_ret. eexists. split; [done|].
      cbn. split; [|right; by exists h]. rewrite E3, Hg, Et.
      destruct outcome as [dr|]; cbn in Hpost; [destruct Hpost as [_ ->]|rewrite Hpost]; set_solver.
    + destruct outcome as [dr|e]; cbn in Hpost.
      * apply owns_ret. eexists. split; [done|]. cbn. by rewrite Et.
      * rewrite <- Hpost, <- Et. apply dial_fails.
  - by intros t [_ ?].
Qed.

Lemma say_hello_dials b c source target mxHost sourceIP protocol t cfg h :
  one_more b (held h) c -> dials b (say_hello env c source target mxHost sourceIP protocol t cfg) h.
Proof.
  intros Hc. unfold say_hello. eapply dials_after; [apply still_remaining|]. intros rem t1 E1.
  destruct (phase_timeouts cfg rem) as [[[bt ht] dt]|].
  - eapply owns_bind.
    + destruct (seqb protocol ProtocolLMTP); [apply lmtp_handshakes|apply smtp_handshakes]; more.
    + intros outcome t2 (r & [= <-] & Hpost). apply (select_dials b c _ _ (fun e => _)); [apply Hc|done].
    + by intros ? (? & ? & _).
  - eapply dials_after; [apply still_ctx_err|]. intros e t2 E2.
    eapply owns_bind; [apply owns_close| |by intros ? [_ [? ?]]]. intros _ t3 [Hg _].
    apply owns_ret. eexists. split; [done|]. cbn. destruct Hc as [Hc Eh].
    unfold goes in Hg. rewrite Hg, E2, E1, Eh. replace (({[c]} ∪ b) ∖ {[c]}) with b; [done|].
    apply set_eq. set_solver.
Qed.

Lemma dial_and_hello_dials mxHost mxIPs sourceIP preferIPv6 protocol cfg h :
  dials (held h) (dial_and_hello env mxHost mxIPs sourceIP preferIPv6 protocol cfg) h.
Proof.
  unfold dial_and_hello. destruct (is_empty (select_target _ _ _)).
  { destruct mxIPs; apply dial_fails. }
  destruct (target_port cfg protocol) as [port|e]; [|apply dial_fails].
  eapply dials_after; [apply still_remaining|]. intros rem t1 E1. rewrite <- E1.
  destruct (_ && _); [apply dial_fails|].
  eapply dials_after; [still_one|]. intros [u|e] t2 E2; rewrite <- E2.
  - eapply owns_bind; [apply owns_new_conn| |by intros ? (? & ? & _)].
    intros c t (c' & [= <-] & Hc). by apply say_hello_dials.
  - destruct (_ && _); apply dial_fails.
Qed.

(** ** The whole delivery *)

Definition settles {A} (m : M A) (h : history) : Prop := owns m h (fun t _ => settled (held h) (held t)).

Lemma settles_still {A} (m : M A) h : still m h -> settles m h.
Proof. intros Hm. eapply owns_mono; [exact Hm|]. by intros t o [-> _]. Qed.

Lemma settles_bind {A B} (m : M A) (k : A -> M B) h :
  settles m h -> (forall a t, settles (k a) t) -> settles (bind m k) h.
Proof.
  intros Hm Hk. eapply owns_bind; [exact Hm| |done]. intros a t Ht.
  eapply owns_mono; [apply Hk|]. intros t' o Ht'. exact (transitivity Ht Ht').
Qed.

Lemma settles_step {A B} (m : M A) (k : A -> M B) h :
  (forall t, still m t) -> (forall a t, settles (k a) t) -> settles (bind m k) h.
Proof. intros Hm Hk. apply settles_bind; [by apply settles_still|done]. Qed.

Ltac sstep := apply settles_step; [intros; solve [still_one]|intros ? ?].

(** A transaction on a connection that came in. *)
Lemma gives_back c (m : M DeliveryResult) h h0 :
  comes_in h0 h c -> gives_up c m h -> owns m h (fun t _ => settled (held h0) (held t)).
Proof.
  intros Hc Hm. eapply owns_mono; [exact Hm|]. intros t o [Hg _]. by rewrite (comes_goes _ _ _ _ Hc Hg).
Qed.

Lemma fresh_attempt_settles from to msg mxHost mxIPs sourceIP preferIPv6 protocol ia cfg h :
  settles (fresh_attempt env from to msg mxHost mxIPs sourceIP preferIPv6 protocol ia cfg) h.
Proof.
  unfold fresh_attempt. eapply owns_bind; [apply dial_and_hello_dials| |by intros ? (? & ? & _)].
  intros out t (out' & [= <-] & Hd). destruct out as [[[[c|c]|] r] [e|]]; cbn in Hd;
    try by apply owns_ret.
  - eapply gives_back; [exact Hd|]. apply perform_delivery_gives_up. destruct Hd as [_ ->]. set_solver.
  - eapply gives_back; [exact Hd|]. apply perform_lmtp_gives_up. destruct Hd as [_ ->]. set_solver.
  - by apply owns_panic.
Qed.

Lemma attempt_delivery_settles from to msg mxHost mxIPs sourceIP preferIPv6 protocol ia cfg h :
  settles (attempt_delivery env from to msg mxHost mxIPs sourceIP preferIPv6 protocol ia cfg) h.
Proof.
  unfold attempt_delivery. destruct (seqb protocol ProtocolLMTP); [apply fresh_attempt_settles|].
  eapply owns_bind; [apply owns_pool_get| |by intros ? (? & ? & _)].
  intros [c|] t (r & [= <-] & Hc).
  - eapply owns_bind.
    + eapply gives_back; [exact Hc|]. apply perform_delivery_gives_up. destruct Hc as [_ ->]. set_solver.
    + intros result t2 Ht2. cbv beta in Ht2. destruct (_ || _); [by apply owns_ret|].
      eapply owns_mono; [apply fresh_attempt_settles|]. intros t3 o Ht3. exact (transitivity Ht2 Ht3).
    + done.
  - eapply owns_mono; [apply fresh_attempt_settles|]. intros t2 o. by rewrite Hc.
Qed.

Lemma still_sections fuel a pc h : still (record_sections env fuel a pc) h.
Proof.
  revert pc h. induction fuel as [|fuel IH]; intros pc h; cbn [record_sections]; [apply still_ret|].
  do 2 step. case_match; first [apply still_ret|apply IH].
Qed.
Lemma still_record_attempt sourceIP r from to mxHost h : still (record_attempt env sourceIP r from to mxHost) h.
Proof. unfold record_attempt. step. apply still_sections. Qed.

Lemma try_sources_settles from to msg mxHost mxIPs v protocol ia cfg ips lastResult h :
  settles (try_sources env from to msg mxHost mxIPs v protocol ia cfg ips lastResult) h.
Proof.
  revert lastResult h. induction ips as [|ip ips IH]; intros lastResult h; cbn [try_sources].
  { apply settles_still, still_ret. }
  sstep. case_match; [apply settles_still, still_ret|].
  apply settles_bind; [apply attempt_delivery_settles|]. intros result t2.
  apply settles_step; [intros; apply still_record_attempt|]. intros _ t3.
  destruct (_ || _); [apply settles_still, still_ret|apply IH].
Qed.

Lemma try_delivery_settles from to msg mxHost mxIPs v protocol ia cfg h :
  settles (try_delivery_with_ip_version env from to msg mxHost mxIPs v protocol ia cfg) h.
Proof.
  unfold try_delivery_with_ip_version. destruct (split_email to). do 4 sstep. apply try_sources_settles.
Qed.

Lemma try_versions_settles from to msg mxHost mxIPs vs protocol ia cfg lastResult h :
  settles (try_versions env from to msg mxHost mxIPs vs protocol ia cfg lastResult) h.
Proof.
  revert lastResult h. induction vs as [|v vs IH]; intros lastResult h; cbn [try_versions].
  { apply settles_still, still_ret. }
  apply settles_bind; [apply try_delivery_settles|]. intros r t.
  destruct (is_final_result _); [apply settles_still, still_ret|apply IH].
Qed.

Lemma try_mx_settles from to msg mxHost mxIPs h4 h6 eg protocol ia cfg lastResult h :
  settles (try_mx env from to msg mxHost mxIPs h4 h6 eg protocol ia cfg lastResult) h.
Proof.
  unfold try_mx. destruct (_ || _); [apply try_versions_settles|].
  apply settles_bind; [apply attempt_delivery_settles|]. intros r t.
  apply settles_step; [intros; apply still_record_attempt|]. intros. apply settles_still, still_ret.
Qed.

Lemma mx_loop_settles from to msg mxs eg protocol ia cfg lastResult h :
  settles (mx_loop env from to msg mxs eg protocol ia cfg lastResult) h.
Proof.
  revert lastResult h. induction mxs as [|mx mxs IH]; intros lastResult h; cbn [mx_loop].
  { apply settles_still, still_ret. }
  sstep. case_match; [apply settles_still, still_ret|].
  apply settles_step; [intros; unfold resolve_mx_host; do 2 step; apply still_ret|].
  intros [[[mxIPs h4] h6]|e] t2; [|apply IH].
  apply settles_bind; [apply try_mx_settles|]. intros [r final] t3.
  destruct final; [apply settles_still, still_ret|apply IH].
Qed.

Lemma still_sign_dkim from msg req h : still (sign_dkim env from msg req) h.
Proof.
  unfold sign_dkim. eapply still_bind; [|intros [[[key sel] dom]|] t E; [|apply still_ret]].
  - unfold dkim_parameters. apply still_if; [apply still_if; apply still_ret|].
    apply still_if; [|apply still_ret]. apply still_if; [apply still_ret|]. step. eapply still_bind; [still_one|]. intros. apply still_ret.
  - apply still_if; [|apply still_ret]. eapply still_bind.
    + apply still_if; [apply still_ret|]. step. by apply still_mx.
    + intros valid t2 E2. apply still_if; [|apply still_ret]. step. apply still_ret.
Qed.

Lemma still_route cfg protocol domain h : still (route_message env cfg protocol domain) h.
Proof.
  unfold route_message. apply still_if; [apply still_ret|]. do 3 step.
  match goal with |- context [let '(_, _) := ?x in _] => destruct x end. do 2 step. apply still_ret.
Qed.

Lemma deliver_message_settles d from to message transport req ia h :
  settles (deliver_message env d from to message transport req ia) h.
Proof.
  unfold deliver_message, deliver_under. do 2 sstep. destruct (split_email to) as [lp domain].
  destruct (is_empty domain); [apply settles_still, still_ret|].
  apply settles_step.
  { intros. unfold check_rate_limit. apply still_if; [|apply still_ret]. do 2 step. apply still_limiters. }
  intros allowed t3. destruct (negb allowed); [apply settles_still, still_ret|].
  apply settles_step; [intros; apply still_sign_dkim|]. intros [m|] t4; [|apply settles_still, still_ret].
  apply settles_step; [intros; apply still_route|]. intros [mxs|r] t5; [|apply settles_still, still_ret].
  sstep. apply settles_bind; [apply mx_loop_settles|]. intros r t7. unfold finish. sstep.
  apply settles_step; [|intros; apply settles_still, still_ret].
  intros t'. destruct (d_metrics d); [|apply still_ret]. apply owns_log; [|done|split; [done|by eexists]].
  intros s Hs. by eapply so_far_same.
Qed.

End Connections.

(** ** Properties *)

(** C4: a delivery keeps the books of its connections, whatever the peers, the
    network and the other goroutines do: it uses a connection only between
    taking it (by a dial, or from the pool, where it was nobody else's) and
    giving it up, gives to the pool only one it holds and whose last command
    was an RSET that was answered, and gives up everything it took, unless the
    context ended during a handshake.  Seen from the pool, the delivery among
    the others is a series of the pool's own steps, and what it assumes of the
    others it grants them: none of these steps takes away the connection of a
    third party. *)
Theorem delivery_owns_connections `{Crypto, Unicode} env d from to message transport req ia w u third :
  pool_interference env third ->
  pool_inv (pool_of_shared (w_shared w) u) -> third ∪ held (w_trace w) ⊆ u -> third ## held (w_trace w) ->
  let '(_, w') := deliver_message env d from to message transport req ia w in
  exists new u',
    w_trace w' = new ++ w_trace w /\ orderly new (w_trace w) /\
    settled env (held (w_trace w)) (held (w_trace w')) /\
    third ∪ held (w_trace w') ⊆ u' /\ third ## held (w_trace w') /\
    rtc (step_of_others third) (pool_of_shared (w_shared w) u) (pool_of_shared (w_shared w') u').
Proof.
  intros Hothers Hinv Hu Hd.
  pose proof (deliver_message_settles env third Hothers _ Hinv d from to message transport req ia
    (w_trace w) w eq_refl) as Hm.
  destruct (deliver_message _ _ _ _ _ _ _ _ w) as [o w'].
  destruct Hm as ((u' & Hu' & Hd' & Hr) & new & E & Ho & Hs).
  - exists u. by split_and!.
  - exists new, u'. by split_and!.
Qed.

(** ** Witnesses and examples *)

Definition with_interference (env : Env) (f : history -> shared -> shared) : Env :=
  mkEnv (e_trace_id env) (e_deadline env) (e_ctx_err env) (e_now env) (e_stop env) (e_done_first env)
    (e_call env) (e_nil_writer env) (e_end env) (e_extension env) (e_input env) (e_rounds env)
    (e_health_clock env) (e_mx env) (e_sort env) (e_host env) (e_txt env) (e_random env) (e_keys env) f.

(** Another goroutine cleans the pool after every event. *)
Definition cleaned (now : Z) (s : shared) : shared :=
  mkShared (sh_config s) (cleanup_expired (sh_pool s) now).2 (sh_reputation s) (sh_rotator s) (sh_limiters s)
    (sh_srs s) (sh_mx s) (sh_keys s) (sh_fresh s).
Definition cleaning_env : Env := with_interference yes_env (fun h s => cleaned (e_now yes_env h) s).

Lemma cleaning_interference third : pool_interference cleaning_env third.
Proof.
  intros h s u _. exists u. apply rtc_once. split; [|done].
  eapply (step_cleanup (pool_of_shared s u) (e_now yes_env h)). apply surjective_pairing.
Qed.

Lemma new_pool_inv ttlSeconds : pool_inv (mkPS (new_connection_pool ttlSeconds) ∅ 0).
Proof. by apply (pool_init_inv ttlSeconds). Qed.

Lemma delivery_owns_connections_witness :
  let w := start_world out_config ["198.51.100.1"] [] in
  let '(_, w') := deliver cleaning_env w "smtp" in
  exists new u',
    w_trace w' = new ++ [] /\ orderly new [] /\ settled cleaning_env ∅ (held (w_trace w')) /\
    ∅ ∪ held (w_trace w') ⊆ u' /\ ∅ ## held (w_trace w') /\
    rtc (step_of_others ∅) (pool_of_shared (w_shared w) ∅) (pool_of_shared (w_shared w') u').
Proof.
  apply (@delivery_owns_connections toy_crypto plain_unicode cleaning_env example_deliverer "<a@x.org>"
    "b@example.org" "Hi" "smtp" no_signing None (start_world out_config ["198.51.100.1"] []) ∅ ∅).
  - apply cleaning_interference.
  - apply new_pool_inv.
  - done.
  - done.
Defined.

(** Two deliveries, one after the other: the second takes the connection that
    the first put into the pool. *)
Example connection_reused :
  let '(_, w1) := deliver yes_env (start_world out_config ["198.51.100.1"] []) "smtp" in
  let '(_, w2) := deliver yes_env w1 "smtp" in
  (dials_of (w_trace w2), held (w_trace w2), pool_stats (sh_pool (w_shared w2))) =
  ([("198.51.100.1", "192.0.2.25:25")], ∅, (1, 1)%nat).
Proof. vm_compute. reflexivity. Qed.

(** The server offers no STARTTLS, and the context ends while the plaintext
    connection is set up: the first connection is closed, the second is not. *)
Definition no_starttls (q : request) : result error unit :=
  match q with RStartTLS _ _ => Err (ErrText "smtp: server doesn't support STARTTLS") | _ => Ok tt end.
Definition reconnected (h : history) : bool :=
  existsb (fun ev => match ev with EvOpen (S _) => true | _ => false end) h.
Definition cut_off_env : Env :=
  mkEnv "t" None (fun h => if reconnected h then Some (ErrText "context deadline exceeded") else None)
    (e_now yes_env) (fun _ => true) reconnected (fun _ => no_starttls) (fun _ => false)
    (e_end yes_env) (e_extension yes_env) (e_input yes_env) (e_rounds yes_env)
    (e_health_clock yes_env) (e_mx yes_env) (e_sort yes_env) (e_host yes_env) (e_txt yes_env)
    (e_random yes_env) (e_keys yes_env) (fun _ s => s).
Example reconnection_leaks :
  let '(r, w) := deliver cut_off_env (start_world out_config ["198.51.100.1"] []) "smtp" in
  (Status <$> r, held (w_trace w), length (dials_of (w_trace w))) = (Some "timeout", {[1%nat]}, 2%nat).
Proof. vm_compute. reflexivity. Qed.
