(* ===== verification/DelivererProtocol.v ===== *)
(** * The dialogue of a delivery with its servers (properties of Deliverer.v)

    The state of each connection in its SMTP or LMTP session, as a function of
    the events, and that every command is sent in the state that allows it. *)

From stdpp Require Import base gmap sets list strings.
From Stdlib Require Import ZArith Lia.
From S2P Require Import Prelude GoString GoError NetIP Config IPExpansion ErrorClassifier IPReputation ConnectionPool.
From S2P Require Import MXLookup IPRotator DomainLimiter LMTP SRS DKIM KeyStore ARC MIMEHeader.
From S2P Require Import Delivery Effects Deliverer DelivererSafety DelivererConns.
#[local] Open Scope Z_scope.

(** ** Sessions *)

(** What has been agreed on a connection. *)
Inductive session_state : Type :=
| NotOpen                            (* not ours *)
| Opened                             (* connected *)
| Secured                            (* TLS on top, nothing said *)
| Ready                              (* greeted: a transaction may begin *)
| HasSender | HasRecipient | HasData | HasMessage | Completed
| Waiting (p : lmtp_phase)           (* an LMTP command is sent, its reply is due *)
| Answered (p : lmtp_phase)          (* its reply was the one expected *)
| Failed.                            (* some call failed, or another reply came *)

Definition expected_code (p : lmtp_phase) : Z :=
  match p with PGreeting => 220 | PData => 354 | PLhlo | PMail | PRcpt | PFinal => 250 end.

(** What a line of LMTP asks for. *)
Definition asks_for (line : string) : option lmtp_phase :=
  if has_prefix line "LHLO " then Some PLhlo
  else if has_prefix line "MAIL FROM:<" then Some PMail
  else if has_prefix line "RCPT TO:<" then Some PRcpt
  else if seqb line (lmtp_command "DATA") then Some PData
  else None.

(** A call that succeeded. *)
Definition after_call (q : request) (st : session_state) : session_state :=
  match q with
  | RDial _ _ _ => st
  | RTLSHandshake _ => Secured
  | RHello _ _ | RStartTLS _ _ | RReset _ | RNoop _ => Ready
  | RMail _ _ _ => HasSender
  | RRcpt _ _ => HasRecipient
  | RData _ => HasData
  | RWrite _ _ => HasMessage
  | RWriteLine _ _ line => match asks_for line with Some p => Waiting p | None => Failed end
  | RWriteData _ _ _ => Waiting PFinal
  end.

(** The connection an event is about, and the state it leaves it in. *)
Definition about (ev : event) : option conn :=
  match ev with
  | EvOpen c | EvAcquire c _ _ _ | EvRelease _ c | EvEnd c _ | EvReply _ c _ => Some c
  | EvCall q _ => used_by q
  | _ => None
  end.
Definition advance (ev : event) (st : session_state) : session_state :=
  match ev with
  | EvOpen _ => Opened
  | EvAcquire _ _ _ _ => Ready
  | EvRelease _ _ => NotOpen
  | EvCall q (Ok _) => after_call q st
  | EvEnd _ (Ok _) => Completed
  | EvReply p _ (Ok (code, _)) => if code =? expected_code p then Answered p else Failed
  | EvCall _ (Err _) | EvEnd _ (Err _) | EvReply _ _ (Err _) => Failed
  | _ => st
  end.

Fixpoint session (c : conn) (t : history) : session_state :=
  match t with
  | [] => NotOpen
  | ev :: t => if decide (about ev = Some c) then advance ev (session c t) else session c t
  end.

(** ** The rules *)

(** [c] was opened by a dial of this address. *)
Definition dialed (c : conn) (source target : string) (t : history) : Prop :=
  exists timeout t1 t2, t = t1 ++ EvOpen c :: EvCall (RDial source target timeout) (Ok tt) :: t2.

(** [c] was just opened in place of a connection to the same address whose
    server does not offer STARTTLS. *)
Definition starttls_refused (c : conn) (t : history) : Prop :=
  exists source target timeout c0 name e t',
    t = EvOpen c :: EvCall (RDial source target timeout) (Ok tt) :: EvRelease Close c0
        :: EvCall (RStartTLS c0 name) (Err e) :: t' /\
    contains (error_text e) "server doesn't support STARTTLS" = true /\ dialed c0 source target t'.

(** What must have been answered before a line of LMTP is sent. *)
Definition previous (p : lmtp_phase) : lmtp_phase :=
  match p with
  | PGreeting | PLhlo => PGreeting | PMail => PLhlo | PRcpt => PMail | PData => PRcpt | PFinal => PData
  end.

Section Rules.
Context (cfg : OutboundConfig).

Definition in_order (ev : event) (t : history) : Prop :=
  match ev with
  | EvCall q _ =>
      match q with
      | RDial _ _ _ => True
      | RTLSHandshake c => session c t = Opened
      | RStartTLS c _ => out_SMTPImplicitTLS cfg = false /\ session c t = Opened
      | RHello c _ => session c t = Secured \/
          (out_SMTPImplicitTLS cfg = false /\ session c t = Opened /\ starttls_refused c t)
      | RMail c _ _ | RNoop c => session c t = Ready
      | RRcpt c _ => session c t = HasSender
      | RData c => session c t = HasRecipient
      | RWrite c _ => session c t = HasData
      | RReset c => session c t = Completed
      | RWriteLine c _ line =>
          line = lmtp_command "QUIT" \/ exists p, asks_for line = Some p /\ session c t = Answered (previous p)
      | RWriteData c _ _ => session c t = Answered PData
      end
  | EvEnd c _ => session c t = HasMessage
  | EvReply PGreeting c _ => session c t = if out_LMTPImplicitTLS cfg then Secured else Opened
  | EvReply p c _ => session c t = Waiting p
  | EvRelease PutBack c => session c t = Ready
  | _ => True
  end.

Fixpoint conforms (t : history) : Prop :=
  match t with [] => True | ev :: t => in_order ev t /\ conforms t end.

(** ** The logic *)

(** From here on, [t] and [h] are the events of the delivery alone, over a past
    [old], under the configuration [cfg]. *)
Section Protocol.
Context `{Crypto, Unicode} (env : Env) (old : history).

Definition speaks {A} (m : M A) (h : history) (R : history -> option A -> Prop) : Prop :=
  conforms h -> forall w, w_trace w = h ++ old ->
  let '(o, w') := m w in exists t, w_trace w' = t ++ old /\ conforms t /\ R t o.

Lemma speaks_mono {A} (m : M A) h (R R' : history -> option A -> Prop) :
  speaks m h R -> (forall t o, R t o -> R' t o) -> speaks m h R'.
Proof.
  intros Hm HR Hh w Hw. specialize (Hm Hh w Hw). destruct (m w). destruct Hm as (t & ? & ? & ?). exists t. auto.
Qed.

Lemma speaks_ret {A} (a : A) h (R : history -> option A -> Prop) : R h (Some a) -> speaks (ret a) h R.
Proof. intros HR Hh w Hw. by exists h. Qed.

Lemma speaks_panic {A} h (R : history -> option A -> Prop) : R h None -> speaks panic h R.
Proof. intros HR Hh w Hw. by exists h. Qed.

Lemma speaks_bind {A B} (m : M A) (k : A -> M B) h R1 (R : history -> option B -> Prop) :
  speaks m h R1 -> (forall a t, R1 t (Some a) -> speaks (k a) t R) -> (forall t, R1 t None -> R t None) ->
  speaks (bind m k) h R.
Proof.
  intros Hm Hk Hn Hh w Hw. specialize (Hm Hh w Hw). unfold bind.
  destruct (m w) as [[a|] w']; destruct Hm as (t & Ht & Hc & HR); [|by exists t; auto]. exact (Hk a _ HR Hc w' Ht).
Qed.

(** One event. *)
Definition says {A} (ev : A -> event) (h : history) : history -> option A -> Prop :=
  fun t o => exists a, o = Some a /\ t = ev a :: h.

Lemma one_more {A} (ev : A -> event) a h w :
  w_trace w = ev a :: h ++ old -> in_order (ev a) h -> conforms h ->
  exists t, w_trace w = t ++ old /\ conforms t /\ says ev h t (Some a).
Proof. intros Hw Ho Hh. exists (ev a :: h). split_and!; [done|by split|by exists a]. Qed.

Lemma speaks_log ev h : in_order ev h -> speaks (log env ev) h (says (fun _ => ev) h).
Proof. intros Ho Hh w Hw. apply (one_more (fun _ => ev) tt); [cbn; by rewrite Hw|done..]. Qed.
Lemma speaks_ask {A} (oracle : history -> A) h : speaks (ask env oracle) h (says (fun _ => EvTick) h).
Proof. intros Hh w Hw. apply (one_more (fun _ => EvTick)); [cbn; by rewrite Hw|done..]. Qed.
Lemma speaks_call q h : (forall r, in_order (EvCall q r) h) -> speaks (call env q) h (says (EvCall q) h).
Proof. intros Ho Hh w Hw. apply one_more; [cbn; by rewrite Hw|apply Ho|done]. Qed.
Lemma speaks_end c h : session c h = HasMessage -> speaks (end_data env c) h (says (EvEnd c) h).
Proof. intros Ho Hh w Hw. apply one_more; [cbn; by rewrite Hw|done..]. Qed.
Lemma speaks_read p c timeout h : (forall r, in_order (EvReply p c r) h) ->
  speaks (read_response env p c timeout) h (says (EvReply p c) h).
Proof.
  intros Ho Hh w Hw. unfold read_response. destruct (e_input env (w_trace w) c timeout) as [[fail more]|e].
  - destruct (read_lmtp_response fail _) as [r rest]. apply one_more; [cbn; by rewrite Hw|apply Ho|done].
  - apply one_more; [cbn; by rewrite Hw|apply Ho|done].
Qed.
Lemma speaks_shared {A} (f : history -> shared -> A * shared) (ev : A -> event) h :
  (forall a, in_order (ev a) h) -> speaks (on_shared env f ev) h (says ev h).
Proof.
  intros Ho Hh w Hw. unfold on_shared. destruct (f (w_trace w) (w_shared w)) as [a s].
  apply one_more; [cbn; by rewrite Hw|apply Ho|done].
Qed.

(** Operations that say nothing to a server. *)
Definition same_sessions (h t : history) : Prop := forall c, session c t = session c h.
#[local] Instance same_sessions_preorder : PreOrder same_sessions.
Proof. split; [done|]. intros a b c H1 H2 d. by rewrite (H2 d). Qed.
Definition hush {A} (m : M A) (h : history) : Prop := speaks m h (fun t o => same_sessions h t /\ is_Some o).

Lemma hush_seq {A B} (m : M A) (k : A -> M B) h (R : history -> option B -> Prop) :
  hush m h -> (forall a t, same_sessions h t -> speaks (k a) t R) -> speaks (bind m k) h R.
Proof. intros Hm Hk. eapply speaks_bind; [exact Hm| |by intros t [_ [? ?]]]. intros a t [E _]. by apply Hk. Qed.
Lemma hush_bind {A B} (m : M A) (k : A -> M B) h :
  hush m h -> (forall a t, same_sessions h t -> hush (k a) t) -> hush (bind m k) h.
Proof.
  intros Hm Hk. eapply hush_seq; [exact Hm|]. intros a t E. eapply speaks_mono; [by apply Hk|].
  intros t' o [E' ?]. split; [by etrans|done].
Qed.
Lemma hush_ret {A} (a : A) h : hush (ret a) h.
Proof. apply speaks_ret. split; [done|by eexists]. Qed.
Lemma hush_if {A} (b : bool) (m1 m2 : M A) h : hush m1 h -> hush m2 h -> hush (if b then m1 else m2) h.
Proof. by destruct b. Qed.

Definition silent (ev : event) : Prop := about ev = None /\ forall t, in_order ev t.
Lemma hush_says {A} (m : M A) ev h : speaks m h (says ev h) -> (forall a, about (ev a) = None) -> hush m h.
Proof.
  intros Hm Hev. eapply speaks_mono; [exact Hm|]. intros t o (a & -> & ->). split; [|by eexists].
  intros c. cbn [session]. by rewrite Hev.
Qed.
Lemma hush_ask {A} (oracle : history -> A) h : hush (ask env oracle) h.
Proof. by eapply hush_says; [apply speaks_ask|]. Qed.
Lemma hush_log ev h : silent ev -> hush (log env ev) h.
Proof. intros [Ha Ho]. by eapply hush_says; [apply speaks_log|]. Qed.
Lemma hush_shared {A} (f : history -> shared -> A * shared) (ev : A -> event) h :
  (forall a, silent (ev a)) -> hush (on_shared env f ev) h.
Proof. intros Hev. eapply hush_says; [apply speaks_shared; intros a; apply Hev|intros a; apply Hev]. Qed.
Lemma hush_timeouts c h : hush (timeouts c) h.
Proof. intros Hh w Hw. exists h. do 2 (split; [done|]). split; [done|by eexists]. Qed.
Lemma hush_set_timeouts c ts h : hush (set_timeouts env c ts) h.
Proof.
  intros Hh w Hw. exists (EvTimeouts c ts.1 ts.2 :: h). split; [cbn; by rewrite Hw|].
  do 2 (split; [done|]). by eexists.
Qed.
Lemma hush_dial source target timeout h : hush (call env (RDial source target timeout)) h.
Proof. by eapply hush_says; [apply speaks_call|]. Qed.
Lemma hush_remaining h : hush (remaining env) h.
Proof. unfold remaining. destruct (e_deadline env); [|apply hush_ret]. apply hush_bind; [apply hush_ask|]. intros. apply hush_ret. Qed.


Lemma session_here ev c t : about ev = Some c -> session c (ev :: t) = advance ev (session c t).
Proof. intros Ha. cbn [session]. by rewrite Ha, decide_True. Qed.

(** Any outcome. *)
Definition anyhow {A} (t : history) (o : option A) : Prop := True.

Lemma tell {B} q (k : result error unit -> M B) h R :
  (forall r, in_order (EvCall q r) h) -> (forall r, speaks (k r) (EvCall q r :: h) R) ->
  speaks (bind (call env q) k) h R.
Proof. intros Ho Hk. eapply speaks_bind; [by apply speaks_call|by intros a t (? & [= <-] & ->)|by intros t (? & ? & _)]. Qed.

Lemma hear {B} p c timeout (k : result error (Z * string) -> M B) h R :
  (forall r, in_order (EvReply p c r) h) -> (forall r, speaks (k r) (EvReply p c r :: h) R) ->
  speaks (bind (read_response env p c timeout) k) h R.
Proof. intros Ho Hk. eapply speaks_bind; [by apply speaks_read|by intros a t (? & [= <-] & ->)|by intros t (? & ? & _)]. Qed.

Lemma any_speaks {A} (m : M A) h R : speaks m h R -> speaks m h anyhow.
Proof. intros Hm. by eapply speaks_mono. Qed.

(** The state now, through the steps that said nothing. *)
Ltac state_now :=
  cbn [in_order];
  repeat first
    [ rewrite session_here by reflexivity
    | match goal with E : same_sessions _ ?t |- context [session ?c ?t] => rewrite (E c) end ];
  cbn [advance after_call]; done.
Ltac hush_one :=
  first [ apply hush_ret | apply hush_ask | apply hush_remaining | apply hush_timeouts | apply hush_set_timeouts
        | apply hush_dial | apply hush_shared; done | apply hush_log; done
        | apply hush_if; hush_one | case_match; hush_one ].
Ltac quietly := first [eapply hush_bind | eapply hush_seq]; [solve [hush_one]|intros ? ? ?].

(** ** The transactions *)

Definition payload_done (c : client) (t : history) (o : option (result error string)) : Prop :=
  forall text, o = Some (Ok text) -> session c t = Completed.

Lemma payload_stops c (m : M (result error string)) e h : m = ret (Err e) -> speaks m h (payload_done c).
Proof. intros ->. apply speaks_ret. intros text [= ?]. Qed.

Lemma payload_speaks c from to msg ia cfg' h :
  session c h = Ready -> speaks (deliver_payload env c from to msg ia cfg') h (payload_done c).
Proof.
  intros Hs. unfold deliver_payload. do 4 quietly. case_match; [by eapply payload_stops|].
  apply tell; [intros; state_now|]. intros [u|e']; [|by eapply payload_stops]. quietly. case_match; [by eapply payload_stops|].
  apply tell; [intros; state_now|]. intros [u'|e']; [|by eapply payload_stops]. quietly. case_match; [by eapply payload_stops|].
  apply tell; [intros; state_now|]. intros [u''|e']; [|by eapply payload_stops]. quietly. case_match; [by eapply payload_stops|].
  apply tell; [intros; state_now|]. intros [u'''|e']; [|by eapply payload_stops]. do 3 quietly.
  eapply speaks_bind; [apply speaks_end; state_now|intros r t' (? & [= <-] & ->)|by intros t' (? & ? & _)].
  destruct r as [text|e']; [|by eapply payload_stops]. apply speaks_ret. intros ? _. state_now.
Qed.

Lemma release_speaks how c h : (how = PutBack -> session c h = Ready) -> speaks (release_conn env how c) h anyhow.
Proof. intros Hp. eapply any_speaks, speaks_log. destruct how; cbn; auto. Qed.

Lemma speaks_then {A B} (m : M A) (k : A -> M B) h : speaks m h anyhow -> (forall a t, speaks (k a) t anyhow) -> speaks (bind m k) h anyhow.
Proof. intros Hm Hk. eapply speaks_bind; [exact Hm| |done]. intros a t _. apply Hk. Qed.

Lemma ret_speaks {A} (a : A) h : speaks (ret a) h anyhow.
Proof. by apply speaks_ret. Qed.
Lemma close_speaks {A} c (a : A) h : speaks (bind (close env c) (fun _ => ret a)) h anyhow.
Proof. apply speaks_then; [by apply release_speaks|intros; apply ret_speaks]. Qed.

Lemma pool_put_speaks c mxHost sourceIP h : session c h = Ready -> speaks (pool_put_conn env c mxHost sourceIP) h anyhow.
Proof.
  intros Hs. unfold pool_put_conn. quietly. eapply speaks_bind; [apply speaks_shared; intros; state_now| |done].
  intros ? ? _. apply ret_speaks.
Qed.

Lemma perform_delivery_speaks c from to msg mxHost sourceIP reused ia cfg' h :
  session c h = Ready ->
  speaks (perform_delivery_transaction env c from to msg mxHost sourceIP reused ia cfg') h anyhow.
Proof.
  intros Hs. unfold perform_delivery_transaction. quietly. case_match; [apply close_speaks|]. do 5 quietly.
  eapply speaks_bind; [apply payload_speaks; state_now| |done]. intros [text|err] t' Hp.
  - specialize (Hp text eq_refl). apply tell; [intros; exact Hp|]. intros reset. quietly.
    apply speaks_then; [|intros; apply ret_speaks]. destruct (_ && is_ok reset) eqn:Eb; [|by apply release_speaks].
    apply andb_true_iff in Eb as [_ Eb]. destruct reset; [|done]. apply pool_put_speaks. state_now.
  - quietly. eapply hush_seq; [|intros; apply close_speaks]. case_match; [apply hush_ret|]. quietly. apply hush_ret.
Qed.

Lemma asks_mail x : asks_for (lmtp_command ("MAIL FROM:<" +:+ x)) = Some PMail.
Proof. unfold asks_for, lmtp_command. cbn [has_prefix String.append]. by destruct (x +:+ CRLF). Qed.
Lemma asks_rcpt x : asks_for (lmtp_command ("RCPT TO:<" +:+ x)) = Some PRcpt.
Proof. unfold asks_for, lmtp_command. cbn [has_prefix String.append]. by destruct (x +:+ CRLF). Qed.
Lemma asks_lhlo x : asks_for (lmtp_command ("LHLO " +:+ x)) = Some PLhlo.
Proof. unfold asks_for, lmtp_command. cbn [has_prefix String.append]. by destruct (x +:+ CRLF). Qed.

(** One command of LMTP and its reply. *)
Lemma exchange_speaks c timeout mxHost sourceIP name cmd phase expect k h :
  asks_for (lmtp_command cmd) = Some phase -> session c h = Answered (previous phase) -> phase <> PGreeting ->
  expect = expected_code phase -> (forall t, session c t = Answered phase -> speaks k t anyhow) ->
  speaks (lmtp_exchange env c timeout mxHost sourceIP name cmd phase expect k) h anyhow.
Proof.
  intros Ha Hs Hp -> Hk. unfold lmtp_exchange, write_command.
  apply tell; [intros r; right; by exists phase|]. intros [u|e]; [|eapply any_speaks; unfold lmtp_failure; quietly; apply hush_ret].
  assert (Hw : session c (EvCall (RWriteLine c timeout (lmtp_command cmd)) (Ok u) :: h) = Waiting phase).
  { rewrite session_here by done. cbn [advance after_call]. by rewrite Ha. }
  apply hear; [intros r; by destruct phase|]. intros [[code msg]|e]; [|eapply any_speaks; unfold lmtp_failure; quietly; apply hush_ret].
  destruct (code =? expected_code phase) eqn:Ec; cbn [negb]; [|apply ret_speaks].
  apply Hk. rewrite session_here by done. cbn [advance]. by rewrite Ec.
Qed.

Lemma perform_lmtp_speaks c from to msg mxHost sourceIP h :
  session c h = Answered PLhlo -> speaks (perform_lmtp_transaction env c from to msg mxHost sourceIP) h anyhow.
Proof.
  intros Hs. unfold perform_lmtp_transaction. quietly. apply speaks_then.
  - apply exchange_speaks; [apply asks_mail|state_now|done|done|]. intros t1 Ht1.
    apply exchange_speaks; [apply asks_rcpt|done|done|done|]. intros t2 Ht2.
    apply exchange_speaks; [by vm_compute|done|done|done|]. intros t3 Ht3. apply tell; [intros; exact Ht3|]. intros [u|e]; [|eapply any_speaks; unfold lmtp_failure; quietly; apply hush_ret].
    apply hear; [intros r; state_now|]. intros [[code m]|e]; apply ret_speaks.
  - intros r t1. quietly. apply tell; [by left|]. intros. apply close_speaks.
Qed.

(** ** Setting up a connection *)

Definition greeted (c : conn) (dr : dialResult) (t : history) : Prop :=
  match dr with DialClient c' => session c' t = Ready | DialConn c' => session c' t = Answered PLhlo end.
Definition handshaken (t : history) (o : option handshake_outcome) : Prop :=
  forall dr, o = Some (Ok dr) -> greeted (conn_of dr) dr t.

Lemma handshake_stops {A} (m : M A) (e : error) h : speaks m h anyhow ->
  speaks (bind m (fun _ => ret (Err e))) h handshaken.
Proof. intros Hm. eapply speaks_bind; [exact Hm| |done]. intros a t _. apply speaks_ret. intros dr [= ?]. Qed.

Lemma close_stops c (e : error) h : speaks (bind (close env c) (fun _ => ret (Err e))) h handshaken.
Proof. apply handshake_stops. by apply release_speaks. Qed.

Lemma lmtp_handshake_speaks c timeout h :
  session c h = Opened -> speaks (lmtp_handshake env c timeout cfg) h handshaken.
Proof.
  intros Hs. unfold lmtp_handshake, write_command. cbv zeta.
  eapply speaks_bind with (R1 := fun t o => forall u, o = Some (Ok u) -> session c t = if out_LMTPImplicitTLS cfg then Secured else Opened); [| |done].
  { destruct (out_LMTPImplicitTLS cfg); [|apply speaks_ret; auto].
    eapply speaks_mono; [by apply speaks_call|]. intros t o (r & -> & ->) u [= ->]. by rewrite session_here. }
  intros [u|e] t Ht; [|apply close_stops]. specialize (Ht u eq_refl).
  apply hear; [done|]. intros [[code m]|e]; [|apply close_stops].
  destruct (code =? 220) eqn:Ec; cbn [negb]; [|apply close_stops].
  apply tell; [intros r; right; exists PLhlo; split; [apply asks_lhlo|]; rewrite session_here by done; cbn [advance expected_code]; by rewrite Ec|].
  intros [u'|e]; [|apply close_stops]. apply hear; [intros r; cbn [in_order]; rewrite session_here by done; cbn [advance after_call]; by rewrite asks_lhlo|]. intros [[code' m']|e]; [|apply close_stops].
  destruct (code' =? 250) eqn:Ec'; cbn [negb]; [|apply close_stops]. apply speaks_ret. intros dr [= <-].
  cbn [greeted]. rewrite session_here by done. cbn [advance expected_code]. by rewrite Ec'.
Qed.

Lemma ready_speaks c timeout h : session c h = Ready -> speaks (ready_client env c timeout) h handshaken.
Proof. intros Hs. unfold ready_client. quietly. apply speaks_ret. intros dr [= <-]. cbn. state_now. Qed.


(** The plaintext connection in place of one whose server offers no STARTTLS. *)
Lemma plain_speaks c0 name e source target t1 t2 h h0 :
  out_SMTPImplicitTLS cfg = false ->
  h = EvRelease Close c0 :: EvCall (RStartTLS c0 name) (Err e) :: h0 ->
  contains (error_text e) "server doesn't support STARTTLS" = true -> dialed c0 source target h0 ->
  speaks (bind (call env (RDial source target t1)) (fun dialed =>
    match dialed with
    | Err e => ret (Err (ErrWrap ("reconnect for plaintext failed: " +:+ error_text e) e))
    | Ok _ => bind (new_conn env) (fun c' => bind (call env (RHello c' (out_HelloHostname cfg))) (fun hello =>
        match hello with
        | Err e => bind (close env c') (fun _ => ret (Err (ErrWrap ("EHLO/HELO failed: " +:+ error_text e) e)))
        | Ok _ => ready_client env c' t2
        end))
    end)) h handshaken.
Proof.
  intros Hplain -> He Hd. apply tell; [done|]. intros [[]|e']; [|by apply speaks_ret; intros dr [= ?]].
  unfold new_conn. eapply speaks_bind; [by apply speaks_shared|intros c' t (? & [= <-] & ->)|by intros t (? & ? & _)].
  apply tell; [intros r; right; split; [done|split; [by rewrite session_here|by eexists _, _, _, _, _, _, _]]|].
  intros [u|e']; [|apply close_stops]. apply ready_speaks. by rewrite session_here.
Qed.

Lemma smtp_handshake_speaks c source target t1 t2 h :
  session c h = Opened -> dialed c source target h ->
  speaks (smtp_handshake env c source target t1 t2 cfg) h handshaken.
Proof.
  intros Hs Hd. unfold smtp_handshake. destruct (out_SMTPImplicitTLS cfg) eqn:Hstls.
  - apply tell; [done|]. intros [u|e]; [|apply close_stops].
    apply tell; [intros; left; by rewrite session_here|]. intros [u'|e]; [|apply close_stops].
    apply ready_speaks. by rewrite session_here.
  - apply tell; [done|]. intros [u|e]; [apply ready_speaks; by rewrite session_here|].
    unfold close, release_conn.
    eapply speaks_bind; [by apply speaks_log|intros [] t (? & [= <-] & ->)|by intros t (? & ? & _)].
    destruct (contains _ _) eqn:Ec; [by eapply plain_speaks|]. apply speaks_ret. by intros dr [= ?].
Qed.

Definition greeted_end (t : history) (o : option dial_outcome) : Prop :=
  forall dr r, o = Some (Some dr, r, None) -> greeted (conn_of dr) dr t.

Lemma dial_stops (m : M dial_outcome) r e h : m = dial_failure r e -> speaks m h greeted_end.
Proof. intros ->. apply speaks_ret. by intros dr r' [= ?]. Qed.

Lemma dialed_after c source target h t : dialed c source target h -> dialed c source target (t ++ h).
Proof. intros (to & t1 & t2 & ->). exists to, (t ++ t1), t2. by rewrite <- app_assoc. Qed.

Lemma say_hello_speaks c source target mxHost sourceIP protocol t h :
  session c h = Opened -> dialed c source target h ->
  speaks (say_hello env c source target mxHost sourceIP protocol t cfg) h greeted_end.
Proof.
  intros Hs Hd. unfold say_hello.
  eapply speaks_bind with (R1 := fun t o => session c t = Opened /\ dialed c source target t); [| |].
  { unfold remaining. destruct (e_deadline env); [|by apply speaks_ret].
    eapply speaks_bind; [apply speaks_ask|intros a t' (? & [= <-] & ->); apply speaks_ret|by intros t' (? & ? & _)].
    split; [done|by apply (dialed_after _ _ _ _ [EvTick])]. }
  2:{ by intros t' _ dr r ?. }
  intros rem t1 [Hs1 Hd1]. destruct (phase_timeouts cfg rem) as [[[bt ht] dt]|].
  - eapply speaks_bind with (R1 := handshaken); [| |by intros t' _ dr r ?].
    { destruct (seqb protocol ProtocolLMTP); [by apply lmtp_handshake_speaks|by apply smtp_handshake_speaks]. }
    intros outcome t2 Hh. quietly. destruct a.
    { eapply speaks_bind; [by apply (release_speaks Close)| |by intros ? _ dr r ?].
      intros _ t3 _. eapply hush_seq; [apply hush_ask|]. intros e t4 _. apply speaks_ret. by intros dr r [= ?]. }
    destruct outcome as [dr|e]; [|by eapply dial_stops]. apply speaks_ret. intros dr' r [= <- <-].
    specialize (Hh dr eq_refl). destruct dr; cbn in *; state_now.
  - quietly. eapply speaks_bind; [by apply (release_speaks Close)| |by intros ? _ dr r ?].
    intros _ t3 _. apply speaks_ret. by intros dr r [= ?].
Qed.

Lemma dial_and_hello_speaks mxHost mxIPs sourceIP preferIPv6 protocol h :
  speaks (dial_and_hello env mxHost mxIPs sourceIP preferIPv6 protocol cfg) h greeted_end.
Proof.
  unfold dial_and_hello. destruct (is_empty (select_target _ _ _)).
  { destruct mxIPs; by eapply dial_stops. }
  destruct (target_port cfg protocol) as [port|e]; [|by eapply dial_stops].
  quietly. destruct (_ && _); [by eapply dial_stops|].
  apply tell; [done|]. intros [[]|e]; [|destruct (_ && _); by eapply dial_stops].
  unfold new_conn. eapply speaks_bind; [by apply speaks_shared|intros c t' (? & [= <-] & ->)|by intros ? (? & ? & _)].
  apply say_hello_speaks; [by rewrite session_here|]. by eexists _, [], _.
Qed.

(** ** The whole delivery *)

Lemma fresh_attempt_speaks from to msg mxHost mxIPs sourceIP preferIPv6 protocol ia h :
  speaks (fresh_attempt env from to msg mxHost mxIPs sourceIP preferIPv6 protocol ia cfg) h anyhow.
Proof.
  unfold fresh_attempt. eapply speaks_bind; [apply dial_and_hello_speaks| |done].
  intros [[[[c|c]|] r] [e|]] t Hg; try by apply ret_speaks.
  - apply perform_delivery_speaks. exact (Hg _ _ eq_refl).
  - apply perform_lmtp_speaks. exact (Hg _ _ eq_refl).
  - by apply speaks_panic.
Qed.

Lemma pool_get_speaks mxHost sourceIP h :
  speaks (pool_get_conn env mxHost sourceIP) h (fun t o => forall c, o = Some (Some c) -> session c t = Ready).
Proof.
  unfold pool_get_conn. quietly. match goal with |- speaks (pool_get_rounds _ ?n _ _) ?t _ => generalize n, t end.
  intros rounds. induction rounds as [|rounds IH]; intros h2; cbn [pool_get_rounds]; [by apply speaks_ret|].
  quietly. eapply speaks_bind; [apply speaks_shared; intros r; by destruct (r.1)| |by intros ? (? & ? & _)].
  intros [[c|] closed] t' (? & [= <-] & ->); cbn [fst]; [|by apply speaks_ret].
  apply tell; [intros; state_now|]. intros [u|e].
  - apply speaks_ret. intros c' [= <-]. by rewrite session_here.
  - eapply speaks_bind; [by apply (release_speaks Close)| |done]. intros _ t4 _. apply IH.
Qed.

Lemma attempt_delivery_speaks from to msg mxHost mxIPs sourceIP preferIPv6 protocol ia h :
  speaks (attempt_delivery env from to msg mxHost mxIPs sourceIP preferIPv6 protocol ia cfg) h anyhow.
Proof.
  unfold attempt_delivery. destruct (seqb protocol ProtocolLMTP); [apply fresh_attempt_speaks|].
  eapply speaks_bind; [apply pool_get_speaks| |done]. intros [c|] t Hc; [|apply fresh_attempt_speaks].
  apply speaks_then; [apply perform_delivery_speaks; by apply Hc|]. intros result t'.
  destruct (_ || _); [apply ret_speaks|apply fresh_attempt_speaks].
Qed.

Lemma hush_speaks {A} (m : M A) h : hush m h -> speaks m h anyhow.
Proof. apply any_speaks. Qed.
Ltac on := apply speaks_then; [apply hush_speaks; solve [hush_one]|intros ? ?].

Lemma sections_hush fuel a pc h : hush (record_sections env fuel a pc) h.
Proof.
  revert pc h. induction fuel as [|fuel IH]; intros pc h; cbn [record_sections]; [apply hush_ret|].
  do 2 quietly. case_match; first [apply hush_ret|apply IH].
Qed.
Lemma record_attempt_hush sourceIP r from to mxHost h : hush (record_attempt env sourceIP r from to mxHost) h.
Proof. unfold record_attempt. quietly. apply sections_hush. Qed.

Lemma try_sources_speaks from to msg mxHost mxIPs v protocol ia ips lastResult h :
  speaks (try_sources env from to msg mxHost mxIPs v protocol ia cfg ips lastResult) h anyhow.
Proof.
  revert lastResult h. induction ips as [|ip ips IH]; intros lastResult h; cbn [try_sources]; [apply ret_speaks|].
  on. case_match; [apply ret_speaks|]. apply speaks_then; [apply attempt_delivery_speaks|]. intros result t2.
  apply speaks_then; [apply hush_speaks, record_attempt_hush|]. intros _ t3. destruct (_ || _); [apply ret_speaks|apply IH].
Qed.

Lemma try_versions_speaks from to msg mxHost mxIPs vs protocol ia lastResult h :
  speaks (try_versions env from to msg mxHost mxIPs vs protocol ia cfg lastResult) h anyhow.
Proof.
  revert lastResult h. induction vs as [|v vs IH]; intros lastResult h; cbn [try_versions]; [apply ret_speaks|].
  apply speaks_then; [|intros r t; destruct (is_final_result _); [apply ret_speaks|apply IH]].
  unfold try_delivery_with_ip_version. destruct (split_email to). do 4 on. apply try_sources_speaks.
Qed.

Lemma mx_loop_speaks from to msg mxs eg protocol ia lastResult h :
  speaks (mx_loop env from to msg mxs eg protocol ia cfg lastResult) h anyhow.
Proof.
  revert lastResult h. induction mxs as [|mx mxs IH]; intros lastResult h; cbn [mx_loop]; [apply ret_speaks|].
  on. case_match; [apply ret_speaks|].
  apply speaks_then; [apply hush_speaks; unfold resolve_mx_host; do 2 quietly; apply hush_ret|].
  intros [[[mxIPs h4] h6]|e] t2; [|apply IH]. apply speaks_then.
  - unfold try_mx. destruct (_ || _); [apply try_versions_speaks|].
    apply speaks_then; [apply attempt_delivery_speaks|]. intros r t3.
    apply speaks_then; [apply hush_speaks, record_attempt_hush|intros; apply ret_speaks].
  - intros [r final] t3. destruct final; [apply ret_speaks|apply IH].
Qed.

Lemma sign_dkim_hush from msg req h : hush (sign_dkim env from msg req) h.
Proof.
  unfold sign_dkim. eapply hush_bind; [|intros [[[key sel] dom]|] t E; [|apply hush_ret]].
  - unfold dkim_parameters. apply hush_if; [apply hush_if; apply hush_ret|]. apply hush_if; [|apply hush_ret].
    apply hush_if; [apply hush_ret|]. do 2 quietly. apply hush_ret.
  - apply hush_if; [|apply hush_ret]. eapply hush_bind.
    + apply hush_if; [apply hush_ret|]. quietly. by apply hush_shared.
    + intros valid t2 E2. apply hush_if; [|apply hush_ret]. quietly. apply hush_ret.
Qed.

Lemma route_hush protocol domain h : hush (route_message env cfg protocol domain) h.
Proof.
  unfold route_message. apply hush_if; [apply hush_ret|]. do 3 quietly.
  match goal with |- context [let '(_, _) := ?x in _] => destruct x end. do 2 quietly. apply hush_ret.
Qed.

Lemma deliver_under_speaks d start from to message transport req ia h :
  speaks (deliver_under env d start cfg from to message transport req ia) h anyhow.
Proof.
  unfold deliver_under. destruct (split_email to) as [lp domain].
  destruct (is_empty domain); [apply ret_speaks|].
  apply speaks_then.
  { apply hush_speaks. unfold check_rate_limit. apply hush_if; [|apply hush_ret]. do 2 quietly. by apply hush_shared. }
  intros allowed t3. destruct (negb allowed); [apply ret_speaks|].
  apply speaks_then; [apply hush_speaks, sign_dkim_hush|]. intros [m|] t4; [|apply ret_speaks].
  apply speaks_then; [apply hush_speaks, route_hush|]. intros [mxs|r] t5; [|apply ret_speaks].
  on. apply speaks_then; [apply mx_loop_speaks|]. intros r t7. unfold finish. do 2 on. apply ret_speaks.
Qed.

End Protocol.

(** ** Encryption *)

(** Why mail may be sent on [c]: TLS was set up on it at once; or, where the
    configuration does not ask for that, by STARTTLS, or the server at its
    address had refused STARTTLS; or the pool lent it, where only connections
    are that have carried mail before. *)
Definition protected (c : conn) (t : history) : Prop :=
  (exists u, In (EvCall (RTLSHandshake c) (Ok u)) t) \/
  (out_SMTPImplicitTLS cfg = false /\
   ((exists name u, In (EvCall (RStartTLS c name) (Ok u)) t) \/
    (exists t1 t2, t = t1 ++ t2 /\ starttls_refused c t2))) \/
  (exists mxHost sourceIP closed, In (EvAcquire c mxHost sourceIP closed) t).

(** A command of LMTP, or its message, and the connection it goes to. *)
Definition lmtp_speech (ev : event) : option conn :=
  match ev with
  | EvCall (RWriteLine c _ line) _ => if decide (asks_for line = None) then None else Some c
  | EvCall (RWriteData c _ _) _ => Some c
  | _ => None
  end.

Definition past_tls (st : session_state) : bool :=
  match st with
  | Secured | Ready | HasSender | HasRecipient | HasData | HasMessage | Completed => true
  | _ => false
  end.
Definition past_greeting (st : session_state) : bool :=
  match st with Waiting _ | Answered _ => true | _ => false end.

Lemma protected_later c ev t : protected c t -> protected c (ev :: t).
Proof.
  intros [(u & Hu)|[[Hp [(n & u & Hu)|(t1 & t2 & -> & Hr)]]|(m & s & cl & Ha)]].
  - left. exists u. by right.
  - right; left. split; [done|]. left. exists n, u. by right.
  - right; left. split; [done|]. right. exists (ev :: t1), t2. by split.
  - right; right. exists m, s, cl. by right.
Qed.

Lemma session_protected c t : conforms t -> past_tls (session c t) = true -> protected c t.
Proof.
  induction t as [|ev t IH]; [done|]. intros [Ho Hc] Hp. cbn [session] in Hp. specialize (IH Hc).
  case_decide as Ha; [|by apply protected_later, IH].
  destruct ev as [|q r|c' r|p c' r|host r|dom r|c' ct st|c'|c' m s cl|how c'|evs|o dm ms];
    cbn in Ha; simplify_eq; cbn [advance] in Hp; try done.
  - destruct r as [u|e]; [|done].
    destruct q as [s tg to|c'|c' hn|c' hn|c' f u8|c' rc|c'|c' da|c'|c'|c' to l|c' to da];
      cbn in Ha; simplify_eq; cbn [in_order after_call] in Ho, Hp; try done;
      try (apply protected_later, IH; by rewrite Ho).
    + left. exists u. by left.
    + destruct Ho as [Hs|(Hf & _ & Hr)]; [apply protected_later, IH; by rewrite Hs|].
      apply protected_later. right; left. split; [done|]. right. by exists [], t.
    + right; left. split; [apply Ho|]. left. exists hn, u. by left.
    + destruct (asks_for l); done.
  - destruct r; [|done]. apply protected_later, IH. cbn in Ho. by rewrite Ho.
  - destruct r as [[code m]|]; [|done]. by destruct (code =? _).
  - right; right. exists m, s, cl. by left.
Qed.

(** Where LMTP is to use TLS, only a handshake leads to the greeting. *)
Lemma session_handshaken c t :
  out_LMTPImplicitTLS cfg = true -> conforms t ->
  past_greeting (session c t) = true \/ session c t = Secured ->
  exists u, In (EvCall (RTLSHandshake c) (Ok u)) t.
Proof.
  intros Htls. induction t as [|ev t IH]; [by intros _ [?|?]|]. intros [Ho Hc] Hp. cbn [session] in Hp.
  assert (Hlater : past_greeting (session c t) = true \/ session c t = Secured ->
    exists u, In (EvCall (RTLSHandshake c) (Ok u)) (ev :: t)).
  { intros Hs. destruct (IH Hc Hs) as [u Hu]. exists u. by right. }
  case_decide as Ha; [|by auto].
  destruct ev as [|q r|c' r|p c' r|host r|dom r|c' ct st|c'|c' m s cl|how c'|evs|o dm ms];
    cbn in Ha; simplify_eq; cbn [advance] in Hp; try by destruct Hp.
  - destruct r as [u|e]; [|by destruct Hp].
    destruct q as [s tg to|c'|c' hn|c' hn|c' f u8|c' rc|c'|c' da|c'|c'|c' to l|c' to da];
      cbn in Ha; simplify_eq; cbn [in_order after_call] in Ho, Hp; try by destruct Hp.
    + exists u. by left.
    + destruct Ho as [->|(p & Hp' & Hs)]; [by destruct Hp|]. apply Hlater. left. by rewrite Hs.
    + apply Hlater. left. by rewrite Ho.
  - destruct r; [by destruct Hp|]. by destruct Hp.
  - destruct p; cbn [in_order] in Ho; apply Hlater;
      first [left; by rewrite Ho|right; by rewrite Ho, Htls].
Qed.

Lemma conforms_suffix t1 t2 : conforms (t1 ++ t2) -> conforms t2.
Proof. induction t1 as [|ev t1 IH]; [done|]. by intros [_ Hc]; apply IH. Qed.

End Rules.


(** The commands of a delivery on each connection, oldest first. *)
Definition command_of (ev : event) : option (conn * string) :=
  match ev with
  | EvCall (RTLSHandshake c) _ => Some (c, "TLS") | EvCall (RStartTLS c _) _ => Some (c, "STARTTLS")
  | EvCall (RHello c _) _ => Some (c, "EHLO") | EvCall (RMail c _ _) _ => Some (c, "MAIL")
  | EvCall (RRcpt c _) _ => Some (c, "RCPT") | EvCall (RData c) _ => Some (c, "DATA")
  | EvCall (RWrite c _) _ => Some (c, "message") | EvEnd c _ => Some (c, "end")
  | EvCall (RReset c) _ => Some (c, "RSET") | EvCall (RNoop c) _ => Some (c, "NOOP") | EvCall (RWriteLine c _ l) _ => Some (c, stake 4 l)
  | EvCall (RWriteData c _ _) _ => Some (c, "message")
  | _ => None
  end.
Definition dialogue (p : option DeliveryResult * world) : list (conn * string) := rev (omap command_of (w_trace p.2)).

Example smtp_dialogue :
  dialogue (deliver yes_env (start_world out_config ["198.51.100.1"] []) "smtp") =
  map (pair 0%nat) ["STARTTLS"; "MAIL"; "RCPT"; "DATA"; "message"; "end"; "RSET"].
Proof. vm_compute. reflexivity. Qed.

(** A server without STARTTLS gets the message in clear, over a second
    connection. *)
Definition plain_env : Env :=
  mkEnv "t" None (fun _ => None) (e_now yes_env) (fun _ => true) (fun _ => false) (fun _ => no_starttls) (fun _ => false)
    (e_end yes_env) (e_extension yes_env) (e_input yes_env) (e_rounds yes_env)
    (e_health_clock yes_env) (e_mx yes_env) (e_sort yes_env) (e_host yes_env) (e_txt yes_env)
    (e_random yes_env) (e_keys yes_env) (fun _ s => s).
Example plain_dialogue :
  dialogue (deliver plain_env (start_world out_config ["198.51.100.1"] []) "smtp") =
  (0%nat, "STARTTLS") :: map (pair 1%nat) ["EHLO"; "MAIL"; "RCPT"; "DATA"; "message"; "end"; "RSET"].
Proof. vm_compute. reflexivity. Qed.

(** LMTP without TLS, to a server that takes the sender and not the recipient;
    and a second delivery, over the pool's connection. *)
Example lmtp_dialogue :
  dialogue (deliver (with_input yes_env lmtp_replies) (start_world lmtp_config [] []) "lmtp") =
  map (pair 0%nat) ["LHLO"; "MAIL"; "RCPT"; "QUIT"].
Proof. vm_compute. reflexivity. Qed.
Example pooled_dialogue :
  let '(_, w1) := deliver yes_env (start_world out_config ["198.51.100.1"] []) "smtp" in
  skipn 7 (dialogue (deliver yes_env w1 "smtp")) =
  map (pair 0%nat) ["NOOP"; "MAIL"; "RCPT"; "DATA"; "message"; "end"; "RSET"].
Proof. vm_compute. reflexivity. Qed.
