(* ===== verification/DelivererEffort.v ===== *)
(** * The effort of a delivery (properties of Deliverer.v)

    How often a delivery may dial, whatever the answers: a bound in the number
    of hosts and of source addresses. *)

From stdpp Require Import base gmap sets list strings.
From Stdlib Require Import ZArith Lia.
From S2P Require Import Prelude GoString GoError NetIP Config IPExpansion ErrorClassifier IPReputation ConnectionPool.
From S2P Require Import MXLookup IPRotator DomainLimiter LMTP SRS DKIM KeyStore ARC MIMEHeader.
From S2P Require Import Delivery Effects Deliverer DelivererSafety.
#[local] Open Scope nat_scope.
Create HintDb effort.

(** The dials of a history, and the most hosts that a lookup in it found: one,
    if there is none (a fixed destination). *)
Definition is_dial (ev : event) : bool := match ev with EvCall (RDial _ _ _) _ => true | _ => false end.
Definition dials (t : history) : nat := length (List.filter is_dial t).
Fixpoint hosts (t : history) : nat :=
  match t with
  | [] => 1
  | EvLookup _ (Ok l) :: t => Nat.max (length l) (hosts t)
  | _ :: t => hosts t
  end.

Lemma dials_app a b : dials (a ++ b) = dials a + dials b.
Proof. unfold dials. by rewrite List.filter_app, length_app. Qed.
Lemma hosts_app a b : hosts b <= hosts (a ++ b).
Proof. induction a as [|[] a IH]; cbn [hosts app]; try done. destruct r; [lia|done]. Qed.

Lemma hosts_mono a b : hosts a <= hosts (a ++ b).
Proof. induction a as [|[] a IH]; cbn [hosts app]; try done; [induction b as [|[] b IH]; cbn; try done; destruct r; [lia|done]|]. destruct r; [lia|done]. Qed.

Section Effort.
Context `{Crypto, Unicode} (env : Env) (n4 n6 : nat).

(** The rotator has at most so many addresses of each version, and nobody adds
    any. *)
Definition pools_fit (s : shared) : Prop :=
  length (ipsV4 (sh_rotator s)) <= n4 /\ length (ipsV6 (sh_rotator s)) <= n6.
Context (Hkeeps : keeps env pools_fit).

(** ** The logic *)

Definition spends {A} (m : M A) (R : history -> option A -> Prop) : Prop :=
  forall w, pools_fit (w_shared w) ->
  let '(o, w') := m w in pools_fit (w_shared w') /\ exists new, w_trace w' = new ++ w_trace w /\ R new o.
Definition at_most {A} (n : nat) (m : M A) : Prop := spends m (fun new _ => dials new <= n).
Definition gives {A} (n : nat) (m : M A) (P : A -> Prop) : Prop :=
  spends m (fun new o => dials new <= n /\ forall a, o = Some a -> P a).

Lemma spends_mono {A} (m : M A) (R R' : history -> option A -> Prop) :
  spends m R -> (forall new o, R new o -> R' new o) -> spends m R'.
Proof.
  intros Hm HR w Hw. specialize (Hm w Hw). destruct (m w) as [o w']. destruct Hm as (? & new & ? & ?).
  split; [done|]. exists new. auto.
Qed.

Lemma spends_bind {A B} (m : M A) (k : A -> M B) R1 (R : history -> option B -> Prop) :
  spends m R1 -> (forall a n1, R1 n1 (Some a) -> spends (k a) (fun n2 o => R (n2 ++ n1) o)) ->
  (forall n1, R1 n1 None -> R n1 None) -> spends (bind m k) R.
Proof.
  intros Hm Hk Hn w Hw. specialize (Hm w Hw). unfold bind.
  destruct (m w) as [[a|] w']; destruct Hm as (Hi & n1 & E1 & H1); [|split; [done|exists n1; auto]].
  specialize (Hk a n1 H1 w' Hi). destruct (k a w') as [o w'']. destruct Hk as (Hi' & n2 & E2 & H2).
  split; [done|]. exists (n2 ++ n1). by rewrite E2, E1, app_assoc.
Qed.

Lemma gives_bind {A B} n1 n2 (m : M A) (k : A -> M B) (P : A -> Prop) :
  gives n1 m P -> (forall a, P a -> at_most n2 (k a)) -> at_most (n1 + n2) (bind m k).
Proof.
  intros Hm Hk. eapply spends_bind; [exact Hm| |intros n [? _]; lia].
  intros a t [Ht HP]. eapply spends_mono; [by apply Hk, HP|]. intros n o Hn. cbn in *. rewrite dials_app. lia.
Qed.
Lemma at_most_gives {A} n (m : M A) : at_most n m -> gives n m (fun _ => True).
Proof. intros Hm. eapply spends_mono; [exact Hm|]. by intros new o. Qed.
Lemma at_most_bind {A B} n1 n2 (m : M A) (k : A -> M B) :
  at_most n1 m -> (forall a, at_most n2 (k a)) -> at_most (n1 + n2) (bind m k).
Proof. intros Hm Hk. eapply gives_bind; [by apply at_most_gives|]. auto. Qed.
Lemma at_most_le {A} n n' (m : M A) : at_most n m -> n <= n' -> at_most n' m.
Proof. intros Hm Hn. eapply spends_mono; [exact Hm|]. intros; cbn in *; lia. Qed.

(** *** Steps *)

Lemma free_ret {A} (a : A) n : at_most n (ret a).
Proof. intros w Hw. cbn. split; [done|]. exists []. cbn. split; [done|lia]. Qed.
Lemma free_panic {A} n : at_most n (panic (A := A)).
Proof. intros w Hw. cbn. split; [done|]. exists []. cbn. split; [done|lia]. Qed.
Lemma free_log ev : is_dial ev = false -> at_most 0 (log env ev).
Proof. intros Hev w Hw. cbn. split; [by apply Hkeeps|]. exists [ev]. unfold dials. cbn. by rewrite Hev. Qed.
Lemma free_ask {A} (oracle : history -> A) : at_most 0 (ask env oracle).
Proof. intros w Hw. cbn. split; [by apply Hkeeps|]. by exists [EvTick]. Qed.
Lemma free_call q : (forall r, is_dial (EvCall q r) = false) -> at_most 0 (call env q).
Proof.
  intros Hq w Hw. unfold call. split; [by apply Hkeeps|]. eexists [_]. split; [done|]. unfold dials. cbn [List.filter]. by rewrite Hq.
Qed.
Lemma dial_call source target timeout : at_most 1 (call env (RDial source target timeout)).
Proof. intros w Hw. cbn. split; [by apply Hkeeps|]. by eexists [_]. Qed.
Lemma free_end c : at_most 0 (end_data env c).
Proof. intros w Hw. cbn. split; [by apply Hkeeps|]. by eexists [_]. Qed.
Lemma free_timeouts c : at_most 0 (timeouts c).
Proof. intros w Hw. cbn. split; [done|]. by exists []. Qed.
Lemma free_set_timeouts c ts : at_most 0 (set_timeouts env c ts).
Proof. intros w Hw. cbn. split; [by apply Hkeeps|]. by eexists [_]. Qed.
Lemma free_read p c timeout : at_most 0 (read_response env p c timeout).
Proof.
  intros w Hw. unfold read_response. destruct (e_input env (w_trace w) c timeout) as [[fail more]|e].
  - destruct (read_lmtp_response fail _) as [r rest]. cbn. split; [by apply Hkeeps|]. by eexists [_].
  - cbn. split; [by apply Hkeeps|]. by eexists [_].
Qed.
Lemma spends_shared {A} (f : history -> shared -> A * shared) ev (R : history -> option A -> Prop) :
  (forall h s, pools_fit s -> pools_fit (f h s).2 /\ R [ev (f h s).1] (Some (f h s).1)) -> spends (on_shared env f ev) R.
Proof.
  intros Hf w Hw. unfold on_shared. specialize (Hf (w_trace w) (w_shared w) Hw).
  destruct (f (w_trace w) (w_shared w)) as [a s]. destruct Hf. cbn. split; [by apply Hkeeps|]. by eexists [_].
Qed.
Lemma free_shared {A} (f : history -> shared -> A * shared) (ev : A -> event) :
  (forall h s, sh_rotator (f h s).2 = sh_rotator s) -> (forall a, is_dial (ev a) = false) -> at_most 0 (on_shared env f ev).
Proof.
  intros Hf Hev. apply spends_shared. intros h s Hs. unfold pools_fit. rewrite Hf. split; [done|].
  unfold dials. cbn [List.filter]. by rewrite Hev.
Qed.

(** *** Automation: steps that never dial *)

Lemma free_step {A B} n (m : M A) (k : A -> M B) : at_most 0 m -> (forall a, at_most n (k a)) -> at_most n (bind m k).
Proof. intros Hm Hk. by apply (at_most_bind 0 n). Qed.
Lemma free_remaining : at_most 0 (remaining env).
Proof. unfold remaining. destruct (e_deadline env); [|apply free_ret]. apply free_step; [apply free_ask|]. intros; apply free_ret. Qed.

Ltac rotator_kept :=
  intros; cbn; repeat match goal with |- context [let '(_, _) := ?x in _] => destruct x end; done.
Ltac free_one :=
  first [ apply free_ret | apply free_ask | apply free_remaining | apply free_timeouts | apply free_set_timeouts
        | apply free_end | apply free_read | apply free_log; done | apply free_call; done
        | apply free_shared; [rotator_kept|by intros []] | apply free_shared; [rotator_kept|done]
        | apply free_shared; [rotator_kept|intros [[] ?]; done] | solve [auto with effort] ].
Ltac free :=
  lazymatch goal with
  | |- at_most _ (bind _ _) => apply free_step; [free|intros; free]
  | |- at_most _ (match ?x with _ => _ end) => destruct x; free
  | |- at_most _ (let '_ := ?x in _) => destruct x; free
  | |- _ => free_one
  end.

(** ** A delivery *)

Lemma free_pool_get mxHost sourceIP : at_most 0 (pool_get_conn env mxHost sourceIP).
Proof.
  unfold pool_get_conn. apply free_step; [free|]. intros rounds.
  induction rounds as [|rounds IH]; cbn [pool_get_rounds]; [apply free_ret|].
  unfold now, close, release_conn, on_pool. apply free_step; [free|]. intros t.
  apply free_step; [apply free_shared; [rotator_kept|by intros [[c|] closed]]|].
  intros [[c|] closed]; cbn [fst]; [|apply free_ret].
  apply free_step; [free|]. intros [u|e]; [apply free_ret|]. apply free_step; [free|]. intros _. exact IH.
Qed.
Lemma free_payload c from to msg ia cfg : at_most 0 (deliver_payload env c from to msg ia cfg).
Proof. unfold deliver_payload, ctx_err, now, on_srs. free. Qed.
#[local] Hint Resolve free_pool_get free_payload : effort.
Lemma free_transaction c from to msg mxHost sourceIP reused ia cfg :
  at_most 0 (perform_delivery_transaction env c from to msg mxHost sourceIP reused ia cfg).
Proof.
  unfold perform_delivery_transaction, ctx_err, now, stop, close, release_conn, pool_put_conn, on_pool. free.
Qed.
Lemma free_lmtp c from to msg mxHost sourceIP : at_most 0 (perform_lmtp_transaction env c from to msg mxHost sourceIP).
Proof.
  unfold perform_lmtp_transaction, lmtp_exchange, lmtp_failure, write_command, ctx_err, get_config, stop, close, release_conn. free.
Qed.
#[local] Hint Resolve free_transaction free_lmtp : effort.

Lemma lmtp_handshake_effort c timeout cfg : at_most 0 (lmtp_handshake env c timeout cfg).
Proof. unfold lmtp_handshake, write_command, close, release_conn. free. Qed.
Lemma smtp_handshake_effort c source target t1 t2 cfg : at_most 1 (smtp_handshake env c source target t1 t2 cfg).
Proof.
  unfold smtp_handshake, ready_client, close, release_conn, new_conn.
  destruct (out_SMTPImplicitTLS cfg); [apply (at_most_le 0); [free|lia]|].
  apply free_step; [free|]. intros [u|e]; [apply (at_most_le 0); [free|lia]|]. apply free_step; [free|]. intros _.
  destruct (contains _ _); [|apply free_ret]. apply (at_most_bind 1 0); [apply dial_call|]. intros. free.
Qed.

(** An attempt dials at most twice: the second time in plaintext. *)
Lemma dial_and_hello_effort mxHost mxIPs sourceIP preferIPv6 protocol cfg :
  at_most 2 (dial_and_hello env mxHost mxIPs sourceIP preferIPv6 protocol cfg).
Proof.
  unfold dial_and_hello, dial_failure. destruct (is_empty (select_target _ _ _)); [destruct mxIPs; apply free_ret|].
  destruct (target_port cfg protocol) as [port|e]; [|apply free_ret]. apply free_step; [free|]. intros rem.
  destruct (_ && _); [apply free_ret|]. apply (at_most_bind 1 1); [apply dial_call|].
  intros [u|e]; [|destruct (_ && _); apply free_ret]. unfold new_conn. apply free_step; [free|]. intros c.
  unfold say_hello, ctx_err, close, release_conn, dial_failure. apply free_step; [free|]. intros rem'.
  destruct (phase_timeouts cfg rem') as [[[bt ht] dt]|]; [|apply (at_most_le 0); [free|lia]].
  apply (at_most_bind 1 0).
  - destruct (seqb protocol ProtocolLMTP); [apply (at_most_le 0); [apply lmtp_handshake_effort|lia]|apply smtp_handshake_effort].
  - intros outcome. free.
Qed.

Lemma attempt_effort from to msg mxHost mxIPs sourceIP preferIPv6 protocol ia cfg :
  at_most 2 (attempt_delivery env from to msg mxHost mxIPs sourceIP preferIPv6 protocol ia cfg).
Proof.
  assert (Hf : at_most 2 (fresh_attempt env from to msg mxHost mxIPs sourceIP preferIPv6 protocol ia cfg)).
  { unfold fresh_attempt. apply (at_most_bind 2 0); [apply dial_and_hello_effort|].
    intros [[[[c|c]|] r] [e|]]; first [apply free_ret | apply free_panic | by auto with effort]. }
  unfold attempt_delivery. destruct (seqb protocol ProtocolLMTP); [done|].
  apply free_step; [free|]. intros [c|]; [|done]. apply free_step; [free|]. intros result.
  destruct (_ || _); [apply free_ret|done].
Qed.

Lemma record_attempt_effort sourceIP r from to mxHost : at_most 0 (record_attempt env sourceIP r from to mxHost).
Proof.
  unfold record_attempt, on_reputation. apply free_step; [free|]. intros pc. revert pc.
  generalize max_sections. intros fuel. induction fuel as [|fuel IH]; intros pc; cbn [record_sections]; [apply free_ret|].
  unfold now, on_reputation. apply free_step; [free|]. intros t. apply free_step; [free|]. intros [pc' evs]; cbn [fst snd].
  destruct pc'; first [apply free_ret|apply IH].
Qed.
#[local] Hint Resolve record_attempt_effort : effort.

Lemma try_sources_effort from to msg mxHost mxIPs v protocol ia cfg ips lastResult :
  at_most (2 * length ips) (try_sources env from to msg mxHost mxIPs v protocol ia cfg ips lastResult).
Proof.
  revert lastResult. induction ips as [|ip ips IH]; intros lastResult; cbn [try_sources]; [apply free_ret|].
  apply free_step; [unfold ctx_err; free|]. intros [e|]; [apply free_ret|].
  cbn [length]. replace (2 * S (length ips)) with (2 + 2 * length ips) by lia.
  apply at_most_bind; [apply attempt_effort|]. intros r. apply free_step; [free|]. intros _.
  destruct (_ || _); [apply free_ret|apply IH].
Qed.

Definition pool_size (v : bool) : nat := if v then n6 else n4.

Lemma select_ips_length r v domain rnd : length (select_ips r v domain rnd).1 = length (pool_of r v).
Proof.
  unfold select_ips. destruct (pool_of r v) as [|a [|b l]]; [done|done|].
  assert (Hr : forall k, length (rotated (a :: b :: l) k) = length (a :: b :: l))
    by (intros; unfold rotated; by rewrite length_map, length_seq).
  destruct (seqb _ "random"); [apply Hr|]. destruct (seqb _ "hash-domain"); apply Hr.
Qed.

Lemma try_delivery_effort from to msg mxHost mxIPs v protocol ia cfg :
  at_most (2 * pool_size v) (try_delivery_with_ip_version env from to msg mxHost mxIPs v protocol ia cfg).
Proof.
  unfold try_delivery_with_ip_version. destruct (split_email to) as [lp domain]. apply free_step; [free|]. intros rnd.
  eapply (gives_bind 0 (2 * pool_size v) _ _ (fun ips => length ips <= pool_size v)).
  { apply spends_shared. intros h s [H4 H6]. pose proof (select_ips_length (sh_rotator s) v domain rnd) as Hl.
    destruct (select_ips_pools (sh_rotator s) v domain rnd) as [E4 E6].
    destruct (select_ips (sh_rotator s) v domain rnd) as [ips rot]. cbn in *. unfold pools_fit. cbn. rewrite E4, E6.
    split; [done|]. split; [done|]. intros a [= <-]. rewrite Hl. by destruct v. }
  intros ips Hips. apply free_step; [free|]. intros clock.
  eapply (gives_bind 0 (2 * pool_size v) _ _ (fun l => length l <= length ips)).
  { apply spends_shared. intros h s Hs. cbn. split; [done|]. split; [done|]. intros a [= <-].
    unfold get_healthy_ips. destruct (negb _); [done|]. apply filter_length_le. }
  intros healthy Hh. cbv beta in Hips, Hh. eapply at_most_le; [apply try_sources_effort|]. destruct healthy; cbn [length] in *; lia.
Qed.

Fixpoint sizes (vs : list bool) : nat := match vs with [] => 0 | v :: vs => pool_size v + sizes vs end.
Lemma try_versions_effort from to msg mxHost mxIPs vs protocol ia cfg lastResult :
  at_most (2 * sizes vs) (try_versions env from to msg mxHost mxIPs vs protocol ia cfg lastResult).
Proof.
  revert lastResult. induction vs as [|v vs IH]; intros lastResult; cbn [try_versions sizes]; [apply free_ret|].
  rewrite Nat.mul_add_distr_l. apply at_most_bind; [apply try_delivery_effort|]. intros r.
  destruct (is_final_result _); [apply free_ret|apply IH].
Qed.

(** The attempts for one host. *)
Definition per_host : nat := Nat.max 1 (n4 + n6).

Lemma try_mx_effort from to msg mxHost mxIPs h4 h6 eg protocol ia cfg lastResult :
  at_most (2 * per_host) (try_mx env from to msg mxHost mxIPs h4 h6 eg protocol ia cfg lastResult).
Proof.
  unfold try_mx, per_host. destruct (_ || _).
  - eapply at_most_le; [apply try_versions_effort|].
    unfold versions. destruct (eg_tryIPv6First eg), (_ && h4), (_ && h6); cbn [sizes pool_size app]; lia.
  - apply (at_most_le (2 + 0)); [|lia]. apply at_most_bind; [apply attempt_effort|]. intros r. free.
Qed.

Lemma mx_loop_effort from to msg mxs eg protocol ia cfg lastResult :
  at_most (2 * length mxs * per_host) (mx_loop env from to msg mxs eg protocol ia cfg lastResult).
Proof.
  revert lastResult. induction mxs as [|mx mxs IH]; intros lastResult; cbn [mx_loop]; [apply free_ret|].
  apply free_step; [unfold ctx_err; free|]. intros [e|]; [apply free_ret|].
  apply free_step; [unfold resolve_mx_host, on_mx; free|].
  assert (Hrest : forall r, at_most (2 * length (mx :: mxs) * per_host) (mx_loop env from to msg mxs eg protocol ia cfg r))
    by (intros r; eapply at_most_le; [apply IH|apply Nat.mul_le_mono_r; cbn [length]; lia]).
  intros [[[mxIPs h4] h6]|e]; [|apply Hrest].
  apply (at_most_le (2 * per_host + 2 * length mxs * per_host)); [|cbn [length]; nia].
  apply at_most_bind; [apply try_mx_effort|]. intros [r final]. destruct final; [apply free_ret|apply IH].
Qed.

Lemma sign_dkim_effort from msg req : at_most 0 (sign_dkim env from msg req).
Proof. unfold sign_dkim, dkim_parameters, on_keys, on_mx, now. free. Qed.

(** A free step before one whose account only looks at what grows. *)
Lemma spends_after {A B} (m : M A) (k : A -> M B) (R : history -> option B -> Prop) :
  at_most 0 m -> (forall n1 n2 o, dials n1 = 0 -> R n2 o -> R (n2 ++ n1) o) ->
  (forall n1, dials n1 = 0 -> R n1 None) -> (forall a, spends (k a) R) -> spends (bind m k) R.
Proof.
  intros Hm Happ Hn Hk. eapply spends_bind; [exact Hm| |intros n1 H1; cbv beta in H1; apply Hn; lia].
  intros a n1 H1. cbv beta in H1. eapply spends_mono; [apply Hk|]. intros n2 o. apply Happ. lia.
Qed.

(** The hosts of a route were looked up, or there is one. *)
Definition routed (new : history) (o : option (result DeliveryResult (list MXRecord))) : Prop :=
  dials new = 0 /\ forall mxs, o = Some (Ok mxs) -> length mxs <= hosts new.
Lemma routed_later n1 n2 o : dials n1 = 0 -> routed n2 o -> routed (n2 ++ n1) o.
Proof.
  intros H1 [H2 Hm]. split; [rewrite dials_app; lia|]. intros mxs Ho. specialize (Hm mxs Ho).
  pose proof (hosts_mono n2 n1). lia.
Qed.
Lemma routed_none n1 : dials n1 = 0 -> routed n1 None.
Proof. by split. Qed.

Lemma route_effort cfg protocol domain : spends (route_message env cfg protocol domain) routed.
Proof.
  unfold route_message. destruct (negb _).
  { destruct (split_host_port _) as [[host port]|e]; intros w Hw; cbn; (split; [done|]); exists []; (split; [done|]);
      (split; [done|]); intros mxs [= ?]; by subst. }
  unfold ctx_err, now. do 3 (apply spends_after; [free|apply routed_later|apply routed_none|intros ?]).
  match goal with |- context [let '(_, _) := ?x in _] => destruct x as [c1 ans] end.
  apply spends_after; [free|apply routed_later|apply routed_none|intros t1].
  eapply spends_bind with (R1 := fun new o => exists r, o = Some r /\ new = [EvLookup domain r]); [| |by intros ? (? & ? & _)].
  { unfold on_mx. apply spends_shared. intros h s Hs. destruct (lookup _ _ _ _ _ _ _ _) as [r m]. cbn. split; [done|]. by exists r. }
  intros r n1 (? & [= <-] & ->) w Hw. cbn. split; [done|]. exists []. split; [done|]. split; [done|].
  intros mxs. destruct r as [[|mx l]|e]; [done|intros [= <-]; cbn; lia|]. by destruct (error_is e errNoMXRecords).
Qed.

(** The whole account. *)
Definition affordable (new : history) : Prop := dials new <= 2 * hosts new * per_host.
Lemma affordable_later n1 n2 : dials n1 = 0 -> affordable n2 -> affordable (n2 ++ n1).
Proof. unfold affordable. intros H1 H2. rewrite dials_app. pose proof (hosts_mono n2 n1). nia. Qed.
Lemma affordable_free {A} (m : M A) : at_most 0 m -> spends m (fun new _ => affordable new).
Proof. intros Hm. eapply spends_mono; [exact Hm|]. unfold affordable. intros new o Hn. cbv beta in Hn. nia. Qed.

Lemma deliver_message_effort d from to message transport req ia :
  spends (deliver_message env d from to message transport req ia) (fun new _ => affordable new).
Proof.
  assert (Hnone : forall n1, dials n1 = 0 -> affordable n1) by (unfold affordable; nia).
  unfold deliver_message, deliver_under, now, get_config.
  do 2 (apply spends_after; [free|intros n1 n2 o; by apply affordable_later|done|intros ?]).
  destruct (split_email to) as [lp domain]. destruct (is_empty domain); [apply affordable_free, free_ret|].
  apply spends_after; [unfold check_rate_limit, now, on_limiters; free|intros n1 n2 o; by apply affordable_later|done|].
  intros allowed. destruct (negb allowed); [apply affordable_free, free_ret|].
  apply spends_after; [apply sign_dkim_effort|intros n1 n2 o; by apply affordable_later|done|].
  intros [m|]; [|apply affordable_free, free_ret].
  eapply spends_bind; [apply route_effort| |intros n1 [H1 _]; by apply Hnone]. intros [mxs|r] n1 [H1 Hm].
  2:{ eapply spends_mono; [apply (free_ret _ 0)|]. intros n2 o H2. cbv beta in H2. unfold affordable. rewrite dials_app. nia. }
  specialize (Hm mxs eq_refl). eapply spends_mono with (R := fun new _ => dials new <= 0 + (2 * length mxs * per_host + 0)).
  - apply at_most_bind; [unfold on_rotator; free|]. intros rot. apply at_most_bind; [apply mx_loop_effort|].
    intros r. unfold finish, now. free.
  - intros n2 o H2. cbv beta in H2. unfold affordable. rewrite dials_app. pose proof (hosts_app n2 n1). nia.
Qed.
End Effort.

(** ** Properties *)


(** ** Witness and example *)

(** Nobody can be reached. *)
Definition dead_env : Env :=
  mkEnv "t" None (fun _ => None) (e_now yes_env) (fun _ => true) (fun _ => false)
    (fun _ _ => Err (ErrNet "connection refused" false)) (fun _ => false)
    (e_end yes_env) (e_extension yes_env) (e_input yes_env) (e_rounds yes_env)
    (e_health_clock yes_env) (e_mx yes_env) (e_sort yes_env) (e_host yes_env) (e_txt yes_env)
    (e_random yes_env) (e_keys yes_env) (fun _ s => s).


(** With two hosts and two addresses the bound is reached when every server
    refuses STARTTLS and then, in clear, answers the sender with a 252; when none
    can be reached, one address for each host is tried. *)
Definition no_starttls_no_mail (q : request) : result error unit :=
  match q with
  | RStartTLS _ _ => Err (ErrText "smtp: server doesn't support STARTTLS")
  | RMail _ _ _ => Err (ErrSMTP 252 "cannot verify" "SMTP error 252: cannot verify")
  | _ => Ok tt
  end.
Definition grumpy_env : Env :=
  mkEnv "t" None (fun _ => None) (e_now yes_env) (fun _ => true) (fun _ => false)
    (fun _ => no_starttls_no_mail) (fun _ => false)
    (e_end yes_env) (e_extension yes_env) (e_input yes_env) (e_rounds yes_env)
    (e_health_clock yes_env) (e_mx yes_env) (e_sort yes_env) (e_host yes_env) (e_txt yes_env)
    (e_random yes_env) (e_keys yes_env) (fun _ s => s).
Example efforts :
  map (fun env => let t := w_trace (deliver env (start_world out_config ["198.51.100.1"; "198.51.100.2"] []) "smtp").2 in
                  (dials t, hosts t)) [dead_env; grumpy_env] = [(2, 2); (8, 2)].
Proof. vm_compute. reflexivity. Qed.
