(* ===== verification/Compose.v ===== *)
(** * Composed messages (internal/handler/handler_new.go)

    The request of the API and [buildRawMessage], which makes a message of its
    subject, texts and attachments with go-message's mail package.  That
    package is the class [MailLib]; the quoted-printable writer of Go's
    standard library is modelled here. *)

From stdpp Require Import base gmap list strings.
From Stdlib Require Import ZArith Lia Ascii.
From S2P Require Import Prelude GoString GoError Base64 Deliverer.
#[local] Open Scope Z_scope.

(** ** The request *)

Record Attachment : Type := mkAttachment { Filename : string; ContentType : string; Content : string }.

Record MessageRequest : Type := mkMessageRequest {
  mr_From : string;
  mr_To : string;
  mr_Subject : string;
  mr_Text : string;
  mr_HTML : string;
  mr_Attachments : list Attachment;
  mr_Headers : gmap string string;
  mr_MessageID : string;
  mr_RawMessage : string;
  mr_DKIMPrivateKey : string;
  mr_DKIMSelector : string;
  mr_DKIMDomain : string;
  mr_SkipDKIMValidation : bool;
  mr_ARCPrivateKey : string;
  mr_ARCSelector : string;
  mr_ARCDomain : string;
  mr_InboundAuth : option InboundAuthResults
}.

(** ** Quoted-printable ([mime/quotedprintable])

    The writer's line buffer, whether a CR was just written, and the output. *)
Record qp_state : Type := mkQP { qp_line : string; qp_cr : bool; qp_out : string }.

Definition qp_flush (s : qp_state) : qp_state := mkQP "" (qp_cr s) (qp_out s +:+ qp_line s).
Definition qp_crlf (s : qp_state) : qp_state := qp_flush (mkQP (qp_line s +:+ CRLF) (qp_cr s) (qp_out s)).
Definition qp_soft_break (s : qp_state) : qp_state := qp_crlf (mkQP (qp_line s +:+ "=") (qp_cr s) (qp_out s)).

Definition upper_hex (z : Z) : ascii := if z <? 10 then chr (48 + z) else chr (55 + z).
Definition qp_escape (c : ascii) : string :=
  String "=" (String (upper_hex (byte_of c / 16)) (str1 (upper_hex (byte_of c mod 16)))).
Definition qp_encode (c : ascii) (s : qp_state) : qp_state :=
  let s := if (75 - Z.of_nat (slen (qp_line s)) <? 3) then qp_soft_break s else s in
  mkQP (qp_line s +:+ qp_escape c) (qp_cr s) (qp_out s).

Definition blank (c : ascii) : bool := bool_decide (c = " "%char) || bool_decide (c = TAB).

(** [checkLastByte]: a blank at the end of a line is encoded. *)
Definition qp_check_last (s : qp_state) : qp_state :=
  match snth (qp_line s) (slen (qp_line s) - 1) with
  | Some c => if blank c then qp_encode c (mkQP (stake (slen (qp_line s) - 1) (qp_line s)) (qp_cr s) (qp_out s)) else s
  | None => s
  end.

Definition qp_byte (s : qp_state) (c : ascii) : qp_state :=
  if (in_range 33 126 c && negb (bool_decide (c = "="%char))) || blank c then
    let s := if (slen (qp_line s) =? 75)%nat then qp_soft_break s else s in
    mkQP (qp_line s +:+ str1 c) false (qp_out s)
  else if bool_decide (c = LF) && qp_cr s then mkQP (qp_line s) false (qp_out s)
  else if bool_decide (c = LF) || bool_decide (c = CR) then
    let s := qp_crlf (qp_check_last s) in
    mkQP (qp_line s) (bool_decide (c = CR) || qp_cr s) (qp_out s)
  else qp_encode c s.

Fixpoint qp_write (p : string) (s : qp_state) : qp_state :=
  match p with
  | EmptyString => s
  | String c p => qp_write p (qp_byte s c)
  end.

(** [NewWriter], one [Write] and [Close] *)
Definition quoted_printable (p : string) : string :=
  qp_out (qp_flush (qp_check_last (qp_write p (mkQP "" false "")))).

(** ** go-message's mail package

    [MailHeader] is [mail.Header]; [MailWriter] a [mail.Writer] with what has
    been written, whose inline and part writers write to the same buffer. *)
Class MailLib : Type := {
  MailHeader : Type;
  MailWriter : Type;
  empty_mail_header : MailHeader;
  SetDate : Z -> MailHeader -> MailHeader;
  SetAddressList : string -> list string -> MailHeader -> MailHeader;
  SetSubject : string -> MailHeader -> MailHeader;
  SetMessageID : string -> MailHeader -> MailHeader;
  GenerateMessageID : MailHeader -> result error MailHeader;
  SetField : string -> string -> MailHeader -> MailHeader;
  Fields : MailHeader -> list (result error string);       (* Fields, each one's Raw *)
  CreateWriter : MailHeader -> result error MailWriter;
  CreateInline : MailWriter -> result error MailWriter;
  CreatePart : string -> MailWriter -> result error MailWriter;
  CreateSingleInline : string -> MailWriter -> result error MailWriter;
  CreateAttachment : string -> string -> MailWriter -> result error MailWriter;
  WritePart : string -> MailWriter -> result error MailWriter;
  ClosePart : MailWriter -> result error MailWriter;
  CloseInline : MailWriter -> MailWriter;
  CloseMail : MailWriter -> MailWriter;
  MailBytes : MailWriter -> string
}.

Section Compose.
Context `{MailLib, Unicode}.

(** [createPart]: on an [InlineWriter] (a part of the alternative) or on the
    [Writer] itself. *)
Definition create_part (inline : bool) (contentType content : string) (w : MailWriter) : result error MailWriter :=
  let contentType := contentType +:+ "; charset=utf-8" in
  let? p := (if inline then CreatePart contentType w else CreateSingleInline contentType w) in
  let? p := WritePart content p in
  ClosePart p.

Definition create_attachment (att : Attachment) (w : MailWriter) : result error MailWriter :=
  match base64_decode (Content att) with
  | Err e => Err (ErrWrap ("invalid base64 content: " +:+ error_text e) e)
  | Ok content =>
      let? aw := CreateAttachment (ContentType att) (Filename att) w in
      let? aw := WritePart content aw in
      ClosePart aw
  end.

Definition wrap_part (what : string) (r : result error MailWriter) : result error MailWriter :=
  match r with
  | Ok w => Ok w
  | Err e => Err (ErrWrap ("failed to create " +:+ what +:+ ": " +:+ error_text e) e)
  end.

(** The loop over the custom headers, in the order of the map's iteration. *)
Fixpoint custom_headers (headers : list (string * string)) (h : MailHeader) : result error MailHeader :=
  match headers with
  | [] => Ok h
  | (key, value) :: headers =>
      if contains_any key CRLF || contains_any value CRLF then
        Err (ErrText ("invalid custom header " +:+ quote key +:+ ": contains prohibited CRLF characters"))
      else custom_headers headers (SetField key value h)
  end.

Fixpoint add_attachments (atts : list Attachment) (w : MailWriter) : result error MailWriter :=
  match atts with
  | [] => Ok w
  | att :: atts =>
      let? w := wrap_part ("attachment " +:+ Filename att) (create_attachment att w) in
      add_attachments atts w
  end.

Definition add_bodies (req : MessageRequest) (w : MailWriter) : result error MailWriter :=
  if negb (is_empty (mr_HTML req)) && negb (is_empty (mr_Text req)) then
    let? iw := CreateInline w in
    let? iw := wrap_part "text part" (create_part true "text/plain" (mr_Text req) iw) in
    let? iw := wrap_part "HTML part" (create_part true "text/html" (mr_HTML req) iw) in
    Ok (CloseInline iw)
  else if negb (is_empty (mr_HTML req)) then
    wrap_part "HTML part" (create_part false "text/html" (mr_HTML req) w)
  else if negb (is_empty (mr_Text req)) then
    wrap_part "text part" (create_part false "text/plain" (mr_Text req) w)
  else Ok w.

Fixpoint raw_fields (fields : list (result error string)) : result error string :=
  match fields with
  | [] => Ok ""
  | f :: fields => let? raw := f in let? rest := raw_fields fields in Ok (raw +:+ rest)
  end.

(** [buildRawMessage] at the time [now]; [headers] is the iteration over
    [req.Headers]. *)
Definition build_raw_message (now : Z) (headers : list (string * string)) (req : MessageRequest)
    : result error string :=
  let header := SetSubject (mr_Subject req)
                  (SetAddressList "To" [mr_To req]
                     (SetAddressList "From" [mr_From req] (SetDate now empty_mail_header))) in
  let? header :=
    (if negb (is_empty (mr_MessageID req)) then Ok (SetMessageID (mr_MessageID req) header)
     else match GenerateMessageID header with
          | Ok h => Ok h
          | Err e => Err (ErrWrap ("failed to generate Message-ID: " +:+ error_text e) e)
          end) in
  let? header := custom_headers headers header in
  let hasAttachments := negb (length (mr_Attachments req) =? 0)%nat in
  let hasMultipleBodyParts := negb (is_empty (mr_HTML req)) && negb (is_empty (mr_Text req)) in
  if hasAttachments || hasMultipleBodyParts then
    let? mw := CreateWriter header in
    let? mw := add_bodies req mw in
    let? mw := add_attachments (mr_Attachments req) mw in
    Ok (MailBytes (CloseMail mw))
  else
    let html := negb (is_empty (mr_HTML req)) in
    let header := SetField "Content-Transfer-Encoding" "quoted-printable"
                    (SetField "Content-Type"
                       (if html then "text/html; charset=utf-8" else "text/plain; charset=utf-8") header) in
    let? fields := raw_fields (Fields header) in
    Ok (fields +:+ CRLF +:+ quoted_printable (if html then mr_HTML req else mr_Text req)).
End Compose.

(** ** The lines of a quoted-printable body *)

Definition qp_char (c : ascii) : bool := in_range 32 126 c || bool_decide (c = TAB).
Definition qp_good (l : string) : Prop := sall qp_char l = true /\ (slen l <= 76)%nat.
Definition unlines (ls : list string) : string := foldr (fun l s => l +:+ CRLF +:+ s) "" ls.

Lemma unlines_app a b : unlines (a ++ b) = unlines a +:+ unlines b.
Proof. induction a as [|l a IH]; [done|]. cbn [unlines foldr app]. fold (unlines (a ++ b)). by rewrite IH, !sapp_assoc. Qed.

(** Whole lines are written, and the line in hand has room for one more
    character. *)
Definition qp_inv (s : qp_state) : Prop :=
  exists ls, qp_out s = unlines ls /\ Forall qp_good ls /\ sall qp_char (qp_line s) = true /\
             (slen (qp_line s) <= 75)%nat.

Lemma qp_crlf_inv l cr ls : Forall qp_good ls -> qp_good l -> qp_inv (qp_crlf (mkQP l cr (unlines ls))).
Proof.
  intros Hls Hl. exists (ls ++ [l]). rewrite unlines_app. change (unlines [l]) with (l +:+ CRLF).
  split; [done|]. split; [apply Forall_app; split; [done|by constructor]|]. split; [done|simpl; lia].
Qed.

Lemma qp_soft_break_inv s :
  qp_inv s -> qp_inv (qp_soft_break s) /\ slen (qp_line (qp_soft_break s)) = 0%nat.
Proof.
  intros (ls & Ho & Hls & Hc & Hn). split; [|done]. unfold qp_soft_break. rewrite Ho. apply qp_crlf_inv; [done|].
  split; [by rewrite sall_app, Hc|]. rewrite slen_app. simpl. lia.
Qed.

Lemma qp_add s x cr :
  qp_inv s -> sall qp_char x = true -> (slen (qp_line s) + slen x <= 75)%nat ->
  qp_inv (mkQP (qp_line s +:+ x) cr (qp_out s)).
Proof.
  intros (ls & Ho & Hls & Hc & _) Hx Hn. exists ls. cbn [qp_out qp_line]. rewrite sall_app, slen_app, Hc, Hx. done.
Qed.

Lemma qp_escape_good c : sall qp_char (qp_escape c) = true /\ slen (qp_escape c) = 3%nat.
Proof.
  split; [|done]. unfold qp_escape. pose proof (byte_of_range c).
  assert (Hd : forall d, 0 <= d < 16 -> qp_char (upper_hex d) = true).
  { intros d Hd. exact (all_below_spec 16 (fun d => qp_char (upper_hex d)) ltac:(vm_compute; reflexivity) d Hd). }
  cbn [sall str1]. rewrite !Hd by (Z.div_mod_to_equations; lia). done.
Qed.

Lemma qp_encode_inv c s : qp_inv s -> qp_inv (qp_encode c s).
Proof.
  intros Hs. destruct (qp_escape_good c) as [Hg Hl]. unfold qp_encode.
  destruct (Z.ltb_spec (75 - Z.of_nat (slen (qp_line s))) 3).
  - destruct (qp_soft_break_inv s Hs) as [Hb Hz]. apply qp_add; [done|done|lia].
  - apply qp_add; [done|done|lia].
Qed.

Lemma qp_check_last_inv s : qp_inv s -> qp_inv (qp_check_last s).
Proof.
  intros Hs. unfold qp_check_last. case_match; [|done]. destruct (blank _); [|done].
  apply qp_encode_inv. destruct Hs as (ls & Ho & Hls & Hc & Hn). exists ls. split; [done|]. split; [done|].
  cbn [qp_line]. split; [by apply sall_stake|]. rewrite slen_stake. lia.
Qed.

Lemma qp_byte_inv s c : qp_inv s -> qp_inv (qp_byte s c).
Proof.
  intros Hs. unfold qp_byte. destruct (_ || blank c) eqn:Ec.
  - assert (qp_char c = true) as Hc.
    { unfold qp_char, blank, in_range in *. bool_norm.
      destruct Ec as [[? _]|[->| ->]]; [left; lia|left; done|right; done]. }
    destruct (Nat.eqb_spec (slen (qp_line s)) 75).
    + destruct (qp_soft_break_inv s Hs) as [Hb Hz].
      apply qp_add; [done|cbn [sall str1]; by rewrite Hc|rewrite Hz; simpl; lia].
    + pose proof Hs as (_ & _ & _ & _ & Hn). apply qp_add; [done|cbn [sall str1]; by rewrite Hc|simpl; lia].
  - destruct (bool_decide (c = LF) && qp_cr s); [by destruct Hs as (ls & ?); exists ls|].
    destruct (bool_decide (c = LF) || bool_decide (c = CR)); [|by apply qp_encode_inv].
    destruct (qp_check_last_inv s Hs) as (ls & Ho & Hls & Hc & Hn).
    assert (Hi : qp_inv (qp_crlf (qp_check_last s))).
    { pose proof (qp_crlf_inv (qp_line (qp_check_last s)) (qp_cr (qp_check_last s)) ls Hls) as Hi.
      rewrite <- Ho in Hi. destruct (qp_check_last s). apply Hi. split; [done|simpl in *; lia]. }
    destruct Hi as (ls' & ?). by exists ls'.
Qed.

(** The body of a composed message with one part is encoded in lines of at
    most 76 printable ASCII characters, blanks and tabs, each ended by CRLF: no
    8-bit byte, no bare CR or LF and no over-long line of the caller's text
    reaches the wire. *)
Theorem qp_line_limit p :
  exists ls last, quoted_printable p = unlines ls +:+ last /\ Forall qp_good (last :: ls).
Proof.
  assert (Hw : forall p s, qp_inv s -> qp_inv (qp_write p s)).
  { clear p. intros p. induction p as [|c p IH]; intros s Hs; [done|]. cbn [qp_write]. by apply IH, qp_byte_inv. }
  unfold quoted_printable.
  destruct (qp_check_last_inv _ (Hw p (mkQP "" false "") ltac:(exists []; by repeat constructor))) as (ls & Ho & Hls & Hc & Hn).
  exists ls. eexists. cbn [qp_flush qp_out]. rewrite Ho. split; [done|]. constructor; [split; [done|lia]|done].
Qed.

(** ** What can be composed *)

Section Built.
Context `{MailLib, Unicode}.

Definition no_line_break (s : string) : Prop := no_byte CR s = true /\ no_byte LF s = true.

Lemma contains_any_CRLF s : contains_any s CRLF = false -> no_line_break s.
Proof. intros Hs. split; by apply (contains_any_none s CRLF). Qed.

Lemma custom_headers_clean headers h h' :
  custom_headers headers h = Ok h' ->
  Forall (fun kv => no_line_break kv.1 /\ no_line_break kv.2) headers /\
  h' = foldl (fun h kv => SetField kv.1 kv.2 h) h headers.
Proof.
  revert h. induction headers as [|[k v] headers IH]; intros h; cbn [custom_headers]; [by intros [= ->]|].
  destruct (contains_any k CRLF) eqn:Ek; [done|]. destruct (contains_any v CRLF) eqn:Ev; [done|]. simpl.
  intros Hh. apply IH in Hh as [Hc ->]. split; [|done]. constructor; [|done].
  split; by apply contains_any_CRLF.
Qed.

Lemma add_attachments_decode atts w w' :
  add_attachments atts w = Ok w' -> Forall (fun a => is_ok (base64_decode (Content a)) = true) atts.
Proof.
  revert w. induction atts as [|a atts IH]; intros w; [by constructor|]. cbn [add_attachments].
  unfold wrap_part, create_attachment at 1.
  destruct (base64_decode (Content a)) eqn:Ea; [|done].
  repeat case_match; try done. intros Hr. constructor; [by rewrite Ea|by eapply IH].
Qed.

(** The header the message starts with, and the custom fields set on it. *)
Definition base_header (now : Z) (req : MessageRequest) : MailHeader :=
  SetSubject (mr_Subject req)
    (SetAddressList "To" [mr_To req] (SetAddressList "From" [mr_From req] (SetDate now empty_mail_header))).

Definition multipart (req : MessageRequest) : bool :=
  negb (length (mr_Attachments req) =? 0)%nat || (negb (is_empty (mr_HTML req)) && negb (is_empty (mr_Text req))).

(** A message is composed only when no custom header, name or value, holds
    a line break and every attachment is valid base64; it is written by the
    multipart writer exactly when it has attachments or both texts, and is
    otherwise one quoted-printable part under the fields the library formats. *)
Theorem composed_message now headers req msg :
  build_raw_message now headers req = Ok msg ->
  Forall (fun kv => no_line_break kv.1 /\ no_line_break kv.2) headers /\
  Forall (fun a => is_ok (base64_decode (Content a)) = true) (mr_Attachments req) /\
  exists h, let h' := foldl (fun h kv => SetField kv.1 kv.2 h) h headers in
    (if is_empty (mr_MessageID req) then GenerateMessageID (base_header now req) = Ok h
     else h = SetMessageID (mr_MessageID req) (base_header now req)) /\
    if multipart req then
      exists w bodies mw, CreateWriter h' = Ok w /\ add_bodies req w = Ok bodies /\
        add_attachments (mr_Attachments req) bodies = Ok mw /\ msg = MailBytes (CloseMail mw)
    else
      let html := negb (is_empty (mr_HTML req)) in
      exists fields,
        raw_fields (Fields (SetField "Content-Transfer-Encoding" "quoted-printable"
                      (SetField "Content-Type"
                         (if html then "text/html; charset=utf-8" else "text/plain; charset=utf-8") h'))) = Ok fields /\
        msg = fields +:+ CRLF +:+ quoted_printable (if html then mr_HTML req else mr_Text req).
Proof.
  unfold build_raw_message. fold (base_header now req). fold (multipart req).
  set (mid := if negb (is_empty (mr_MessageID req)) then _ else _).
  destruct mid as [h|e] eqn:Emid; [|done].
  destruct (custom_headers headers h) as [h'|e] eqn:Eh; [|done].
  apply custom_headers_clean in Eh as [Hclean ->]. intros Hb. split; [done|].
  assert (Hid : if is_empty (mr_MessageID req) then GenerateMessageID (base_header now req) = Ok h
                else h = SetMessageID (mr_MessageID req) (base_header now req)).
  { subst mid. destruct (is_empty (mr_MessageID req)); simpl in Emid; [|by injection Emid as <-].
    by destruct (GenerateMessageID _); simplify_eq. }
  clear Emid mid. destruct (multipart req) eqn:Em.
  - destruct (CreateWriter _) as [w|] eqn:Ew; [|done]. destruct (add_bodies req w) as [b|] eqn:Eb; [|done].
    destruct (add_attachments _ b) as [mw|] eqn:Ea; [|done]. apply Ok_inj in Hb as <-.
    split; [by eapply add_attachments_decode|]. exists h. split; [done|]. by exists w, b, mw.
  - destruct (raw_fields _) as [fields|] eqn:Ef; [|done]. apply Ok_inj in Hb as <-.
    split. { unfold multipart in Em. destruct (mr_Attachments req); [constructor|done]. }
    exists h. split; [done|]. by exists fields.
Qed.
End Built.

Example quoted_printable_lines :
  (quoted_printable ("a=b " +:+ str1 LF +:+ "c" +:+ bytes [195; 169] +:+ CRLF +:+ "d "),
   slen (quoted_printable (replace_all "xxxxxxxxxxxxxxxx" "x" "yyyyy"))) =
  ("a=3Db=20" +:+ CRLF +:+ "c=C3=A9" +:+ CRLF +:+ "d=20", 83%nat).
Proof. vm_compute. reflexivity. Qed.

(** A library that writes down what it is asked for. *)
Definition note (kind : string) (l : list string) : string := kind +:+ "(" +:+ join l "," +:+ ")".
Definition toy_mail : MailLib := {|
  MailHeader := list string;
  MailWriter := string;
  empty_mail_header := [];
  SetDate _ h := h ++ ["Date"];
  SetAddressList k l h := h ++ [note k l];
  SetSubject s h := h ++ [note "Subject" [s]];
  SetMessageID s h := h ++ [note "Message-ID" [s]];
  GenerateMessageID h := Ok (h ++ ["Message-ID"]);
  SetField k v h := h ++ [note k [v]];
  Fields h := map (fun f => Ok (f +:+ CRLF)) h;
  CreateWriter h := Ok (join h ";" +:+ "|");
  CreateInline w := Ok (w +:+ "inline[");
  CreatePart ty w := Ok (w +:+ note "part" [ty]);
  CreateSingleInline ty w := Ok (w +:+ note "single" [ty]);
  CreateAttachment ty name w := Ok (w +:+ note "attachment" [ty; name]);
  WritePart s w := Ok (w +:+ s);
  ClosePart w := Ok (w +:+ ".");
  CloseInline w := w +:+ "]";
  CloseMail w := w +:+ "|";
  MailBytes w := w
|}.

Definition plain_request (text html : string) (atts : list Attachment) : MessageRequest :=
  mkMessageRequest "a@example.org" "b@example.net" "Hi" text html atts ∅ "" "" "" "" "" false "" "" "" None.

Example multipart_message :
  @build_raw_message toy_mail plain_unicode 0 [("X-A", "1")]
    (plain_request "t" "h" [mkAttachment "f.txt" "text/plain" "Zm9v"]) =
  Ok ("Date;From(a@example.org);To(b@example.net);Subject(Hi);Message-ID;X-A(1)|inline["
        +:+ "part(text/plain; charset=utf-8)t.part(text/html; charset=utf-8)h.]"
        +:+ "attachment(text/plain,f.txt)foo.|").
Proof. vm_compute. reflexivity. Qed.
Example refused_messages :
  map (fun r => is_ok r)
    [@build_raw_message toy_mail plain_unicode 0 [("X-A", "1" +:+ str1 LF +:+ "B: 2")] (plain_request "t" "" []);
     @build_raw_message toy_mail plain_unicode 0 [] (plain_request "t" "" [mkAttachment "f" "text/plain" "Zm9"]);
     @build_raw_message toy_mail plain_unicode 0 [] (plain_request "t" "" [])] =
  [false; false; true].
Proof. vm_compute. reflexivity. Qed.

Lemma composed_message_witness :
  let req := plain_request "t" "" [] in
  Forall (fun kv => no_line_break kv.1 /\ no_line_break kv.2) [("X-A", "1")] /\
  Forall (fun a => is_ok (base64_decode (Content a)) = true) (mr_Attachments req) /\
  exists h, let h' := foldl (fun h kv => @SetField toy_mail kv.1 kv.2 h) h [("X-A", "1")] in
    @GenerateMessageID toy_mail (@base_header toy_mail 0 req) = Ok h /\
    exists fields,
        raw_fields (@Fields toy_mail (@SetField toy_mail "Content-Transfer-Encoding" "quoted-printable"
                      (@SetField toy_mail "Content-Type" "text/plain; charset=utf-8" h'))) = Ok fields /\
        fields +:+ CRLF +:+ quoted_printable "t" = fields +:+ CRLF +:+ quoted_printable "t".
Proof.
  pose proof (@composed_message toy_mail plain_unicode 0 [("X-A", "1")] (plain_request "t" "" []) _ eq_refl)
    as (H1 & H2 & h & H3 & fields & H4 & H5).
  split; [exact H1|split; [exact H2|]]. exists h. split; [exact H3|]. exists fields. by split.
Defined.
