(* ===== verification/Http.v ===== *)
(** * HTTP requests and responses

    What the API's handlers and middlewares use of [net/http]: header maps,
    request bodies with a size limit, and the writer of a response.  A handler
    is what it does to its writer, in order, and to the state it shares. *)

From stdpp Require Import base gmap list strings.
From Stdlib Require Import ZArith Lia Ascii.
From S2P Require Import Prelude GoString GoError.
#[local] Open Scope Z_scope.

(** ** Headers *)

(** [http.Header]: values under canonical keys. *)
Abbreviation header := (gmap string (list string)).

(** The bytes of a header field name ([validHeaderFieldByte]). *)
Definition token_byte (c : ascii) : bool :=
  is_upper c || is_lower c || is_digit c || in_set "!#$%&'*+-.^_`|~" c.

Fixpoint canonical (upper : bool) (s : string) : string :=
  match s with
  | EmptyString => ""
  | String c s =>
      let c := if upper then upper_char c else lower_char c in
      String c (canonical (bool_decide (c = "-"%char)) s)
  end.

(** [textproto.CanonicalMIMEHeaderKey] *)
Definition canonical_key (s : string) : string :=
  if sall token_byte s then canonical true s else s.

Definition header_get (h : header) (key : string) : string :=
  match h !! canonical_key key with Some (v :: _) => v | _ => "" end.
Definition header_set (key value : string) (h : header) : header := <[canonical_key key := [value]]> h.
Definition header_del (key : string) (h : header) : header := delete (canonical_key key) h.

Lemma header_get_set h key value : header_get (header_set key value h) key = value.
Proof. unfold header_get, header_set. by rewrite lookup_insert_eq. Qed.

Lemma header_get_set_ne h key key' value :
  canonical_key key <> canonical_key key' ->
  header_get (header_set key value h) key' = header_get h key'.
Proof. intros. unfold header_get, header_set. by rewrite lookup_insert_ne. Qed.

Lemma header_get_del_ne h key key' :
  canonical_key key <> canonical_key key' -> header_get (header_del key h) key' = header_get h key'.
Proof. intros. unfold header_get, header_del. by rewrite lookup_delete_ne. Qed.

(** ** Requests *)

(** A body: the bytes it gives, then its end or an error. *)
Record Body : Type := mkBody { body_data : string; body_err : option error }.

(** [http.MaxBytesReader] *)
Definition max_bytes_error : error := ErrText "http: request body too large".
Definition max_bytes_reader (n : Z) (b : Body) : Body :=
  if n <? Z.of_nat (slen (body_data b))
  then mkBody (stake (Z.to_nat n) (body_data b)) (Some max_bytes_error)
  else b.

(** [io.ReadAll] *)
Definition read_all (b : Body) : result error string :=
  match body_err b with Some e => Err e | None => Ok (body_data b) end.

Record Request : Type := mkRequest {
  rq_Method : string;
  rq_Path : string;
  rq_Header : header;
  rq_Body : Body;
  rq_RemoteAddr : string;
  rq_BasicAuth : option (string * string)
}.

(** ** Responses *)

(** What a handler does to its [http.ResponseWriter]. *)
Inductive write_op : Type :=
| SetHeader (key value : string)
| DelHeader (key : string)
| WriteHeader (code : Z)
| Write (data : string).

(** The server's writer: the header being built, the status and header as they
    were sent, and the body. *)
Record Response : Type := mkResponse {
  rs_header : header;
  rs_sent : option (Z * header);
  rs_body : string
}.
Definition new_response : Response := mkResponse ∅ None "".

Definition write_header (code : Z) (w : Response) : Response :=
  match rs_sent w with
  | Some _ => w
  | None => mkResponse (rs_header w) (Some (code, rs_header w)) (rs_body w)
  end.
Definition write (data : string) (w : Response) : Response :=
  let w := write_header 200 w in mkResponse (rs_header w) (rs_sent w) (rs_body w +:+ data).

Definition apply_op (w : Response) (op : write_op) : Response :=
  match op with
  | SetHeader key value => mkResponse (header_set key value (rs_header w)) (rs_sent w) (rs_body w)
  | DelHeader key => mkResponse (header_del key (rs_header w)) (rs_sent w) (rs_body w)
  | WriteHeader code => write_header code w
  | Write data => write data w
  end.

(** The response when the handler has returned. *)
Definition respond (ops : list write_op) : Response := write_header 200 (foldl apply_op new_response ops).
Definition status_of (w : Response) : Z := from_option fst 0 (rs_sent w).
Definition sent_header (w : Response) : header := from_option snd ∅ (rs_sent w).

(** [http.Error] *)
Definition http_error (text : string) (code : Z) : list write_op :=
  [DelHeader "Content-Length"; SetHeader "Content-Type" "text/plain; charset=utf-8";
   SetHeader "X-Content-Type-Options" "nosniff"; WriteHeader code; Write (text +:+ str1 LF)].

(** ** Handlers *)

(** What a call of a handler comes to: a panic or a return, the writes, and
    the state afterwards. *)
Record served (S : Type) : Type := mkServed { sv_panic : bool; sv_ops : list write_op; sv_state : S }.
Arguments mkServed {S} sv_panic sv_ops sv_state.
Arguments sv_panic {S} s.
Arguments sv_ops {S} s.
Arguments sv_state {S} s.

(** [http.Handler] *)
Definition handler (S : Type) : Type := Request -> S -> served S.

Definition returns {S} (ops : list write_op) (s : S) : served S := mkServed false ops s.
Definition after {S} (ops : list write_op) (r : served S) : served S :=
  mkServed (sv_panic r) (ops ++ sv_ops r) (sv_state r).

(** ** The status of a response *)

Lemma foldl_sent ops w s : rs_sent w = Some s -> rs_sent (foldl apply_op w ops) = Some s.
Proof.
  revert w. induction ops as [|op ops IH]; intros w Hw; [done|]. apply IH.
  destruct op; simpl; unfold write, write_header; by rewrite ?Hw.
Qed.

(** The status is that of the first [WriteHeader], or 200 when a write or the
    end comes first. *)
Fixpoint first_status (ops : list write_op) : Z :=
  match ops with
  | [] => 200
  | WriteHeader code :: _ => code
  | Write _ :: _ => 200
  | _ :: ops => first_status ops
  end.

Lemma sent_status ops w :
  rs_sent w = None -> status_of (write_header 200 (foldl apply_op w ops)) = first_status ops.
Proof.
  revert w. induction ops as [|op ops IH]; intros w Hw; cbn [foldl first_status].
  { unfold write_header. by rewrite Hw. }
  destruct op; try (by apply IH).
  - unfold status_of, write_header at 1.
    rewrite (foldl_sent _ _ (code, rs_header w)); [|simpl; unfold write_header; by rewrite Hw].
    by rewrite (foldl_sent _ _ (code, rs_header w)) by (simpl; unfold write_header; by rewrite Hw).
  - unfold status_of, write_header at 1.
    rewrite (foldl_sent _ _ (200, rs_header w)); [|simpl; unfold write, write_header; by rewrite Hw].
    by rewrite (foldl_sent _ _ (200, rs_header w)) by (simpl; unfold write, write_header; by rewrite Hw).
Qed.

Lemma respond_status ops : status_of (respond ops) = first_status ops.
Proof. by apply sent_status. Qed.

(** A header field that no later operation names reaches the client. *)
Definition keeps_field (key : string) (op : write_op) : Prop :=
  match op with
  | SetHeader k _ | DelHeader k => canonical_key k <> canonical_key key
  | _ => True
  end.

Lemma sent_field ops key value w :
  header_get (rs_header w) key = value ->
  (forall s, rs_sent w = Some s -> header_get s.2 key = value) ->
  Forall (fun op => keeps_field key op \/ exists k, op = SetHeader k value /\ canonical_key k = canonical_key key) ops ->
  header_get (sent_header (write_header 200 (foldl apply_op w ops))) key = value.
Proof.
  intros Hh Hs Hops. revert w Hh Hs. induction Hops as [|op ops Hop _ IH]; intros w Hh Hs; cbn [foldl].
  { unfold sent_header, write_header. destruct (rs_sent w) as [s|] eqn:E; simpl; [rewrite E; simpl; by apply Hs|done]. }
  apply IH.
  - destruct op; simpl; unfold write, write_header.
    + destruct Hop as [Hop|(k & [= -> <-] & Hk)]; [by rewrite header_get_set_ne|].
      unfold header_get, header_set. by rewrite Hk, lookup_insert_eq.
    + destruct Hop as [Hop|(k & ? & _)]; [by rewrite header_get_del_ne|done].
    + by destruct (rs_sent w).
    + by destruct (rs_sent w).
  - intros s. destruct op; simpl; unfold write, write_header; try apply Hs.
    + destruct (rs_sent w) eqn:E; [rewrite E; apply Hs|]. simpl. by intros [= <-].
    + destruct (rs_sent w) eqn:E; [simpl; rewrite E; apply Hs|]. simpl. by intros [= <-].
Qed.

(** ** Examples *)

Example canonical_keys :
  map canonical_key ["x-dkim-private-key"; "CONTENT-TYPE"; "a b"; "X-Trace-Id"] =
  ["X-Dkim-Private-Key"; "Content-Type"; "a b"; "X-Trace-Id"].
Proof. vm_compute. reflexivity. Qed.

Example error_response :
  let w := respond (http_error "no" 404 ++ [WriteHeader 200; Write "x"]) in
  (status_of w, header_get (sent_header w) "content-type", rs_body w) =
  (404, "text/plain; charset=utf-8", "no" +:+ str1 LF +:+ "x").
Proof. vm_compute. reflexivity. Qed.
