(* ===== verification/ApiJson.v ===== *)
(** * The API's JSON (internal/handler/handler_new.go, internal/delivery)

    [json.NewDecoder(body).Decode(&req)] for a [MessageRequest], with the rules
    of [encoding/json] for struct fields, maps, slices and pointers (names
    match without case, a null leaves strings alone, a repeated field is
    decoded over the first one), and [json.NewEncoder(w).Encode(result)]. *)

From stdpp Require Import base gmap list strings.
From Stdlib Require Import ZArith Lia Ascii.
From S2P Require Import Prelude GoString Utf8 GoError Json Delivery Deliverer Compose Http.
#[local] Open Scope Z_scope.

(** ** Decoding into Go values

    [None] is an [UnmarshalTypeError]: the decoder goes on after one, but
    [Decode] returns it and the request is not used. *)

Definition decode_string (v : json) (old : string) : option string :=
  match v with JStr s => Some s | JNull => Some old | _ => None end.
Definition decode_bool (v : json) (old : bool) : option bool :=
  match v with JBool b => Some b | JNull => Some old | _ => None end.

(** The field a key names: [equal_fold] covers the exact match. *)
Definition names (field key : string) : bool := equal_fold key field.

(** An object into a struct: [set] stores one member, or ignores its key. *)
Fixpoint decode_members {A} (set : string -> json -> A -> option A) (l : list (string * json)) (a : A) : option A :=
  match l with
  | [] => Some a
  | (k, v) :: l => match set k v a with Some a => decode_members set l a | None => None end
  end.
Definition decode_struct {A} (set : string -> json -> A -> option A) (v : json) (old : A) : option A :=
  match v with JObj l => decode_members set l old | JNull => Some old | _ => None end.

Definition set_attachment (k : string) (v : json) (a : Attachment) : option Attachment :=
  if names "filename" k then
    option_map (fun s => mkAttachment s (ContentType a) (Content a)) (decode_string v (Filename a))
  else if names "content_type" k then
    option_map (fun s => mkAttachment (Filename a) s (Content a)) (decode_string v (ContentType a))
  else if names "content" k then
    option_map (fun s => mkAttachment (Filename a) (ContentType a) s) (decode_string v (Content a))
  else Some a.

Definition set_inbound_auth (k : string) (v : json) (a : InboundAuthResults) : option InboundAuthResults :=
  if names "dkim" k then option_map (fun s => mkInboundAuth s (ia_SPF a) (ia_DMARC a)) (decode_string v (ia_DKIM a))
  else if names "spf" k then option_map (fun s => mkInboundAuth (ia_DKIM a) s (ia_DMARC a)) (decode_string v (ia_SPF a))
  else if names "dmarc" k then option_map (fun s => mkInboundAuth (ia_DKIM a) (ia_SPF a) s) (decode_string v (ia_DMARC a))
  else Some a.

(** A slice of attachments: an element is decoded over what the backing array
    holds there, which is the zero value unless the field is repeated. *)
Definition no_attachment : Attachment := mkAttachment "" "" "".
Fixpoint decode_elements (l : list json) (backing : list Attachment) : option (list Attachment) :=
  match l with
  | [] => Some []
  | v :: l =>
      match decode_struct set_attachment v (match backing with a :: _ => a | [] => no_attachment end) with
      | Some a => match decode_elements l (tail backing) with Some r => Some (a :: r) | None => None end
      | None => None
      end
  end.

(** The elements and what the backing array keeps behind them. *)
Definition decode_attachments (v : json) (backing : list Attachment) : option (list Attachment * list Attachment) :=
  match v with
  | JNull | JArr [] => Some ([], [])
  | JArr l => option_map (fun r => (r, drop (length l) backing)) (decode_elements l backing)
  | _ => None
  end.

Definition set_header_field (k : string) (v : json) (m : gmap string string) : option (gmap string string) :=
  option_map (fun s => <[k := s]> m) (decode_string v "").
Definition decode_headers (v : json) (old : gmap string string) : option (gmap string string) :=
  match v with JNull => Some ∅ | JObj l => decode_members set_header_field l old | _ => None end.

Definition decode_inbound_auth (v : json) (old : option InboundAuthResults) : option (option InboundAuthResults) :=
  match v with
  | JNull => Some None
  | JObj l => option_map Some (decode_members set_inbound_auth l (default (mkInboundAuth "" "" "") old))
  | _ => None
  end.

(** ** The request

    The request so far, and the array behind its attachments. *)
Record decoding : Type := mkDecoding { de_req : MessageRequest; de_spare : list Attachment }.

Definition no_request : MessageRequest :=
  mkMessageRequest "" "" "" "" "" [] ∅ "" "" "" "" "" false "" "" "" None.

(** One member: the field it names, if any, gets its value. *)
Definition set_request (k : string) (v : json) (d : decoding) : option decoding :=
  let r := de_req d in
  let str f old := if names f k then decode_string v old else Some old in
  from ← str "from" (mr_From r);
  to ← str "to" (mr_To r);
  subject ← str "subject" (mr_Subject r);
  text ← str "text" (mr_Text r);
  html ← str "html" (mr_HTML r);
  attachments ← (if names "attachments" k then decode_attachments v (mr_Attachments r ++ de_spare d)
                 else Some (mr_Attachments r, de_spare d));
  headers ← (if names "headers" k then decode_headers v (mr_Headers r) else Some (mr_Headers r));
  messageID ← str "message_id" (mr_MessageID r);
  rawMessage ← str "raw_message" (mr_RawMessage r);
  dkimKey ← str "dkim_private_key" (mr_DKIMPrivateKey r);
  dkimSelector ← str "dkim_selector" (mr_DKIMSelector r);
  dkimDomain ← str "dkim_domain" (mr_DKIMDomain r);
  skip ← (if names "skip_dkim_validation" k then decode_bool v (mr_SkipDKIMValidation r)
          else Some (mr_SkipDKIMValidation r));
  arcKey ← str "arc_private_key" (mr_ARCPrivateKey r);
  arcSelector ← str "arc_selector" (mr_ARCSelector r);
  arcDomain ← str "arc_domain" (mr_ARCDomain r);
  inboundAuth ← (if names "inbound_auth" k then decode_inbound_auth v (mr_InboundAuth r) else Some (mr_InboundAuth r));
  Some (mkDecoding
    (mkMessageRequest from to subject text html attachments.1 headers messageID rawMessage dkimKey dkimSelector
       dkimDomain skip arcKey arcSelector arcDomain inboundAuth) attachments.2).

Definition decode_request (v : json) : option MessageRequest :=
  option_map de_req (decode_struct set_request v (mkDecoding no_request [])).

(** [Decode]: the first value of the body.  What follows it is not looked at;
    a value with no closing bracket needs the byte after it, or the end of the
    body. *)
Definition closed (v : json) : bool := match v with JArr _ | JObj _ => true | _ => false end.
Definition json_decode (b : Body) : result error MessageRequest :=
  let invalid := Err (ErrText "invalid JSON") in
  match parse_json (body_data b) with
  | None => match body_err b with Some e => Err e | None => invalid end
  | Some (v, rest) =>
      match (if closed v || negb (is_empty rest) then None else body_err b) with
      | Some e => Err e
      | None => match decode_request v with Some req => Ok req | None => invalid end
      end
  end.

(** ** The answer *)

Definition json_int (n : Z) : json := JNum (fmt_d n).

Definition result_json (r : DeliveryResult) : json :=
  JObj ([("trace_id", JStr (TraceID r)); ("status", JStr (Status r)); ("smtp_code", json_int (dr_SMTPCode r));
         ("smtp_message", JStr (SMTPMessage r)); ("mx_host", JStr (MXHost r)); ("source_ip", JStr (SourceIP r));
         ("attempt_duration_ms", json_int (AttemptDurationMs r))]
          ++ (if is_empty (dr_Error r) then [] else [("error", JStr (dr_Error r))])).

(** [json.Encoder.Encode] ends the value with a line feed. *)
Definition json_line (v : json) : string := print_json v +:+ str1 LF.
Definition json_result (r : DeliveryResult) : string := json_line (result_json r).

(** ** What a client may send

    A request as a JSON object, every field in its place. *)
Definition attachment_json (a : Attachment) : json :=
  JObj [("filename", JStr (Filename a)); ("content_type", JStr (ContentType a)); ("content", JStr (Content a))].
Definition request_json (headers : list (string * string)) (r : MessageRequest) : json :=
  JObj [("from", JStr (mr_From r)); ("to", JStr (mr_To r)); ("subject", JStr (mr_Subject r)); ("text", JStr (mr_Text r));
        ("html", JStr (mr_HTML r)); ("attachments", JArr (map attachment_json (mr_Attachments r)));
        ("headers", JObj (map (fun kv => (kv.1, JStr kv.2)) headers)); ("message_id", JStr (mr_MessageID r));
        ("raw_message", JStr (mr_RawMessage r)); ("dkim_private_key", JStr (mr_DKIMPrivateKey r));
        ("dkim_selector", JStr (mr_DKIMSelector r)); ("dkim_domain", JStr (mr_DKIMDomain r));
        ("skip_dkim_validation", JBool (mr_SkipDKIMValidation r)); ("arc_private_key", JStr (mr_ARCPrivateKey r));
        ("arc_selector", JStr (mr_ARCSelector r)); ("arc_domain", JStr (mr_ARCDomain r));
        ("inbound_auth", match mr_InboundAuth r with
                         | Some a => JObj [("dkim", JStr (ia_DKIM a)); ("spf", JStr (ia_SPF a)); ("dmarc", JStr (ia_DMARC a))]
                         | None => JNull
                         end)].

(** Every string of a value is valid UTF-8. *)
Definition is_clean (v : json) : Prop := clean v = v.

Lemma decode_headers_list l m : decode_members set_header_field (map (fun kv => (kv.1, JStr kv.2)) l) m =
  Some (foldl (fun m kv => <[kv.1 := kv.2]> m) m l).
Proof. revert m. induction l as [|[k s] l IH]; intros m; [done|]. apply IH. Qed.

Lemma decode_attachment_list l : decode_elements (map attachment_json l) [] = Some l.
Proof.
  induction l as [|[f c d] l IH]; [done|]. cbn [map decode_elements tail].
  change (decode_struct set_attachment (attachment_json (mkAttachment f c d)) no_attachment) with (Some (mkAttachment f c d)).
  cbn match. by rewrite IH.
Qed.
Lemma decode_attachments_all l : decode_attachments (JArr (map attachment_json l)) [] = Some (l, []).
Proof.
  destruct l as [|a l]; [done|]. unfold decode_attachments. cbn [map]. change (attachment_json a :: map attachment_json l)
    with (map attachment_json (a :: l)). by rewrite decode_attachment_list, drop_nil.
Qed.

(** Which field a key of the model's own spelling names is a computation; the
    two fields whose values are lists need a lemma. *)
Ltac name_fields :=
  repeat match goal with |- context [names ?f ?k] => let b := eval vm_compute in (names f k) in replace (names f k) with b by (vm_compute; reflexivity) end;
  cbn match.

Lemma set_attachments v f1 f2 f3 f4 f5 f6 f7 f8 f9 f10 f11 f12 f13 f14 f15 f16 f17 sp l sp' : decode_attachments v (f6 ++ sp) = Some (l, sp') ->
  set_request "attachments" v (mkDecoding (mkMessageRequest f1 f2 f3 f4 f5 f6 f7 f8 f9 f10 f11 f12 f13 f14 f15 f16 f17) sp) =
  Some (mkDecoding (mkMessageRequest f1 f2 f3 f4 f5 l f7 f8 f9 f10 f11 f12 f13 f14 f15 f16 f17) sp').
Proof. intros H. unfold set_request. name_fields. cbn [de_req de_spare mr_Attachments]. rewrite H. reflexivity. Qed.
Lemma set_headers v f1 f2 f3 f4 f5 f6 f7 f8 f9 f10 f11 f12 f13 f14 f15 f16 f17 sp h : decode_headers v f7 = Some h ->
  set_request "headers" v (mkDecoding (mkMessageRequest f1 f2 f3 f4 f5 f6 f7 f8 f9 f10 f11 f12 f13 f14 f15 f16 f17) sp) =
  Some (mkDecoding (mkMessageRequest f1 f2 f3 f4 f5 f6 h f8 f9 f10 f11 f12 f13 f14 f15 f16 f17) sp).
Proof. intros H. unfold set_request. name_fields. cbn [de_req de_spare mr_Headers]. rewrite H. reflexivity. Qed.

Ltac set_field :=
  match goal with |- context [set_request ?k ?v ?d] =>
    let r := eval vm_compute in (set_request k v d) in
    replace (set_request k v d) with r by (vm_compute; reflexivity); cbn match end.

Lemma decode_request_json headers r : mr_Headers r = foldl (fun m kv => <[kv.1 := kv.2]> m) ∅ headers ->
  decode_request (request_json headers r) = Some r.
Proof.
  intros Hh. destruct r as [f1 f2 f3 f4 f5 atts hs f8 f9 f10 f11 f12 f13 f14 f15 f16 auth]. cbn in Hh.
  pose proof (decode_headers_list headers ∅) as Hd. rewrite <- Hh in Hd. clear Hh.
  unfold decode_request, request_json, decode_struct, no_request. revert Hd. generalize (∅ : gmap string string). intros m0 Hd.
  cbn [decode_members mr_From mr_To mr_Subject mr_Text mr_HTML mr_Attachments mr_Headers mr_MessageID mr_RawMessage
       mr_DKIMPrivateKey mr_DKIMSelector mr_DKIMDomain mr_SkipDKIMValidation mr_ARCPrivateKey mr_ARCSelector mr_ARCDomain
       mr_InboundAuth].
  do 5 set_field.
  erewrite set_attachments by exact (decode_attachments_all atts).
  erewrite set_headers by exact Hd.
  do 9 set_field.
  by destruct auth as [[a b c]|]; set_field.
Qed.

(** ** Round trips *)

Lemma clean_str s : valid_utf8 s = true -> clean (JStr s) = JStr s.
Proof. unfold valid_utf8. intros Hs%seqb_true. cbn [clean]. by rewrite Hs. Qed.

Lemma attachment_list_shape l :
  foldr (fun v P => numbers_ok v /\ P) True (map attachment_json l) /\
  0 <= foldr (fun v d => Z.max (json_depth v) d) 0 (map attachment_json l) <= 1.
Proof. induction l as [|a l [IH1 IH2]]; [done|]. cbn [map foldr]. split; [by repeat split|]. cbn [json_depth attachment_json foldr snd]. lia. Qed.
Lemma header_list_shape l :
  foldr (fun (kv : string * json) P => numbers_ok kv.2 /\ P) True (map (fun kv => (kv.1, JStr kv.2)) l) /\
  foldr (fun (kv : string * json) d => Z.max (json_depth kv.2) d) 0 (map (fun kv : string * string => (kv.1, JStr kv.2)) l) = 0.
Proof. induction l as [|kv l [IH1 IH2]]; [done|]. cbn [map foldr snd]. split; [by split|]. by rewrite IH2. Qed.

Lemma request_json_shape headers r : numbers_ok (request_json headers r) /\ json_depth (request_json headers r) <= max_depth.
Proof.
  destruct (attachment_list_shape (mr_Attachments r)) as [Ha1 Ha2]. destruct (header_list_shape headers) as [Hh1 Hh2].
  unfold request_json. cbn [numbers_ok json_depth foldr snd]. rewrite Hh2. unfold max_depth.
  split; [|destruct (mr_InboundAuth r); cbn [json_depth foldr snd]; lia].
  repeat split; [apply Ha1|apply Hh1|by destruct (mr_InboundAuth r)].
Qed.

Lemma result_json_shape r : numbers_ok (result_json r) /\ json_depth (result_json r) <= max_depth.
Proof.
  unfold result_json, json_int. cbn [app numbers_ok json_depth foldr snd]. unfold max_depth.
  destruct (is_empty (dr_Error r)); cbn [app foldr snd json_depth numbers_ok]; (split; [|lia]);
    repeat split; apply fmt_d_number.
Qed.

(** C8: a request of valid UTF-8 is decoded as its client wrote it, whatever
    comes after it in the body and however the body ends; and the text of an
    answer is one JSON value and a line feed, which reads back as the fields of
    the result. *)
Theorem api_json_round_trip headers req rest err res :
  mr_Headers req = foldl (fun m kv => <[kv.1 := kv.2]> m) ∅ headers -> is_clean (request_json headers req) ->
  json_decode (mkBody (print_json (request_json headers req) +:+ rest) err) = Ok req /\
  parse_json (json_result res) = Some (clean (result_json res), str1 LF).
Proof.
  intros Hh Hc. destruct (request_json_shape headers req) as [H1 H2]. destruct (result_json_shape res) as [H3 H4]. split.
  - unfold json_decode. cbn [body_data body_err]. rewrite parse_print by done.
    unfold is_clean in Hc. rewrite Hc, decode_request_json by done. done.
  - unfold json_result, json_line. by rewrite parse_print.
Qed.

(** ** Witnesses and examples *)

Definition sample_request : MessageRequest :=
  mkMessageRequest "a@example.org" "<b@example.net>" (bytes [226; 130; 172]) ("1 < 2" +:+ str1 LF) ""
    [mkAttachment "f" "text/plain" "Zm9v"; mkAttachment "g" "" ""] {["Reply-To" := "c@d.e"]} "" "" "" "" "" true "" "" ""
    (Some (mkInboundAuth "pass" "" "fail")).

Lemma api_json_round_trip_witness :
  json_decode (mkBody (print_json (request_json [("Reply-To", "c@d.e")] sample_request) +:+ " ...") None) = Ok sample_request /\
  parse_json (json_result (failure "t" "error" "" "" "no <route>")) =
    Some (clean (result_json (failure "t" "error" "" "" "no <route>")), str1 LF).
Proof.
  apply (api_json_round_trip [("Reply-To", "c@d.e")]); [vm_compute; reflexivity|vm_compute; reflexivity].
Defined.

(** Quotes stand for double quotes in the examples. *)
Definition dq (s : string) : string := smap (fun c => if is_char 39 c then QUOTE else c) s.
Definition decoded (s : string) : option (string * string * list Attachment) :=
  match json_decode (mkBody (dq s) None) with
  | Ok r => Some (mr_From r, mr_To r, mr_Attachments r)
  | Err _ => None
  end.

Example decoder_rules :
  map decoded
    ["{'FROM':'\u00e9','to':null,'other':[1.5e3,{}]} trailing"; "{'from':'a','from':'b','to':'\ud83d\ude00\ud83d'}";
     "null"; "[]"; "{'from':1}"; "{'from':'a'"; "{'from':'\x'}"; "{'from':'a',}"; "{'skip_dkim_validation':'true'}"] =
  [Some (bytes [195; 169], "", []); Some ("b", bytes [240; 159; 152; 128; 239; 191; 189], []);
   Some ("", "", []); None; None; None; None; None; None].
Proof. vm_compute. reflexivity. Qed.

(** A repeated field is decoded over the first one: the second attachment list
    inherits the contents of the first. *)
Example repeated_attachments :
  decoded "{'attachments':[{'filename':'a','content':'Zg=='}],'attachments':[{'filename':'b'}]}" =
  Some ("", "", [mkAttachment "b" "" "Zg=="]).
Proof. vm_compute. reflexivity. Qed.

(** The body may break off behind the object. *)
Example broken_behind :
  map (fun s => is_ok (json_decode (mkBody s (Some (ErrText "unexpected EOF"))))) ["{}"; "{"; "null"; "null "] = [true; false; false; true].
Proof. vm_compute. reflexivity. Qed.

Example answer_text :
  json_result (failure "t1" "timeout" "mx" "" "a<b") =
  dq "{'trace_id':'t1','status':'timeout','smtp_code':0,'smtp_message':'','mx_host':'mx','source_ip':'','attempt_duration_ms':0,'error':'a\u003cb'}"
    +:+ str1 LF.
Proof. vm_compute. reflexivity. Qed.
