(* ===== verification/Middleware.v ===== *)
(** * HTTP middlewares (internal/handler/*_middleware.go, rate_limiter.go, ...)

    The rate limiter per client address, the limit on requests in flight, the
    security headers, the request metrics, panic recovery and basic
    authentication; and the stack that [main] builds of them around the
    delivery handlers. *)

From stdpp Require Import base gmap sets list strings.
From Stdlib Require Import ZArith Lia Ascii.
From S2P Require Import Prelude GoString GoFloat GoError NetIP Http.
#[local] Open Scope Z_scope.

(** ** The rate limiter (rate_limiter.go) *)

Record bucket : Type := mkBucket { tokens : Z; lastRefill : Z }.

Record RateLimiter : Type := mkRateLimiter {
  rl_buckets : gmap string bucket;
  rl_requestsPerIP : Z;
  rl_windowSeconds : Z;
  rl_cleanupInterval : Z
}.

Definition new_rate_limiter (requestsPerIP windowSeconds : Z) : RateLimiter :=
  mkRateLimiter ∅ requestsPerIP windowSeconds (seconds (wrap64 (windowSeconds * 2))).

Definition with_buckets (rl : RateLimiter) (b : gmap string bucket) : RateLimiter :=
  mkRateLimiter b (rl_requestsPerIP rl) (rl_windowSeconds rl) (rl_cleanupInterval rl).

(** The first address of X-Forwarded-For, X-Real-IP, or the peer. *)
Fixpoint cut_first (s : string) : string :=
  match s with
  | EmptyString => ""
  | String c s => if bool_decide (c = ","%char) || bool_decide (c = " "%char) then "" else String c (cut_first s)
  end.
Definition extract_ip (r : Request) : string :=
  let xff := cut_first (header_get (rq_Header r) "X-Forwarded-For") in
  let xri := header_get (rq_Header r) "X-Real-IP" in
  if negb (is_empty (header_get (rq_Header r) "X-Forwarded-For")) && bool_decide (is_Some (parse_ip xff)) then xff
  else if negb (is_empty xri) && bool_decide (is_Some (parse_ip xri)) then xri
  else match split_host_port (rq_RemoteAddr r) with
       | Ok (host, _) => host
       | Err _ => rq_RemoteAddr r
       end.

(** [Allow] after [extractIP], under the lock, at the time [now]. *)
Definition refilled (rl : RateLimiter) (b : bucket) (now : Z) : bucket :=
  if seconds (rl_windowSeconds rl) <=? time_sub now (lastRefill b)
  then mkBucket (rl_requestsPerIP rl) now else b.
Definition allow_ip (rl : RateLimiter) (ip : string) (now : Z) : bool * RateLimiter :=
  match rl_buckets rl !! ip with
  | None => (true, with_buckets rl (<[ip := mkBucket (wrap64 (rl_requestsPerIP rl - 1)) now]> (rl_buckets rl)))
  | Some b =>
      let b := refilled rl b now in
      if 0 <? tokens b
      then (true, with_buckets rl (<[ip := mkBucket (tokens b - 1) (lastRefill b)]> (rl_buckets rl)))
      else (false, with_buckets rl (<[ip := b]> (rl_buckets rl)))
  end.

(** One tick of [cleanup]. *)
Definition cleanup_tick (rl : RateLimiter) (now : Z) : RateLimiter :=
  with_buckets rl (map_keep (fun _ b => negb (rl_cleanupInterval rl <? time_sub now (lastRefill b))) (rl_buckets rl)).

(** ** What the middlewares share *)

(** The JSON object with one member, for texts that need no escape. *)
Definition quoted (s : string) : string := str1 (chr 34) +:+ s +:+ str1 (chr 34).
Definition json_error (text : string) : string := "{" +:+ quoted "error" +:+ ":" +:+ quoted text +:+ "}".

Record http_metric : Type := mkHttpMetric {
  hm_method : string; hm_path : string; hm_status : string; hm_duration : float64
}.

(** The state behind the handlers: the engine's, the limiter, the slots taken
    in the semaphore of each route, the metrics recorded (newest first) and
    the number of clock readings so far. *)
Record Server (E : Type) : Type := mkServer {
  srv_engine : E;
  srv_limiter : option RateLimiter;
  srv_slots : gmap string nat;
  srv_metrics : list http_metric;
  srv_readings : nat
}.
Arguments mkServer {E} srv_engine srv_limiter srv_slots srv_metrics srv_readings.
Arguments srv_engine {E} s.
Arguments srv_limiter {E} s.
Arguments srv_slots {E} s.
Arguments srv_metrics {E} s.
Arguments srv_readings {E} s.

Section Middleware.
Context {E : Type} (clock : nat -> Z).

Definition tick (s : Server E) : Z * Server E :=
  (clock (srv_readings s),
   mkServer (srv_engine s) (srv_limiter s) (srv_slots s) (srv_metrics s) (S (srv_readings s))).
Definition with_limiter (s : Server E) (rl : option RateLimiter) : Server E :=
  mkServer (srv_engine s) rl (srv_slots s) (srv_metrics s) (srv_readings s).
Definition with_slots (s : Server E) (m : gmap string nat) : Server E :=
  mkServer (srv_engine s) (srv_limiter s) m (srv_metrics s) (srv_readings s).
Definition with_metric (s : Server E) (m : http_metric) : Server E :=
  mkServer (srv_engine s) (srv_limiter s) (srv_slots s) (m :: srv_metrics s) (srv_readings s).
Definition with_engine (s : Server E) (e : E) : Server E :=
  mkServer e (srv_limiter s) (srv_slots s) (srv_metrics s) (srv_readings s).

(** A handler that knows of the engine alone. *)
Definition on_engine (next : handler E) : handler (Server E) := fun r s =>
  let out := next r (srv_engine s) in mkServed (sv_panic out) (sv_ops out) (with_engine s (sv_state out)).

(** [RateLimiter.Allow] *)
Definition allow (s : Server E) (r : Request) : bool * Server E :=
  match srv_limiter s with
  | None => (true, s)
  | Some rl =>
      let ip := extract_ip r in
      if is_empty ip then (true, s)
      else
        let '(now, s) := tick s in
        let '(ok, rl) := allow_ip rl ip now in (ok, with_limiter s (Some rl))
  end.

Definition too_many : list write_op :=
  [SetHeader "Content-Type" "application/json"; WriteHeader 429;
   Write (json_error "API Rate Limit Exceeded" +:+ str1 LF)].

(** [RateLimiter.Middleware] *)
Definition rate_limit_middleware (next : handler (Server E)) : handler (Server E) := fun r s =>
  let '(ok, s) := allow s r in if ok then next r s else returns too_many s.

(** ** Requests in flight (concurrency_middleware.go)

    A channel of capacity [max] is the number of slots taken. *)

(** [select { case sem <- struct{}{}: ... default: ... }], [<-sem]; [None]:
    the receive waits. *)
Definition sem_acquire (max : Z) (slots : nat) : option nat :=
  if Z.of_nat slots <? max then Some (S slots) else None.
Definition sem_release (slots : nat) : option nat :=
  match slots with O => None | S n => Some n end.

Definition at_capacity : list write_op :=
  http_error (json_error "Server at capacity, try again later") 503.

Definition slots_of (s : Server E) (route : string) : nat := default O (srv_slots s !! route).

(** [ConcurrencyLimitMiddleware]; every call of it makes a semaphore, here
    named by the route.  The release is deferred, so a panic passes it too. *)
Definition concurrency_limit (max : Z) (route : string) (next : handler (Server E)) : handler (Server E) :=
  if max <=? 0 then next
  else fun r s =>
    match sem_acquire max (slots_of s route) with
    | Some n =>
        let out := next r (with_slots s (<[route := n]> (srv_slots s))) in
        let s := sv_state out in
        mkServed (sv_panic out) (sv_ops out)
          (match sem_release (slots_of s route) with
           | Some n => with_slots s (<[route := n]> (srv_slots s))
           | None => s
           end)
    | None => returns at_capacity s
    end.

(** ** Security headers (security_headers.go) *)

Definition security_fields : list (string * string) :=
  [("X-Content-Type-Options", "nosniff"); ("X-Frame-Options", "DENY");
   ("X-XSS-Protection", "1; mode=block");
   ("Cache-Control", "no-store, no-cache, must-revalidate, private"); ("Pragma", "no-cache");
   ("Referrer-Policy", "no-referrer");
   ("Content-Security-Policy", "default-src 'none'; frame-ancestors 'none'")].

Definition security_headers {S} (next : handler S) : handler S := fun r s =>
  after (map (fun kv => SetHeader kv.1 kv.2) security_fields) (next r s).

(** ** Metrics (metrics_middleware.go) *)

(** The wrapper [responseWriter]: what it passes on to the writer it wraps,
    and its fields [statusCode] and [written]. *)
Fixpoint status_writer (statusCode : Z) (written : bool) (ops : list write_op) : list write_op * Z :=
  match ops with
  | [] => ([], statusCode)
  | WriteHeader code :: ops =>
      if written then status_writer statusCode written ops
      else let '(out, c) := status_writer code true ops in (WriteHeader code :: out, c)
  | Write data :: ops =>
      if written then let '(out, c) := status_writer statusCode written ops in (Write data :: out, c)
      else let '(out, c) := status_writer 200 true ops in (WriteHeader 200 :: Write data :: out, c)
  | op :: ops => let '(out, c) := status_writer statusCode written ops in (op :: out, c)
  end.

Definition metrics_middleware (enabled : bool) (next : handler (Server E)) : handler (Server E) :=
  if negb enabled then next
  else fun r s =>
    let '(startTime, s) := tick s in
    let out := next r s in
    let '(ops, statusCode) := status_writer 200 false (sv_ops out) in
    if sv_panic out then mkServed true ops (sv_state out)
    else
      let '(t, s) := tick (sv_state out) in
      let duration := duration_seconds (time_sub t startTime) in
      let path := if is_empty (rq_Path r) then "/" else rq_Path r in
      returns ops (with_metric s (mkHttpMetric (rq_Method r) path (fmt_d statusCode) duration)).

(** ** Panic recovery (panic_recovery.go) *)

Definition panic_recovery {S} (next : handler S) : handler S := fun r s =>
  let out := next r s in
  if sv_panic out
  then returns (sv_ops out ++ http_error (json_error "Internal Server Error") 500) (sv_state out)
  else out.

(** ** Basic authentication (main.go) *)

Definition basic_auth {S} (username password : string) (next : handler S) : handler S := fun r s =>
  match rq_BasicAuth r with
  | Some (user, pass) =>
      if seqb user username && seqb pass password then next r s
      else returns [SetHeader "WWW-Authenticate" ("Basic realm=" +:+ quoted "Admin"); WriteHeader 401] s
  | None => returns [SetHeader "WWW-Authenticate" ("Basic realm=" +:+ quoted "Admin"); WriteHeader 401] s
  end.

(** ** The stack (main.go)

    [wrapDeliveryHandler]: the outermost middleware is the last one. *)
Definition wrap_delivery_handler (maxConcurrent : Z) (metrics : bool) (route : string)
    (h : handler E) : handler (Server E) :=
  let wrapped := on_engine h in
  let wrapped := if 0 <? maxConcurrent then concurrency_limit maxConcurrent route wrapped else wrapped in
  let wrapped := rate_limit_middleware wrapped in
  let wrapped := metrics_middleware metrics wrapped in
  panic_recovery (security_headers wrapped).

(** The admin listener: basic authentication when both are configured. *)
Definition wrap_admin_handler {S} (username password : string) (h : handler S) : handler S :=
  panic_recovery
    (if negb (is_empty username) && negb (is_empty password) then basic_auth username password h else h).
End Middleware.

(** ** The rate limiter over time *)

(** What happens to a limiter: a request of an address, a tick of [cleanup]. *)
Inductive lim_event : Type :=
| Ask (ip : string) (t : Z)
| Sweep (t : Z).
Definition event_time (e : lim_event) : Z := match e with Ask _ t | Sweep t => t end.

(** The answers to the requests, oldest first. *)
Fixpoint lim_run (rl : RateLimiter) (evs : list lim_event) : list (string * Z * bool) :=
  match evs with
  | [] => []
  | Ask ip t :: evs => let '(ok, rl) := allow_ip rl ip t in (ip, t, ok) :: lim_run rl evs
  | Sweep t :: evs => lim_run (cleanup_tick rl t) evs
  end.

(** The clock does not go back. *)
Fixpoint ordered (t0 : Z) (evs : list lim_event) : Prop :=
  match evs with
  | [] => True
  | e :: evs => t0 <= event_time e /\ ordered (event_time e) evs
  end.

(** The requests of [ip] admitted in the times [[a, b)]. *)
Definition admitted_in (ip : string) (a b : Z) (x : string * Z * bool) : bool :=
  let '(ip', t, ok) := x in seqb ip' ip && (a <=? t) && (t <? b) && ok.
Definition granted (ip : string) (a b : Z) (log : list (string * Z * bool)) : Z :=
  Z.of_nat (length (List.filter (admitted_in ip a b) log)).

Section Limiter.
Context (N W : Z) (HN : 1 <= N <= int64_max) (HW : 0 < W <= 4000000000).

#[local] Abbreviation window := (W * second).

Definition lim_ok (rl : RateLimiter) : Prop :=
  rl_requestsPerIP rl = N /\ rl_windowSeconds rl = W /\ rl_cleanupInterval rl = 2 * window /\
  forall ip b, rl_buckets rl !! ip = Some b -> tokens b <= N.

Lemma window_seconds : seconds W = window.
Proof. apply seconds_small. lia. Qed.

Lemma new_limiter_ok : lim_ok (new_rate_limiter N W).
Proof.
  split; [done|split; [done|split; [|done]]]. unfold new_rate_limiter, rl_cleanupInterval.
  rewrite wrap64_id by (unfold int64_min, int64_max; lia). rewrite seconds_small by lia. lia.
Qed.

Lemma time_sub_le (t u d : Z) : int64_min < d <= int64_max -> (d <=? time_sub t u) = (d <=? t - u).
Proof.
  unfold time_sub, int64_min, int64_max. intros.
  destruct (Z.leb_spec d (t - u)); [apply Z.leb_le | apply Z.leb_gt]; lia.
Qed.

(** One request, seen from the bucket of its address. *)
Definition next_bucket (b : option bucket) (t : Z) : bool * bucket :=
  match b with
  | None => (true, mkBucket (N - 1) t)
  | Some b =>
      let b := if window <=? t - lastRefill b then mkBucket N t else b in
      if 0 <? tokens b then (true, mkBucket (tokens b - 1) (lastRefill b)) else (false, b)
  end.

Lemma allow_ip_spec rl ip t :
  lim_ok rl ->
  let '(ok, b) := next_bucket (rl_buckets rl !! ip) t in
  allow_ip rl ip t = (ok, with_buckets rl (<[ip := b]> (rl_buckets rl))) /\ tokens b <= N.
Proof.
  intros (HrN & HrW & _ & Ht). unfold allow_ip, refilled, next_bucket.
  destruct (rl_buckets rl !! ip) as [b|] eqn:Eb.
  - specialize (Ht ip b Eb). rewrite HrN, HrW, window_seconds.
    rewrite time_sub_le by (unfold int64_min, int64_max, second; lia).
    set (b' := if window <=? t - lastRefill b then _ else b).
    assert (tokens b' <= N) by (subst b'; case_match; [simpl; lia|done]).
    destruct (0 <? tokens b'); simpl; (split; [done|lia]).
  - rewrite HrN, wrap64_id by (unfold int64_min, int64_max in *; lia). simpl. split; [done|lia].
Qed.

Lemma lim_ok_insert rl ip b :
  lim_ok rl -> tokens b <= N -> lim_ok (with_buckets rl (<[ip := b]> (rl_buckets rl))).
Proof.
  intros (? & ? & ? & Ht) Hb. split; [done|split; [done|split; [done|]]]. intros ip' b'. simpl.
  rewrite lookup_insert_Some. intros [[_ <-]|[_ ?]]; [done|eauto].
Qed.

(** A sweep forgets only buckets that were filled two windows ago. *)
Lemma sweep_spec rl t ip :
  lim_ok rl ->
  rl_buckets (cleanup_tick rl t) !! ip =
  match rl_buckets rl !! ip with
  | Some b => if 2 * window <? t - lastRefill b then None else Some b
  | None => None
  end.
Proof.
  intros (_ & _ & Hc & _). unfold cleanup_tick. cbn [rl_buckets with_buckets].
  assert (Hcmp : forall b, (rl_cleanupInterval rl <? time_sub t (lastRefill b)) = (2 * window <? t - lastRefill b)).
  { intros b. rewrite Hc. apply time_sub_gt. unfold int64_min, int64_max, second. lia. }
  destruct (rl_buckets rl !! ip) as [b|] eqn:Eb.
  - destruct (2 * window <? t - lastRefill b) eqn:E.
    + apply map_keep_lookup_None. right. exists b. rewrite Hcmp, E. by split.
    + apply map_keep_lookup. rewrite Hcmp, E. by split.
  - apply map_keep_lookup_None. by left.
Qed.

Lemma lim_ok_sweep rl t : lim_ok rl -> lim_ok (cleanup_tick rl t).
Proof.
  intros Hok. pose proof Hok as (? & ? & ? & Ht). split; [done|split; [done|split; [done|]]]. intros ip b.
  rewrite sweep_spec by done. destruct (rl_buckets rl !! ip) as [b'|] eqn:E; [|done].
  case_match; [done|]. intros [= <-]. eauto.
Qed.

(** *** How many requests pass *)

Lemma granted_cons ip a b x log :
  granted ip a b (x :: log) = (if admitted_in ip a b x then 1 else 0) + granted ip a b log.
Proof. unfold granted. cbn [List.filter]. destruct (admitted_in ip a b x); cbn [length]; lia. Qed.

(** What is over when the clock has passed [b]. *)
Lemma granted_late ip a b t0 evs rl : b <= t0 -> ordered t0 evs -> granted ip a b (lim_run rl evs) = 0.
Proof.
  revert t0 rl. induction evs as [|[ip' t|t] evs IH]; intros t0 rl Hb; [done| |]; intros [Ht Ho]; cbn [lim_run event_time] in *.
  - destruct (allow_ip rl ip' t) as [ok rl']. rewrite granted_cons, (IH t) by (done || lia).
    unfold admitted_in. destruct (Z.ltb_spec t b); [lia|]. by rewrite andb_false_r.
  - apply (IH t); [lia|done].
Qed.

(** What a bucket can still give between [a] and [a + window]. *)
Definition budget (a : Z) (b : option bucket) : Z :=
  match b with
  | None => N
  | Some b => Z.max 0 (tokens b) + (if a <=? lastRefill b then 0 else N)
  end.

Lemma budget_step a b t :
  a <= t < a + window ->
  let '(ok, b') := next_bucket b t in (if ok then 1 else 0) + budget a (Some b') <= budget a b.
Proof.
  intros Ht. unfold next_bucket, budget. destruct b as [b|]; simpl.
  - destruct (Z.leb_spec window (t - lastRefill b)); simpl.
    + destruct (Z.leb_spec a (lastRefill b)); [lia|]. destruct (Z.ltb_spec 0 N); [|lia]. simpl.
      destruct (Z.leb_spec a t); lia.
    + destruct (Z.ltb_spec 0 (tokens b)); simpl; case_match; lia.
  - destruct (Z.leb_spec a t); lia.
Qed.

Lemma granted_budget ip a evs rl t0 :
  lim_ok rl -> a <= t0 -> ordered t0 evs ->
  granted ip a (a + window) (lim_run rl evs) <= budget a (rl_buckets rl !! ip).
Proof.
  revert rl t0. induction evs as [|e evs IH]; intros rl t0 Hok Ha.
  { intros _. unfold granted, budget. simpl. repeat case_match; lia. }
  intros [Ht Ho]. destruct (Z.ltb_spec (event_time e) (a + window)) as [Hin|Hout].
  2: { rewrite (granted_late ip a (a + window) (event_time e)); [|lia|by split].
       unfold budget. repeat case_match; lia. }
  destruct e as [ip' t|t]; cbn [lim_run event_time] in *.
  - pose proof (allow_ip_spec rl ip' t Hok) as Hs. destruct (next_bucket _ t) as [ok b] eqn:Eb.
    destruct Hs as [-> Hb]. rewrite granted_cons.
    specialize (IH _ t (lim_ok_insert rl ip' b Hok Hb) ltac:(lia) Ho). cbn [rl_buckets with_buckets] in IH.
    unfold admitted_in. destruct (seqb ip' ip) eqn:Eip.
    + apply seqb_true in Eip as ->. rewrite lookup_insert_eq in IH.
      pose proof (budget_step a (rl_buckets rl !! ip) t ltac:(lia)) as Hstep. rewrite Eb in Hstep.
      destruct (Z.leb_spec a t), (Z.ltb_spec t (a + window)); try lia. simpl. lia.
    + apply seqb_false in Eip. rewrite lookup_insert_ne in IH by done. simpl. lia.
  - specialize (IH _ t (lim_ok_sweep rl t Hok) ltac:(lia) Ho). rewrite sweep_spec in IH by done.
    destruct (rl_buckets rl !! ip) as [b|]; [|done].
    destruct (Z.ltb_spec (2 * window) (t - lastRefill b)); [|done]. unfold budget in *.
    destruct (Z.leb_spec a (lastRefill b)); lia.
Qed.

Lemma budget_total a rl ip : lim_ok rl -> budget a (rl_buckets rl !! ip) <= 2 * N.
Proof.
  intros (_ & _ & _ & Ht). unfold budget. destruct (rl_buckets rl !! ip) as [b|] eqn:E; [|lia].
  specialize (Ht ip b E). case_match; lia.
Qed.

Lemma granted_total ip a evs rl t0 :
  lim_ok rl -> ordered t0 evs -> granted ip a (a + window) (lim_run rl evs) <= 2 * N.
Proof.
  revert rl t0. induction evs as [|e evs IH]; intros rl t0 Hok; [intros _; unfold granted; simpl; lia|].
  intros [Ht Ho]. destruct (Z.le_gt_cases a (event_time e)) as [Hin|Hbefore].
  { etrans; [apply (granted_budget ip a (e :: evs) rl (event_time e)); [done|done|by split]|by apply budget_total]. }
  destruct e as [ip' t|t]; cbn [lim_run event_time] in *.
  - pose proof (allow_ip_spec rl ip' t Hok) as Hs. destruct (next_bucket _ t) as [ok b].
    destruct Hs as [-> Hb]. rewrite granted_cons.
    specialize (IH _ t (lim_ok_insert rl ip' b Hok Hb) Ho).
    unfold admitted_in. destruct (Z.leb_spec a t); [lia|]. by rewrite andb_false_r.
  - exact (IH _ t (lim_ok_sweep rl t Hok) Ho).
Qed.

(** *** Cleaning up *)

Definition is_ask (e : lim_event) : bool := match e with Ask _ _ => true | Sweep _ => false end.

(** The limiter without sweeps has the same buckets, and older ones. *)
Definition swept (t0 : Z) (rl rl' : RateLimiter) : Prop :=
  lim_ok rl /\ lim_ok rl' /\
  forall ip, match rl_buckets rl !! ip with
             | Some b => rl_buckets rl' !! ip = Some b
             | None => match rl_buckets rl' !! ip with
                       | Some b => window <= t0 - lastRefill b
                       | None => True
                       end
             end.

Lemma swept_ask t0 rl rl' ip t :
  swept t0 rl rl' -> t0 <= t ->
  (allow_ip rl ip t).1 = (allow_ip rl' ip t).1 /\ swept t (allow_ip rl ip t).2 (allow_ip rl' ip t).2.
Proof.
  intros (Hok & Hok' & Hb) Ht.
  assert (Hnext : next_bucket (rl_buckets rl !! ip) t = next_bucket (rl_buckets rl' !! ip) t).
  { specialize (Hb ip). destruct (rl_buckets rl !! ip) as [b|]; [by rewrite Hb|].
    destruct (rl_buckets rl' !! ip) as [b|]; [|done]. simpl.
    destruct (Z.leb_spec window (t - lastRefill b)); [|lia]. simpl. destruct (Z.ltb_spec 0 N); [done|lia]. }
  pose proof (allow_ip_spec rl ip t Hok) as Hs. pose proof (allow_ip_spec rl' ip t Hok') as Hs'.
  rewrite Hnext in Hs. clear Hnext. destruct (next_bucket (rl_buckets rl' !! ip) t) as [ok b]. destruct Hs as [-> Htok], Hs' as [-> _].
  split; [done|]. split; [|split]; [by apply lim_ok_insert..|]. intros ip'. simpl.
  destruct (decide (ip = ip')) as [->|Hne]; [by rewrite !lookup_insert_eq|].
  rewrite !lookup_insert_ne by done. specialize (Hb ip'). repeat case_match; try done. lia.
Qed.

Lemma swept_sweep t0 rl rl' t : swept t0 rl rl' -> t0 <= t -> swept t (cleanup_tick rl t) rl'.
Proof.
  intros (Hok & Hok' & Hb) Ht. split; [by apply lim_ok_sweep|split; [done|]]. intros ip.
  rewrite sweep_spec by done. specialize (Hb ip). destruct (rl_buckets rl !! ip) as [b|].
  - rewrite Hb. destruct (Z.ltb_spec (2 * window) (t - lastRefill b)); [|done]. unfold second in *. lia.
  - case_match; [lia|done].
Qed.

Lemma lim_run_swept t0 rl rl' evs :
  swept t0 rl rl' -> ordered t0 evs -> lim_run rl evs = lim_run rl' (List.filter is_ask evs).
Proof.
  revert t0 rl rl'. induction evs as [|[ip t|t] evs IH]; intros t0 rl rl' Hs; [done| |];
    intros [Ht Ho]; cbn [lim_run List.filter is_ask event_time] in *.
  - destruct (swept_ask t0 rl rl' ip t Hs Ht) as [Heq Hs'].
    destruct (allow_ip rl ip t) as [ok rl1], (allow_ip rl' ip t) as [ok' rl2]. simpl in *. subst.
    f_equal. by apply (IH t).
  - apply (IH t); [by eapply swept_sweep|done].
Qed.
End Limiter.

(** C21: an address never gets more than twice [requests_per_ip] requests
    through in any interval of one window, wherever the interval lies and
    whatever the cleanup does, as long as the clock does not go back. *)
Theorem limiter_window_bound N W ip a t0 evs :
  1 <= N <= int64_max -> 0 < W <= 4000000000 -> ordered t0 evs ->
  granted ip a (a + W * second) (lim_run (new_rate_limiter N W) evs) <= 2 * N.
Proof. intros HN HW Ho. eapply granted_total; eauto using new_limiter_ok. Qed.

(** C22: the cleanup of old buckets is not observable: every request gets the
    answer of a limiter that never forgets an address. *)
Theorem cleanup_invisible N W t0 evs :
  1 <= N <= int64_max -> 0 < W <= 4000000000 -> ordered t0 evs ->
  lim_run (new_rate_limiter N W) evs = lim_run (new_rate_limiter N W) (List.filter is_ask evs).
Proof.
  intros HN HW Ho. eapply (lim_run_swept N W HN HW t0); [|done].
  split; [by apply new_limiter_ok|split; [by apply new_limiter_ok|]]. intros ip. simpl. by rewrite !lookup_empty.
Qed.

(** Without an ordered clock nothing can be said; with one, the first window
    of an address gives exactly its allowance. *)
Example allowance :
  map snd (lim_run (new_rate_limiter 2 60)
             [Ask "192.0.2.1" 0; Ask "192.0.2.1" 1; Ask "192.0.2.2" 2; Ask "192.0.2.1" 3;
              Ask "192.0.2.1" (60 * second); Sweep (300 * second); Ask "192.0.2.1" (301 * second)]) =
  [true; true; true; false; true; true].
Proof. vm_compute. reflexivity. Qed.

(** Twice the allowance within one window does happen. *)
Example window_boundary :
  granted "192.0.2.1" (59 * second) (59 * second + 60 * second)
    (lim_run (new_rate_limiter 2 60)
       [Ask "192.0.2.1" 0; Ask "192.0.2.1" (59 * second); Ask "192.0.2.1" (60 * second);
        Ask "192.0.2.1" (60 * second); Ask "192.0.2.1" (60 * second)]) = 3.
Proof. vm_compute. reflexivity. Qed.

Lemma limiter_window_bound_witness :
  granted "192.0.2.1" 0 (0 + 60 * second)
    (lim_run (new_rate_limiter 1 60) [Ask "192.0.2.1" 0; Ask "192.0.2.1" 1; Sweep 2]) <= 2 * 1.
Proof.
  apply (limiter_window_bound 1 60 "192.0.2.1" 0 0); [unfold int64_max; lia|lia|].
  vm_compute. repeat split; discriminate.
Defined.

Lemma cleanup_invisible_witness :
  lim_run (new_rate_limiter 1 60) [Ask "192.0.2.1" 0; Sweep (200 * second); Ask "192.0.2.1" (201 * second)] =
  lim_run (new_rate_limiter 1 60) [Ask "192.0.2.1" 0; Ask "192.0.2.1" (201 * second)].
Proof.
  apply (cleanup_invisible 1 60 0
           [Ask "192.0.2.1" 0; Sweep (200 * second); Ask "192.0.2.1" (201 * second)]);
    [unfold int64_max; lia|lia|].
  vm_compute. repeat split; discriminate.
Defined.

(** The address is the client's word: requests of one peer that name different
    addresses have a bucket each. *)
Definition claiming (xff : string) : Request :=
  mkRequest "POST" "/deliver" (header_set "X-Forwarded-For" xff ∅) (mkBody "" None) "192.0.2.9:1234" None.
Example forwarded_for_is_trusted :
  map (fun x => extract_ip (claiming x)) ["198.51.100.1, 192.0.2.9"; "198.51.100.2"; "unknown"; ""] =
  ["198.51.100.1"; "198.51.100.2"; "192.0.2.9"; "192.0.2.9"].
Proof. vm_compute. reflexivity. Qed.

(** ** Requests in flight *)

(** The requests of one semaphore: those inside the handler, and the slots
    taken.  A request arrives and gets a slot or is turned away; one that is
    inside leaves, by a return or a panic. *)
Record in_flight : Type := mkInFlight { if_slots : nat; if_inside : gset nat }.

Inductive flight_step (max : Z) : in_flight -> in_flight -> Prop :=
| flight_enter s r n :
    r ∉ if_inside s -> sem_acquire max (if_slots s) = Some n ->
    flight_step max s (mkInFlight n ({[ r ]} ∪ if_inside s))
| flight_refused s :
    sem_acquire max (if_slots s) = None -> flight_step max s s
| flight_leave s r n :
    r ∈ if_inside s -> sem_release (if_slots s) = Some n ->
    flight_step max s (mkInFlight n (if_inside s ∖ {[ r ]})).

Definition flight_init (s : in_flight) : Prop := s = mkInFlight 0 ∅.

Lemma flight_count max s : 0 < max -> reachable flight_init (flight_step max) s ->
  if_slots s = size (if_inside s) /\ Z.of_nat (if_slots s) <= max.
Proof.
  intros Hm. revert s. apply (invariant_reachable _ _ (fun s => if_slots s = size (if_inside s) /\ Z.of_nat (if_slots s) <= max)).
  - intros s' ->. split; [done|cbn [if_slots]; lia].
  - intros s1 s2 [Heq Hle] Hstep. destruct Hstep as [s1 r n Hr Ha|s1 Ha|s1 r n Hr Ha]; simpl; [|done|].
    + unfold sem_acquire in Ha. destruct (Z.ltb_spec (Z.of_nat (if_slots s1)) max); [|done]. injection Ha as <-.
      rewrite size_union, size_singleton by set_solver. split; lia.
    + unfold sem_release in Ha. rewrite size_difference, size_singleton by set_solver.
      destruct (if_slots s1); simplify_eq/=. split; lia.
Qed.

(** Never more than the limit of requests are inside the handler behind a
    semaphore, and the slots taken are exactly those; a request is turned away
    only when the limit is reached; one that leaves never waits for its slot;
    and after it has left, the next one gets in. *)
Theorem in_flight_bounded max s :
  0 < max -> reachable flight_init (flight_step max) s ->
  Z.of_nat (size (if_inside s)) <= max /\
  (sem_acquire max (if_slots s) = None <-> Z.of_nat (size (if_inside s)) = max) /\
  forall r, r ∈ if_inside s ->
    exists n, sem_release (if_slots s) = Some n /\ is_Some (sem_acquire max n).
Proof.
  intros Hm Hr. apply flight_count in Hr as [Heq Hle]; [|done]. rewrite <- Heq. split; [done|].
  unfold sem_acquire. split.
  - destruct (Z.ltb_spec (Z.of_nat (if_slots s)) max); split; try done; lia.
  - intros r Hr. assert (if_slots s <> O) as Hn.
    { rewrite Heq. intros Hz. apply size_empty_inv in Hz. set_solver. }
    destruct (if_slots s) as [|n]; [done|]. exists n. split; [done|].
    destruct (Z.ltb_spec (Z.of_nat n) max); [done|lia].
Qed.

Lemma in_flight_bounded_witness :
  let s := mkInFlight 1 ({[ 7%nat ]} ∪ ∅) in
  Z.of_nat (size (if_inside s)) <= 1 /\
  (sem_acquire 1 (if_slots s) = None <-> Z.of_nat (size (if_inside s)) = 1) /\
  forall r, r ∈ if_inside s ->
    exists n, sem_release (if_slots s) = Some n /\ is_Some (sem_acquire 1 n).
Proof.
  apply in_flight_bounded; [lia|].
  eapply reachable_step; [by apply reachable_init|].
  apply (flight_enter 1 (mkInFlight 0 ∅) 7 1); [by apply not_elem_of_empty|reflexivity].
Defined.
