(* ===== verification/ServerStack.v ===== *)
(** * The middleware stack of the API server

    What a client of the API gets from the stack that [main] builds around a
    delivery handler, whatever the handler does, and what the metrics say
    about it. *)

From stdpp Require Import base gmap sets list strings.
From Stdlib Require Import ZArith Lia.
From S2P Require Import Prelude GoString GoError Http Middleware.
#[local] Open Scope Z_scope.

(** ** The metrics wrapper *)

(** The wrapper is in step with the writer it wraps. *)
Definition in_step (written : bool) (w : Response) : Prop :=
  if written then is_Some (rs_sent w) else rs_sent w = None.

Lemma write_header_sent code w : is_Some (rs_sent w) -> write_header code w = w.
Proof. unfold write_header. by intros [s ->]. Qed.

Lemma write_after_header data w : rs_sent w = None -> write data (write_header 200 w) = write data w.
Proof. intros Hw. unfold write, write_header. by rewrite Hw. Qed.

(** The client sees the same response with and without the wrapper. *)
Lemma status_writer_transparent ops code written w :
  in_step written w ->
  foldl apply_op w (status_writer code written ops).1 = foldl apply_op w ops.
Proof.
  revert code written w. induction ops as [|op ops IH]; intros code written w Hw; [done|].
  destruct op; cbn [status_writer foldl].
  - specialize (IH code written). destruct (status_writer code written ops) as [out c]. cbn [fst foldl].
    apply IH. by destruct written.
  - specialize (IH code written). destruct (status_writer code written ops) as [out c]. cbn [fst foldl].
    apply IH. by destruct written.
  - destruct written.
    + cbn [apply_op]. rewrite (write_header_sent code0) by done. by apply IH.
    + specialize (IH code0 true). destruct (status_writer code0 true ops) as [out c]. cbn [fst foldl].
      apply IH. cbn [apply_op]. unfold write_header. rewrite Hw. by eexists.
  - assert (Hs : in_step true (write data w)).
    { unfold write, write_header. destruct (rs_sent w) eqn:E; cbn [rs_sent in_step]; [rewrite E|]; by eexists. }
    destruct written.
    + specialize (IH code true). destruct (status_writer code true ops) as [out c]. cbn [fst foldl]. by apply IH.
    + specialize (IH 200 true). destruct (status_writer 200 true ops) as [out c]. cbn [fst foldl apply_op].
      rewrite write_after_header by done. by apply IH.
Qed.

Lemma status_writer_written ops code : (status_writer code true ops).2 = code.
Proof.
  induction ops as [|op ops IH]; [done|].
  destruct op; cbn [status_writer]; try done; by destruct (status_writer code true ops).
Qed.

Lemma status_writer_status ops : (status_writer 200 false ops).2 = first_status ops.
Proof.
  induction ops as [|op ops IH]; [done|]. destruct op; cbn [status_writer first_status].
  - by destruct (status_writer 200 false ops).
  - by destruct (status_writer 200 false ops).
  - pose proof (status_writer_written ops code). by destruct (status_writer code true ops).
  - pose proof (status_writer_written ops 200). by destruct (status_writer 200 true ops).
Qed.

Lemma status_writer_first ops rest :
  first_status ((status_writer 200 false ops).1 ++ rest) = first_status (ops ++ rest).
Proof.
  induction ops as [|op ops IH]; [done|]. destruct op; cbn [status_writer].
  - destruct (status_writer 200 false ops). by apply IH.
  - destruct (status_writer 200 false ops). by apply IH.
  - by destruct (status_writer code true ops).
  - by destruct (status_writer 200 true ops).
Qed.

Lemma status_writer_ops (P : write_op -> Prop) ops code written :
  P (WriteHeader 200) -> Forall P ops -> Forall P (status_writer code written ops).1.
Proof.
  intros Hp Hops. revert code written. induction Hops as [|op ops Hop _ IH]; intros code written; [by constructor|].
  destruct op; cbn [status_writer].
  - specialize (IH code written). destruct (status_writer code written ops). by constructor.
  - specialize (IH code written). destruct (status_writer code written ops). by constructor.
  - destruct written; [by apply IH|]. specialize (IH code0 true).
    destruct (status_writer code0 true ops). by constructor.
  - destruct written.
    + specialize (IH code true). destruct (status_writer code true ops). by constructor.
    + specialize (IH 200 true). destruct (status_writer 200 true ops). by repeat constructor.
Qed.

(** The metrics wrapper does not change what the client receives, and the
    status it records is the one the client received; a request whose handler
    panics is not recorded. *)
Theorem metrics_record_response {E} (clock : nat -> Z) (next : handler (Server E)) r s :
  let out := next r (tick clock s).2 in
  let out' := metrics_middleware clock true next r s in
  sv_panic out' = sv_panic out /\ respond (sv_ops out') = respond (sv_ops out) /\
  srv_engine (sv_state out') = srv_engine (sv_state out) /\
  if sv_panic out then srv_metrics (sv_state out') = srv_metrics (sv_state out)
  else exists m, srv_metrics (sv_state out') = m :: srv_metrics (sv_state out) /\
         hm_method m = rq_Method r /\ hm_path m <> "" /\
         hm_status m = fmt_d (status_of (respond (sv_ops out))).
Proof.
  intros out out'. subst out out'. unfold metrics_middleware. cbn [negb tick].
  set (out := next r (tick clock s).2). change (next r _) with out.
  pose proof (status_writer_transparent (sv_ops out) 200 false new_response eq_refl) as Ht.
  pose proof (status_writer_status (sv_ops out)) as Hs. rewrite <- respond_status in Hs.
  destruct (status_writer 200 false (sv_ops out)) as [ops c]. cbn [fst snd] in *.
  destruct (sv_panic out) eqn:Ep; unfold returns; cbn [sv_panic sv_ops sv_state].
  - split; [done|]. split; [|done]. unfold respond. by rewrite Ht.
  - split; [done|]. split; [unfold respond; by rewrite Ht|]. split; [done|].
    eexists. split; [done|]. cbn [hm_method hm_path hm_status]. rewrite Hs. split; [done|].
    split; [|done]. destruct (is_empty (rq_Path r)) eqn:Ee; [done|by apply is_empty_false].
Qed.

(** ** The whole stack *)

(** An operation that leaves the security fields as they are. *)
Definition respects (op : write_op) : Prop :=
  forall k v, In (k, v) security_fields ->
    keeps_field k op \/ exists k', op = SetHeader k' v /\ canonical_key k' = canonical_key k.

Lemma respects_plain code data : respects (WriteHeader code) /\ respects (Write data).
Proof. split; intros k v _; by left. Qed.

Ltac each_field :=
  intros k v Hin; simpl in Hin;
  repeat match type of Hin with _ \/ _ => destruct Hin as [Hin|Hin] end;
  [simplify_eq.. | done].

Lemma respects_content_type value : respects (SetHeader "Content-Type" value).
Proof. each_field; left; vm_compute; discriminate. Qed.

Lemma respects_http_error text code : Forall respects (http_error text code).
Proof.
  unfold http_error. rewrite !Forall_cons. split; [each_field; left; vm_compute; discriminate|].
  split; [apply respects_content_type|].
  split; [each_field; [right; by eexists|..]; left; vm_compute; discriminate|].
  split; [apply (respects_plain code "")|]. split; [by apply (respects_plain 0)|done].
Qed.

Lemma respects_too_many : Forall respects too_many.
Proof.
  unfold too_many. rewrite !Forall_cons. split; [apply respects_content_type|].
  split; [apply (respects_plain 429 "")|]. split; [by apply (respects_plain 0)|done].
Qed.

Lemma security_sent ops :
  Forall respects ops ->
  forall k v, In (k, v) security_fields ->
  header_get (sent_header (respond (map (fun kv => SetHeader kv.1 kv.2) security_fields ++ ops))) k = v.
Proof.
  intros Hops k v Hin. unfold respond. rewrite foldl_app. apply sent_field.
  - revert k v Hin. each_field; vm_compute; reflexivity.
  - done.
  - eapply Forall_impl; [exact Hops|]. intros op Hop. by apply Hop.
Qed.

Lemma security_status ops :
  first_status (map (fun kv => SetHeader kv.1 kv.2) security_fields ++ ops) = first_status ops.
Proof. done. Qed.

(** The status of a handler's answer behind panic recovery. *)
Definition recovered_status {S} (out : served S) : Z :=
  if sv_panic out then first_status (sv_ops out ++ [WriteHeader 500]) else first_status (sv_ops out).

Lemma first_status_app ops a b : first_status a = first_status b -> first_status (ops ++ a) = first_status (ops ++ b).
Proof. intros H. induction ops as [|[] ops IH]; done. Qed.

(** ** What gets through *)

Section Stack.
Context {E : Type} (clock : nat -> Z).

(** The state in which the limiter is asked. *)
Definition asked (metrics : bool) (s : Server E) : Server E := if metrics then (tick clock s).2 else s.

Definition limited (metrics : bool) (r : Request) (s : Server E) : bool :=
  negb (allow clock (asked metrics s) r).1.
Definition full (maxConcurrent : Z) (route : string) (s : Server E) : bool :=
  (0 <? maxConcurrent) && (maxConcurrent <=? Z.of_nat (slots_of s route)).

(** The part below the metrics. *)
Definition gate (maxConcurrent : Z) (route : string) (h : handler E) : handler (Server E) :=
  rate_limit_middleware clock
    (if 0 <? maxConcurrent then concurrency_limit maxConcurrent route (on_engine h) else on_engine h).

Lemma allow_frame r (s : Server E) :
  srv_engine (allow clock s r).2 = srv_engine s /\ srv_slots (allow clock s r).2 = srv_slots s.
Proof.
  unfold allow. destruct (srv_limiter s) as [rl|]; [|done].
  destruct (is_empty (extract_ip r)); [done|]. simpl. by destruct (allow_ip rl (extract_ip r) _).
Qed.

Lemma slots_acquired (s : Server E) route max n :
  sem_acquire max (slots_of s route) = Some n ->
  sem_release n = Some (slots_of s route).
Proof. unfold sem_acquire. destruct (Z.of_nat (slots_of s route) <? max); by intros [= <-]. Qed.

Lemma gate_spec maxConcurrent route h r (s : Server E) :
  let out := gate maxConcurrent route h r s in
  (forall route', slots_of (sv_state out) route' = slots_of s route') /\
  if negb (allow clock s r).1 then
    sv_panic out = false /\ sv_ops out = too_many /\ srv_engine (sv_state out) = srv_engine s
  else if full maxConcurrent route s then
    sv_panic out = false /\ sv_ops out = at_capacity /\ srv_engine (sv_state out) = srv_engine s
  else
    let inner := h r (srv_engine s) in
    sv_panic out = sv_panic inner /\ sv_ops out = sv_ops inner /\ srv_engine (sv_state out) = sv_state inner.
Proof.
  unfold gate, rate_limit_middleware. cbv zeta. pose proof (allow_frame r s) as [He Hs].
  destruct (allow clock s r) as [ok s1]. cbn [fst snd] in *.
  assert (Hsl : forall route', slots_of s1 route' = slots_of s route') by (intros; unfold slots_of; by rewrite Hs).
  destruct ok; cbn [negb]; [|by split].
  unfold full. destruct (Z.ltb_spec 0 maxConcurrent) as [Hm|Hm]; cbn [andb]; [|by rewrite <- He].
  unfold concurrency_limit. destruct (Z.leb_spec maxConcurrent 0); [lia|]. rewrite <- Hsl.
  destruct (sem_acquire maxConcurrent (slots_of s1 route)) as [n|] eqn:Ea.
  - pose proof (slots_acquired _ _ _ _ Ea) as Hrel. unfold sem_acquire in Ea.
    destruct (Z.ltb_spec (Z.of_nat (slots_of s1 route)) maxConcurrent); [|done].
    destruct (Z.leb_spec maxConcurrent (Z.of_nat (slots_of s1 route))); [lia|].
    unfold on_engine. cbn [sv_panic sv_ops sv_state]. unfold slots_of at 2 4. cbn [srv_slots with_engine with_slots].
    rewrite lookup_insert_eq. cbn [default from_option id]. rewrite Hrel. cbn [srv_engine with_slots with_engine]. rewrite He.
    split; [|done]. intros route'. rewrite <- Hsl. unfold slots_of at 1. cbn [srv_slots with_slots with_engine].
    destruct (decide (route = route')) as [->|Hne]; [by rewrite lookup_insert_eq|].
    by rewrite !lookup_insert_ne.
  - unfold sem_acquire in Ea. destruct (Z.ltb_spec (Z.of_nat (slots_of s1 route)) maxConcurrent); [done|].
    destruct (Z.leb_spec maxConcurrent (Z.of_nat (slots_of s1 route))); [|lia]. by split.
Qed.

(** What the metrics leave of the answer below them. *)
Lemma metrics_frame metrics (next : handler (Server E)) r s :
  let out := metrics_middleware clock metrics next r s in
  let g := next r (asked metrics s) in
  sv_panic out = sv_panic g /\
  (forall rest, first_status (sv_ops out ++ rest) = first_status (sv_ops g ++ rest)) /\
  (Forall respects (sv_ops g) -> Forall respects (sv_ops out)) /\
  srv_engine (sv_state out) = srv_engine (sv_state g) /\
  srv_slots (sv_state out) = srv_slots (sv_state g).
Proof.
  unfold metrics_middleware, asked. destruct metrics; [|done]. cbn [negb tick snd fst].
  set (g := next r _).
  pose proof (status_writer_first (sv_ops g)) as Hf.
  pose proof (status_writer_ops respects (sv_ops g) 200 false ltac:(apply (respects_plain 200 ""))) as Hr.
  destruct (status_writer 200 false (sv_ops g)) as [ops c]. cbn [fst] in *. by destruct (sv_panic g).
Qed.

(** Panic recovery and the security headers around an answer. *)
Definition recovery_tail (panicked : bool) : list write_op :=
  if panicked then http_error (json_error "Internal Server Error") 500 else [].
Lemma shell_spec {S} (next : handler S) r s :
  let inner := next r s in
  panic_recovery (security_headers next) r s =
  returns (map (fun kv => SetHeader kv.1 kv.2) security_fields ++ sv_ops inner ++ recovery_tail (sv_panic inner))
    (sv_state inner).
Proof.
  unfold panic_recovery, security_headers, after. cbn [sv_panic sv_ops sv_state].
  destruct (next r s) as [[] ops s']; unfold returns; cbn [sv_panic sv_ops sv_state recovery_tail].
  - by rewrite <- app_assoc.
  - by rewrite app_nil_r.
Qed.

Lemma asked_frame metrics s :
  srv_engine (asked metrics s) = srv_engine s /\ forall route, slots_of (asked metrics s) route = slots_of s route.
Proof. by destruct metrics. Qed.

(** C9: whatever a delivery handler does, a panic included, its client gets a
    response with all the security headers, and the slot the request held is
    free again.  A request over its address's limit gets 429 and one that finds
    no slot 503, and neither reaches the engine; the others get the handler's
    answer, with status 500 when the handler panicked before its status was
    sent. *)
Theorem stack_answers maxConcurrent metrics route (h : handler E) r s :
  Forall respects (sv_ops (h r (srv_engine s))) ->
  let out := wrap_delivery_handler clock maxConcurrent metrics route h r s in
  let inner := h r (srv_engine s) in
  sv_panic out = false /\
  (forall k v, In (k, v) security_fields -> header_get (sent_header (respond (sv_ops out))) k = v) /\
  (forall route', slots_of (sv_state out) route' = slots_of s route') /\
  if limited metrics r s then
    status_of (respond (sv_ops out)) = 429 /\ srv_engine (sv_state out) = srv_engine s
  else if full maxConcurrent route s then
    status_of (respond (sv_ops out)) = 503 /\ srv_engine (sv_state out) = srv_engine s
  else
    status_of (respond (sv_ops out)) = recovered_status inner /\
    srv_engine (sv_state out) = sv_state inner.
Proof.
  intros Hresp. cbv zeta. unfold wrap_delivery_handler. rewrite shell_spec. fold (gate maxConcurrent route h).
  destruct (metrics_frame metrics (gate maxConcurrent route h) r s) as (Hp & Hf & Hr & He & Hs).
  destruct (asked_frame metrics s) as [Hae Has].
  destruct (gate_spec maxConcurrent route h r (asked metrics s)) as [Hslots Hgate].
  set (out := metrics_middleware clock metrics (gate maxConcurrent route h) r s) in *.
  set (g := gate maxConcurrent route h r (asked metrics s)) in *.
  unfold full in *. rewrite Hae, Has in Hgate. unfold returns. cbn [sv_panic sv_ops sv_state].
  assert (Hok : Forall respects (sv_ops g)).
  { destruct (negb _); [destruct Hgate as (_ & -> & _); apply respects_too_many|].
    destruct (_ && _); destruct Hgate as (_ & -> & _); [apply respects_http_error|done]. }
  split; [done|]. split.
  { apply security_sent, Forall_app. split; [by apply Hr|].
    destruct (sv_panic out); [apply respects_http_error|done]. }
  split. { intros route'. unfold slots_of. rewrite Hs. fold (slots_of (sv_state g) route'). by rewrite Hslots, Has. }
  rewrite respond_status, security_status, Hf, He, Hp. unfold recovered_status, limited.
  destruct (negb _); [by destruct Hgate as (-> & -> & ->)|].
  destruct (_ && _); [by destruct Hgate as (-> & -> & ->)|].
  destruct Hgate as (-> & -> & ->). split; [|done].
  destruct (sv_panic (h r (srv_engine s))); [by apply first_status_app|by rewrite app_nil_r].
Qed.
End Stack.

Definition failing : handler nat := fun _ n => mkServed true [SetHeader "Content-Type" "application/json"] (S n).
Definition idle : Server nat := mkServer 0%nat (Some (new_rate_limiter 1 60)) ∅ [] 0.

Lemma stack_answers_witness :
  let r := claiming "198.51.100.1" in
  let out := wrap_delivery_handler (fun _ => 0) 1 true "/deliver" failing r idle in
  let inner := failing r (srv_engine idle) in
  sv_panic out = false /\
  (forall k v, In (k, v) security_fields -> header_get (sent_header (respond (sv_ops out))) k = v) /\
  (forall route', slots_of (sv_state out) route' = slots_of idle route') /\
  if limited (fun _ => 0) true r idle then
    status_of (respond (sv_ops out)) = 429 /\ srv_engine (sv_state out) = srv_engine idle
  else if full 1 "/deliver" idle then
    status_of (respond (sv_ops out)) = 503 /\ srv_engine (sv_state out) = srv_engine idle
  else
    status_of (respond (sv_ops out)) = recovered_status inner /\
    srv_engine (sv_state out) = sv_state inner.
Proof.
  apply (stack_answers (fun _ => 0) 1 true "/deliver" failing (claiming "198.51.100.1") idle).
  constructor; [apply respects_content_type|constructor].
Defined.

(** The panicking handler's client gets 500, the next request 429. *)
Example panic_then_limit :
  let call := wrap_delivery_handler (fun _ => 0) 1 true "/deliver" failing in
  let out := call (claiming "198.51.100.1") idle in
  let out' := call (claiming "198.51.100.1") (sv_state out) in
  (status_of (respond (sv_ops out)), status_of (respond (sv_ops out')), srv_engine (sv_state out'),
   map hm_status (srv_metrics (sv_state out'))) =
  (500, 429, 1%nat, ["429"]).
Proof. vm_compute. reflexivity. Qed.

(** Every route has its own semaphore: with a limit of one, two requests are
    inside when they came by two routes. *)
Example limit_is_per_route :
  let busy := mkServer 0%nat None {["/deliver" := 1%nat]} [] 0 in
  map (fun route => status_of (respond (sv_ops
         (wrap_delivery_handler (fun _ => 0) 1 false route
            (fun _ n => returns [WriteHeader 200] n) (claiming "") busy))))
    ["/deliver"; "/deliver/smtp"] = [503; 200].
Proof. vm_compute. reflexivity. Qed.
