(* ===== verification/Handler.v ===== *)
(** * The delivery endpoints (internal/handler/handler_new.go)

    What a request to /deliver, /deliver/smtp and /deliver/lmtp must satisfy
    before the engine is called, what the engine is called with, and what the
    client is told.  The engine is an interface of the code and a class here;
    the delivery engine of Deliverer.v is one instance of it. *)

From stdpp Require Import base gmap list strings.
From Stdlib Require Import ZArith Lia Ascii.
From S2P Require Import Prelude GoString GoError NetIP Base64 Config Delivery DKIM Effects Deliverer DelivererSafety Address.
From S2P Require Import Compose Http Json ApiJson Middleware ServerStack.
#[local] Open Scope Z_scope.

(** ** The engine's interface *)

(** The arguments of [DeliverMessage], the values of its context first. *)
Record DeliverCall : Type := mkDeliverCall {
  dc_traceID : string;
  dc_timeout : Z;
  dc_from : string;
  dc_to : string;
  dc_message : string;
  dc_transport : string;
  dc_sign : sign_request;
  dc_inboundAuth : option InboundAuthResults
}.

(** [DeliveryEngine]; [None] is a panic. *)
Class DeliveryEngine (E : Type) : Type := {
  engine_deliver : DeliverCall -> E -> option DeliveryResult * E
}.

(** What one call of a handler reads of the world beside its request: the
    random bytes, the clock, and the order in which a map is iterated. *)
Record Ambient : Type := mkAmbient {
  am_random : option (list Z);
  am_nanos : Z;
  am_now : Z;
  am_iterate : gmap string string -> list (string * string)
}.

(** ** The handler *)

Record Handler : Type := mkHandler { h_config : Config; h_dkimPrivateKey : string }.

(** [NewHandler]; [keyFile] is the answer of [os.ReadFile]. *)
Definition new_handler (cfg : Config) (keyFile : result error string) : Handler :=
  mkHandler cfg
    (if dkim_Enabled (DKIM cfg) && negb (is_empty (dkim_PrivateKeyPath (DKIM cfg))) then
       match keyFile with Ok keyData => keyData | Err _ => "" end
     else "").

(** [hex.EncodeToString], [%016x] *)
Definition hex_byte (b : Z) : string := String (hex_digit (b / 16)) (str1 (hex_digit (b mod 16))).
Definition hex_bytes (l : list Z) : string := foldr (fun b s => hex_byte b +:+ s) "" l.
Fixpoint zeros (n : nat) : string := match n with O => "" | S n => String "0" (zeros n) end.
Definition hex16 (n : Z) : string :=
  let h := hex_string 17 (Z.abs n) "" in
  let sign := if n <? 0 then "-" else "" in
  sign +:+ zeros (16 - slen sign - slen h) +:+ h.

Definition generate_trace_id (amb : Ambient) : string :=
  match am_random amb with Some b => hex_bytes b | None => hex16 (am_nanos amb) end.

(** [mapDeliveryStatusToHTTP] *)
Definition map_delivery_status_to_http (status : string) : Z :=
  if seqb status "delivered" then 200
  else if seqb status "temp_fail" then 429
  else if seqb status "rate_limit" then 429
  else if seqb status "hard_bounce" then 554
  else if seqb status "timeout" then 504
  else if seqb status "unknown" then 504
  else if seqb status "error" then 500
  else 500.

(** [decodeBase64Header] *)
Definition decode_base64_header (value : string) : string :=
  if is_empty value then ""
  else match base64_decode value with Ok decoded => decoded | Err _ => value end.

(** [parseHeaderMode] *)
Definition parse_header_mode (r : Request) (body : Body) : MessageRequest :=
  let get := header_get (rq_Header r) in
  let data := match read_all body with Ok data => data | Err _ => "" end in
  let dkimRes := get "X-Inbound-DKIM-Result" in
  let spfRes := get "X-Inbound-SPF-Result" in
  let dmarcRes := get "X-Inbound-DMARC-Result" in
  mkMessageRequest (get "X-Envelope-From") (get "X-Envelope-To") "" "" "" [] ∅ "" data
    (decode_base64_header (get "X-DKIM-Private-Key")) (get "X-DKIM-Selector") (get "X-DKIM-Domain") false
    (decode_base64_header (get "X-ARC-Private-Key")) (get "X-ARC-Selector") (get "X-ARC-Domain")
    (if negb (is_empty dkimRes) || negb (is_empty spfRes) || negb (is_empty dmarcRes)
     then Some (mkInboundAuth dkimRes spfRes dmarcRes) else None).

Section Handler.
Context `{MailLib, Unicode} {E : Type} `{DeliveryEngine E}.

(** A check that fails answers with [http.Error] and returns. *)
Abbreviation refuse text code := (Err (http_error text code)).

(** Steps 1 to 3: who asks, and the request in either mode. *)
Definition authorized (h : Handler) (r : Request) : bool :=
  let token := inbound_AuthToken (Inbound (h_config h)) in
  is_empty token || seqb (trim_prefix (header_get (rq_Header r) "Authorization") "Bearer ") token.

Definition max_body (h : Handler) : Z :=
  let maxBody := inbound_MaxBodySizeBytes (Inbound (h_config h)) in
  if maxBody <=? 0 then 35 * 1024 * 1024 else maxBody.

Definition header_mode (r : Request) : bool :=
  has_prefix (header_get (rq_Header r) "Content-Type") "message/rfc822".

Definition read_request (h : Handler) (r : Request) : result (list write_op) MessageRequest :=
  let body := max_bytes_reader (max_body h) (rq_Body r) in
  if header_mode r then Ok (parse_header_mode r body)
  else match json_decode body with
       | Ok req => Ok req
       | Err _ => refuse "Invalid JSON or request body too large" 400
       end.

(** Step 4. *)
Definition is_raw_mode (req : MessageRequest) : bool := negb (is_empty (mr_RawMessage req)).
Definition is_composed_mode (req : MessageRequest) : bool :=
  negb (is_empty (mr_Subject req)) || negb (is_empty (mr_Text req)) || negb (is_empty (mr_HTML req)).

Definition check_request (req : MessageRequest) : result (list write_op) unit :=
  if is_empty (mr_To req) then refuse "Missing 'to' field" 400
  else match validate_email_address (mr_From req) "from" true with
  | Some e => refuse ("Invalid 'from' address: " +:+ error_text e) 400
  | None =>
  match validate_email_address (mr_To req) "to" false with
  | Some e => refuse ("Invalid 'to' address: " +:+ error_text e) 400
  | None =>
  if is_raw_mode req && is_composed_mode req then
    refuse "Cannot use both 'raw_message' and composed fields (subject/text/html)" 400
  else if negb (is_raw_mode req) && negb (is_composed_mode req) then
    refuse "Must provide either 'raw_message' or at least one of 'subject'/'text'/'html'" 400
  else Ok tt
  end end.

(** Step 5. *)
Definition prepare_message (amb : Ambient) (req : MessageRequest) : result (list write_op) string :=
  if is_raw_mode req then Ok (mr_RawMessage req)
  else match build_raw_message (am_now amb) (am_iterate amb (mr_Headers req)) req with
       | Ok raw => Ok raw
       | Err _ => refuse "Failed to build message" 500
       end.

(** Step 6: the signing parameters. *)
Definition dkim_params (h : Handler) (req : MessageRequest) : string * string * string * bool :=
  let cfg := DKIM (h_config h) in
  if dkim_Enabled cfg then
    let skip := if negb (mr_SkipDKIMValidation req) && dkim_SkipValidation cfg
                then dkim_SkipValidation cfg else mr_SkipDKIMValidation req in
    if is_empty (mr_DKIMPrivateKey req) && negb (is_empty (h_dkimPrivateKey h)) then
      (h_dkimPrivateKey h,
       if is_empty (mr_DKIMSelector req) && negb (is_empty (dkim_Selector cfg))
       then dkim_Selector cfg else mr_DKIMSelector req,
       if is_empty (mr_DKIMDomain req) && negb (is_empty (dkim_Domain cfg))
       then dkim_Domain cfg else mr_DKIMDomain req, skip)
    else (mr_DKIMPrivateKey req, mr_DKIMSelector req, mr_DKIMDomain req, skip)
  else ("", "", "", false).

Definition arc_params (h : Handler) (req : MessageRequest) : string * string * string :=
  let cfg := ARC (h_config h) in
  if arc_Enabled cfg then
    (mr_ARCPrivateKey req,
     if is_empty (mr_ARCSelector req) && negb (is_empty (arc_Selector cfg)) then arc_Selector cfg else mr_ARCSelector req,
     if is_empty (mr_ARCDomain req) && negb (is_empty (arc_Domain cfg)) then arc_Domain cfg else mr_ARCDomain req)
  else ("", "", "").

Definition signing (h : Handler) (req : MessageRequest) : sign_request :=
  let '(dkimKey, dkimSel, dkimDom, skip) := dkim_params h req in
  let '(arcKey, arcSel, arcDom) := arc_params h req in
  mkSignRequest dkimKey dkimSel dkimDom skip arcKey arcSel arcDom.

(** Everything before the engine. *)
Definition prepare_call (h : Handler) (amb : Ambient) (transport : string) (r : Request)
    : result (list write_op) DeliverCall :=
  let traceID := header_get (rq_Header r) "X-Trace-Id" in
  let traceID := if is_empty traceID then generate_trace_id amb else traceID in
  if negb (seqb (rq_Method r) "POST") then refuse "Method not allowed" 405
  else if negb (authorized h r) then refuse "Unauthorized" 401
  else
  let? req := read_request h r in
  let? _ := check_request req in
  let? rawMessage := prepare_message amb req in
  Ok (mkDeliverCall traceID (seconds (out_MaxTotalDeliverySeconds (Outbound (h_config h))))
        (mr_From req) (mr_To req) rawMessage transport (signing h req) (mr_InboundAuth req)).

(** The result as a response. *)
Definition answer (res : DeliveryResult) : list write_op :=
  [SetHeader "Content-Type" "application/json"; WriteHeader (map_delivery_status_to_http (Status res));
   Write (json_result res)].

(** [handleDeliverWithTransport] *)
Definition handle_deliver_with_transport (h : Handler) (amb : Ambient) (transport : string) : handler E := fun r e =>
  match prepare_call h amb transport r with
  | Err ops => returns ops e
  | Ok call =>
      match engine_deliver call e with
      | (Some res, e) => returns (answer res) e
      | (None, e) => mkServed true [] e
      end
  end.

(** [HandleDeliver], [HandleDeliverSMTP], [HandleDeliverLMTP] *)
Definition handle_deliver (h : Handler) (amb : Ambient) : handler E := handle_deliver_with_transport h amb "".
Definition handle_deliver_smtp (h : Handler) (amb : Ambient) : handler E :=
  handle_deliver_with_transport h amb ProtocolSMTP.
Definition handle_deliver_lmtp (h : Handler) (amb : Ambient) : handler E := fun r e =>
  if is_empty (out_DefaultLMTPDestination (Outbound (h_config h))) then
    returns [SetHeader "Content-Type" "application/json"; WriteHeader 503;
             Write (json_error "LMTP destination not configured" +:+ str1 LF)] e
  else handle_deliver_with_transport h amb ProtocolLMTP r e.
End Handler.

(** ** The engine behind the interface *)

Definition in_context (env : Env) (traceID : string) (deadline : option Z) : Env :=
  mkEnv traceID deadline (e_ctx_err env) (e_now env) (e_stop env) (e_done_first env) (e_call env)
    (e_nil_writer env) (e_end env) (e_extension env) (e_input env) (e_rounds env)
    (e_health_clock env) (e_mx env) (e_sort env) (e_host env) (e_txt env) (e_random env) (e_keys env)
    (e_interfere env).

(** [context.WithTimeout], then [DeliverMessage]. *)
Definition deliverer_engine `{DKIM.Crypto, Unicode} (env : Env) (d : Deliverer) : DeliveryEngine world := {|
  engine_deliver call w :=
    let deadline := e_now env (w_trace w) + dc_timeout call in
    deliver_message (in_context env (dc_traceID call) (Some deadline)) d (dc_from call) (dc_to call)
      (dc_message call) (dc_transport call) (dc_sign call) (dc_inboundAuth call) w
|}.

(** ** Which requests reach the engine *)

(** An engine that answers by a function and remembers its calls. *)
Definition recorder (reply : DeliverCall -> option DeliveryResult) : DeliveryEngine (list DeliverCall) := {|
  engine_deliver call log := (reply call, call :: log)
|}.

Section Gate.
Context `{MailLib, Unicode}.

Lemma http_status_200 s : map_delivery_status_to_http s = 200 <-> s = "delivered".
Proof.
  unfold map_delivery_status_to_http. split; [|by intros ->].
  destruct (seqb s "delivered") eqn:E; [by apply seqb_true in E|]. by repeat case_match.
Qed.

(** What a request must be. *)
Record admissible (h : Handler) (amb : Ambient) (r : Request) (req : MessageRequest) (msg : string) : Prop := {
  adm_method : rq_Method r = "POST";
  adm_token : inbound_AuthToken (Inbound (h_config h)) <> "" ->
    trim_prefix (header_get (rq_Header r) "Authorization") "Bearer " = inbound_AuthToken (Inbound (h_config h));
  adm_read : read_request h r = Ok req;
  adm_from : strip_angle_brackets (mr_From req) = "" \/ accepted (strip_angle_brackets (mr_From req));
  adm_to : accepted (strip_angle_brackets (mr_To req));
  adm_content : (mr_RawMessage req <> "" /\ mr_Subject req = "" /\ mr_Text req = "" /\ mr_HTML req = "" /\
                 msg = mr_RawMessage req) \/
                (mr_RawMessage req = "" /\ (mr_Subject req <> "" \/ mr_Text req <> "" \/ mr_HTML req <> "") /\
                 build_raw_message (am_now amb) (am_iterate amb (mr_Headers req)) req = Ok msg)
}.

Lemma authorized_true h r :
  authorized h r = true <->
  (inbound_AuthToken (Inbound (h_config h)) <> "" ->
   trim_prefix (header_get (rq_Header r) "Authorization") "Bearer " = inbound_AuthToken (Inbound (h_config h))).
Proof.
  unfold authorized. rewrite orb_true_iff, is_empty_true, seqb_true.
  destruct (decide (inbound_AuthToken (Inbound (h_config h)) = "")); intuition.
Qed.

(** The two modes. *)
Lemma raw_mode_spec req : if is_raw_mode req then mr_RawMessage req <> "" else mr_RawMessage req = "".
Proof. unfold is_raw_mode. by destruct (mr_RawMessage req). Qed.
Lemma composed_mode_spec req :
  if is_composed_mode req then mr_Subject req <> "" \/ mr_Text req <> "" \/ mr_HTML req <> ""
  else mr_Subject req = "" /\ mr_Text req = "" /\ mr_HTML req = "".
Proof.
  unfold is_composed_mode. destruct (mr_Subject req); [|by left]. destruct (mr_Text req); [|by right; left].
  destruct (mr_HTML req); [done|by right; right].
Qed.

Lemma check_request_ok req :
  check_request req = Ok tt <->
  (strip_angle_brackets (mr_From req) = "" \/ accepted (strip_angle_brackets (mr_From req))) /\
  accepted (strip_angle_brackets (mr_To req)) /\ is_raw_mode req <> is_composed_mode req.
Proof.
  pose proof (validate_email_spec (mr_From req) "from" true) as Hf.
  pose proof (validate_email_spec (mr_To req) "to" false) as Ht.
  unfold check_request. destruct (is_empty (mr_To req)) eqn:Ee.
  { apply is_empty_true in Ee. rewrite Ee. split; [done|]. intros (_ & (l & d & Hd & _) & _). by destruct l. }
  destruct (validate_email_address (mr_From req) "from" true).
  { split; [done|]. intros [Hfrom _]. apply proj2 in Hf. discriminate Hf. intuition. }
  destruct (validate_email_address (mr_To req) "to" false).
  { split; [done|]. intros (_ & Hto & _). apply proj2 in Ht. discriminate Ht. by right. }
  apply proj1 in Hf, Ht. specialize (Hf eq_refl). specialize (Ht eq_refl).
  destruct (is_raw_mode req), (is_composed_mode req); simpl; intuition done.
Qed.

Lemma prepare_call_ok h amb transport r call :
  prepare_call h amb transport r = Ok call <->
  exists req msg, admissible h amb r req msg /\
    call = mkDeliverCall
      (if is_empty (header_get (rq_Header r) "X-Trace-Id") then generate_trace_id amb
       else header_get (rq_Header r) "X-Trace-Id")
      (seconds (out_MaxTotalDeliverySeconds (Outbound (h_config h))))
      (mr_From req) (mr_To req) msg transport (signing h req) (mr_InboundAuth req).
Proof.
  unfold prepare_call. split.
  - destruct (seqb (rq_Method r) "POST") eqn:Em; [|done]. apply seqb_true in Em.
    destruct (authorized h r) eqn:Ea; [|done]. cbn [negb]. pose proof (proj1 (authorized_true h r) Ea) as Htok.
    destruct (read_request h r) as [req|] eqn:Er; [|done].
    destruct (check_request req) as [[]|] eqn:Ec; [|done]. apply check_request_ok in Ec as (Hf & Ht & Hm).
    destruct (prepare_message amb req) as [msg|] eqn:Ep; [|done]. intros Hc. apply Ok_inj in Hc as <-.
    exists req, msg. split; [|done]. split; [exact Em|exact Htok|exact Er|exact Hf|exact Ht|]. pose proof (raw_mode_spec req) as Hraw. pose proof (composed_mode_spec req) as Hcomp.
    unfold prepare_message in Ep. destruct (is_raw_mode req), (is_composed_mode req); try done.
    + left. apply Ok_inj in Ep as <-. tauto.
    + right. destruct (build_raw_message _ _ _) eqn:Eb; [|done]. by apply Ok_inj in Ep as <-.
  - intros (req & msg & [Hm Htok Hr Hf Ht Hc] & ->). apply (proj2 (authorized_true h r)) in Htok.
    rewrite Hm, seqb_refl, Htok, Hr. cbn [negb].
    pose proof (raw_mode_spec req) as Hraw. pose proof (composed_mode_spec req) as Hcomp.
    assert (Hck : check_request req = Ok tt /\ prepare_message amb req = Ok msg).
    { rewrite check_request_ok. unfold prepare_message.
      destruct Hc as [(Hr' & Hs & Htx & Hh & ->)|(Hr' & Hc & Hb)].
      - destruct (is_raw_mode req); [|done]. destruct (is_composed_mode req); [|done].
        destruct Hcomp as [?|[?|?]]; done.
      - destruct (is_raw_mode req); [done|]. rewrite Hb. destruct (is_composed_mode req); [done|].
        destruct Hcomp as (? & ? & ?), Hc as [?|[?|?]]; done. }
    by destruct Hck as [-> ->].
Qed.

(** A refusal has a status of its own. *)
Definition refusal (ops : list write_op) : Prop := In (first_status ops) [400; 401; 405; 500].

Lemma check_request_refusal req ops : check_request req = Err ops -> refusal ops.
Proof.
  unfold check_request, refusal. destruct (is_empty (mr_To req)); [intros [= <-]; simpl; tauto|].
  destruct (validate_email_address (mr_From req) "from" true); [intros [= <-]; simpl; tauto|].
  destruct (validate_email_address (mr_To req) "to" false); [intros [= <-]; simpl; tauto|].
  destruct (is_raw_mode req && is_composed_mode req); [intros [= <-]; simpl; tauto|].
  destruct (negb _ && _); [intros [= <-]; simpl; tauto|done].
Qed.

Lemma refused_status h amb transport r ops :
  prepare_call h amb transport r = Err ops -> In (status_of (respond ops)) [400; 401; 405; 500].
Proof.
  rewrite respond_status. change (prepare_call h amb transport r = Err ops -> refusal ops). unfold prepare_call.
  destruct (negb (seqb (rq_Method r) "POST")); [intros [= <-]; unfold refusal; simpl; tauto|].
  destruct (negb (authorized h r)); [intros [= <-]; unfold refusal; simpl; tauto|].
  destruct (read_request h r) as [req|ops'] eqn:Er.
  2: { intros [= <-]. unfold read_request in Er. destruct (header_mode r); [done|].
       destruct (json_decode _); [done|]. injection Er as <-. unfold refusal. simpl. tauto. }
  destruct (check_request req) as [[]|ops'] eqn:Ec; [|intros [= <-]; by eapply check_request_refusal].
  destruct (prepare_message amb req) as [msg|ops'] eqn:Ep; [done|]. intros [= <-].
  unfold prepare_message in Ep. destruct (is_raw_mode req); [done|].
  destruct (build_raw_message _ _ _); [done|]. injection Ep as <-. unfold refusal. simpl. tauto.
Qed.

(** C7: the engine is called exactly for a POST with the configured token, in
    either mode, whose sender is the null sender or a valid address, whose
    recipient is a valid address, and which carries either a raw message or
    something to compose, but not both; it is called once, with the addresses
    and message of the request and the transport of the endpoint.  The client
    gets 200 exactly when the engine says "delivered", and a status of its own
    when the request was refused. *)
Theorem delivery_gate reply h amb transport r log :
  let out := @handle_deliver_with_transport _ _ _ (recorder reply) h amb transport r log in
  match sv_state out with
  | call :: log' =>
      (log' = log /\ exists req msg, admissible h amb r req msg /\
         (dc_from call, dc_to call, dc_message call, dc_transport call, dc_sign call, dc_inboundAuth call) =
         (mr_From req, mr_To req, msg, transport, signing h req, mr_InboundAuth req) /\
         match reply call with
         | Some res => sv_panic out = false /\
             (status_of (respond (sv_ops out)) = 200 <-> Status res = "delivered")
         | None => sv_panic out = true
         end) \/
      (call :: log' = log /\ (forall req msg, ~ admissible h amb r req msg) /\ sv_panic out = false /\
       In (status_of (respond (sv_ops out))) [400; 401; 405; 500])
  | [] => log = [] /\ (forall req msg, ~ admissible h amb r req msg) /\ sv_panic out = false /\
          In (status_of (respond (sv_ops out))) [400; 401; 405; 500]
  end.
Proof.
  unfold handle_deliver_with_transport.
  destruct (prepare_call h amb transport r) as [call|ops] eqn:Ec.
  - apply prepare_call_ok in Ec as (req & msg & Ha & ->). cbn [engine_deliver recorder].
    set (call := mkDeliverCall _ _ _ _ _ _ _ _).
    destruct (reply call) as [res|] eqn:Er; cbn [sv_state sv_panic sv_ops returns]; left; (split; [done|]);
      exists req, msg; (split; [done|]); (split; [done|]); rewrite Er; [|done].
    split; [done|]. rewrite respond_status. apply http_status_200.
  - assert (Hno : forall req msg, ~ admissible h amb r req msg).
    { intros req msg Ha. assert (is_ok (prepare_call h amb transport r) = true) as Hok; [|by rewrite Ec in Hok].
      erewrite (proj2 (prepare_call_ok h amb transport r _)); [done|]. by exists req, msg. }
    pose proof (refused_status h amb transport r ops Ec) as Hs.
    cbn [sv_state sv_panic sv_ops returns]. destruct log as [|c log]; [done|by right].
Qed.

(** The configured selector and domain come with the configured key only. *)
Lemma config_selector_with_config_key h req :
  dkimSelector (signing h req) <> mr_DKIMSelector req \/ dkimDomain (signing h req) <> mr_DKIMDomain req ->
  dkimPrivateKey (signing h req) = h_dkimPrivateKey h /\ mr_DKIMPrivateKey req = "" \/
  dkim_Enabled (DKIM (h_config h)) = false /\ dkimPrivateKey (signing h req) = "".
Proof.
  unfold signing. destruct (arc_params h req) as [[? ?] ?] eqn:Ea. clear Ea. unfold dkim_params.
  destruct (dkim_Enabled (DKIM (h_config h))); [|by right].
  destruct (is_empty (mr_DKIMPrivateKey req)) eqn:Ek; [apply is_empty_true in Ek|]; cbn [andb].
  - destruct (negb (is_empty (h_dkimPrivateKey h))); [by left|]. simpl. intuition done.
  - simpl. intuition done.
Qed.
End Gate.

(** ** The status tells the truth *)

Section Truth.
Context `{MailLib, DKIM.Crypto, Unicode}.

Lemma in_context_documented env traceID deadline : documented env -> documented (in_context env traceID deadline).
Proof. by intros [? ? ?]; split. Qed.

Lemma http_status_504 s : map_delivery_status_to_http s = 504 <-> s = "timeout" \/ s = "unknown".
Proof.
  unfold map_delivery_status_to_http. split; [|by intros [-> | ->]].
  destruct (seqb s "delivered"), (seqb s "temp_fail"), (seqb s "rate_limit"), (seqb s "hard_bounce"); try done.
  destruct (seqb s "timeout") eqn:Et; [left; by apply seqb_true|].
  destruct (seqb s "unknown") eqn:Eu; [right; by apply seqb_true|]. by destruct (seqb s "error").
Qed.

End Truth.

(** ** Keys in headers *)

(** A byte the decoder refuses wherever it stands. *)
Definition foreign (c : ascii) : bool :=
  match b64_digit c with Some _ => false | None => negb (line_break c || bool_decide (c = pad)) end.

Lemma b64_end_foreign s si out c : foreign c = true -> no_byte c s = false -> is_ok (b64_end s si out) = false.
Proof.
  intros Hc. revert si. unfold no_byte. induction s as [|d s IH]; intros si; [done|]. cbn [sall b64_end].
  destruct (line_break d) eqn:El; [|done]. intros Hs. apply IH.
  destruct (bool_decide (c = d)) eqn:E; [|done]. apply bool_decide_eq_true in E as ->.
  unfold foreign in Hc. rewrite El in Hc. by destruct (b64_digit d).
Qed.

Lemma b64_second_foreign s si out c :
  foreign c = true -> no_byte c s = false -> is_ok (b64_second_pad s si out) = false.
Proof.
  intros Hc. revert si. unfold no_byte. induction s as [|d s IH]; intros si; [done|]. cbn [sall b64_second_pad].
  intros Hs. destruct (bool_decide (c = d)) eqn:E.
  - apply bool_decide_eq_true in E as ->. unfold foreign in Hc. destruct (b64_digit d); [done|].
    apply negb_true_iff, orb_false_iff in Hc as [-> ->]. done.
  - cbn [negb andb] in Hs. destruct (line_break d); [by apply IH|].
    destruct (bool_decide (d = pad)); [by eapply b64_end_foreign|done].
Qed.

Lemma b64_decode_foreign s si g c : foreign c = true -> no_byte c s = false -> is_ok (b64_decode s si g) = false.
Proof.
  intros Hc. revert si g. unfold no_byte. induction s as [|d s IH]; intros si g; [done|]. cbn [sall b64_decode].
  intros Hs. destruct (bool_decide (c = d)) eqn:E.
  - apply bool_decide_eq_true in E as ->. unfold foreign in Hc. destruct (b64_digit d); [done|].
    apply negb_true_iff, orb_false_iff in Hc as [-> ->]. done.
  - cbn [negb andb] in Hs. specialize (fun si g => IH si g Hs) as IH'.
    destruct (b64_digit d) as [v|].
    + destruct (_ =? 3)%nat; [|apply IH']. specialize (IH' (si + 1) []). by destruct (b64_decode s (si + 1) []).
    + destruct (line_break d); [apply IH'|]. destruct (bool_decide (d = pad)); [cbn [negb]|done].
      destruct (length g) as [|[|[|n]]]; [done|done|by eapply b64_second_foreign|by eapply b64_end_foreign].
Qed.

(** A private key in a header arrives as it was sent, both in base64 and
    as a plain PEM text (anything with a hyphen in it). *)
Theorem key_header_round_trip key :
  decode_base64_header (base64_encode key) = key /\
  (no_byte "-" key = false -> decode_base64_header key = key).
Proof.
  unfold decode_base64_header. split.
  - destruct (is_empty (base64_encode key)) eqn:Ee; [|by rewrite base64_round_trip].
    apply is_empty_true in Ee. pose proof (base64_round_trip key) as Hr. rewrite Ee in Hr. by apply Ok_inj in Hr.
  - intros Hk. destruct (is_empty key) eqn:Ee; [by apply is_empty_true in Ee as ->|].
    unfold base64_decode. pose proof (b64_decode_foreign key 0 [] "-" eq_refl Hk) as Hf.
    by destruct (b64_decode key 0 []).
Qed.

(** ** Behind the middlewares *)

Lemma delivery_handler_respects `{MailLib, Unicode} {E} `{DeliveryEngine E} h amb transport r (e : E) :
  Forall respects (sv_ops (handle_deliver_with_transport h amb transport r e)).
Proof.
  unfold handle_deliver_with_transport.
  destruct (prepare_call h amb transport r) as [call|ops] eqn:Ec.
  - destruct (engine_deliver call e) as [[res|] e']; [|by constructor]. change (Forall respects (answer res)). unfold answer.
    rewrite !Forall_cons. split; [apply respects_content_type|]. split; [apply (respects_plain _ "")|].
    split; [by apply (respects_plain 0)|done].
  - change (Forall respects ops). revert Ec. unfold prepare_call.
    destruct (negb _); [intros [= <-]; apply respects_http_error|].
    destruct (negb _); [intros [= <-]; apply respects_http_error|].
    destruct (read_request h r) as [req|ops'] eqn:Er.
    2: { intros [= <-]. unfold read_request in Er. destruct (header_mode r); [done|].
         destruct (json_decode _); [done|]. injection Er as <-. apply respects_http_error. }
    destruct (check_request req) as [[]|ops'] eqn:Ek.
    2: { intros [= <-]. unfold check_request in Ek.
         repeat match type of Ek with (if ?b then _ else _) = _ => destruct b | (match ?x with _ => _ end) = _ => destruct x end;
           try done; injection Ek as <-; apply respects_http_error. }
    destruct (prepare_message amb req) as [msg|ops'] eqn:Ep; [done|]. intros [= <-].
    unfold prepare_message in Ep. destruct (is_raw_mode req); [done|].
    destruct (build_raw_message _ _ _); [done|]. injection Ep as <-. apply respects_http_error.
Qed.

(** ** Witnesses and examples *)

Definition quiet_ambient : Ambient :=
  mkAmbient (Some [0; 1; 171; 205; 239; 16; 32; 255]) 0 0 map_to_list.

(** The default configuration with a token and DKIM. *)
Definition api_config : Config :=
  let c := default_config in
  mkConfig (Logging c)
    (mkInboundConfig ":8025" "secret" 60 30 240 120 false 100 60 0)
    (TLS c) (DNS c) (Metrics c) (Admin c) (Outbound c) (Reputation c) (Cluster c)
    (mkDKIMConfig true "cfgsel" "cfg.example" "/key" false "" "" "" "" 0) (ARC c) (SRS_ c).
Definition api_handler : Handler := new_handler api_config (Ok "PEM").

Definition api_headers (l : list (string * string)) : header :=
  foldr (fun kv h => header_set kv.1 kv.2 h) ∅ l.
Definition raw_request (auth to body : string) : Request :=
  mkRequest "POST" "/deliver"
    (api_headers [("Authorization", auth); ("Content-Type", "message/rfc822"); ("X-Envelope-From", "a@example.org");
                  ("X-Envelope-To", to); ("X-DKIM-Private-Key", "Zm9v"); ("X-Trace-Id", "t1")])
    (mkBody body None) "192.0.2.9:1234" None.
Definition json_request (body : string) : Request :=
  mkRequest "POST" "/deliver" (api_headers [("Authorization", "secret")]) (mkBody (dq body) None) "192.0.2.9:1234" None.
Definition composed : string := "{'from':'a@e.org','to':'b@e.net','text':'t'}".
Definition long_body : string := "a body of more than the sixty bytes that the configuration allows".

Definition delivers_all (call : DeliverCall) : option DeliveryResult :=
  Some (mkResult (dc_traceID call) "delivered" 250 "ok" "mx" "" 1 "" None).

(** The status, and the calls of the engine. *)
Definition try (r : Request) : Z * list DeliverCall :=
  let out := @handle_deliver_with_transport toy_mail plain_unicode _ (recorder delivers_all)
               api_handler quiet_ambient "smtp" r [] in
  (status_of (respond (sv_ops out)), sv_state out).

Example requests :
  map (fun r => let '(status, calls) := try r in (status, length calls))
    [raw_request "Bearer secret" "b@example.net" "Subject: x"; raw_request "secret" "b@example.net" "x";
     raw_request "Bearer wrong" "b@example.net" "x"; raw_request "Bearer secret" "b@localhost" "x";
     raw_request "Bearer secret" "b@example.net" ""; raw_request "Bearer secret" "b@example.net" long_body;
     json_request composed; json_request "{"] =
  [(200, 1%nat); (200, 1%nat); (401, 0%nat); (400, 0%nat); (400, 0%nat); (400, 0%nat); (200, 1%nat); (400, 0%nat)].
Proof. vm_compute. reflexivity. Qed.

Example raw_call :
  (try (raw_request "Bearer secret" "b@example.net" "x")).2 =
  [mkDeliverCall "t1" (200 * second) "a@example.org" "b@example.net" "x" "smtp"
     (mkSignRequest "foo" "" "" false "" "" "") None].
Proof. vm_compute. reflexivity. Qed.
Example composed_call :
  map (fun c => (dc_traceID c, dc_sign c)) (try (json_request composed)).2 =
  [("0001abcdef1020ff", mkSignRequest "PEM" "cfgsel" "cfg.example" false "" "" "")].
Proof. vm_compute. reflexivity. Qed.

(** The body is cut before the message is looked at: one that is too large in
    header mode is an empty one. *)
Example large_body_is_empty :
  read_all (max_bytes_reader 60 (mkBody long_body None)) = Err max_bytes_error /\
  mr_RawMessage (parse_header_mode (raw_request "" "" "")
                   (max_bytes_reader 60 (mkBody long_body None))) = "".
Proof. split; vm_compute; reflexivity. Qed.

(** The witness is a run with a server that refuses the message for now. *)
Definition busy_env : Env :=
  with_end yes_env (fun _ _ => Err (ErrSMTP 451 "busy" "SMTP error 451: busy")).

Lemma busy_documented : documented busy_env.
Proof. by split. Qed.


Example busy_status :
  let out := @handle_deliver_with_transport toy_mail plain_unicode _
               (@deliverer_engine toy_crypto plain_unicode busy_env example_deliverer)
               api_handler quiet_ambient "smtp" (raw_request "Bearer secret" "b@example.net" "x")
               (start_world out_config ["198.51.100.1"] []) in
  (status_of (respond (sv_ops out)), copies (w_trace (sv_state out)),
   existsb odd_positive (w_trace (sv_state out))) = (429, 0%nat, false).
Proof. vm_compute. reflexivity. Qed.

Example end_to_end :
  let out := @handle_deliver_with_transport toy_mail plain_unicode _
               (@deliverer_engine toy_crypto plain_unicode yes_env example_deliverer)
               api_handler quiet_ambient "smtp" (raw_request "Bearer secret" "b@example.net" "x")
               (start_world out_config ["198.51.100.1"] []) in
  (status_of (respond (sv_ops out)), copies (w_trace (sv_state out))) = (200, 1%nat).
Proof. vm_compute. reflexivity. Qed.

(** A delivery that timed out before its message was sent is also a 504. *)
Example both_timeouts :
  map map_delivery_status_to_http ["timeout"; "unknown"; "temp_fail"; "rate_limit"; "hard_bounce"; "error"; ""] =
  [504; 504; 429; 429; 554; 500; 500].
Proof. vm_compute. reflexivity. Qed.
