(* ===== verification/CertCache.v ===== *)
(** * Certificate storage (internal/tls/storage)

    The interface of a certificate cache with the laws its users rely on; the
    S3 cache, and the cache gated by the cluster's leader, which keep the laws;
    and the two-tier cache of S3 and a local directory, with its circuit
    breaker, its background copies and its periodic synchronisation.  Log
    output is left out. *)

From stdpp Require Import base gmap list strings.
From Stdlib Require Import ZArith Lia.
From S2P Require Import Prelude GoString GoError Http.
#[local] Open Scope Z_scope.

(** ** The interface ([autocert.Cache])

    A cache is a state that changes under its operations: its own records, and
    the storage behind it.  Contexts are left out: an operation that is
    cancelled is one that fails. *)

Class Cache (S : Type) : Type := {
  cache_get : string -> S -> result error string * S;
  cache_put : string -> string -> S -> option error * S;
  cache_delete : string -> S -> option error * S
}.

Definition ErrCacheMiss : error := ErrSentinel "acme/autocert: certificate cache miss".

(** What is stored under each name. *)
Definition contents : Type := string -> option string.
Definition stored (k d : string) (v : contents) : contents := fun k' => if decide (k' = k) then Some d else v k'.
Definition removed (k : string) (v : contents) : contents := fun k' => if decide (k' = k) then None else v k'.

#[export] Instance contents_equiv : Equiv contents := fun v w => forall k, v k = w k.
#[export] Instance contents_equivalence : Equivalence (≡@{contents}).
Proof. split; [by intros v k|intros v w H k; by rewrite H|intros u v w H1 H2 k; by rewrite H1, H2]. Qed.
#[export] Instance stored_proper k d : Proper ((≡@{contents}) ==> (≡)) (stored k d).
Proof. intros v w H k'. unfold stored. by case_decide. Qed.
#[export] Instance removed_proper k : Proper ((≡@{contents}) ==> (≡)) (removed k).
Proof. intros v w H k'. unfold removed. by case_decide. Qed.

(** The laws: reading changes nothing, finds what is there and says "miss" only
    when nothing is; writing and deleting do what they say, and when they fail
    they have done it or not. *)
Class CacheLaws (S : Type) `{Cache S} : Type := {
  view : S -> contents;
  get_law k s : let '(r, s') := cache_get k s in
    view s' ≡ view s /\
    match r with
    | Ok d => view s k = Some d
    | Err e => e = ErrCacheMiss -> view s k = None
    end;
  put_law k d s : let '(r, s') := cache_put k d s in
    match r with
    | None => view s' ≡ stored k d (view s)
    | Some _ => view s' ≡ view s \/ view s' ≡ stored k d (view s)
    end;
  delete_law k s : let '(r, s') := cache_delete k s in
    match r with
    | None => view s' ≡ removed k (view s)
    | Some _ => view s' ≡ view s \/ view s' ≡ removed k (view s)
    end
}.

(** ** The S3 cache (s3_cache.go) *)

(** The client [S3API] on one bucket: an object's body is read after the
    answer; [no_such_key] is what [errors.As] finds. *)
Class S3API (S : Type) : Type := {
  GetObject : string -> S -> result error Body * S;
  PutObject : string -> string -> S -> option error * S;
  DeleteObject : string -> S -> option error * S;
  no_such_key : error -> bool
}.

Class S3Laws (S : Type) `{S3API S} : Type := {
  objects : S -> contents;
  get_object_law k s : let '(r, s') := GetObject k s in
    objects s' ≡ objects s /\
    match r with
    | Ok b => b.(body_err) = None -> objects s k = Some (body_data b)
    | Err e => (no_such_key e = true -> objects s k = None) /\ e <> ErrCacheMiss
    end;
  get_object_body k s b s' : GetObject k s = (Ok b, s') -> body_err b <> Some ErrCacheMiss;
  put_object_law k d s : let '(r, s') := PutObject k d s in
    match r with
    | None => objects s' ≡ stored k d (objects s)
    | Some _ => objects s' ≡ objects s \/ objects s' ≡ stored k d (objects s)
    end;
  delete_object_law k s : let '(r, s') := DeleteObject k s in
    match r with
    | None => objects s' ≡ removed k (objects s)
    | Some _ => objects s' ≡ objects s \/ objects s' ≡ removed k (objects s)
    end
}.

Section S3Cache.
Context {S : Type} `{S3API S} (Prefix : string).

Definition s3_get (key : string) (s : S) : result error string * S :=
  let fullKey := Prefix +:+ key in
  match GetObject fullKey s with
  | (Err e, s) => (if no_such_key e then Err ErrCacheMiss else Err e, s)
  | (Ok b, s) => (read_all b, s)
  end.
Definition s3_put (key data : string) (s : S) : option error * S := PutObject (Prefix +:+ key) data s.
Definition s3_delete (key : string) (s : S) : option error * S := DeleteObject (Prefix +:+ key) s.

Definition s3_cache : Cache S := {| cache_get := s3_get; cache_put := s3_put; cache_delete := s3_delete |}.
End S3Cache.

Lemma sapp_inj_l (a b c : string) : a +:+ b = a +:+ c -> b = c.
Proof. induction a as [|x a IH]; [done|]. cbn [String.append]. intros Heq. injection Heq. exact IH. Qed.

(** The cache's names are the objects under the prefix. *)
Definition s3_view {S} `{S3Laws S} (Prefix : string) (s : S) : contents := fun k => objects s (Prefix +:+ k).

Section S3Refinement.
Context {S : Type} `{S3Laws S} (Prefix : string).

Lemma s3_view_equiv s s' : objects s' ≡ objects s -> s3_view Prefix s' ≡ s3_view Prefix s.
Proof. intros Ho k. apply Ho. Qed.
Lemma s3_view_stored s s' k d :
  objects s' ≡ stored (Prefix +:+ k) d (objects s) -> s3_view Prefix s' ≡ stored k d (s3_view Prefix s).
Proof.
  intros Ho k'. unfold s3_view. rewrite (Ho _). unfold stored.
  destruct (decide (k' = k)) as [->|Hne]; [by rewrite decide_True|].
  rewrite decide_False; [done|]. intros Heq. by apply sapp_inj_l in Heq.
Qed.
Lemma s3_view_removed s s' k :
  objects s' ≡ removed (Prefix +:+ k) (objects s) -> s3_view Prefix s' ≡ removed k (s3_view Prefix s).
Proof.
  intros Ho k'. unfold s3_view. rewrite (Ho _). unfold removed.
  destruct (decide (k' = k)) as [->|Hne]; [by rewrite decide_True|].
  rewrite decide_False; [done|]. intros Heq. by apply sapp_inj_l in Heq.
Qed.

#[refine] Definition s3_cache_laws : @CacheLaws S (s3_cache Prefix) := {| view := s3_view Prefix |}.
Proof.
  - intros k s. cbn [cache_get s3_cache]. unfold s3_get.
    pose proof (get_object_law (Prefix +:+ k) s) as Hl. pose proof (get_object_body (Prefix +:+ k) s) as Hb.
    destruct (GetObject (Prefix +:+ k) s) as [[b|e] s'].
    + destruct Hl as [Ho Hd]. split; [by apply s3_view_equiv|]. unfold read_all. specialize (Hb b s' eq_refl).
      destruct (body_err b) as [e|] eqn:Ee; [|by apply Hd]. intros ->. by destruct Hb.
    + destruct Hl as (Ho & Hn & Hm). split; [by apply s3_view_equiv|].
      destruct (no_such_key e); [intros _; by apply Hn|done].
  - intros k d s. cbn [cache_put s3_cache]. unfold s3_put. pose proof (put_object_law (Prefix +:+ k) d s) as Hl.
    destruct (PutObject _ d s) as [[e|] s']; [|by apply s3_view_stored].
    destruct Hl; [left; by apply s3_view_equiv|right; by apply s3_view_stored].
  - intros k s. cbn [cache_delete s3_cache]. unfold s3_delete. pose proof (delete_object_law (Prefix +:+ k) s) as Hl.
    destruct (DeleteObject _ s) as [[e|] s']; [|by apply s3_view_removed].
    destruct Hl; [left; by apply s3_view_equiv|right; by apply s3_view_removed].
Defined.
End S3Refinement.

(** The S3 cache is a map from names to certificates: a write that
    succeeds replaces exactly the named entry, one that fails at most that
    entry, and no operation is seen through another prefix, unless the two
    make the same object name. *)
Theorem s3_cache_is_a_map {S} `{S3Laws S} (p q : string) (k d : string) (s : S) :
  (forall k', p +:+ k <> q +:+ k') ->
  let '(r, s') := s3_put p k d s in
  let '(r2, s2) := s3_delete p k s in
  (r = None -> s3_view p s' ≡ stored k d (s3_view p s)) /\
  (s3_view p s' ≡ s3_view p s \/ s3_view p s' ≡ stored k d (s3_view p s)) /\
  (r2 = None -> s3_view p s2 ≡ removed k (s3_view p s)) /\
  s3_view q s' ≡ s3_view q s /\ s3_view q s2 ≡ s3_view q s.
Proof.
  intros Hpq. pose proof (@put_law S (s3_cache p) (s3_cache_laws p) k d s) as Hput.
  pose proof (@delete_law S (s3_cache p) (s3_cache_laws p) k s) as Hdel.
  pose proof (put_object_law (p +:+ k) d s) as Ho. pose proof (delete_object_law (p +:+ k) s) as Hd.
  cbn [cache_put cache_delete s3_cache view s3_cache_laws] in *. unfold s3_put, s3_delete in *.
  assert (Hother : forall s', objects s' ≡ stored (p +:+ k) d (objects s) -> s3_view q s' ≡ s3_view q s).
  { intros s' He k'. unfold s3_view. rewrite (He _). unfold stored. by rewrite decide_False. }
  assert (Hother' : forall s', objects s' ≡ removed (p +:+ k) (objects s) -> s3_view q s' ≡ s3_view q s).
  { intros s' He k'. unfold s3_view. rewrite (He _). unfold removed. by rewrite decide_False. }
  destruct (PutObject (p +:+ k) d s) as [[e|] s'], (DeleteObject (p +:+ k) s) as [[e2|] s2].
  - split; [done|]. split; [exact Hput|]. split; [done|].
    split; [destruct Ho as [Ho|Ho]|destruct Hd as [Hd|Hd]]; eauto using s3_view_equiv.
  - split; [done|]. split; [exact Hput|]. split; [done|].
    split; [destruct Ho as [Ho|Ho]|]; eauto using s3_view_equiv.
  - split; [done|]. split; [by right|]. split; [done|].
    split; [|destruct Hd as [Hd|Hd]]; eauto using s3_view_equiv.
  - split; [done|]. split; [by right|]. split; [done|]. eauto.
Qed.

(** ** The cache of a cluster node (cluster_cache.go) *)

Section ClusterCache.
Context {S : Type} `{Cache S} (isLeader : bool).

Definition cluster_get (name : string) (s : S) : result error string * S := cache_get name s.
Definition cluster_put (name data : string) (s : S) : option error * S :=
  if negb isLeader then (Some (ErrText "only cluster leader can request new certificates"), s)
  else cache_put name data s.
Definition cluster_delete (name : string) (s : S) : option error * S :=
  if negb isLeader then (Some (ErrText "only cluster leader can delete certificates"), s)
  else cache_delete name s.

Definition cluster_cache : Cache S :=
  {| cache_get := cluster_get; cache_put := cluster_put; cache_delete := cluster_delete |}.
End ClusterCache.

#[refine] Definition cluster_cache_laws {S} `{CacheLaws S} (isLeader : bool) :
  @CacheLaws S (cluster_cache isLeader) := {| view := view |}.
Proof.
  - intros k s. exact (get_law k s).
  - intros k d s. cbn [cache_put cluster_cache]. unfold cluster_put.
    destruct isLeader; cbn [negb]; [exact (put_law k d s)|by left].
  - intros k s. cbn [cache_delete cluster_cache]. unfold cluster_delete.
    destruct isLeader; cbn [negb]; [exact (delete_law k s)|by left].
Defined.

(** ** The two-tier cache (fallback_cache.go) *)

(** The local directory behind [autocert.DirCache], as [SyncAllToS3] reads it
    with [os.ReadDir] and [os.ReadFile]: its files (without directories), and
    the error of a directory that does not exist. *)
Class Directory (F : Type) : Type := {
  read_dir : F -> result error (list string);
  read_file : string -> F -> result error string;
  is_not_exist : error -> bool
}.

(** A copy in the background: from S3 to the directory ([Get]), or from the
    directory to S3 ([Put], after the breaker's interval). *)
Inductive task : Type :=
| ToLocal (key data : string)
| ToS3 (key data : string).

Record FallbackCache (P F : Type) : Type := mkFallback {
  primary : P;
  fallback : F;
  s3Available : bool;
  needsSync : bool;
  lastS3Check : Z;
  consecutiveFails : Z;
  fc_tasks : list task;          (* goroutines that have not run *)
  fc_readings : nat              (* readings of the clock so far *)
}.
Arguments mkFallback {P F}.
Arguments primary {P F}.
Arguments fallback {P F}.
Arguments s3Available {P F}.
Arguments needsSync {P F}.
Arguments lastS3Check {P F}.
Arguments consecutiveFails {P F}.
Arguments fc_tasks {P F}.
Arguments fc_readings {P F}.

Definition checkInterval : Z := 30 * second.

Section Fallback.
Context {P F : Type} `{Cache P, Cache F, Directory F} (clock : nat -> Z).
Abbreviation FC := (FallbackCache P F).

Definition new_fallback_cache (s3 : P) (local : F) : FC := mkFallback s3 local true false zero_time 0 [] 0.

Definition with_primary (p : P) (f : FC) : FC :=
  mkFallback p (fallback f) (s3Available f) (needsSync f) (lastS3Check f) (consecutiveFails f) (fc_tasks f) (fc_readings f).
Definition with_fallback (l : F) (f : FC) : FC :=
  mkFallback (primary f) l (s3Available f) (needsSync f) (lastS3Check f) (consecutiveFails f) (fc_tasks f) (fc_readings f).
Definition with_needs_sync (b : bool) (f : FC) : FC :=
  mkFallback (primary f) (fallback f) (s3Available f) b (lastS3Check f) (consecutiveFails f) (fc_tasks f) (fc_readings f).
Definition spawn (t : task) (f : FC) : FC :=
  mkFallback (primary f) (fallback f) (s3Available f) (needsSync f) (lastS3Check f) (consecutiveFails f)
    (fc_tasks f ++ [t]) (fc_readings f).
Definition read_clock (f : FC) : Z * FC :=
  (clock (fc_readings f),
   mkFallback (primary f) (fallback f) (s3Available f) (needsSync f) (lastS3Check f) (consecutiveFails f)
     (fc_tasks f) (S (fc_readings f))).

(** [isS3Available]: the clock is read only while S3 is marked unavailable. *)
Definition is_s3_available (f : FC) : bool * FC :=
  if s3Available f then (true, f)
  else let '(now, f) := read_clock f in (negb (time_sub now (lastS3Check f) <? checkInterval), f).

Definition mark_s3_unavailable (f : FC) : FC :=
  let '(now, f) := read_clock f in
  mkFallback (primary f) (fallback f) false (needsSync f) now (wrap64 (consecutiveFails f + 1)) (fc_tasks f) (fc_readings f).
Definition mark_s3_available (f : FC) : FC :=
  mkFallback (primary f) (fallback f) true (needsSync f) (lastS3Check f) 0 (fc_tasks f) (fc_readings f).

(** [FallbackCache.Get] *)
Definition fallback_get (key : string) (f : FC) : result error string * FC :=
  let '(r, l) := cache_get key (fallback f) in
  let f := with_fallback l f in
  match r with
  | Ok data => (Ok data, f)
  | Err _ =>
      let '(available, f) := is_s3_available f in
      if negb available then (Err ErrCacheMiss, f)
      else
        let '(r, p) := cache_get key (primary f) in
        let f := with_primary p f in
        match r with
        | Ok data => (Ok data, spawn (ToLocal key data) (mark_s3_available f))
        | Err e =>
            if bool_decide (e = ErrCacheMiss) then (Err ErrCacheMiss, f)
            else (Err e, mark_s3_unavailable f)
        end
  end.

(** [FallbackCache.Put]: to S3 first; [store_locally] when that is not possible. *)
Definition store_locally (key data : string) (s3Err : option error) (f : FC) : option error * FC :=
  let f := with_needs_sync true f in
  let '(r, l) := cache_put key data (fallback f) in
  let f := with_fallback l f in
  match r with
  | Some e =>
      (Some match s3Err with
            | Some s3e => ErrWrap ("both S3 and fallback cache failed - S3 error: " +:+ error_text s3e
                                     +:+ ", fallback error: " +:+ error_text e) s3e
            | None => e
            end, f)
  | None => (None, spawn (ToS3 key data) f)
  end.

Definition fallback_put (key data : string) (f : FC) : option error * FC :=
  let '(available, f) := is_s3_available f in
  if available then
    let '(s3Err, p) := cache_put key data (primary f) in
    let f := with_primary p f in
    match s3Err with
    | None =>
        let f := mark_s3_available f in
        let '(_, l) := cache_put key data (fallback f) in
        (None, with_fallback l f)
    | Some _ => store_locally key data s3Err (mark_s3_unavailable f)
    end
  else store_locally key data None f.

(** *** [FallbackCache.Put] as others see it

    Neither tier is used under the cache's locks, and the two locks are taken
    one after the other: between any two of these sections other goroutines
    act. *)
Inductive put_pc : Type :=
| PutStart                              (* isS3Available *)
| PutPrimary                            (* primary.Put *)
| PutMarkUp                             (* markS3Available *)
| PutCopy                               (* fallback.Put, its error only logged *)
| PutMarkDown (s3Err : error)           (* markS3Unavailable *)
| PutFlag (s3Err : option error)        (* needsSync = true, under the lock *)
| PutLocal (s3Err : option error)       (* fallback.Put *)
| PutSpawn                              (* go syncToS3 *)
| PutDone (r : option error).

Definition put_section (key data : string) (pc : put_pc) (f : FC) : put_pc * FC :=
  match pc with
  | PutStart =>
      let '(available, f) := is_s3_available f in
      (if available then PutPrimary else PutFlag None, f)
  | PutPrimary =>
      let '(s3Err, p) := cache_put key data (primary f) in
      (match s3Err with None => PutMarkUp | Some e => PutMarkDown e end, with_primary p f)
  | PutMarkUp => (PutCopy, mark_s3_available f)
  | PutCopy => let '(_, l) := cache_put key data (fallback f) in (PutDone None, with_fallback l f)
  | PutMarkDown e => (PutFlag (Some e), mark_s3_unavailable f)
  | PutFlag s3Err => (PutLocal s3Err, with_needs_sync true f)
  | PutLocal s3Err =>
      let '(r, l) := cache_put key data (fallback f) in
      (match r with
       | None => PutSpawn
       | Some e =>
           PutDone (Some match s3Err with
                         | Some s3e => ErrWrap ("both S3 and fallback cache failed - S3 error: " +:+ error_text s3e
                                                  +:+ ", fallback error: " +:+ error_text e) s3e
                         | None => e
                         end)
       end, with_fallback l f)
  | PutSpawn => (PutDone None, spawn (ToS3 key data) f)
  | PutDone r => (PutDone r, f)
  end.

Fixpoint put_sections (fuel : nat) (key data : string) (pc : put_pc) (f : FC) : put_pc * FC :=
  match fuel with
  | O => (pc, f)
  | S fuel => let '(pc, f) := put_section key data pc f in put_sections fuel key data pc f
  end.

(** Nobody else acting, the sections are [fallback_put]. *)
Lemma put_alone key data f :
  put_sections 6 key data PutStart f =
  (PutDone (fallback_put key data f).1, (fallback_put key data f).2).
Proof.
  unfold fallback_put, store_locally. cbn [put_sections put_section].
  destruct (is_s3_available f) as [[] f1]; cbn [put_section].
  - destruct (cache_put key data (primary f1)) as [[e|] p]; cbn [put_section].
    + destruct (cache_put key data (fallback _)) as [[e'|] l]; reflexivity.
    + destruct (cache_put key data (fallback _)) as [e' l]; reflexivity.
  - destruct (cache_put key data (fallback _)) as [[e'|] l]; reflexivity.
Qed.

(** [syncToS3], after its sleep *)
Definition sync_to_s3 (key data : string) (f : FC) : FC :=
  let '(available, f) := is_s3_available f in
  if negb available then f
  else
    let '(r, p) := cache_put key data (primary f) in
    let f := with_primary p f in
    match r with
    | Some _ => mark_s3_unavailable f
    | None => mark_s3_available f
    end.

(** The first waiting goroutine runs. *)
Definition run_task (t : task) (f : FC) : FC :=
  match t with
  | ToLocal key data => let '(_, l) := cache_put key data (fallback f) in with_fallback l f
  | ToS3 key data => sync_to_s3 key data f
  end.
Definition take_task (rest : list task) (f : FC) : FC :=
  mkFallback (primary f) (fallback f) (s3Available f) (needsSync f) (lastS3Check f) (consecutiveFails f) rest (fc_readings f).

(** [FallbackCache.Delete] *)
Definition fallback_delete (key : string) (f : FC) : option error * FC :=
  let '(available, f) := is_s3_available f in
  let '(s3Err, f) :=
    (if available then
       let '(e, p) := cache_delete key (primary f) in
       let f := with_primary p f in
       match e with
       | None => (None, mark_s3_available f)
       | Some _ => (e, mark_s3_unavailable f)
       end
     else (None, f)) in
  let '(fallbackErr, l) := cache_delete key (fallback f) in
  let f := with_fallback l f in
  match s3Err, fallbackErr with
  | Some e, Some e' =>
      (Some (ErrWrap ("both S3 and fallback cache delete failed - S3 error: " +:+ error_text e
                        +:+ ", fallback error: " +:+ error_text e') e), f)
  | _, _ => (None, f)
  end.

(** [SyncAllToS3]: one file, with the numbers of those synced, failed and
    skipped so far. *)
Record sync_counts : Type := mkCounts { n_synced : Z; n_failed : Z; n_skipped : Z }.

Definition sync_entry (f : FC) (name : string) (n : sync_counts) : FC * sync_counts :=
  let failed := mkCounts (n_synced n) (n_failed n + 1) (n_skipped n) in
  let skipped := mkCounts (n_synced n) (n_failed n) (n_skipped n + 1) in
  match read_file name (fallback f) with
  | Err _ => (f, failed)
  | Ok data =>
      let '(r, p) := cache_get name (primary f) in
      let f := with_primary p f in
      let upload :=
        (let '(e, p) := cache_put name data (primary f) in
         (with_primary p f,
          match e with Some _ => failed | None => mkCounts (n_synced n + 1) (n_failed n) (n_skipped n) end)) in
      match r with
      | Ok s3Data => if seqb s3Data data then (f, skipped) else upload
      | Err e => if bool_decide (e = ErrCacheMiss) then upload else (f, skipped)
      end
  end.

Fixpoint sync_entries (f : FC) (names : list string) (n : sync_counts) : FC * sync_counts :=
  match names with
  | [] => (f, n)
  | name :: names => let '(f, n) := sync_entry f name n in sync_entries f names n
  end.

Definition sync_all_to_s3 (f : FC) : option error * FC :=
  match read_dir (fallback f) with
  | Err e => if is_not_exist e then (None, f)
             else (Some (ErrWrap ("failed to read fallback directory: " +:+ error_text e) e), f)
  | Ok entries =>
      let '(f, n) := sync_entries f entries (mkCounts 0 0 0) in
      if 0 <? n_failed n then
        (Some (ErrText ("failed to sync " +:+ fmt_d (n_failed n) +:+ " certificates to S3")), f)
      else (None, with_needs_sync false f)
  end.

Definition fallback_cache : Cache FC :=
  {| cache_get := fallback_get; cache_put := fallback_put; cache_delete := fallback_delete |}.

(** ** The sync worker (cert_sync.go)

    Its consecutive failures; [startup] runs once, [tick] at every interval. *)
Definition run_startup_sync (f : FC) : FC := (sync_all_to_s3 f).2.
Definition run_sync (fails : Z) (f : FC) : Z * FC :=
  if negb (needsSync f) then (fails, f)
  else match sync_all_to_s3 f with
       | (Some _, f) => (wrap64 (fails + 1), f)
       | (None, f) => (0, f)
       end.
End Fallback.

(** ** What the two-tier cache promises *)

(** The directory's files are what its cache holds. *)
Class DirectoryLaws (F : Type) `{CacheLaws F, Directory F} : Prop :=
  read_file_law name l d : read_file name l = Ok d -> view l name = Some d.

Section FallbackLaws.
Context {P F : Type} `{CacheLaws P, CacheLaws F} `{!Directory F, !DirectoryLaws F} (clock : nat -> Z).
Abbreviation FC := (FallbackCache P F).
Implicit Types f : FC.

(** *** What is served was stored *)

Section Known.
(** The certificates that were ever stored, by name. *)
Context (K : string -> string -> Prop).

Definition holds_known (v : contents) : Prop := forall k d, v k = Some d -> K k d.
Definition task_known (t : task) : Prop := match t with ToLocal k d | ToS3 k d => K k d end.
Definition known (f : FC) : Prop :=
  holds_known (view (primary f)) /\ holds_known (view (fallback f)) /\ Forall task_known (fc_tasks f).

Lemma known_equiv v v' : v' ≡ v -> holds_known v -> holds_known v'.
Proof. intros Hv Hk k d. rewrite (Hv k). apply Hk. Qed.
Lemma known_stored k d v : K k d -> holds_known v -> holds_known (stored k d v).
Proof. intros Hkd Hk k' d'. unfold stored. case_decide; [by intros [= <-]; subst|apply Hk]. Qed.
Lemma known_removed k v : holds_known v -> holds_known (removed k v).
Proof. intros Hk k' d'. unfold removed. case_decide; [done|apply Hk]. Qed.

Lemma known_get {S} `{CacheLaws S} k (s : S) :
  holds_known (view s) ->
  holds_known (view (cache_get k s).2) /\ forall d, (cache_get k s).1 = Ok d -> K k d.
Proof.
  intros Hk. pose proof (get_law k s) as Hl. destruct (cache_get k s) as [r s']. destruct Hl as [Hv Hr].
  split; [by eapply known_equiv|]. simpl. intros d ->. by apply Hk.
Qed.
Lemma known_put {S} `{CacheLaws S} k d (s : S) :
  K k d -> holds_known (view s) -> holds_known (view (cache_put k d s).2).
Proof.
  intros Hkd Hk. pose proof (put_law k d s) as Hl. destruct (cache_put k d s) as [[e|] s']; simpl.
  - destruct Hl; (eapply known_equiv; [done|]); [done|by apply known_stored].
  - eapply known_equiv; [done|]. by apply known_stored.
Qed.
Lemma known_delete {S} `{CacheLaws S} k (s : S) :
  holds_known (view s) -> holds_known (view (cache_delete k s).2).
Proof.
  intros Hk. pose proof (delete_law k s) as Hl. destruct (cache_delete k s) as [[e|] s']; simpl.
  - destruct Hl; (eapply known_equiv; [done|]); [done|by apply known_removed].
  - eapply known_equiv; [done|]. by apply known_removed.
Qed.

(** The operations on the breaker touch neither tier. *)
Definition same_stores (f f' : FC) : Prop :=
  primary f' = primary f /\ fallback f' = fallback f /\ fc_tasks f' = fc_tasks f.
Lemma available_same f : same_stores f (is_s3_available clock f).2.
Proof. unfold is_s3_available. by destruct (s3Available f). Qed.
Lemma known_same f f' : same_stores f f' -> known f -> known f'.
Proof. intros (Hp & Hl & Ht) (? & ? & ?). unfold known. by rewrite Hp, Hl, Ht. Qed.
Lemma known_primary f p : known f -> holds_known (view p) -> known (with_primary p f).
Proof. intros (? & ? & ?) Hp. by split. Qed.
Lemma known_fallback f l : known f -> holds_known (view l) -> known (with_fallback l f).
Proof. intros (? & ? & ?) Hl. by repeat split. Qed.
Lemma known_marked f : known f -> known (mark_s3_available f) /\ known (mark_s3_unavailable clock f).
Proof. done. Qed.
Lemma known_spawn f t : known f -> task_known t -> known (spawn t f).
Proof. intros (? & ? & ?) Ht. split; [done|split; [done|]]. apply Forall_app. by repeat constructor. Qed.

Lemma fallback_get_known k f :
  known f -> known (fallback_get clock k f).2 /\ forall d, (fallback_get clock k f).1 = Ok d -> K k d.
Proof.
  intros Hf. unfold fallback_get. destruct (known_get k (fallback f)) as [Hl Hd]; [apply Hf|].
  destruct (cache_get k (fallback f)) as [r l]. cbn [fst snd] in *.
  pose proof (known_fallback f l Hf Hl) as Hf1. destruct r as [data|e]; [by split|].
  pose proof (known_same _ _ (available_same (with_fallback l f)) Hf1) as Hf2.
  destruct (is_s3_available clock _) as [b f2]. cbn [snd] in Hf2. destruct b; [cbn [negb]|by split].
  destruct (known_get k (primary f2)) as [Hp Hd2]; [apply Hf2|].
  destruct (cache_get k (primary f2)) as [r p]. cbn [fst snd] in *.
  pose proof (known_primary f2 p Hf2 Hp) as Hf3. destruct r as [data|e'].
  - split; [|done]. apply known_spawn; [by apply known_marked|by apply Hd2].
  - case_bool_decide; by split.
Qed.

Lemma store_locally_known k d e f : K k d -> known f -> known (store_locally k d e f).2.
Proof.
  intros Hkd Hf. unfold store_locally. cbn [fallback with_needs_sync].
  pose proof (known_put k d (fallback f) Hkd ltac:(apply Hf)) as Hl.
  destruct (cache_put k d (fallback f)) as [[e'|] l]; cbn [snd] in *.
  - by apply known_fallback.
  - apply known_spawn; [by apply known_fallback|done].
Qed.

Lemma fallback_put_known k d f : K k d -> known f -> known (fallback_put clock k d f).2.
Proof.
  intros Hkd Hf. unfold fallback_put. pose proof (known_same _ _ (available_same f) Hf) as Hf1.
  destruct (is_s3_available clock f) as [[] f1]; cbn [snd] in Hf1; [|by apply store_locally_known].
  pose proof (known_put k d (primary f1) Hkd ltac:(apply Hf1)) as Hp.
  destruct (cache_put k d (primary f1)) as [[e|] p]; cbn [snd] in Hp.
  - apply store_locally_known; [done|]. by apply known_marked, known_primary.
  - pose proof (known_put k d (fallback f1) Hkd ltac:(apply Hf1)) as Hl. cbn [fallback with_primary mark_s3_available].
    destruct (cache_put k d (fallback f1)) as [? l]. cbn [snd] in *.
    apply known_fallback; [|done]. by apply known_marked, known_primary.
Qed.

Lemma run_task_known t f : task_known t -> known f -> known (run_task clock t f).
Proof.
  intros Ht Hf. destruct t as [k d|k d]; cbn [run_task task_known] in *.
  - pose proof (known_put k d (fallback f) Ht ltac:(apply Hf)) as Hl.
    destruct (cache_put k d (fallback f)) as [? l]. by apply known_fallback.
  - unfold sync_to_s3. pose proof (known_same _ _ (available_same f) Hf) as Hf1.
    destruct (is_s3_available clock f) as [[] f1]; cbn [negb snd] in *; [|done].
    pose proof (known_put k d (primary f1) Ht ltac:(apply Hf1)) as Hp.
    destruct (cache_put k d (primary f1)) as [[e|] p]; by apply known_marked, known_primary.
Qed.

Lemma fallback_delete_known k f : known f -> known (fallback_delete clock k f).2.
Proof.
  intros Hf. unfold fallback_delete. pose proof (known_same _ _ (available_same f) Hf) as Hf1.
  destruct (is_s3_available clock f) as [b f1]. cbn [snd] in Hf1.
  assert (Hend : forall (e : option error) f2, known f2 ->
    known (let '(fallbackErr, l) := cache_delete k (fallback f2) in
           match e, fallbackErr with
           | Some e, Some e' => (Some (ErrWrap ("both S3 and fallback cache delete failed - S3 error: " +:+ error_text e
                        +:+ ", fallback error: " +:+ error_text e') e), with_fallback l f2)
           | _, _ => (None, with_fallback l f2)
           end).2).
  { intros e f2 Hf2. pose proof (known_delete k (fallback f2) ltac:(apply Hf2)) as Hl.
    destruct (cache_delete k (fallback f2)) as [e' l]. destruct e, e'; by apply known_fallback. }
  destruct b; [|by apply (Hend None)].
  pose proof (known_delete k (primary f1) ltac:(apply Hf1)) as Hp.
  destruct (cache_delete k (primary f1)) as [[e|] p]; cbn [snd] in Hp.
  - apply (Hend (Some e)). by apply known_marked, known_primary.
  - apply (Hend None). by apply known_marked, known_primary.
Qed.

Lemma sync_entries_known names f n : known f -> known (sync_entries f names n).1.
Proof.
  revert f n. induction names as [|name names IH]; intros f n Hf; [done|]. cbn [sync_entries].
  assert (Hentry : known (sync_entry f name n).1).
  { unfold sync_entry. destruct (read_file name (fallback f)) as [d|] eqn:Er; [|done].
    apply read_file_law in Er. assert (Hkd : K name d) by (by apply Hf).
    destruct (known_get name (primary f)) as [Hp _]; [apply Hf|].
    destruct (cache_get name (primary f)) as [r p]. cbn [fst snd] in *.
    pose proof (known_primary f p Hf Hp) as Hf1.
    pose proof (known_put name d p Hkd Hp) as Hput. cbn [primary with_primary].
    destruct (cache_put name d p) as [e p']. cbn [snd] in Hput.
    pose proof (known_primary _ p' Hf1 Hput). destruct r as [s3|e']; [by destruct (seqb s3 d)|by case_bool_decide]. }
  destruct (sync_entry f name n) as [f' n']. by apply IH.
Qed.

Lemma sync_all_known f : known f -> known (sync_all_to_s3 f).2.
Proof.
  intros Hf. unfold sync_all_to_s3. destruct (read_dir (fallback f)) as [names|e]; [|by destruct (is_not_exist e)].
  pose proof (sync_entries_known names f (mkCounts 0 0 0) Hf) as Hs.
  destruct (sync_entries f names _) as [f' n]. by destruct (0 <? n_failed n).
Qed.

(** The operations of the cache, and the goroutines, in any order. *)
Inductive fc_step : FC -> FC -> Prop :=
| step_get k f : fc_step f (fallback_get clock k f).2
| step_put k d f : K k d -> fc_step f (fallback_put clock k d f).2
| step_delete k f : fc_step f (fallback_delete clock k f).2
| step_sync f : fc_step f (sync_all_to_s3 f).2
| step_task pre t post f :
    fc_tasks f = pre ++ t :: post -> fc_step f (run_task clock t (take_task (pre ++ post) f)).

Lemma fc_step_known f f' : known f -> fc_step f f' -> known f'.
Proof.
  intros Hf Hs. destruct Hs as [k f|k d f Hkd|k f|f|pre t post f Ht].
  - by apply fallback_get_known.
  - by apply fallback_put_known.
  - by apply fallback_delete_known.
  - by apply sync_all_known.
  - destruct Hf as (Hp & Hl & Hts). rewrite Ht in Hts. apply Forall_app in Hts as [Hpre Hpost].
    inversion Hpost as [|? ? Ht1 Hpost']; subst. apply run_task_known; [done|].
    split; [done|split; [done|]]. by apply Forall_app.
Qed.
End Known.

(** C23: whatever reads, writes, deletions, synchronisations and background
    copies do, in any order and with any failures of S3 and the directory, the
    certificate served under a name is one that was stored under that name. *)
Theorem served_was_stored (K : string -> string -> Prop) f k d :
  reachable (known K) (fc_step K) f -> (fallback_get clock k f).1 = Ok d -> K k d.
Proof.
  intros Hr. assert (Hf : known K f).
  { induction Hr as [f Hf|f f' _ IH Hs]; [done|by eapply fc_step_known]. }
  by apply fallback_get_known.
Qed.

(** *** Nothing that was accepted is lost *)

(** A [Put] of a certificate among other goroutines; [SyncAllToS3] reads the
    directory, and changes only S3 and the flag.  Ghosts: whether S3's [Put]
    returned nil, and whether [SyncAllToS3] has done anything since the last of
    that and of setting the flag. *)
Record putting : Type := mkPutting { pt_pc : put_pc; pt_cache : FC; pt_stored : bool; pt_swept : bool }.

Definition put_own (k d : string) (x : putting) : putting :=
  let '(pc, f) := put_section clock k d (pt_pc x) (pt_cache x) in
  let into_s3 := match pt_pc x, pc with PutPrimary, PutMarkUp => true | _, _ => false end in
  let flagged := match pt_pc x with PutFlag _ => true | _ => false end in
  mkPutting pc f (pt_stored x || into_s3) (pt_swept x && negb (into_s3 || flagged)).

(** What leaves the certificate, and the flag, where they are. *)
Definition leaves (k d : string) (f f' : FC) : Prop :=
  (view (primary f) k = Some d -> view (primary f') k = Some d) /\
  (view (fallback f) k = Some d -> view (fallback f') k = Some d) /\
  (needsSync f = true -> needsSync f' = true).

Inductive put_step (k d : string) (x : putting) : putting -> Prop :=
| put_step_own : put_step k d x (put_own k d x)
| put_step_others f : leaves k d (pt_cache x) f -> put_step k d x (mkPutting (pt_pc x) f (pt_stored x) (pt_swept x))
| put_step_sync f :
    fallback f = fallback (pt_cache x) -> put_step k d x (mkPutting (pt_pc x) f (pt_stored x) true).

(** What has been done when a section is due. *)
Definition put_inv (k d : string) (x : putting) : Prop :=
  let f := pt_cache x in
  match pt_pc x with
  | PutMarkUp | PutCopy => pt_stored x = true /\ (pt_swept x = false -> view (primary f) k = Some d)
  | PutLocal _ => pt_swept x = false -> needsSync f = true
  | PutSpawn => view (fallback f) k = Some d /\ (pt_swept x = false -> needsSync f = true)
  | _ => True
  end.

Lemma put_own_inv k d x : put_inv k d x -> put_inv k d (put_own k d x).
Proof.
  destruct x as [pc f st sw]. unfold put_own, put_inv. cbn [pt_pc pt_cache pt_stored pt_swept].
  destruct pc; cbn [put_section]; try done.
  - by destruct (is_s3_available clock f) as [[] f1].
  - pose proof (put_law k d (primary f)) as Hp. destruct (cache_put k d (primary f)) as [[e|] p]; [done|].
    intros _. cbn. split; [by rewrite orb_true_r|]. intros _. rewrite (Hp k). unfold stored. by rewrite decide_True.
  - cbn. intros [-> Hs]. split; [done|]. by rewrite andb_true_r.
  - by destruct (cache_put k d (fallback f)).
  - pose proof (put_law k d (fallback f)) as Hl. destruct (cache_put k d (fallback f)) as [[e|] l]; [done|].
    intros Hs. cbn. rewrite andb_true_r. split; [|done]. rewrite (Hl k). unfold stored. by rewrite decide_True.
Qed.

Lemma put_others_inv k d pc f f' st sw :
  leaves k d f f' -> put_inv k d (mkPutting pc f st sw) -> put_inv k d (mkPutting pc f' st sw).
Proof. intros (Hp & Hl & Hn). unfold put_inv. destruct pc; cbn; intuition. Qed.

(** The steps of [SyncAllToS3], one file or the clearing of the flag, and the
    whole of it. *)
Lemma sync_entry_directory f name n : fallback (sync_entry f name n).1 = fallback f.
Proof. unfold sync_entry. by repeat case_match; simplify_eq/=. Qed.
Lemma sync_all_directory f : fallback (sync_all_to_s3 f).2 = fallback f.
Proof.
  assert (Hes : forall names f n, fallback (sync_entries f names n).1 = fallback f).
  { induction names as [|name names IH]; intros f0 n; [done|]. cbn [sync_entries].
    pose proof (sync_entry_directory f0 name n) as He. destruct (sync_entry f0 name n) as [f' n']. by rewrite IH. }
  unfold sync_all_to_s3. destruct (read_dir (fallback f)) as [names|e]; [|by destruct (is_not_exist e)].
  specialize (Hes names f (mkCounts 0 0 0)).
  destruct (sync_entries f names _) as [f' n]. by destruct (0 <? n_failed n).
Qed.

Lemma put_step_inv k d x y : put_inv k d x -> put_step k d x y -> put_inv k d y.
Proof.
  intros Hi [|f0 Hf|f0 Hf]; [by apply put_own_inv|destruct x; by eapply put_others_inv|].
  destruct x as [pc f st sw]. unfold put_inv in *. cbn [pt_pc pt_cache pt_stored pt_swept] in *.
  rewrite Hf. destruct pc; intuition done.
Qed.

(** Operations on other names leave the certificate alone. *)
Lemma get_keeps {S} `{CacheLaws S} k d k' (s : S) : view s k = Some d -> view (cache_get k' s).2 k = Some d.
Proof. intros Hs. pose proof (get_law k' s) as Hl. destruct (cache_get k' s) as [r s']. cbn. by rewrite (proj1 Hl k). Qed.
Lemma put_keeps {S} `{CacheLaws S} k d k' d' (s : S) :
  k' <> k -> view s k = Some d -> view (cache_put k' d' s).2 k = Some d.
Proof.
  intros Hk Hs. pose proof (put_law k' d' s) as Hl. destruct (cache_put k' d' s) as [[e|] s']; cbn;
    [destruct Hl as [Hl|Hl]|]; rewrite (Hl k); try done; unfold stored; by rewrite decide_False.
Qed.
Lemma delete_keeps {S} `{CacheLaws S} k d k' (s : S) :
  k' <> k -> view s k = Some d -> view (cache_delete k' s).2 k = Some d.
Proof.
  intros Hk Hs. pose proof (delete_law k' s) as Hl. destruct (cache_delete k' s) as [[e|] s']; cbn;
    [destruct Hl as [Hl|Hl]|]; rewrite (Hl k); try done; unfold removed; by rewrite decide_False.
Qed.

Lemma available_flag f : needsSync (is_s3_available clock f).2 = needsSync f.
Proof. unfold is_s3_available. by destruct (s3Available f). Qed.

Lemma put_section_leaves k d k' d' pc f : k' <> k -> leaves k d f (put_section clock k' d' pc f).2.
Proof.
  intros Hk. unfold leaves. destruct pc; cbn [put_section]; try done.
  - pose proof (available_same f) as (Ep & El & _). pose proof (available_flag f) as En.
    destruct (is_s3_available clock f) as [b f1]. cbn in *. by rewrite Ep, El, En.
  - pose proof (put_keeps k d k' d' (primary f) Hk) as Hp. by destruct (cache_put k' d' (primary f)).
  - pose proof (put_keeps k d k' d' (fallback f) Hk) as Hl. by destruct (cache_put k' d' (fallback f)).
  - pose proof (put_keeps k d k' d' (fallback f) Hk) as Hl. by destruct (cache_put k' d' (fallback f)).
Qed.

Lemma get_leaves k d k' f : leaves k d f (fallback_get clock k' f).2.
Proof.
  unfold leaves, fallback_get. pose proof (get_keeps k d k' (fallback f)) as Hl.
  destruct (cache_get k' (fallback f)) as [[data|e] l]; [done|]. cbn [snd] in Hl.
  pose proof (available_same (with_fallback l f)) as (Ep & El & _). pose proof (available_flag (with_fallback l f)) as En.
  destruct (is_s3_available clock (with_fallback l f)) as [b f1]. cbn [primary fallback needsSync with_fallback snd] in *.
  destruct b; cbn [negb]; [|cbn; by rewrite Ep, El, En].
  pose proof (get_keeps k d k' (primary f1)) as Hp. rewrite Ep in Hp at 1.
  destruct (cache_get k' (primary f1)) as [[data|e'] p]; [|case_bool_decide]; cbn in *; by rewrite El, En.
Qed.

(** C24: what a [Put] that returned nil has done, section by section, while
    other goroutines act in between on other certificates and [SyncAllToS3]
    runs at any time, with any failures of S3 and the directory.  Either S3
    accepted the certificate, and still has it unless [SyncAllToS3] ran since
    then; or the local directory has it, a copy to S3 has been started in the
    background, and the flag that makes the periodic run copy it is set, unless
    [SyncAllToS3] ran since the flag was set. *)
Theorem put_is_kept k d x :
  reachable (fun x => pt_pc x = PutStart) (put_step k d) x ->
  (forall r, pt_pc x <> PutDone r) -> pt_pc (put_own k d x) = PutDone None ->
  let y := put_own k d x in
  (pt_stored y = true /\ (pt_swept y = false -> view (primary (pt_cache y)) k = Some d)) \/
  (view (fallback (pt_cache y)) k = Some d /\ In (ToS3 k d) (fc_tasks (pt_cache y)) /\
   (pt_swept y = false -> needsSync (pt_cache y) = true)).
Proof.
  intros Hr Hrun Hdone. assert (Hi : put_inv k d x).
  { revert Hr. apply invariant_reachable; [|by intros a b; apply put_step_inv].
    intros y Hy. unfold put_inv. by rewrite Hy. }
  destruct x as [pc f st sw]. cbv zeta. unfold put_own, put_inv in *. cbn [pt_pc pt_cache pt_stored pt_swept] in *.
  destruct pc; cbn [put_section] in *; try done.
  - by destruct (is_s3_available clock f) as [[] f1].
  - by destruct (cache_put k d (primary f)) as [[e|] p].
  - destruct Hi as [-> Hs]. destruct (cache_put k d (fallback f)) as [e l]. left. cbn. by rewrite andb_true_r.
  - by destruct (cache_put k d (fallback f)) as [[e|] l].
  - right. cbn. rewrite andb_true_r. destruct Hi as [Hl Hs]. split_and!; [done| |done].
    apply in_or_app. right. by left.
  - by destruct (Hrun r).
Qed.

(** *** The circuit breaker *)

Definition breaker_open (f : FC) : bool :=
  negb (s3Available f) && (time_sub (clock (fc_readings f)) (lastS3Check f) <? checkInterval).

Lemma available_spec f : (is_s3_available clock f).1 = negb (breaker_open f).
Proof. unfold is_s3_available, breaker_open. by destruct (s3Available f). Qed.

(** While S3 is marked unavailable and thirty seconds have not passed, no
    operation asks it; otherwise a [Put] and a [Delete] go to S3 first, and a
    [Get] does when the local directory has no answer. *)
Theorem breaker_spec k d f :
  let get := (fallback_get clock k f).2 in
  let put := (fallback_put clock k d f).2 in
  let del := (fallback_delete clock k f).2 in
  if breaker_open f then primary get = primary f /\ primary put = primary f /\ primary del = primary f
  else
    primary put = (cache_put k d (primary f)).2 /\ primary del = (cache_delete k (primary f)).2 /\
    primary get = (if is_ok (cache_get k (fallback f)).1 then primary f else (cache_get k (primary f)).2).
Proof.
  pose proof (available_spec f) as Ha. pose proof (available_same f) as (Hp & Hl & _).
  assert (Hg : forall l, (is_s3_available clock (with_fallback l f)).1 = (is_s3_available clock f).1 /\
                         primary (is_s3_available clock (with_fallback l f)).2 = primary f).
  { intros l. unfold is_s3_available. cbn. by destruct (s3Available f). }
  cbv zeta. unfold fallback_get, fallback_put, fallback_delete, store_locally.
  destruct (cache_get k (fallback f)) as [rg lg]. destruct (Hg lg) as [Hg1 Hg2]. clear Hg.
  destruct (is_s3_available clock f) as [b f1], (is_s3_available clock (with_fallback lg f)) as [b' f1'].
  cbn [fst snd] in *. subst b b'. rewrite <- Hp.
  destruct (breaker_open f); cbn [negb].
  - split; [destruct rg; cbn; congruence|]. cbn [fallback with_needs_sync]. split.
    + by destruct (cache_put k d (fallback f1)) as [[] l].
    + by destruct (cache_delete k (fallback f1)) as [[] l].
  - split; [|split].
    + destruct (cache_put k d (primary f1)) as [[e|] p]; cbn; by destruct (cache_put k d (fallback f1)) as [[] l].
    + destruct (cache_delete k (primary f1)) as [[e|] p]; cbn; by destruct (cache_delete k (fallback f1)) as [[] l].
    + destruct rg; cbn [is_ok]; [cbn; congruence|]. rewrite Hp, <- Hg2. cbn [negb].
      destruct (cache_get k (primary f1')) as [[|e'] p]; [done|]. by case_bool_decide.
Qed.

(** *** Synchronisation *)

(** S3 answers "miss" when it fails to find an object, and nothing else. *)
Definition steady : Prop := forall k (p : P) e, (cache_get k p).1 = Err e -> e = ErrCacheMiss.

Lemma sync_entry_failed f name n : n_failed n <= n_failed (sync_entry f name n).2.
Proof. unfold sync_entry. repeat case_match; simplify_eq/=; lia. Qed.
Lemma sync_entries_failed f names n : n_failed n <= n_failed (sync_entries f names n).2.
Proof.
  revert f n. induction names as [|name names IH]; intros f n; [done|]. cbn [sync_entries].
  pose proof (sync_entry_failed f name n) as He. destruct (sync_entry f name n) as [f' n'].
  etrans; [exact He|apply IH].
Qed.

(** One file: afterwards S3 has it, and what agreed with the directory still
    does. *)
Lemma sync_entry_spec f name n d :
  steady -> read_file name (fallback f) = Ok d -> n_failed (sync_entry f name n).2 <= n_failed n ->
  view (primary (sync_entry f name n).1) ≡ stored name d (view (primary f)).
Proof.
  intros Hs Hr. unfold sync_entry. rewrite Hr. pose proof (get_law name (primary f)) as Hg.
  specialize (Hs name (primary f)). destruct (cache_get name (primary f)) as [r p]. destruct Hg as [Hv Hg].
  cbn [primary with_primary fst] in *. pose proof (put_law name d p) as Hp.
  assert (Hput : forall p' : P, view p' ≡ stored name d (view p) -> view p' ≡ stored name d (view (primary f))).
  { intros p' Hp'. by rewrite Hp', Hv. }
  assert (Hup : n_failed (let '(e, p0) := cache_put name d p in
      (with_primary p0 (with_primary p f), match e with
         | Some _ => mkCounts (n_synced n) (n_failed n + 1) (n_skipped n)
         | None => mkCounts (n_synced n + 1) (n_failed n) (n_skipped n) end)).2 <= n_failed n ->
     view (primary (let '(e, p0) := cache_put name d p in
      (with_primary p0 (with_primary p f), match e with
         | Some _ => mkCounts (n_synced n) (n_failed n + 1) (n_skipped n)
         | None => mkCounts (n_synced n + 1) (n_failed n) (n_skipped n) end)).1) ≡ stored name d (view (primary f))).
  { destruct (cache_put name d p) as [[e|] p']; cbn; [lia|]. intros _. by apply Hput. }
  destruct r as [s3|e].
  - destruct (seqb s3 d) eqn:E; [|exact Hup]. apply seqb_true in E as ->. intros _. cbn. rewrite Hv.
    intros k. unfold stored. by case_decide; subst.
  - rewrite (Hs e eq_refl). rewrite bool_decide_true by done. exact Hup.
Qed.

Lemma sync_entries_spec f names n :
  steady -> n_failed (sync_entries f names n).2 <= n_failed n ->
  fallback (sync_entries f names n).1 = fallback f /\
  forall name d, read_file name (fallback f) = Ok d ->
    In name names \/ view (primary f) name = Some d -> view (primary (sync_entries f names n).1) name = Some d.
Proof.
  intros Hs. revert f n. induction names as [|name names IH]; intros f n Hn.
  { split; [done|]. intros name d _ [[]|Hd]. exact Hd. }
  cbn [sync_entries] in *. pose proof (sync_entry_directory f name n) as Hl.
  pose proof (sync_entry_failed f name n) as Hf. pose proof (sync_entry_spec f name n) as Hspec.
  destruct (sync_entry f name n) as [f' n'] eqn:Ee. cbn [fst snd] in *.
  pose proof (sync_entries_failed f' names n') as Hf'.
  destruct (IH f' n' ltac:(lia)) as [Hfb Hall]. split; [by rewrite Hfb|].
  intros name' d Hr Hin. apply Hall; [by rewrite Hl|].
  destruct (decide (name' = name)) as [->|Hne].
  - right. rewrite (Hspec d Hs Hr ltac:(lia) name). unfold stored. by rewrite decide_True.
  - destruct Hin as [[?|Hin]|Hv]; [done|by left|right].
    destruct (read_file name (fallback f)) as [d0|e0] eqn:Er0.
    + rewrite (Hspec d0 Hs eq_refl ltac:(lia) name'). unfold stored. by rewrite decide_False.
    + unfold sync_entry in Ee. rewrite Er0 in Ee. by injection Ee as <- _.
Qed.

(** After a synchronisation that reports success, every readable file of
    the directory is in S3 with its contents, and no certificate is waiting,
    provided S3 answered "miss" or an object each time it was asked. *)
Theorem sync_completes f names :
  steady -> read_dir (fallback f) = Ok names ->
  let '(r, f') := sync_all_to_s3 f in
  r = None ->
  needsSync f' = false /\
  forall name d, In name names -> read_file name (fallback f) = Ok d -> view (primary f') name = Some d.
Proof.
  intros Hs Hd. unfold sync_all_to_s3. rewrite Hd.
  pose proof (sync_entries_spec f names (mkCounts 0 0 0) Hs) as Hspec.
  destruct (sync_entries f names (mkCounts 0 0 0)) as [f' n]. cbn [fst snd n_failed] in Hspec.
  destruct (Z.ltb_spec 0 (n_failed n)); [done|]. intros _. split; [done|]. intros name d Hin Hr.
  apply (proj2 (Hspec ltac:(lia)) name d Hr). by left.
Qed.
End FallbackLaws.

(** ** Witnesses and examples *)

(** A store of names whose operations fail by a script. *)
Record toy_store : Type := mkToy { ts_map : gmap string string; ts_fails : list bool }.
Definition toy_error : error := ErrNet "i/o timeout" true.
Definition toy_step {A} (fail : A) (ok : gmap string string -> A * gmap string string) (s : toy_store) : A * toy_store :=
  match ts_fails s with
  | true :: rest => (fail, mkToy (ts_map s) rest)
  | _ => let '(a, m) := ok (ts_map s) in (a, mkToy m (tail (ts_fails s)))
  end.

#[export] Instance toy_cache : Cache toy_store := {|
  cache_get k := toy_step (Err toy_error) (fun m => (match m !! k with Some d => Ok d | None => Err ErrCacheMiss end, m));
  cache_put k d := toy_step (Some toy_error) (fun m => (None, <[k := d]> m));
  cache_delete k := toy_step (Some toy_error) (fun m => (None, delete k m))
|}.

#[export, refine] Instance toy_cache_laws : CacheLaws toy_store := {| view s k := ts_map s !! k |}.
Proof.
  - intros k [m fs]. simpl. unfold toy_step. simpl. destruct fs as [|[] fs]; simpl; (split; [done|]); try done;
      by destruct (m !! k).
  - intros k d [m fs]. simpl. unfold toy_step. simpl.
    assert (forall k', <[k := d]> m !! k' = stored k d (fun k => m !! k) k').
    { intros k'. unfold stored. case_decide; [subst; by rewrite lookup_insert_eq|by rewrite lookup_insert_ne]. }
    destruct fs as [|[] fs]; [done|by left|done].
  - intros k [m fs]. simpl. unfold toy_step. simpl.
    assert (forall k', delete k m !! k' = removed k (fun k => m !! k) k').
    { intros k'. unfold removed. case_decide; [subst; by rewrite lookup_delete_eq|by rewrite lookup_delete_ne]. }
    destruct fs as [|[] fs]; [done|by left|done].
Defined.

#[export] Instance toy_directory : Directory toy_store := {|
  read_dir s := Ok (map fst (map_to_list (ts_map s)));
  read_file k s := match ts_map s !! k with Some d => Ok d | None => Err toy_error end;
  is_not_exist _ := false
|}.
#[export] Instance toy_directory_laws : DirectoryLaws toy_store.
Proof. intros name l d. simpl. destruct (ts_map l !! name); [by intros [= ->]|done]. Qed.

Definition two_tiers (s3 local : list (string * string)) (s3_fails local_fails : list bool) :
    FallbackCache toy_store toy_store :=
  new_fallback_cache (mkToy (list_to_map s3) s3_fails) (mkToy (list_to_map local) local_fails).
Definition hours_later (n : nat) : Z := Z.of_nat n * hour.

Lemma served_was_stored_witness :
  let K := fun k d : string => k = "example.org" /\ (d = "new" \/ d = "old") in
  K "example.org" "new".
Proof.
  intros K. set (f0 := two_tiers [("example.org", "old")] [] [] []).
  apply (served_was_stored hours_later K (fallback_put hours_later "example.org" "new" f0).2 "example.org" "new").
  - apply (reachable_step _ _ f0).
    + apply reachable_init. split; [|split; [done|constructor]]. intros k d. simpl.
      rewrite lookup_insert_Some. intros [[<- <-]|[_ ?]]; [by split; [|right]|done].
    + apply step_put. by split; [|left].
  - reflexivity.
Defined.

Definition outage : FallbackCache toy_store toy_store := two_tiers [] [] [true] [].
(** The [Put] has set the flag and written to the directory; meanwhile a
    [SyncAllToS3] that found nothing to copy has cleared the flag. *)
Definition put_start (f : FallbackCache toy_store toy_store) : putting := mkPutting PutStart f false false.
Definition owns_n (n : nat) (x : putting) : putting := Nat.iter n (put_own hours_later "example.org" "new") x.
Definition swept_by_sync (x : putting) : putting :=
  mkPutting (pt_pc x) (sync_all_to_s3 (pt_cache x)).2 (pt_stored x) true.
Definition raced : putting := owns_n 1 (swept_by_sync (owns_n 4 (put_start outage))).

Lemma owns_reachable n (x : @putting toy_store toy_store) :
  reachable (fun x => pt_pc x = PutStart) (put_step hours_later "example.org" "new") x ->
  reachable (fun x => pt_pc x = PutStart) (put_step hours_later "example.org" "new") (owns_n n x).
Proof.
  intros Hx. induction n as [|n IH]; [done|]. eapply reachable_step; [exact IH|]. apply put_step_own.
Qed.

Lemma put_is_kept_witness :
  let y := put_own hours_later "example.org" "new" raced in
  (pt_stored y = true /\ (pt_swept y = false -> view (primary (pt_cache y)) "example.org" = Some "new")) \/
  (view (fallback (pt_cache y)) "example.org" = Some "new" /\
   In (ToS3 "example.org" "new") (fc_tasks (pt_cache y)) /\
   (pt_swept y = false -> needsSync (pt_cache y) = true)).
Proof.
  apply (put_is_kept hours_later "example.org" "new" raced).
  - unfold raced. apply owns_reachable. eapply reachable_step; [|apply put_step_sync, sync_all_directory].
    by apply owns_reachable, reachable_init.
  - by vm_compute.
  - by vm_compute.
Defined.

(** There the certificate is in the directory only, and the flag is not set;
    when the background copy finds S3 down as well, nothing copies it: the
    periodic runs do nothing. *)
Example sync_between_flag_and_write :
  let f := pt_cache (put_own hours_later "example.org" "new" raced) in
  let f1 := run_task hours_later (ToS3 "example.org" "new")
              (with_primary (mkToy (ts_map (primary f)) [true]) (take_task [] f)) in
  let f2 := (run_sync 0 f1).2 in
  (needsSync f, ts_map (fallback f) !! "example.org", fc_tasks f, ts_map (primary f1) !! "example.org",
   needsSync f1, ts_map (primary f2) !! "example.org") =
  (false, Some "new", [ToS3 "example.org" "new"], None, false, None).
Proof. vm_compute. reflexivity. Qed.

(** A renewal that reaches S3 is undone there by a [SyncAllToS3] that runs
    before the directory has it. *)
Example sync_undoes_renewal :
  let x := owns_n 3 (put_start (two_tiers [("example.org", "old")] [("example.org", "old")] [] [])) in
  let y := owns_n 1 (swept_by_sync x) in
  (pt_pc y, ts_map (primary (pt_cache x)) !! "example.org", ts_map (primary (pt_cache y)) !! "example.org",
   ts_map (fallback (pt_cache y)) !! "example.org", needsSync (pt_cache y)) =
  (PutDone None, Some "new", Some "old", Some "new", false).
Proof. vm_compute. reflexivity. Qed.

(** S3 is down for a write: it is kept locally, S3 is left alone until the
    breaker closes, and the periodic run copies it. *)
Example outage_and_recovery :
  let f1 := (fallback_put (fun _ => 0) "example.org" "new" outage).2 in
  let f2 := (run_sync 0 f1).2 in
  (breaker_open (fun _ => 29 * second) f1, breaker_open (fun _ => 30 * second) f1, needsSync f1,
   ts_map (primary f1) !! "example.org", ts_map (primary f2) !! "example.org", needsSync f2) =
  (true, false, true, None, Some "new", false).
Proof. vm_compute. reflexivity. Qed.

(** A store that does not fail. *)
Record plain_store : Type := mkPlain { ps_map : gmap string string }.
#[export] Instance plain_cache : Cache plain_store := {|
  cache_get k s := (match ps_map s !! k with Some d => Ok d | None => Err ErrCacheMiss end, s);
  cache_put k d s := (None, mkPlain (<[k := d]> (ps_map s)));
  cache_delete k s := (None, mkPlain (delete k (ps_map s)))
|}.
#[export, refine] Instance plain_cache_laws : CacheLaws plain_store := {| view s k := ps_map s !! k |}.
Proof.
  - intros k [m]. simpl. split; [done|]. by destruct (m !! k).
  - intros k d [m] k'. simpl. unfold stored. case_decide; [subst; by rewrite lookup_insert_eq|by rewrite lookup_insert_ne].
  - intros k [m] k'. simpl. unfold removed. case_decide; [subst; by rewrite lookup_delete_eq|by rewrite lookup_delete_ne].
Defined.
Lemma plain_steady : @steady plain_store plain_cache.
Proof. intros k [m] e. simpl. destruct (m !! k); [done|]. by intros [= <-]. Qed.

Definition left_behind : FallbackCache plain_store toy_store :=
  mkFallback (mkPlain ∅) (mkToy {["example.org" := "new"]} []) true true 0 0 [] 0.

Lemma sync_completes_witness :
  let '(r, f') := sync_all_to_s3 left_behind in
  r = None ->
  needsSync f' = false /\
  forall name d, In name ["example.org"] -> read_file name (fallback left_behind) = Ok d ->
    view (primary f') name = Some d.
Proof. apply (sync_completes left_behind ["example.org"] plain_steady). reflexivity. Defined.

(** A store behind a timeout: the file is skipped, the run reports success and
    the flag is cleared, though S3 does not have the certificate. *)
Example transient_error_clears_flag :
  let f := mkFallback (mkToy ∅ [true]) (mkToy {["example.org" := "new"]} []) true true 0 0 [] 0 in
  let '(r, f') := sync_all_to_s3 f in
  (r, needsSync f', ts_map (primary f') !! "example.org") = (None, false, None).
Proof. vm_compute. reflexivity. Qed.

(** After a [Put] that reached S3 but not the directory, [Get] goes on serving
    the directory's old certificate. *)
Example old_certificate_served :
  let f := two_tiers [("example.org", "old")] [("example.org", "old")] [] [true] in
  let '(r, f') := fallback_put (fun _ => 0) "example.org" "new" f in
  (r, (fallback_get (fun _ => 0) "example.org" f').1) = (None, Ok "old").
Proof. vm_compute. reflexivity. Qed.

(** The synchronisation at the start of a node whose directory is older than S3
    puts the old certificate back. *)
Example startup_restores_old_certificate :
  let f := two_tiers [("example.org", "renewed")] [("example.org", "old")] [] [] in
  ts_map (primary (run_startup_sync f)) !! "example.org" = Some "old".
Proof. vm_compute. reflexivity. Qed.

(** A [Get] while the breaker is open answers "miss" for a certificate that is
    in S3; a [Delete] reports success and leaves it there. *)
Example open_breaker_says_miss :
  let f := mkFallback (mkToy {["example.org" := "cert"]} []) (mkToy ∅ []) false false 0 1 [] 0 in
  ((fallback_get (fun _ => second) "example.org" f).1, (fallback_delete (fun _ => second) "example.org" f).1,
   (fallback_get (fun _ => hour) "example.org" (fallback_delete (fun _ => second) "example.org" f).2).1) =
  (Err ErrCacheMiss, None, Ok "cert").
Proof. vm_compute. reflexivity. Qed.

(** A bucket. *)
#[export] Instance plain_s3 : S3API plain_store := {|
  GetObject k s := (match ps_map s !! k with Some d => Ok (mkBody d None) | None => Err (ErrText "NoSuchKey") end, s);
  PutObject k d s := (None, mkPlain (<[k := d]> (ps_map s)));
  DeleteObject k s := (None, mkPlain (delete k (ps_map s)));
  no_such_key e := bool_decide (e = ErrText "NoSuchKey")
|}.
#[export, refine] Instance plain_s3_laws : S3Laws plain_store := {| objects s k := ps_map s !! k |}.
Proof.
  - intros k [m]. simpl. split; [done|]. by destruct (m !! k).
  - intros k [m] b s'. simpl. destruct (m !! k); [|done]. by intros [= <- _].
  - intros k d [m] k'. simpl. unfold stored. case_decide; [subst; by rewrite lookup_insert_eq|by rewrite lookup_insert_ne].
  - intros k [m] k'. simpl. unfold removed. case_decide; [subst; by rewrite lookup_delete_eq|by rewrite lookup_delete_ne].
Defined.

Lemma s3_cache_is_a_map_witness :
  let s := mkPlain {["b/x" := "1"]} in
  let '(r, s') := s3_put "a/" "x" "2" s in
  let '(r2, s2) := s3_delete "a/" "x" s in
  (r = None -> s3_view "a/" s' ≡ stored "x" "2" (s3_view "a/" s)) /\
  (s3_view "a/" s' ≡ s3_view "a/" s \/ s3_view "a/" s' ≡ stored "x" "2" (s3_view "a/" s)) /\
  (r2 = None -> s3_view "a/" s2 ≡ removed "x" (s3_view "a/" s)) /\
  s3_view "b/" s' ≡ s3_view "b/" s /\ s3_view "b/" s2 ≡ s3_view "b/" s.
Proof. apply (s3_cache_is_a_map "a/" "b/" "x" "2" (mkPlain {["b/x" := "1"]})). intros k'. discriminate. Defined.
