(* ===== verification/Cluster.v ===== *)
(** * The cluster (internal/cluster/cluster.go)

    Leader election among the members of a memberlist, and what it means for
    the certificate cache.  The memberlist (HashiCorp's library) is the list of
    members it reports. *)

From stdpp Require Import base gmap list strings sorting.
From Stdlib Require Import ZArith Lia Ascii.
From S2P Require Import Prelude GoString GoError Base64 CertCache.
#[local] Open Scope Z_scope.

(** ** The state *)

Inductive node_state : Type := StateAlive | StateSuspect | StateDead | StateLeft.
Record member : Type := mkMember { m_Name : string; m_State : node_state }.

(** What the code asks its memberlist for. *)
Record memberlist : Type := mkMemberlist { ml_local : string; ml_members : list member }.

Record Cluster : Type := mkCluster { cl_ml : option memberlist; cl_leader : string }.

(** [sort.Slice] by name. *)
Definition sort_members (l : list member) : list member := sort_by m_Name l.

(** [updateLeader] *)
Definition update_leader (c : Cluster) : Cluster :=
  match cl_ml c with
  | None => c
  | Some ml =>
      match sort_members (ml_members ml) with
      | [] => c
      | m :: _ => mkCluster (cl_ml c) (m_Name m)
      end
  end.

(** [IsLeader], [GetLeader], [NumMembers], [LocalNodeName] *)
Definition is_leader (c : Cluster) : bool :=
  match cl_ml c with None => false | Some ml => seqb (cl_leader c) (ml_local ml) end.
Definition get_leader (c : Cluster) : string := cl_leader c.
Definition num_members (ml : memberlist) : nat := length (ml_members ml).
Definition local_node_name (ml : memberlist) : string := ml_local ml.

(** [HealthStatus]: the counts, the leader and whether it is this node. *)
Definition count_state (s : node_state -> bool) (ml : memberlist) : nat :=
  length (List.filter (fun m => s (m_State m)) (ml_members ml)).
Definition health_status (c : Cluster) (ml : memberlist) : string * nat * nat * nat * nat * string * bool :=
  (ml_local ml, length (ml_members ml),
   count_state (fun s => match s with StateAlive => true | _ => false end) ml,
   count_state (fun s => match s with StateSuspect => true | _ => false end) ml,
   count_state (fun s => match s with StateDead => true | _ => false end) ml,
   get_leader c, is_leader c).

(** ** Configuration *)

Record ClusterSetup : Type := mkSetup {
  cs_NodeName : string; cs_BindAddr : string; cs_BindPort : Z; cs_Peers : list string; cs_SecretKey : string
}.
(** The fields of [memberlist.Config] that [NewCluster] sets. *)
Record MemberlistConfig : Type := mkMLConfig {
  mc_Name : string; mc_BindAddr : string; mc_BindPort : Z; mc_AdvertiseAddr : string; mc_AdvertisePort : Z;
  mc_SecretKey : string; mc_GossipVerifyIncoming : bool; mc_GossipVerifyOutgoing : bool
}.

Definition memberlist_config (def : MemberlistConfig) (cfg : ClusterSetup) : result error MemberlistConfig :=
  let addr d := if negb (is_empty (cs_BindAddr cfg)) then cs_BindAddr cfg else d in
  let port d := if 0 <? cs_BindPort cfg then cs_BindPort cfg else d in
  let name := if negb (is_empty (cs_NodeName cfg)) then cs_NodeName cfg else mc_Name def in
  let made := mkMLConfig name (addr (mc_BindAddr def)) (port (mc_BindPort def)) (addr (mc_AdvertiseAddr def))
                (port (mc_AdvertisePort def)) in
  if (0 <? slen (cs_SecretKey cfg))%nat then
    if negb (slen (cs_SecretKey cfg) =? 32)%nat then
      Err (ErrText ("secret key must be exactly 32 bytes, got " +:+ fmt_d (Z.of_nat (slen (cs_SecretKey cfg)))))
    else Ok (made (cs_SecretKey cfg) true true)
  else Ok (made (mc_SecretKey def) (mc_GossipVerifyIncoming def) (mc_GossipVerifyOutgoing def)).

(** [NewCluster]: [create] makes a memberlist, [join] contacts the peers (its
    error is only logged). *)
Definition new_cluster (def : MemberlistConfig) (create : MemberlistConfig -> result error memberlist)
    (join : list string -> memberlist -> memberlist) (cfg : ClusterSetup) : result error Cluster :=
  let? mc := memberlist_config def cfg in
  match create mc with
  | Err e => Err (ErrWrap ("failed to create memberlist: " +:+ error_text e) e)
  | Ok ml =>
      let ml := match cs_Peers cfg with [] => ml | peers => join peers ml end in
      Ok (update_leader (mkCluster (Some ml) ""))
  end.

Definition decode_secret_key (encoded : string) : result error string :=
  match base64_decode encoded with
  | Err e => Err (ErrWrap ("failed to decode secret key: " +:+ error_text e) e)
  | Ok decoded =>
      if negb (slen decoded =? 32)%nat then
        Err (ErrText ("secret key must be 32 bytes when decoded, got " +:+ fmt_d (Z.of_nat (slen decoded))))
      else Ok decoded
  end.

(** ** The life of a node

    The memberlist tells the node of changes, which starts a goroutine that
    updates the leader ([ct_pending] of them have not run yet); a ticker does
    so every second until [Shutdown] closes [done]. *)

Record node : Type := mkNode { ct_cluster : Cluster; ct_pending : nat; ct_done : bool }.
Definition with_cluster (n : node) (c : Cluster) : node := mkNode c (ct_pending n) (ct_done n).
Definition start_node (c : Cluster) : node := mkNode c 0 false.

(** The methods of the event delegate; [NotifyUpdate] only logs. *)
Definition notify_join (n : node) : node := mkNode (ct_cluster n) (S (ct_pending n)) (ct_done n).
Definition notify_leave (n : node) : node := mkNode (ct_cluster n) (S (ct_pending n)) (ct_done n).
Definition notify_update (n : node) : node := n.

(** The methods of the delegate: no metadata, no messages, no state. *)
Definition node_meta (limit : Z) : list Byte.byte := [].
Definition notify_msg (data : list Byte.byte) (n : node) : node := n.
Definition get_broadcasts (overhead limit : Z) : list (list Byte.byte) := [].
Definition local_state (join : bool) : list Byte.byte := [].
Definition merge_remote_state (buf : list Byte.byte) (join : bool) (n : node) : node := n.

(** [Shutdown]; [leave_err] and [stop_err] are the answers of the memberlist.
    [sync.Once]: only the first call does anything. *)
Definition shutdown_cluster (leave_err stop_err : option error) (n : node) : option error * node :=
  if ct_done n then (None, n)
  else let n := mkNode (ct_cluster n) (ct_pending n) true in
       match cl_ml (ct_cluster n) with
       | None => (None, n)
       | Some _ => (stop_err, n)
       end.

(** [logWriter.Write]: the line it logs, and the count it returns. *)
Definition log_writer_write (p : string) : string * Z :=
  let msg := if (0 <? slen p)%nat && has_suffix p (str1 LF) then stake (slen p - 1) p else p in
  (msg, Z.of_nat (slen p)).

(** What happens to a node: the library changes its view, or notifies; an
    update runs, started by a notification or the ticker; [Shutdown]. *)
Inductive node_step : node -> node -> Prop :=
| ns_view n ml ml' :
    cl_ml (ct_cluster n) = Some ml -> ml_local ml' = ml_local ml ->
    node_step n (with_cluster n (mkCluster (Some ml') (cl_leader (ct_cluster n))))
| ns_join n : node_step n (notify_join n)
| ns_leave n : node_step n (notify_leave n)
| ns_run n k : ct_pending n = S k -> node_step n (mkNode (update_leader (ct_cluster n)) k (ct_done n))
| ns_tick n : ct_done n = false -> node_step n (with_cluster n (update_leader (ct_cluster n)))
| ns_shutdown n leave_err stop_err : node_step n (shutdown_cluster leave_err stop_err n).2.

(** ** Who leads *)

(** The head of the sorted list is least. *)
Definition least (m : member) (l : list member) : Prop := forall n, In n l -> str_lt (m_Name n) (m_Name m) = false.

Lemma sort_head l : match sort_members l with [] => l = [] | n :: _ => In n l /\ least n l end.
Proof.
  pose proof (sort_by_perm m_Name l) as Hp. pose proof (sort_by_sorted m_Name l) as Hs.
  unfold sort_members. destruct (sort_by m_Name l) as [|n s]; [by apply Permutation_nil|].
  split; [eapply Permutation_in; [exact Hp|by left]|]. intros m Hm.
  apply (Permutation_in _ (Permutation_sym Hp)) in Hm as [<-|Hm]; [apply str_lt_irrefl|].
  inversion Hs as [|? ? _ Hall]; subst. rewrite List.Forall_forall in Hall. by apply Hall.
Qed.

(** The name of the leader in a view. *)
Definition leads (name : string) (members : list member) : Prop :=
  (exists m, In m members /\ m_Name m = name) /\ forall m, In m members -> str_lt (m_Name m) name = false.

Lemma leads_unique a b members : leads a members -> leads b members -> a = b.
Proof.
  intros [(m & Hm & <-) Ha] [(n & Hn & <-) Hb]. apply str_lt_total; [by apply Hb|by apply Ha].
Qed.

Lemma update_leader_leads c ml :
  cl_ml c = Some ml -> ml_members ml <> [] -> leads (cl_leader (update_leader c)) (ml_members ml).
Proof.
  intros Hml Hne. unfold update_leader. rewrite Hml. pose proof (sort_head (ml_members ml)) as Hs.
  destruct (sort_members (ml_members ml)) as [|m l]; [done|]. destruct Hs as [Hin Hl]. split; [by exists m|done].
Qed.

(** ** One leader, one writer *)

(** A node that knows itself and has the view [members]. *)
Definition node_in (members : list member) (c : Cluster) : Prop :=
  exists ml, cl_ml c = Some ml /\ (forall m, In m (ml_members ml) <-> In m members) /\
             exists m, In m members /\ m_Name m = ml_local ml.
Definition local_name (c : Cluster) : string := match cl_ml c with Some ml => ml_local ml | None => "" end.

Lemma is_leader_leads members c :
  node_in members c -> is_leader (update_leader c) = true <-> leads (local_name c) members.
Proof.
  intros (ml & Hml & Hview & m & Hm & Hname).
  assert (Hne : ml_members ml <> []) by (apply Hview in Hm; by destruct (ml_members ml)).
  pose proof (update_leader_leads c ml Hml Hne) as Hl.
  assert (Hlm : forall name, leads name (ml_members ml) <-> leads name members).
  { intros name. unfold leads. setoid_rewrite Hview. done. }
  assert (Hml' : cl_ml (update_leader c) = Some ml).
  { unfold update_leader. rewrite Hml. by destruct (sort_members (ml_members ml)). }
  unfold is_leader, local_name. rewrite Hml, Hml', seqb_true. rewrite Hlm in Hl. split; [by intros <-|].
  intros Hl'. by eapply leads_unique.
Qed.

(** C25: nodes with the same view of the cluster, each of which sees itself,
    agree on the leader: no two nodes with different names lead, and when every
    member is one of the nodes, one does; only that node's writes and deletions
    reach the certificate cache. *)
Theorem one_leader members (nodes : list Cluster) :
  Forall (node_in members) nodes -> members <> [] ->
  (forall m, In m members -> exists c, In c nodes /\ local_name c = m_Name m) ->
  (exists c, In c nodes /\ is_leader (update_leader c) = true) /\
  (forall c c', In c nodes -> In c' nodes ->
     is_leader (update_leader c) = true -> is_leader (update_leader c') = true -> local_name c = local_name c') /\
  forall S (HS : Cache S) c (s : S) k d, In c nodes -> is_leader (update_leader c) = false ->
    (cluster_put (is_leader (update_leader c)) k d s).2 = s /\
    (cluster_delete (is_leader (update_leader c)) k s).2 = s.
Proof.
  intros Hn Hne Hall. rewrite List.Forall_forall in Hn. split; [|split].
  - pose proof (sort_head members) as Hs. destruct (sort_members members) as [|m l]; [done|].
    destruct Hs as [Hin Hl]. destruct (Hall m Hin) as (c & Hc & Hname). exists c. split; [done|].
    apply (is_leader_leads members); [by apply Hn|]. rewrite Hname. split; [by exists m|done].
  - intros c c' Hc Hc' H1 H2. apply (is_leader_leads members) in H1, H2; [|by apply Hn..]. by eapply leads_unique.
  - intros S HS c s k d Hc ->. done.
Qed.

(** *** The election settles *)

(** The node believes what its view says. *)
Definition current (n : node) : Prop :=
  match cl_ml (ct_cluster n) with
  | Some ml => ml_members ml = [] \/ leads (cl_leader (ct_cluster n)) (ml_members ml)
  | None => True
  end.

Lemma update_view c : cl_ml (update_leader c) = cl_ml c.
Proof. unfold update_leader. destruct (cl_ml c) as [ml|] eqn:E; [|done]. by destruct (sort_members _). Qed.

Lemma update_current c k d : current (mkNode (update_leader c) k d).
Proof.
  unfold current. cbn [ct_cluster]. rewrite update_view. destruct (cl_ml c) as [ml|] eqn:E; [|done].
  destruct (ml_members ml) as [|m l] eqn:Em; [by left|right]. rewrite <- Em.
  apply update_leader_leads; [done|]. by rewrite Em.
Qed.

(** A step that leaves the view as it is. *)
Definition steady (n n' : node) : Prop := node_step n n' /\ cl_ml (ct_cluster n') = cl_ml (ct_cluster n).

Lemma steady_current n n' : steady n n' -> current n -> current n'.
Proof.
  intros [Hs Hv] Hc. destruct Hs as [n ml ml' Hml Hl|n|n|n k Hk|n Hd|n e1 e2]; try done.
  - cbn in Hv. unfold current in *. rewrite Hml in Hv, Hc. injection Hv as ->. exact Hc.
  - apply update_current.
  - apply update_current.
  - unfold shutdown_cluster. destruct (ct_done n); [done|]. cbn. destruct (cl_ml (ct_cluster n)) eqn:E; cbn; unfold current in *; cbn; by rewrite E in *.
Qed.

Lemma steady_run n n' : rtc steady n n' -> current n -> current n' /\ cl_ml (ct_cluster n') = cl_ml (ct_cluster n).
Proof.
  intros Hr. induction Hr as [n|n n1 n' Hs _ IH]; [done|]. intros Hc.
  destruct (IH (steady_current _ _ Hs Hc)) as [? ->]. split; [done|apply Hs].
Qed.

(** An update has run: by the ticker, or one that a notification started. *)
Definition updated (n n' : node) : Prop := exists k, n' = mkNode (update_leader (ct_cluster n)) k (ct_done n).

Lemma settles_on members n1 n2 n3 n4 :
  node_in members (ct_cluster n1) -> rtc steady n1 n2 -> updated n2 n3 -> rtc steady n3 n4 ->
  leads (cl_leader (ct_cluster n4)) members.
Proof.
  intros (ml & Hml & Hview & m & Hm & _) Hr [k ->] Hr'.
  assert (Hv : cl_ml (ct_cluster n2) = Some ml).
  { clear Hr'. induction Hr as [n|n nm n' Hs _ IH]; [done|]. apply IH. destruct Hs as [_ ->]. done. }
  destruct (steady_run _ _ Hr' (update_current _ _ _)) as [Hc Hv'].
  cbn [ct_cluster] in Hv'. rewrite update_view, Hv in Hv'. unfold current in Hc. rewrite Hv' in Hc.
  destruct Hc as [Hc|[(m' & Hm' & Hn) Hmin]]; [apply Hview in Hm; by rewrite Hc in Hm|].
  split; [exists m'; split; [by apply Hview|done]|]. intros m0 Hm0. by apply Hmin, Hview.
Qed.

(** C26: the election settles: nodes whose views agree and no longer change
    have the same leader, the least name of the view, as soon as each has run
    one update, by its ticker or a notification, whatever happens in between
    and after: more notifications, more updates in any order, a shutdown.  For
    as long as a node's ticker runs, such an update is possible. *)
Theorem election_settles members n1 n1' m1 n1'' n2 n2' m2 n2'' :
  node_in members (ct_cluster n1) -> node_in members (ct_cluster n2) ->
  rtc steady n1 n1' -> updated n1' m1 -> rtc steady m1 n1'' ->
  rtc steady n2 n2' -> updated n2' m2 -> rtc steady m2 n2'' ->
  cl_leader (ct_cluster n1'') = cl_leader (ct_cluster n2'') /\ leads (cl_leader (ct_cluster n1'')) members /\
  (ct_done n1'' = false -> exists m, node_step n1'' m /\ updated n1'' m).
Proof.
  intros H1 H2 R1 U1 R1' R2 U2 R2'. pose proof (settles_on _ _ _ _ _ H1 R1 U1 R1') as L1.
  pose proof (settles_on _ _ _ _ _ H2 R2 U2 R2') as L2. split; [by eapply leads_unique|]. split; [done|].
  intros Hd. eexists. split; [by apply ns_tick|]. by exists (ct_pending n1'').
Qed.

(** [Shutdown] any number of times: the channel is closed once, and the later
    calls return nil. *)
Theorem shutdown_once e1 e2 e3 e4 n :
  let '(r, n') := shutdown_cluster e1 e2 n in
  ct_done n' = true /\ shutdown_cluster e3 e4 n' = (None, n') /\
  (r <> None -> r = e2 /\ ct_done n = false).
Proof.
  unfold shutdown_cluster. destruct (ct_done n) eqn:Hd; [by rewrite Hd|].
  destruct (cl_ml _) eqn:E; cbn; rewrite ?E; done.
Qed.

(** A secret key is accepted exactly when it is the base64 form of 32
    bytes, and a key of 32 bytes is read back from its base64 form. *)
Theorem secret_key_round_trip key encoded :
  (decode_secret_key encoded = Ok key <-> base64_decode encoded = Ok key /\ slen key = 32%nat) /\
  (slen key = 32%nat -> decode_secret_key (base64_encode key) = Ok key).
Proof.
  assert (Hspec : forall e, decode_secret_key e = Ok key <-> base64_decode e = Ok key /\ slen key = 32%nat).
  { intros e. unfold decode_secret_key. destruct (base64_decode e) as [d|]; [|split; [done|by intros [? _]]].
    destruct (Nat.eqb_spec (slen d) 32) as [Hd|Hd]; simpl.
    - split; [intros Hk; apply Ok_inj in Hk as <-; done|by intros [? _]].
    - split; [done|]. intros [Hk ?]. apply Ok_inj in Hk as <-. done. }
  split; [apply Hspec|]. intros Hk. apply Hspec. split; [apply base64_round_trip|done].
Qed.

(** ** Witnesses and examples *)

Definition a_member (name : string) : member := mkMember name StateAlive.
Definition a_node (name : string) (view : list string) : Cluster :=
  mkCluster (Some (mkMemberlist name (map a_member view))) "".
Definition trio : list string := ["mx2"; "mx10"; "mx1"].

Lemma one_leader_witness :
  let nodes := map (fun n => a_node n trio) trio in
  (exists c, In c nodes /\ is_leader (update_leader c) = true) /\
  (forall c c', In c nodes -> In c' nodes ->
     is_leader (update_leader c) = true -> is_leader (update_leader c') = true -> local_name c = local_name c') /\
  forall S (HS : Cache S) c (s : S) k d, In c nodes -> is_leader (update_leader c) = false ->
    (cluster_put (is_leader (update_leader c)) k d s).2 = s /\
    (cluster_delete (is_leader (update_leader c)) k s).2 = s.
Proof.
  apply (one_leader (map a_member trio)).
  - apply List.Forall_forall. intros c Hc. apply in_map_iff in Hc as (n & <- & Hn).
    exists (mkMemberlist n (map a_member trio)). split; [done|split; [done|]].
    exists (a_member n). split; [by apply in_map|done].
  - done.
  - intros m Hm. apply in_map_iff in Hm as (n & <- & Hn). exists (a_node n trio). split; [|done].
    by apply (in_map (fun n => a_node n trio)).
Defined.

(** A node that another has joined believes in its old leader until its update
    runs; the other starts. *)
Lemma election_settles_witness :
  let old := mkNode (mkCluster (cl_ml (a_node "mx2" trio)) "mx10") 1 false in
  let young := start_node (a_node "mx1" trio) in
  let n1 := notify_join (mkNode (update_leader (ct_cluster old)) 0 false) in
  let n2 := mkNode (update_leader (ct_cluster young)) 0 false in
  cl_leader (ct_cluster old) = "mx10" /\
  cl_leader (ct_cluster n1) = cl_leader (ct_cluster n2) /\ leads (cl_leader (ct_cluster n1)) (map a_member trio) /\
  (ct_done n1 = false -> exists m, node_step n1 m /\ updated n1 m).
Proof.
  split; [reflexivity|].
  apply (election_settles (map a_member trio)
    (mkNode (mkCluster (cl_ml (a_node "mx2" trio)) "mx10") 1 false)
    (mkNode (mkCluster (cl_ml (a_node "mx2" trio)) "mx10") 1 false)
    (mkNode (update_leader (mkCluster (cl_ml (a_node "mx2" trio)) "mx10")) 0 false) _
    (start_node (a_node "mx1" trio)) (start_node (a_node "mx1" trio))
    (mkNode (update_leader (a_node "mx1" trio)) 0 false) _).
  - eexists. split; [reflexivity|]. split; [done|]. exists (a_member "mx2"). split; [by left|done].
  - eexists. split; [reflexivity|]. split; [done|]. exists (a_member "mx1"). split; [by right; right; left|done].
  - apply rtc_refl.
  - by exists 0%nat.
  - apply rtc_once. split; [apply ns_join|done].
  - apply rtc_refl.
  - by exists 0%nat.
  - apply rtc_refl.
Defined.

(** The order is that of bytes: "mx10" comes before "mx2". *)
Example leaders :
  map (fun n => is_leader (update_leader (a_node n trio))) trio = [false; false; true] /\
  get_leader (update_leader (a_node "mx2" ["mx2"; "mx10"])) = "mx10".
Proof. split; reflexivity. Qed.

(** Nodes that do not see each other both lead. *)
Example split_brain :
  map (fun c => is_leader (update_leader c)) [a_node "mx1" ["mx1"; "mx2"]; a_node "mx2" ["mx2"]] = [true; true].
Proof. reflexivity. Qed.

Example secret_keys :
  map (fun k => is_ok (decode_secret_key k))
    ["AAAAAAAAAAAAAAAAAAAAAAAAAAAAAAAAAAAAAAAAAAA="; "AAAA"; "not base64"] = [true; false; false].
Proof. vm_compute. reflexivity. Qed.
