(* ===== verification/TLSManager.v ===== *)
(** * The TLS manager (internal/tls/manager.go)

    How the manager is set up, which host names its [GetCertificate] lets
    through to autocert, the report on the certificates, and the validation of
    the S3 bucket with its retries.  Autocert and the AWS client are
    parameters. *)

From stdpp Require Import base list strings.
From Stdlib Require Import ZArith Lia.
From S2P Require Import Prelude GoString GoFloat GoError NetIP Config.
#[local] Open Scope Z_scope.

(** ** Errors (errors.go) *)

Definition ErrMissingServerName : error :=
  ErrSentinel "tls: missing server name (SNI) and no default domain configured".
Definition ErrHostNotAllowed : error := ErrSentinel "tls: host not allowed".
Definition ErrCertificateUnavailable : error := ErrSentinel "tls: certificate unavailable".

(** ** Set-up *)

(** Where certificates are kept: a directory, or a directory in front of S3
    with the interval of the sync worker. *)
Inductive storage : Type :=
| FileCache (dir : string)
| HybridCache (dir bucket prefix : string) (interval : Z).

Record Manager : Type := mkManager {
  mg_storage : storage;
  mg_leader_gated : bool;
  mg_domains : list string;
  mg_defaultDomain : string
}.

(** [NewManager]; [s3] is the answer of [createS3Cache], [isLeader] whether a
    leader function was given.  [Ok None]: there is nothing to manage. *)
Definition new_manager (cfg : TLSConfig) (s3 : result error unit) (isLeader : bool) : result error (option Manager) :=
  let le := tls_LetsEncrypt cfg in
  if negb (tls_Enabled cfg) || negb (seqb (tls_Provider cfg) "letsencrypt") then Ok None
  else
  let? st :=
    (if seqb (le_StorageProvider le) "s3" then
       let? _ := s3 in
       let cacheDir := if is_empty (le_CacheDir le) then "cert-cache" else le_CacheDir le in
       let syncInterval := minutes (le_SyncIntervalMinutes le) in
       let syncInterval := if syncInterval =? 0 then 5 * minute else syncInterval in
       Ok (HybridCache cacheDir (s3_Bucket (le_S3 le)) (s3_Prefix (le_S3 le)) syncInterval)
     else if seqb (le_StorageProvider le) "file" then Ok (FileCache (le_CacheDir le))
     else Err (ErrText ("unsupported storage provider: " +:+ le_StorageProvider le))) in
  let defaultDomain :=
    if is_empty (le_DefaultDomain le) then match le_Domains le with d :: _ => d | [] => "" end
    else le_DefaultDomain le in
  Ok (Some (mkManager st isLeader (le_Domains le) defaultDomain)).

(** ** Certificates *)

(** Autocert: a certificate for a name, and the policy made of the configured
    domains ([HostWhitelist]). *)
Class Autocert : Type := {
  Certificate : Type;
  autocert_get : string -> result error Certificate;
  host_whitelist : list string -> string -> option error
}.

Lemma error_is_wrap t e : error_is (ErrWrap t e) e = true.
Proof.
  assert (Hr : error_is e e = true) by (destruct e; cbn [error_is]; by rewrite bool_decide_true).
  cbn [error_is]. by rewrite Hr, orb_true_r.
Qed.

Section Certificates.
Context `{Autocert, Unicode}.

Definition is_ip_address (host : string) : bool := bool_decide (is_Some (parse_ip host)).

(** The name autocert is asked for, or the refusal. *)
Definition resolve_server_name (m : Manager) (serverName : string) : result error string :=
  let? serverName :=
    (if is_empty serverName then
       if negb (is_empty (mg_defaultDomain m)) then Ok (mg_defaultDomain m) else Err ErrMissingServerName
     else Ok serverName) in
  let serverName := to_lower serverName in
  if is_ip_address serverName then
    Err (ErrWrap (error_text ErrHostNotAllowed +:+ ": IP addresses not supported (use domain name)") ErrHostNotAllowed)
  else match host_whitelist (mg_domains m) serverName with
       | Some _ => Err (ErrWrap (error_text ErrHostNotAllowed +:+ ": " +:+ serverName) ErrHostNotAllowed)
       | None => Ok serverName
       end.

(** The wrapped [GetCertificate]. *)
Definition get_certificate (m : Manager) (serverName : string) : result error Certificate :=
  let? serverName := resolve_server_name m serverName in
  match autocert_get serverName with
  | Ok cert => Ok cert
  | Err e => Err (ErrWrap (error_text ErrCertificateUnavailable +:+ " for " +:+ serverName +:+ ": " +:+ error_text e)
                    ErrCertificateUnavailable)
  end.

(** C27: autocert is asked only for a lower-case name that is not an IP address
    and that the policy of the configured domains lets through: the client's
    name, or the default domain for a client without one; every other client
    gets the error that says why, and a failure of autocert is reported as a
    certificate that is unavailable. *)
Theorem certificate_requests m serverName :
  let asked := if is_empty serverName then mg_defaultDomain m else serverName in
  let r := get_certificate m serverName in
  if is_empty asked then r = Err ErrMissingServerName
  else if is_ip_address (to_lower asked) || bool_decide (host_whitelist (mg_domains m) (to_lower asked) <> None) then
    exists e, r = Err e /\ error_is e ErrHostNotAllowed = true
  else match autocert_get (to_lower asked) with
       | Ok cert => r = Ok cert
       | Err _ => exists e, r = Err e /\ error_is e ErrCertificateUnavailable = true
       end.
Proof.
  cbv zeta. unfold get_certificate, resolve_server_name.
  set (asked := if is_empty serverName then mg_defaultDomain m else serverName).
  assert (Ha : (if is_empty serverName then
                  if negb (is_empty (mg_defaultDomain m)) then Ok (mg_defaultDomain m) else Err ErrMissingServerName
                else Ok serverName) = if is_empty asked then @Err error string ErrMissingServerName else Ok asked).
  { subst asked. destruct (is_empty serverName) eqn:E; [by destruct (is_empty (mg_defaultDomain m))|by rewrite E]. }
  rewrite Ha. destruct (is_empty asked); [done|].
  destruct (is_ip_address (to_lower asked)); cbn [orb].
  { eexists. split; [done|]. apply error_is_wrap. }
  destruct (host_whitelist (mg_domains m) (to_lower asked)) as [e|].
  - rewrite bool_decide_true by done. eexists. split; [done|]. apply error_is_wrap.
  - rewrite bool_decide_false by (intros []; done). destruct (autocert_get (to_lower asked)); [done|].
    eexists. split; [done|]. apply error_is_wrap.
Qed.
End Certificates.

(** ** The report on certificates *)

(** What the report reads of a certificate: its parsed leaf, if there is one,
    and the encoded chain. *)
Class CertReader `{Autocert} : Type := {
  cert_leaf : Certificate -> option (Z * Z);          (* NotBefore, NotAfter *)
  cert_chain : Certificate -> list string;
  ParseCertificate : string -> result error (Z * Z)
}.

Record CertificateInfo : Type := mkInfo {
  ci_Domain : string; ci_NotBefore : Z; ci_NotAfter : Z; ci_DaysUntilExpiry : Z; ci_IsExpired : bool;
  ci_Error : option error
}.

Section Report.
Context `{CertReader}.

(** [d.Hours()]; then [int(... / 24)]. *)
Definition duration_hours (d : Z) : float64 :=
  fadd (float_of_int (Z.quot d hour)) (fdiv (float_of_int (Z.rem d hour)) (float_of_int hour)).
Definition days_until (d : Z) : Z := int_of_float (fdiv (duration_hours d) (float_of_int 24)).

(** [GetCertificateInfo] of a manager that exists; [t1] and [t2] are its two
    readings of the clock. *)
Definition get_certificate_info (domain : string) (t1 t2 : Z) : CertificateInfo :=
  let failed e := mkInfo domain zero_time zero_time 0 false (Some e) in
  match autocert_get domain with
  | Err e => failed (ErrWrap ("failed to get certificate: " +:+ error_text e) e)
  | Ok cert =>
      let report (leaf : Z * Z) :=
        mkInfo domain leaf.1 leaf.2 (days_until (time_sub leaf.2 t1)) (time_after t2 leaf.2) None in
      match cert_leaf cert, cert_chain cert with
      | Some leaf, _ => report leaf
      | None, der :: _ =>
          match ParseCertificate der with
          | Ok leaf => report leaf
          | Err e => failed (ErrWrap ("failed to parse certificate: " +:+ error_text e) e)
          end
      | None, [] => mkInfo domain zero_time zero_time 0 false None
      end
  end.

(** [CheckCertificates]: what is logged for each domain. *)
Inductive cert_log : Type := CheckFailed | CertExpired | ExpiringSoon (days : Z) | CertFine.
Definition check_certificate (info : CertificateInfo) : cert_log :=
  match ci_Error info with
  | Some _ => CheckFailed
  | None => if ci_IsExpired info then CertExpired
            else if ci_DaysUntilExpiry info <=? 30 then ExpiringSoon (ci_DaysUntilExpiry info) else CertFine
  end.
Definition check_certificates (domains : list string) (t1 t2 : string -> Z) : list (string * cert_log) :=
  map (fun d => (d, check_certificate (get_certificate_info d (t1 d) (t2 d)))) domains.
End Report.

(** ** What the server asks of its manager

    The manager is a pointer that may be nil: [None].  The handler of the
    challenges is autocert's in front of the [fallback], the sync worker exists
    with S3 storage only, and [Stop] stops it. *)
Section Accessors.
Context {Handler : Type} (acme_handler : Manager -> Handler -> Handler).

Definition http_handler (m : option Manager) (fallback : Handler) : Handler :=
  match m with Some m => acme_handler m fallback | None => fallback end.
End Accessors.

(** The [GetCertificate] of the configuration handed to the server. *)
Definition tls_config `{Autocert, Unicode} (m : option Manager) : option (string -> result error Certificate) :=
  get_certificate <$> m.

Definition sync_interval (m : Manager) : option Z :=
  match mg_storage m with HybridCache _ _ _ interval => Some interval | FileCache _ => None end.
Definition stop_timeout : Z := 10 * second.
(** [Stop]: the worker that is told to stop and how long it is waited for. *)
Definition stop_manager (m : option Manager) : option Z :=
  match m with
  | None => None
  | Some m => match sync_interval m with Some _ => Some stop_timeout | None => None end
  end.

(** ** The S3 client ([createS3Cache])

    What the AWS library loads by default, as far as it is changed: the
    region, and where credentials come from. *)
Inductive provider : Type := DefaultChain | StaticCredentials (access secret session : string).
Record aws_config : Type := mkAwsConfig { aws_Region : string; aws_Credentials : provider }.
(** [s3.Options] as far as they are set; [None]: as loaded. *)
Record s3_options : Type := mkS3Options {
  o_config : aws_config; o_BaseEndpoint : option string; o_UsePathStyle : bool; o_ChecksumWhenRequired : bool
}.
Record S3Cache : Type := mkS3Cache { sc_client : s3_options; sc_Bucket : string; sc_Prefix : string }.

Definition overridden (loaded : aws_config) (s3 : S3Config) : aws_config :=
  let cfg := if negb (is_empty (s3_Region s3)) then mkAwsConfig (s3_Region s3) (aws_Credentials loaded) else loaded in
  if negb (is_empty (s3_AccessKey s3)) && negb (is_empty (s3_SecretKey s3)) then
    mkAwsConfig (aws_Region cfg) (StaticCredentials (s3_AccessKey s3) (s3_SecretKey s3) "")
  else cfg.
Definition s3_client (loaded : aws_config) (checksum : bool) (s3 : S3Config) : s3_options :=
  let cfg := overridden loaded s3 in
  if negb (is_empty (s3_Endpoint s3)) then mkS3Options cfg (Some (s3_Endpoint s3)) true checksum
  else mkS3Options cfg None false false.

(** ** The bucket's validation ([createS3Cache])

    [head] is the answer of the n-th [HeadBucket] and how long it took; the
    context of the initialisation ends at [deadline].  A backoff that would
    reach the deadline is cut short by the context. *)
Definition maxRetries : nat := 5.
Definition backoff (attempt : nat) : Z := 2 ^ (Z.of_nat attempt - 1) * second.

Record attempts : Type := mkAttempts {
  at_result : result error unit;
  at_calls : nat;
  at_end : Z
}.

Fixpoint validate_bucket (fuel attempt : nat) (err : error) (head : nat -> option error * Z) (now deadline : Z) : attempts :=
  match fuel with
  | O => mkAttempts (Err (ErrWrap ("S3 bucket validation failed after " +:+ fmt_d (Z.of_nat maxRetries)
                                     +:+ " attempts: " +:+ error_text err) err)) attempt now
  | S fuel =>
      let wait := if (attempt =? 0)%nat then 0 else backoff attempt in
      if negb (attempt =? 0)%nat && (deadline <=? now + wait) then
        mkAttempts (Err (ErrWrap ("S3 bucket validation cancelled during retry backoff: "
                                    +:+ error_text deadline_exceeded) deadline_exceeded)) attempt (Z.max now deadline)
      else
        let '(answer, took) := head attempt in
        let now := now + wait + took in
        match answer with
        | None => mkAttempts (Ok tt) (S attempt) now
        | Some e => validate_bucket fuel (S attempt) e head now deadline
        end
  end.

(** The initialisation has ten seconds, or less when its caller's context ends
    earlier. *)
Definition create_s3_cache (head : nat -> option error * Z) (now : Z) (parent : option Z) : attempts :=
  let deadline := now + 10 * second in
  let deadline := match parent with Some d => Z.min d deadline | None => deadline end in
  validate_bucket maxRetries 0 (ErrText "") head now deadline.

(** The whole of [createS3Cache]; [head] answers for the client and bucket it
    is given. *)
Definition new_s3_cache (loaded : result error aws_config) (le : LetsEncryptConfig)
    (head : s3_options -> string -> nat -> option error * Z) (now : Z) (parent : option Z) : result error S3Cache :=
  match loaded with
  | Err e => Err (ErrWrap ("failed to load AWS config: " +:+ error_text e) e)
  | Ok loaded =>
      let client := s3_client loaded true (le_S3 le) in
      let? _ := at_result (create_s3_cache (head client (s3_Bucket (le_S3 le))) now parent) in
      Ok (mkS3Cache client (s3_Bucket (le_S3 le)) (s3_Prefix (le_S3 le)))
  end.

(** Success is the first answer without an error. *)
Lemma validate_bucket_ok fuel attempt err head now deadline :
  (forall m, (m < attempt)%nat -> (head m).1 <> None) ->
  let out := validate_bucket fuel attempt err head now deadline in
  is_ok (at_result out) = true <-> exists n, at_calls out = S n /\ (head n).1 = None /\
     forall m, (m < n)%nat -> (head m).1 <> None.
Proof.
  revert attempt err now. induction fuel as [|fuel IH]; intros attempt err now Hm.
  { split; [done|]. intros (n & Hn & Hnone & _). simpl in Hn. subst. by destruct (Hm n ltac:(lia)). }
  cbn [validate_bucket]. destruct (negb (attempt =? 0)%nat && _).
  { split; [done|]. intros (n & Hn & Hnone & _). simpl in Hn. subst. by destruct (Hm n ltac:(lia)). }
  destruct (head attempt) as [[e|] took] eqn:Eh.
  - apply IH. intros m Hlt. destruct (decide (m = attempt)) as [->|]; [by rewrite Eh|apply Hm; lia].
  - split; [|done]. intros _. exists attempt. by rewrite Eh.
Qed.

(** A round after the first: it is cancelled, or takes its wait and more. *)
Lemma validate_bucket_step fuel attempt err head now deadline :
  (forall n, 0 <= (head n).2) ->
  let out := validate_bucket (S fuel) (S attempt) err head now deadline in
  (at_calls out <= S (S attempt))%nat /\
  (is_ok (at_result out) = false -> at_result out =
     Err (ErrWrap ("S3 bucket validation cancelled during retry backoff: " +:+ error_text deadline_exceeded)
            deadline_exceeded)) \/
  (exists e now', now + backoff (S attempt) <= now' /\ out = validate_bucket fuel (S (S attempt)) e head now' deadline).
Proof.
  intros Htook. cbn [validate_bucket Nat.eqb negb andb]. destruct (deadline <=? now + backoff (S attempt)).
  { left. cbn [at_calls at_result]. split; [lia|done]. }
  pose proof (Htook (S attempt)) as Ht. destruct (head (S attempt)) as [[e|] took]; cbn [snd] in Ht.
  - right. eexists e, _. split; [|done]. lia.
  - left. cbn [at_calls at_result]. split; [lia|done].
Qed.

Lemma validate_bucket_first fuel err head now deadline :
  validate_bucket (S fuel) 0 err head now deadline =
  let '(answer, took) := head 0%nat in
  match answer with
  | None => mkAttempts (Ok tt) 1 (now + 0 + took)
  | Some e => validate_bucket fuel 1 e head (now + 0 + took) deadline
  end.
Proof. reflexivity. Qed.

Lemma validate_bucket_late fuel attempt err head now deadline :
  deadline <= now + backoff (S attempt) ->
  at_calls (validate_bucket (S fuel) (S attempt) err head now deadline) = S attempt /\
  at_result (validate_bucket (S fuel) (S attempt) err head now deadline) =
     Err (ErrWrap ("S3 bucket validation cancelled during retry backoff: " +:+ error_text deadline_exceeded)
            deadline_exceeded).
Proof.
  intros Hd. cbn [validate_bucket Nat.eqb negb andb]. destruct (Z.leb_spec deadline (now + backoff (S attempt))); [done|lia].
Qed.

(** The validation of the bucket never gets to its fifth attempt: the
    waits of 1, 2, 4 and 8 seconds do not fit into the ten seconds it has.  It
    asks at most four times, succeeds exactly when one of those answers has no
    error, and otherwise always reports that it was cancelled. *)
Theorem bucket_attempts head now parent :
  (forall n, 0 <= (head n).2) ->
  let out := create_s3_cache head now parent in
  (at_calls out <= 4)%nat /\
  (is_ok (at_result out) = true <-> exists n, at_calls out = S n /\ (head n).1 = None /\
     forall m, (m < n)%nat -> (head m).1 <> None) /\
  (is_ok (at_result out) = false -> at_result out =
     Err (ErrWrap ("S3 bucket validation cancelled during retry backoff: " +:+ error_text deadline_exceeded)
            deadline_exceeded)).
Proof.
  intros Htook. cbv zeta. unfold create_s3_cache.
  set (deadline := match parent with Some d => _ | None => _ end).
  assert (Hd : deadline <= now + 10 * second) by (subst deadline; destruct parent; lia).
  assert (Hmain : let out := validate_bucket maxRetries 0 (ErrText "") head now deadline in
    (at_calls out <= 4)%nat /\ (is_ok (at_result out) = false -> at_result out =
     Err (ErrWrap ("S3 bucket validation cancelled during retry backoff: " +:+ error_text deadline_exceeded)
            deadline_exceeded))).
  { cbv zeta. unfold maxRetries. rewrite validate_bucket_first. pose proof (Htook 0%nat) as H0.
    destruct (head 0%nat) as [[e0|] t0]; cbn [snd] in H0; [|cbn [at_calls at_result]; split; [lia|done]].
    destruct (validate_bucket_step 3 0 e0 head (now + 0 + t0) deadline Htook) as [[? ?]|(e1 & n1 & Hn1 & ->)]; [by split; [lia|]|].
    destruct (validate_bucket_step 2 1 e1 head n1 deadline Htook) as [[? ?]|(e2 & n2 & Hn2 & ->)]; [by split; [lia|]|].
    destruct (validate_bucket_step 1 2 e2 head n2 deadline Htook) as [[? ?]|(e3 & n3 & Hn3 & ->)]; [by split; [lia|]|].
    destruct (validate_bucket_late 0 3 e3 head n3 deadline) as [-> ->].
    { change (backoff 1) with (1 * second) in *. change (backoff 2) with (2 * second) in *.
      change (backoff 3) with (4 * second) in *. change (backoff 4) with (8 * second).
      unfold second in *. lia. }
    split; [lia|done]. }
  destruct Hmain as [Hc Hr]. split; [done|]. split; [|done].
  apply validate_bucket_ok. intros m Hm. lia.
Qed.

Lemma bucket_attempts_witness :
  let head (n : nat) : option error * Z := (Some (ErrText "no route"), second) in
  let out := create_s3_cache head 0 None in
  (at_calls out <= 4)%nat /\
  (is_ok (at_result out) = true <-> exists n, at_calls out = S n /\ (head n).1 = None /\
     forall m, (m < n)%nat -> (head m).1 <> None) /\
  (is_ok (at_result out) = false -> at_result out =
     Err (ErrWrap ("S3 bucket validation cancelled during retry backoff: " +:+ error_text deadline_exceeded)
            deadline_exceeded)).
Proof.
  apply (bucket_attempts (fun _ => (Some (ErrText "no route"), second)) 0 None). intros n. unfold second. simpl. lia.
Defined.

(** Calls that answer at once: three attempts fail, the fourth would be the
    last, and the wait for the fifth is cut off at ten seconds. *)
Example instant_failures :
  let out := create_s3_cache (fun _ => (Some (ErrText "no route"), 0)) 0 None in
  (at_calls out, at_end out) = (4%nat, 10 * second).
Proof. vm_compute. reflexivity. Qed.
Example dns_comes_up :
  at_calls (create_s3_cache (fun n => (if (n <? 2)%nat then Some (ErrText "no such host") else None, 0)) 0 None) = 3%nat.
Proof. vm_compute. reflexivity. Qed.

(** ** Examples *)

Definition toy_autocert : Autocert := {|
  Certificate := string;
  autocert_get name := if seqb name "down.example" then Err (ErrText "rate limited") else Ok name;
  host_whitelist l name := if existsb (seqb name) l then None else Some (ErrText "host not configured")
|}.
Definition toy_manager : Manager := mkManager (FileCache "certs") false ["mail.example"; "down.example"] "mail.example".

Example handshakes :
  map (@get_certificate toy_autocert plain_unicode toy_manager) ["MAIL.example"; ""] = [Ok "mail.example"; Ok "mail.example"] /\
  map (fun n => match @get_certificate toy_autocert plain_unicode toy_manager n with
                | Ok _ => (false, false)
                | Err e => (error_is e ErrHostNotAllowed, error_is e ErrCertificateUnavailable)
                end) ["192.0.2.1"; "other.example"; "down.example"; "::1"] =
  [(true, false); (true, false); (false, true); (true, false)].
Proof. split; vm_compute; reflexivity. Qed.

Example days_left : map days_until [30 * 24 * hour; 31 * 24 * hour - 1; - hour] = [30; 30; 0].
Proof. vm_compute. reflexivity. Qed.
