(* ===== verification/Goroutines.v ===== *)
(** * The background goroutines

    The loops that clean up and refresh behind the requests: in
    internal/delivery/delivery.go and pool.go, internal/handler/rate_limiter.go,
    internal/cluster/cluster.go and internal/tls/storage/cert_sync.go.  All
    have one form: a [select] between a ticker and a stop channel, in a
    goroutine of [recovery.SafeGo].  The form is a machine with its theorems,
    the loops are instances; [CloseAll] of the pool, which waits for its loop
    before it takes the pool's lock, is a machine around one. *)

From stdpp Require Import base gmap sets list strings.
From Stdlib Require Import ZArith Lia.
From S2P Require Import Prelude GoString GoError Config IPReputation ConnectionPool MXLookup DomainLimiter Effects.
From S2P Require Import Deliverer DelivererBounds DelivererConns Middleware CertCache Cluster.
#[local] Open Scope Z_scope.

(** ** A loop *)

(** Where the goroutine is: in the [select], in the body of the ticker's case,
    or at its end, by its return or by a panic that [SafeGo] caught. *)
Inductive phase : Type := Selecting | Working | Ended (panic : option string).
#[export] Instance phase_eq_dec : EqDecision phase.
Proof. solve_decision. Defined.

(** [lp_ready]: a tick is in the ticker's channel, which has room for one;
    [lp_stop]: the stop channel is closed. *)
Record loop : Type := mkLoop { lp_phase : phase; lp_ready : bool; lp_stop : bool }.
Definition fresh_loop : loop := mkLoop Selecting false false.

(** The goroutine up to the loop: [time.NewTicker] panics when the interval is
    not positive. *)
Definition start_loop (interval : Z) : loop :=
  if interval <=? 0 then mkLoop (Ended (Some "non-positive interval for NewTicker")) false false else fresh_loop.

(** What may happen next: the timer fires, the goroutine takes the tick, it
    runs the body (with the readings of the clock, and the like, that it
    makes), it returns; somebody closes the stop channel. *)
Inductive move (R : Type) : Type := Fire | Take | Work (r : R) | Return | Close_.
Arguments Fire {R}. Arguments Take {R}. Arguments Work {R} r. Arguments Return {R}. Arguments Close_ {R}.

Section Loop.
Context {S R : Type} (body : R -> S -> option string * S).

(** [select] takes any case that is ready.  The deferred [ticker.Stop] ends
    the timer with the goroutine.  A second [close] panics. *)
Definition loop_move (m : move R) (s : S) (l : loop) : option (S * loop) :=
  match m, lp_phase l with
  | Fire, Ended _ => None
  | Fire, p => Some (s, mkLoop p true (lp_stop l))
  | Take, Selecting => if lp_ready l then Some (s, mkLoop Working false (lp_stop l)) else None
  | Work r, Working =>
      let '(panicked, s) := body r s in
      Some (s, mkLoop (match panicked with Some v => Ended (Some v) | None => Selecting end) (lp_ready l) (lp_stop l))
  | Return, Selecting => if lp_stop l then Some (s, mkLoop (Ended None) (lp_ready l) true) else None
  | Close_, p => if lp_stop l then None else Some (s, mkLoop p (lp_ready l) true)
  | _, _ => None
  end.

Fixpoint loop_run (ms : list (move R)) (s : S) (l : loop) : option (S * loop) :=
  match ms with
  | [] => Some (s, l)
  | m :: ms => match loop_move m s l with Some (s, l) => loop_run ms s l | None => None end
  end.

Definition is_fire (m : move R) : bool := match m with Fire => true | _ => false end.
Definition fires (ms : list (move R)) : nat := length (List.filter is_fire ms).

(** The steps a stopped loop has left, when the timer does not fire again. *)
Definition steps_left (l : loop) : nat :=
  match lp_phase l with
  | Ended _ => 0
  | Selecting => if lp_ready l then 3 else 1
  | Working => if lp_ready l then 4 else 2
  end.

Lemma stopped_move m s l s' l' :
  lp_stop l = true -> loop_move m s l = Some (s', l') ->
  lp_stop l' = true /\
  if is_fire m then (steps_left l' <= steps_left l + 2)%nat else (steps_left l' < steps_left l)%nat.
Proof.
  destruct l as [p ready stop]. cbn. intros ->. destruct m as [| |r| |]; destruct p as [| |v]; try done; cbn.
  - intros [= <- <-]. split; [done|]. cbn. destruct ready; lia.
  - intros [= <- <-]. split; [done|]. cbn. destruct ready; lia.
  - destruct ready; [|done]. intros [= <- <-]. split; [done|]. cbn. lia.
  - destruct (body r s) as [[v|] s1]; intros [= <- <-]; (split; [done|]); cbn; destruct ready; cbn; lia.
  - intros [= <- <-]. split; [done|]. cbn. destruct ready; lia.
Qed.

Lemma stopped_run ms s l s' l' :
  lp_stop l = true -> loop_run ms s l = Some (s', l') ->
  lp_stop l' = true /\ (length ms + steps_left l' <= 3 * fires ms + steps_left l)%nat.
Proof.
  revert s l. induction ms as [|m ms IH]; intros s l Hl; cbn [loop_run].
  { intros [= _ <-]. cbn. split; [done|lia]. }
  destruct (loop_move m s l) as [[s1 l1]|] eqn:Hm; [|done]. intros Hr.
  apply stopped_move in Hm as [Hl1 Hs]; [|done]. destruct (IH s1 l1 Hl1 Hr) as [Hl' IH']. split; [done|].
  unfold fires in *. cbn [List.filter length]. destruct (is_fire m); cbn [length]; lia.
Qed.

(** What the loop has to do: something, until it has ended. *)
Lemma stopped_goes_on (r : R) s l :
  lp_stop l = true -> (exists v, lp_phase l = Ended v) \/
  exists m s' l', is_fire m = false /\ loop_move m s l = Some (s', l').
Proof.
  destruct l as [[| |v] ready stop]; cbn; intros ->; [right|right|left; by eexists].
  - by exists Return, s, (mkLoop (Ended None) ready true).
  - destruct (body r s) as [p s'] eqn:E. exists (Work r), s'. eexists. split; [done|]. cbn. by rewrite E.
Qed.

(** What the body keeps, the loop keeps. *)
Lemma loop_keeps (I : S -> Prop) ms s l s' l' :
  (forall r s, I s -> I (body r s).2) -> I s -> loop_run ms s l = Some (s', l') -> I s'.
Proof.
  intros Hb. revert s l. induction ms as [|m ms IH]; intros s l Hi; cbn [loop_run]; [by intros [= <- _]|].
  destruct (loop_move m s l) as [[s1 l1]|] eqn:Hm; [|done]. intros Hr. eapply IH; [|exact Hr]. revert Hm.
  destruct l as [[| |v] ready stop], m as [| |r| |]; cbn; try done; try by intros [= <- _].
  - destruct ready; [by intros [= <- _]|done].
  - destruct stop; [by intros [= <- _]|done].
  - destruct stop; [done|by intros [= <- _]].
  - pose proof (Hb r s Hi). destruct (body r s) as [p s2]. by intros [= <- _].
  - destruct stop; [done|by intros [= <- _]].
  - destruct stop; [done|by intros [= <- _]].
Qed.

(** After its end, by a panic too, the loop does nothing. *)
Lemma ended_is_still v ms s l s' l' :
  lp_phase l = Ended v -> loop_run ms s l = Some (s', l') -> s' = s /\ lp_phase l' = Ended v.
Proof.
  revert l. induction ms as [|m ms IH]; intros l Hp; cbn [loop_run]; [by intros [= <- <-]|].
  destruct (loop_move m s l) as [[s1 l1]|] eqn:Hm; [|done].
  destruct l as [p ready stop]. cbn in Hp. subst p. destruct m; cbn in Hm; try done.
  destruct stop; [done|]. injection Hm as <- <-. by apply IH.
Qed.
End Loop.

(** ** The loops *)

(** A body that does not panic. *)
Definition quietly {S R : Type} (f : R -> S -> S) : R -> S -> option string * S := fun r s => (None, f r s).

(** [startCleanupRoutines]: the state is the engine's; the reading is the
    clock, for the reputation its three readings. *)
Definition clean_limiters (now : Z) (s : shared) : shared :=
  mkShared (sh_config s) (sh_pool s) (sh_reputation s) (sh_rotator s) (cleanup_domain_limiters (sh_limiters s) now)
    (sh_srs s) (sh_mx s) (sh_keys s) (sh_fresh s).
Definition clean_mx (now : Z) (s : shared) : shared :=
  mkShared (sh_config s) (sh_pool s) (sh_reputation s) (sh_rotator s) (sh_limiters s) (sh_srs s)
    (cleanup_expired_cache (sh_mx s) now).2 (sh_keys s) (sh_fresh s).
Definition clean_reputation (t : Z * (string -> Z) * Z) (s : shared) : shared :=
  mkShared (sh_config s) (sh_pool s) (rep_cleanup (sh_reputation s) t.1.1 t.1.2 t.2) (sh_rotator s) (sh_limiters s)
    (sh_srs s) (sh_mx s) (sh_keys s) (sh_fresh s).
Definition limiter_loop := loop_run (quietly clean_limiters).
Definition mx_cache_loop := loop_run (quietly clean_mx).
Definition reputation_loop := loop_run (quietly clean_reputation).

(** [startCleanup] of the pool. *)
Definition pool_loop := loop_run (quietly (fun now p => (cleanup_expired p now).2)).

(** [RateLimiter.cleanup] *)
Definition rate_limiter_loop := loop_run (quietly (fun now rl => cleanup_tick rl now)).

(** The ticker of [NewCluster]; the reading is the memberlist. *)
Definition refresh_leader (ml : memberlist) (c : Cluster) : Cluster := update_leader (mkCluster (Some ml) (cl_leader c)).
Definition leader_loop := loop_run (quietly refresh_leader).

(** [CertSyncWorker.Start]: the state is the number of failures in a row and
    the cache. *)
Definition sync_worker {P F : Type} `{Cache P, Cache F, Directory F} (syncInterval : Z) (ms : list (move unit))
    (f : FallbackCache P F) : option ((Z * FallbackCache P F) * loop) :=
  loop_run (quietly (fun (_ : unit) zf => run_sync zf.1 zf.2)) ms (0, run_startup_sync f) (start_loop syncInterval).

(** The goroutine of [NewRateLimiter]. *)
Definition start_rate_limiter (requestsPerIP windowSeconds : Z) : RateLimiter * loop :=
  let rl := new_rate_limiter requestsPerIP windowSeconds in (rl, start_loop (rl_cleanupInterval rl)).

(** ** They end when they are told to *)

(** A loop that was told to stop does so: it takes at most four steps
    more, and three for each time its timer fires meanwhile, and when there is
    nothing left for it to do it has ended, by its return or because its body
    panicked. *)
Theorem loop_stops {S R : Type} `{Inhabited R} (body : R -> S -> option string * S) ms s l s' l' :
  loop_run body (Close_ :: ms) s l = Some (s', l') ->
  (length ms <= 3 * fires ms + 4)%nat /\
  ((forall m, is_fire m = false -> loop_move body m s' l' = None) -> exists v, lp_phase l' = Ended v).
Proof.
  cbn [loop_run]. destruct (loop_move body Close_ s l) as [[s1 l1]|] eqn:Hc; [|done]. intros Hr.
  assert (Hl1 : lp_stop l1 = true /\ (steps_left l1 <= 4)%nat).
  { unfold loop_move in Hc. destruct l as [[| |v] ready []]; try done; injection Hc as _ <-; destruct ready; cbn; lia. }
  destruct Hl1 as [Hl1 Hs]. destruct (stopped_run body ms s1 l1 s' l' Hl1 Hr) as [Hl' Hn]. split; [lia|].
  intros Hno. destruct (stopped_goes_on body inhabitant s' l' Hl') as [?|(m & s2 & l2 & Hm & Hmove)]; [done|].
  by rewrite Hno in Hmove.
Qed.

(** ** What the loops are to a delivery *)

(** One run of the body of one of the engine's loops. *)
Inductive loop_work (s : shared) : shared -> Prop :=
| work_limiters now : loop_work s (clean_limiters now s)
| work_mx now : loop_work s (clean_mx now s)
| work_reputation t : loop_work s (clean_reputation t s)
| work_pool now : loop_work s (cleaned now s).

(** Loops that work between any two steps of a delivery are others as
    [delivery_owns_connections] and [delivery_stays_in_bounds] assume them. *)
Theorem loops_interfere_properly env third w :
  (forall h s, rtc loop_work s (e_interfere env h s)) ->
  pool_interference env third /\ keeps env (settings_kept w).
Proof.
  intros Hw. split.
  - intros h s u _. specialize (Hw h s). exists u. generalize dependent (e_interfere env h s). intros s' Hw.
    induction Hw as [s|s s1 s' Hs _ IH]; [done|]. destruct Hs as [now|now|t|now]; try exact IH.
    eapply rtc_l; [|exact IH]. split; [|done].
    eapply (step_cleanup (pool_of_shared s u) now). apply surjective_pairing.
  - intros h s Hi. specialize (Hw h s). generalize dependent (e_interfere env h s). intros s' Hw.
    induction Hw as [s|s s1 s' Hs _ IH]; [done|]. apply IH. by destruct Hs.
Qed.

(** ** [CloseAll] and the loop it waits for *)

(** Where [CloseAll] is: not called, before [<-p.cleanupDone], before
    [p.mu.Lock()], returned. *)
Inductive closer : Type := NotCalled | AwaitsLoop | AwaitsLock | Returned.

(** [pc_busy]: a delivery is in the critical section of [Get] or [Put]; the
    loop and [CloseAll] do their work under the lock in one step. *)
Record closing : Type := mkClosing {
  pc_pool : ConnectionPool; pc_loop : loop; pc_busy : bool; pc_closer : closer
}.

Definition start_cleanup (ttlSeconds : Z) : closing :=
  mkClosing (new_connection_pool ttlSeconds) fresh_loop false NotCalled.

Definition pool_body : Z -> ConnectionPool -> option string * ConnectionPool :=
  quietly (fun now p => (cleanup_expired p now).2).

(** Steps of the goroutine, of the deliveries, and of [CloseAll]; [true]: nobody
    can put the step off for ever, as it is neither a tick nor a delivery that
    comes. *)
Inductive closing_step : bool -> closing -> closing -> Prop :=
| cs_loop m x p l :
    (forall now, m = Work now -> pc_busy x = false) -> m <> Close_ ->
    loop_move pool_body m (pc_pool x) (pc_loop x) = Some (p, l) ->
    closing_step (negb (is_fire m)) x (mkClosing p l (pc_busy x) (pc_closer x))
| cs_lock x :
    pc_busy x = false -> closing_step false x (mkClosing (pc_pool x) (pc_loop x) true (pc_closer x))
| cs_unlock x p :
    pc_busy x = true -> closing_step true x (mkClosing p (pc_loop x) false (pc_closer x))
| cs_call x p l :
    pc_closer x = NotCalled -> loop_move pool_body Close_ (pc_pool x) (pc_loop x) = Some (p, l) ->
    closing_step false x (mkClosing p l (pc_busy x) AwaitsLoop)
| cs_wait x v :
    pc_closer x = AwaitsLoop -> lp_phase (pc_loop x) = Ended v ->
    closing_step true x (mkClosing (pc_pool x) (pc_loop x) (pc_busy x) AwaitsLock)
| cs_close x :
    pc_closer x = AwaitsLock -> pc_busy x = false ->
    closing_step true x (mkClosing (close_all (pc_pool x)).2 (pc_loop x) false Returned).

(** What is due. *)
Definition closing_left (x : closing) : nat :=
  steps_left (pc_loop x) + (if pc_busy x then 1 else 0) +
  match pc_closer x with NotCalled => 0 | AwaitsLoop => 2 | AwaitsLock => 1 | Returned => 0 end.

Definition closing_inv (x : closing) : Prop :=
  match pc_closer x with
  | NotCalled => lp_stop (pc_loop x) = false
  | AwaitsLoop => lp_stop (pc_loop x) = true
  | AwaitsLock | Returned => lp_stop (pc_loop x) = true /\ exists v, lp_phase (pc_loop x) = Ended v
  end.

(** A move of the loop does not reopen the channel, nor the goroutine. *)
Lemma move_keeps_end {S R} (body : R -> S -> option string * S) m s l s' l' :
  m <> Close_ -> loop_move body m s l = Some (s', l') ->
  lp_stop l' = lp_stop l /\ forall v, lp_phase l = Ended v -> lp_phase l' = Ended v.
Proof.
  intros Hm. destruct l as [[| |v] r st], m; cbn; try done; try by intros [= _ <-].
  - destruct r; [by intros [= _ <-]|done].
  - destruct st; [by intros [= _ <-]|done].
  - destruct (body _ s) as [[v|] s1]; by intros [= _ <-].
Qed.

Lemma closing_step_inv d x y : closing_inv x -> closing_step d x y -> closing_inv y.
Proof.
  intros Hi Hs. destruct Hs as [m x p l Hb Hm Hl|x Hb|x p Hb|x p l Hc Hl|x v Hc Hp|x Hc Hb];
    unfold closing_inv in *; cbn [pc_closer pc_loop] in *; try done.
  - apply move_keeps_end in Hl as [-> Hv]; [|done].
    destruct (pc_closer x); try done; destruct Hi as [? [v Hi]]; eauto.
  - unfold loop_move in Hl. destruct (lp_phase (pc_loop x)), (lp_stop (pc_loop x)); try done; by injection Hl as _ <-.
  - rewrite Hc in Hi. split; [done|]. by exists v.
  - rewrite Hc in Hi. done.
Qed.

(** A step that is due takes something off. *)
Lemma due_less x y :
  closing_inv x -> pc_closer x <> NotCalled -> closing_step true x y -> (closing_left y < closing_left x)%nat.
Proof.
  intros Hi Hc Hs. unfold closing_left. remember true as d eqn:Hd.
  destruct Hs as [m x p l Hb Hm Hl|x Hb|x p Hb|x p l Hc' Hl|x v Hc' Hp|x Hc' Hb];
    cbn [pc_busy pc_closer pc_loop]; try done.
  - assert (Hst : lp_stop (pc_loop x) = true).
    { unfold closing_inv in Hi. destruct (pc_closer x); [done|done|apply Hi..]. }
    apply (stopped_move pool_body) in Hl as [_ Hl]; [|done]. destruct (is_fire m); [done|]. lia.
  - rewrite Hb. lia.
  - rewrite Hc'. lia.
  - rewrite Hc', Hb. lia.
Qed.

(** Until [CloseAll] returns, something is due. *)
Lemma something_due x :
  closing_inv x -> pc_closer x <> NotCalled -> pc_closer x <> Returned -> exists y, closing_step true x y.
Proof.
  intros Hi Hc Hr. destruct (pc_busy x) eqn:Hb; [eexists; by apply (cs_unlock x (pc_pool x))|].
  destruct (pc_closer x) eqn:Ecl; try done.
  - unfold closing_inv in Hi. rewrite Ecl in Hi.
    destruct (stopped_goes_on pool_body 0 (pc_pool x) (pc_loop x) Hi) as [[v Hv]|(m & p & l & Hm & Hl)].
    + eexists. by eapply cs_wait.
    + eexists. replace true with (negb (is_fire m)) by (by rewrite Hm). eapply cs_loop; [done| |exact Hl].
      intros ->. unfold loop_move in Hl. rewrite Hi in Hl. by destruct (lp_phase (pc_loop x)).
  - eexists. by apply cs_close.
Qed.

(** C20: [CloseAll] returns, and leaves no goroutine behind.  Once it is
    called, the cleanup goroutine, the deliveries in the pool and [CloseAll]
    itself never wait for each other in a circle: until it has returned,
    something is due, and what is due is less with every step that is not a
    tick or a new delivery.  From the moment it may touch the pool, the
    cleanup goroutine has ended, and no cleanup runs at the same time or
    after. *)
Theorem close_all_returns ttlSeconds x :
  reachable (fun y => y = start_cleanup ttlSeconds) (fun x y => exists d, closing_step d x y) x ->
  pc_closer x <> NotCalled ->
  (pc_closer x <> Returned -> exists y, closing_step true x y) /\
  (forall y, closing_step true x y -> (closing_left y < closing_left x)%nat) /\
  (pc_closer x = AwaitsLock \/ pc_closer x = Returned ->
     forall m p l, m <> Close_ -> loop_move pool_body m (pc_pool x) (pc_loop x) = Some (p, l) -> False).
Proof.
  intros Hr Hcalled.
  assert (Hi : closing_inv x).
  { revert Hr. apply invariant_reachable; [by intros y ->|].
    intros y z Hy [d Hs]. by eapply closing_step_inv. }
  split; [by apply something_due|]. split; [by intros y; apply due_less|].
  intros Hc m p l Hm Hl. assert (Hv : exists v, lp_phase (pc_loop x) = Ended v).
  { unfold closing_inv in Hi. destruct Hc as [Hc|Hc]; rewrite Hc in Hi; apply Hi. }
  destruct Hv as [v Hv]. unfold loop_move in Hl. rewrite Hv in Hl. by destruct m.
Qed.

(** ** Witnesses and examples *)

(** A tick is in the channel when the loop is stopped: the body runs once
    more, and the goroutine returns. *)
Lemma loop_stops_witness :
  let ms := [Take; Work (); Return] in
  loop_run (quietly (fun (_ : unit) n => S n)) (Close_ :: ms) 0%nat (mkLoop Selecting true false) =
    Some (1%nat, mkLoop (Ended None) false true) /\
  (length ms <= 3 * fires ms + 4)%nat /\
  ((forall m, is_fire m = false ->
      loop_move (quietly (fun (_ : unit) n => S n)) m 1%nat (mkLoop (Ended None) false true) = None) ->
   exists v, lp_phase (mkLoop (Ended None) false true) = Ended v).
Proof.
  split; [reflexivity|].
  apply (loop_stops (quietly (fun (_ : unit) n => S n)) [Take; Work (); Return] 0%nat (mkLoop Selecting true false)).
  reflexivity.
Defined.

Lemma close_all_returns_witness :
  let x := mkClosing (new_connection_pool 5) (mkLoop Selecting false true) false AwaitsLoop in
  (AwaitsLoop <> Returned -> exists y, closing_step true x y) /\
  (forall y, closing_step true x y -> (closing_left y < closing_left x)%nat) /\
  (AwaitsLoop = AwaitsLock \/ AwaitsLoop = Returned ->
     forall m p l, m <> Close_ -> loop_move pool_body m (pc_pool x) (pc_loop x) = Some (p, l) -> False).
Proof.
  apply (close_all_returns 5 (mkClosing (new_connection_pool 5) (mkLoop Selecting false true) false AwaitsLoop));
    [|done].
  eapply reachable_step; [by apply reachable_init|]. exists false.
  by apply (cs_call (start_cleanup 5) (new_connection_pool 5) (mkLoop Selecting false true)).
Defined.

(** A body that panics ends its loop: no cleanup runs any more. *)
Example panic_ends_loop :
  loop_run (fun (_ : unit) n => (Some "boom", S n)) [Fire; Take; Work ()] 0%nat fresh_loop =
    Some (1%nat, mkLoop (Ended (Some "boom")) false false) /\
  forall ms s l, loop_run (fun (_ : unit) n => (Some "boom", S n)) ms 1%nat (mkLoop (Ended (Some "boom")) false false)
    = Some (s, l) -> s = 1%nat.
Proof.
  split; [reflexivity|]. intros ms s l Hr. by apply (ended_is_still _ (Some "boom")) in Hr as [-> _].
Qed.

(** A negative window is left as it is by [SetDefaults]: the cleanup ends at
    once, and the limit, one request, holds nobody up. *)
Example negative_window :
  let '(rl, l) := start_rate_limiter 1 (-60) in
  l = mkLoop (Ended (Some "non-positive interval for NewTicker")) false false /\
  let '(a1, rl) := allow_ip rl "192.0.2.1" 0 in
  let '(a2, rl) := allow_ip rl "192.0.2.1" 1 in
  let '(a3, _) := allow_ip rl "192.0.2.1" 2 in
  (a1, a2, a3) = (true, true, true) /\
  inbound_RateLimitWindowSeconds (set_defaults_inbound (mkInboundConfig "" "" 0 0 0 0 true 1 (-60) 0)) = -60.
Proof. vm_compute. repeat split. Qed.
