(* ===== verification/GoTime.v ===== *)
(** * Times and durations as text (Go package [time])

    [Time.Format(time.RFC3339)] and [Duration.String].  An instant is the
    number of nanoseconds since 1970; the offset of the local time zone is an
    argument. *)

From stdpp Require Import base list strings.
From Stdlib Require Import ZArith Lia Ascii.
From S2P Require Import Prelude GoString.
#[local] Open Scope Z_scope.

(** ** The calendar

    Days since 1970-01-01 to year, month and day of the proleptic Gregorian
    calendar: eras of 400 years that start on the first of March. *)
Definition civil_of_era (doe : Z) : Z * Z * Z :=
  let yoe := (doe - doe / 1460 + doe / 36524 - doe / 146096) / 365 in
  let doy := doe - (365 * yoe + yoe / 4 - yoe / 100) in
  let mp := (5 * doy + 2) / 153 in
  let d := doy - (153 * mp + 2) / 5 + 1 in
  let m := if mp <? 10 then mp + 3 else mp - 9 in
  (yoe + (if m <=? 2 then 1 else 0), m, d).
Definition in_era (era : Z) (ymd : Z * Z * Z) : Z * Z * Z := let '(y, m, d) := ymd in (y + era * 400, m, d).
Definition civil (days : Z) : Z * Z * Z :=
  let z := days + 719468 in in_era (z / 146097) (civil_of_era (z mod 146097)).

(** ** RFC 3339 *)

(** [appendInt] with a width *)
Fixpoint leading_zeros (n : nat) (s : string) : string :=
  match n with O => s | S n => String "0" (leading_zeros n s) end.
Definition padded (width : nat) (n : Z) : string :=
  let digits := fmt_d (Z.abs n) in
  (if n <? 0 then "-" else "") +:+ leading_zeros (width - slen digits) digits.

Definition rfc3339 (zone : Z -> Z) (t : Z) : string :=
  let offset := zone t in
  let local := time_unix t + offset in
  let '(y, m, d) := civil (local / 86400) in
  let s := local mod 86400 in
  let minutes := Z.quot offset 60 in
  padded 4 y +:+ "-" +:+ padded 2 m +:+ "-" +:+ padded 2 d +:+ "T"
    +:+ padded 2 (s / 3600) +:+ ":" +:+ padded 2 (s / 60 mod 60) +:+ ":" +:+ padded 2 (s mod 60)
    +:+ (if offset =? 0 then "Z"
         else (if minutes <? 0 then "-" else "+") +:+ padded 2 (Z.abs minutes / 60) +:+ ":" +:+ padded 2 (Z.abs minutes mod 60)).

(** ** Durations *)

(** [fmtFrac]: the last [prec] digits as a fraction, without trailing zeros. *)
Definition fraction (v : Z) (prec : nat) : string :=
  let digits := padded prec (v mod 10 ^ Z.of_nat prec) in
  let kept := trim_right_fn (fun c => bool_decide (c = "0"%char)) digits in
  if is_empty kept then "" else "." +:+ kept.

Definition duration_string (d : Z) : string :=
  let u := Z.abs d in
  let sign := if d <? 0 then "-" else "" in
  if u =? 0 then "0s"
  else if u <? 1000 then sign +:+ fmt_d u +:+ "ns"
  else if u <? 1000000 then sign +:+ fmt_d (u / 1000) +:+ fraction u 3 +:+ bytes [194; 181] +:+ "s"
  else if u <? second then sign +:+ fmt_d (u / 1000000) +:+ fraction u 6 +:+ "ms"
  else
    let s := u / second in
    let h := s / 3600 in
    sign +:+ (if 0 <? h then fmt_d h +:+ "h" else "")
      +:+ (if 0 <? s / 60 then fmt_d (s / 60 mod 60) +:+ "m" else "")
      +:+ fmt_d (s mod 60) +:+ fraction u 9 +:+ "s".

(** ** Examples *)

Example dates : map civil [0; -1; 11016; 11017; 20403; -719162] =
  [(1970, 1, 1); (1969, 12, 31); (2000, 2, 29); (2000, 3, 1); (2025, 11, 11); (1, 1, 1)].
Proof. vm_compute. reflexivity. Qed.

Example formatted :
  (rfc3339 (fun _ => 0) (1762862400 * second), rfc3339 (fun _ => -12600) (1762862400 * second + 5), rfc3339 (fun _ => 3600) zero_time) =
  ("2025-11-11T12:00:00Z", "2025-11-11T08:30:00-03:30", "0001-01-01T01:00:00+01:00").
Proof. vm_compute. reflexivity. Qed.
Example durations :
  map duration_string [0; 5; 1500; 2 * 1000000; 1500 * 1000000; 61 * second; 3600 * second; - (90061 * second + 5)] =
  ["0s"; "5ns"; "1.5" +:+ bytes [194; 181] +:+ "s"; "2ms"; "1.5s"; "1m1s"; "1h0m0s"; "-25h1m1.000000005s"].
Proof. vm_compute. reflexivity. Qed.
