(* ===== verification/Endpoints.v ===== *)
(** * Status endpoints (internal/handler/health.go, reputation.go)

    GET /health and GET /reputation on the metrics and admin listeners, the
    requests the listeners route to them, and the JSON they answer with. *)

From stdpp Require Import base gmap list strings.
From Stdlib Require Import ZArith Lia Ascii Permutation Sorted.
From S2P Require Import Prelude GoString Json GoTime Http ApiJson Config IPReputation Middleware ServerStack Cluster.
#[local] Open Scope Z_scope.

(** ** Routing

    [http.ServeMux] with patterns that name one path each: a path it has
    cleaned is looked up, and there is no route for any other. *)
Definition mux {S} (routes : list (string * handler S)) : handler S := fun r s =>
  match List.find (fun route => seqb route.1 (rq_Path r)) routes with
  | Some (_, h) => h r s
  | None => returns (http_error "404 page not found" 404) s
  end.

(** What both endpoints do around their answer. *)
Definition get_only {S} (body : S -> json) : handler S := fun r s =>
  if negb (seqb (rq_Method r) "GET") then returns (http_error "Method not allowed" 405) s
  else returns [SetHeader "Content-Type" "application/json"; WriteHeader 200; Write (json_line (body s))] s.

(** ** Health *)

Record SystemHealth : Type := mkSystemHealth { GoVersion : string; Goroutines : Z; MemoryMB : Z; MemoryAllocMB : Z }.
Record ClusterHealth : Type := mkClusterHealth { ch_Enabled : bool; NodeCount : Z; Leader : string }.
Record HealthResponse : Type := mkHealthResponse {
  hr_Status : string;
  hr_Timestamp : string;
  Uptime : string;
  System : SystemHealth;
  hr_Cluster : option ClusterHealth
}.

(** What the handler asks the runtime: its version, the number of goroutines,
    [MemStats.Sys] and [MemStats.Alloc]. *)
Record Runtime : Type := mkRuntime { rt_Version : string; rt_NumGoroutine : Z; rt_Sys : Z; rt_Alloc : Z }.

Definition get_system_health (rt : Runtime) : SystemHealth :=
  mkSystemHealth (rt_Version rt) (rt_NumGoroutine rt) (rt_Sys rt / 1024 / 1024) (rt_Alloc rt / 1024 / 1024).

Definition get_cluster_health (cluster : option Cluster) : option ClusterHealth :=
  match cluster with
  | None => None
  | Some c => Some (mkClusterHealth true (match cl_ml c with Some ml => Z.of_nat (num_members ml) | None => 0 end) (get_leader c))
  end.

(** [buildHealthResponse] at its two readings of the clock. *)
Definition build_health_response (startTime : Z) (cluster : option Cluster) (zone : Z -> Z) (rt : Runtime) (t1 t2 : Z)
    : HealthResponse :=
  mkHealthResponse "healthy" (rfc3339 zone t1) (duration_string (time_sub t2 startTime)) (get_system_health rt)
    (get_cluster_health cluster).

Definition opt_string (name s : string) : list (string * json) := if is_empty s then [] else [(name, JStr s)].
Definition opt_int (name : string) (n : Z) : list (string * json) := if n =? 0 then [] else [(name, json_int n)].

Definition system_json (s : SystemHealth) : json :=
  JObj [("go_version", JStr (GoVersion s)); ("goroutines", json_int (Goroutines s)); ("memory_mb", json_int (MemoryMB s));
        ("memory_alloc_mb", json_int (MemoryAllocMB s))].
Definition cluster_json (c : ClusterHealth) : json :=
  JObj ([("enabled", JBool (ch_Enabled c)); ("node_count", json_int (NodeCount c))] ++ opt_string "leader" (Leader c)).
Definition health_json (h : HealthResponse) : json :=
  JObj ([("status", JStr (hr_Status h)); ("timestamp", JStr (hr_Timestamp h)); ("uptime", JStr (Uptime h));
         ("system", system_json (System h))]
          ++ match hr_Cluster h with Some c => [("cluster", cluster_json c)] | None => [] end).

(** ** Reputation *)

Record DegradedIP : Type := mkDegradedIP {
  dip_IP : string;
  dip_DegradedAt : string;
  dip_RetryAfter : string;
  dip_FailureCount : Z;
  dip_LastError : string;
  dip_LastSMTPCode : Z;
  dip_LastSMTPResponse : string
}.
Record ReputationResponse : Type := mkReputationResponse {
  rr_Enabled : bool; DegradedCount : Z; DegradedIPs : list DegradedIP
}.

Definition degraded_entry (zone : Z -> Z) (kv : string * DegradedIPInfo) : DegradedIP :=
  let info := kv.2 in
  mkDegradedIP kv.1 (rfc3339 zone (DegradedAt info)) (rfc3339 zone (RetryAfter info)) (FailureCount info)
    (LastFailureError info) (LastSMTPCode info) (LastSMTPResponse info).

(** [order] is the order in which the map of degraded addresses is iterated. *)
Definition reputation_response (zone : Z -> Z) (enabled : bool) (order : list (string * DegradedIPInfo)) : ReputationResponse :=
  let ips := sort_by dip_IP (map (degraded_entry zone) order) in
  mkReputationResponse enabled (Z.of_nat (length ips)) ips.

Definition degraded_json (d : DegradedIP) : json :=
  JObj ([("ip", JStr (dip_IP d)); ("degraded_at", JStr (dip_DegradedAt d)); ("retry_after", JStr (dip_RetryAfter d));
         ("failure_count", json_int (dip_FailureCount d))]
          ++ opt_string "last_error" (dip_LastError d) ++ opt_int "last_smtp_code" (dip_LastSMTPCode d)
          ++ opt_string "last_smtp_response" (dip_LastSMTPResponse d)).
Definition reputation_json (r : ReputationResponse) : json :=
  JObj [("enabled", JBool (rr_Enabled r)); ("degraded_count", json_int (DegradedCount r));
        ("degraded_ips", JArr (map degraded_json (DegradedIPs r)))].

(** ** The listeners (cmd/strela-server/main.go)

    The state they read: the tracker of the engine and the cluster. *)
Record Status : Type := mkStatus { st_tracker : IPReputationTracker; st_cluster : option Cluster }.

(** What a request reads beside them. *)
Record Reading : Type := mkReading {
  rd_zone : Z -> Z;
  rd_runtime : Runtime;
  rd_now1 : Z;
  rd_now2 : Z;
  rd_order : gmap string DegradedIPInfo -> list (string * DegradedIPInfo)
}.

Definition health_handler (startTime : Z) (rd : Reading) : handler Status :=
  get_only (fun st => health_json
    (build_health_response startTime (st_cluster st) (rd_zone rd) (rd_runtime rd) (rd_now1 rd) (rd_now2 rd))).
Definition reputation_handler (rd : Reading) : handler Status :=
  get_only (fun st => reputation_json
    (reputation_response (rd_zone rd) (enabled (st_tracker st)) (rd_order rd (get_degraded_ips (st_tracker st))))).

Definition status_routes (startTime : Z) (rd : Reading) : list (string * handler Status) :=
  [("/health", health_handler startTime rd); ("/reputation", reputation_handler rd)].

(** The metrics listener; [exposition] is the Prometheus handler under the
    configured path. *)
Definition metrics_server (path : string) (exposition : handler Status) (startTime : Z) (rd : Reading) : handler Status :=
  panic_recovery (mux (status_routes startTime rd ++ if is_empty path then [] else [(path, exposition)])).

Definition admin_server (cfg : AdminConfig) (startTime : Z) (rd : Reading) : handler Status :=
  wrap_admin_handler (admin_Username cfg) (admin_Password cfg) (mux (status_routes startTime rd)).

(** ** The report on reputation *)

Lemma sorted_unique {A} (key : A -> string) (l l' : list A) :
  NoDup (map key l) -> sorted_by key l -> sorted_by key l' -> Permutation l l' -> l = l'.
Proof.
  intros Hnd Hs. revert l' Hnd. induction Hs as [|x l Hs IH Hx]; intros l' Hnd Hs' Hp; [by apply Permutation_nil in Hp|].
  destruct l' as [|y l']; [by apply Permutation_sym, Permutation_nil in Hp|].
  inversion Hs' as [|? ? Hl' Hy]; subst. rewrite List.Forall_forall in Hx, Hy.
  assert (Hin : In y (x :: l)) by (eapply Permutation_in; [symmetry; exact Hp|by left]).
  assert (Hin' : In x (y :: l')) by (eapply Permutation_in; [exact Hp|by left]).
  assert (Hk : key x = key y).
  { destruct Hin as [->|Hin]; [done|]. destruct Hin' as [->|Hin']; [done|]. by apply str_lt_total; [apply Hy|apply Hx]. }
  cbn [map] in Hnd. apply NoDup_cons in Hnd as [Hn Hnd].
  assert (Hxy : x = y).
  { destruct Hin as [->|Hin]; [done|]. exfalso. apply Hn. rewrite Hk. by apply list_elem_of_In, in_map. }
  subst y. f_equal. apply IH; [done|done|by eapply Permutation_cons_inv].
Qed.

Lemma degraded_keys zone order : map dip_IP (map (degraded_entry zone) order) = order.*1.
Proof. rewrite List.map_map. by apply map_ext. Qed.

(** The reputation endpoint reports exactly the degraded addresses of the
    tracker, each once and in the order of their names, with their number: the
    order in which the map is iterated does not matter. *)
Theorem reputation_reported zone (rt : IPReputationTracker) order :
  Permutation order (map_to_list (get_degraded_ips rt)) ->
  let resp := reputation_response zone (enabled rt) order in
  resp = reputation_response zone (enabled rt) (map_to_list (degradedIPs rt)) /\
  sorted_by dip_IP (DegradedIPs resp) /\ NoDup (map dip_IP (DegradedIPs resp)) /\
  (forall d, In d (DegradedIPs resp) <-> exists ip info, degradedIPs rt !! ip = Some info /\ d = degraded_entry zone (ip, info)) /\
  DegradedCount resp = Z.of_nat (size (degradedIPs rt)).
Proof.
  unfold get_degraded_ips. intros Hp. cbv zeta.
  assert (Hnd : forall l, Permutation l (map_to_list (degradedIPs rt)) ->
            NoDup (map dip_IP (sort_by dip_IP (map (degraded_entry zone) l)))).
  { intros l Hl. rewrite sort_by_perm, degraded_keys, Hl. apply NoDup_fst_map_to_list. }
  assert (Hsort : sort_by dip_IP (map (degraded_entry zone) order) =
                  sort_by dip_IP (map (degraded_entry zone) (map_to_list (degradedIPs rt)))).
  { apply (sorted_unique dip_IP); [by apply Hnd|apply sort_by_sorted..|]. by rewrite !sort_by_perm, Hp. }
  split; [unfold reputation_response; by rewrite Hsort|]. cbn [DegradedIPs reputation_response].
  split; [apply sort_by_sorted|]. split; [by apply Hnd|]. split.
  - intros d. split.
    + intros Hd. apply (Permutation_in _ (sort_by_perm _ _)) in Hd. apply in_map_iff in Hd as ([ip info] & <- & Hin).
      exists ip, info. split; [|done]. apply elem_of_map_to_list, list_elem_of_In. by eapply Permutation_in.
    + intros (ip & info & Hl & ->). apply (Permutation_in _ (Permutation_sym (sort_by_perm _ _))). apply in_map.
      apply (Permutation_in _ (Permutation_sym Hp)), list_elem_of_In, elem_of_map_to_list. done.
  - unfold reputation_response. cbn [DegradedCount]. f_equal. rewrite (Permutation_length (sort_by_perm _ _)), length_map, (Permutation_length Hp).
    apply length_map_to_list.
Qed.

(** ** Who reads the status *)

(** Behind credentials the admin listener answers nobody else: a request
    without exactly the configured user name and password gets 401 and an empty
    body; any other request gets what the router answers. *)
Theorem admin_guarded cfg startTime rd r st :
  admin_Username cfg <> "" -> admin_Password cfg <> "" ->
  let out := admin_server cfg startTime rd r st in
  if bool_decide (rq_BasicAuth r = Some (admin_Username cfg, admin_Password cfg))
  then out = mux (status_routes startTime rd) r st
  else status_of (respond (sv_ops out)) = 401 /\ rs_body (respond (sv_ops out)) = "" /\ sv_panic out = false.
Proof.
  intros Hu Hp. cbv zeta. unfold admin_server, wrap_admin_handler.
  apply is_empty_false in Hu, Hp. rewrite Hu, Hp. cbn [negb andb]. unfold panic_recovery, basic_auth.
  assert (Hroute : sv_panic (mux (status_routes startTime rd) r st) = false).
  { unfold mux, status_routes. cbn [List.find fst].
    destruct (seqb "/health" (rq_Path r)); [|destruct (seqb "/reputation" (rq_Path r)); [|done]];
      unfold health_handler, reputation_handler, get_only; by destruct (seqb (rq_Method r) "GET"). }
  destruct (rq_BasicAuth r) as [[u p]|]; [|by rewrite bool_decide_false].
  destruct (seqb u (admin_Username cfg) && seqb p (admin_Password cfg)) eqn:E.
  - apply andb_true_iff in E as [->%seqb_true ->%seqb_true]. rewrite bool_decide_true by done. by rewrite Hroute.
  - rewrite bool_decide_false; [done|]. intros [= -> ->]. by rewrite !seqb_refl in E.
Qed.

(** ** Concrete readings *)

Definition example_tracker : IPReputationTracker :=
  mkTracker (<["192.0.2.7" := mkDegradedIPInfo "192.0.2.7" 0 60000000000 2 "550 blocked" 550 "blocked"]>
             {["192.0.2.10" := mkDegradedIPInfo "192.0.2.10" 0 0 1 "" 0 ""]}) ∅
    (mkReputationConfig "" "" 10 48 true 168 1 30) true false.
Definition utc : Z -> Z := fun _ => 0.
Definition example_reading : Reading := mkReading utc (mkRuntime "go1.25" 12 73400320 5242880) 0 0 map_to_list.
Definition example_status : Status := mkStatus example_tracker None.

(** The page as the endpoint writes it. *)
Example reputation_page :
  let resp := respond (sv_ops (reputation_handler example_reading (mkRequest "GET" "/reputation" ∅ (mkBody "" None) "" None) example_status)) in
  status_of resp = 200 /\
  rs_body resp =
    (dq "{'enabled':true,'degraded_count':2,'degraded_ips':[{'ip':'192.0.2.10','degraded_at':'1970-01-01T00:00:00Z','retry_after':'1970-01-01T00:00:00Z','failure_count':1},{'ip':'192.0.2.7','degraded_at':'1970-01-01T00:00:00Z','retry_after':'1970-01-01T00:01:00Z','failure_count':2,'last_error':'550 blocked','last_smtp_code':550,'last_smtp_response':'blocked'}]}" +:+ str1 LF).
Proof. split; vm_compute; reflexivity. Qed.

Lemma reputation_reported_witness :
  let resp := reputation_response utc true (rev (map_to_list (get_degraded_ips example_tracker))) in
  resp = reputation_response utc true (map_to_list (degradedIPs example_tracker)) /\
  sorted_by dip_IP (DegradedIPs resp) /\ NoDup (map dip_IP (DegradedIPs resp)) /\
  (forall d, In d (DegradedIPs resp) <->
     exists ip info, degradedIPs example_tracker !! ip = Some info /\ d = degraded_entry utc (ip, info)) /\
  DegradedCount resp = Z.of_nat (size (degradedIPs example_tracker)).
Proof. apply (reputation_reported utc example_tracker). symmetry. apply Permutation_rev. Defined.

Definition example_admin : AdminConfig := mkAdminConfig true ":8081" "root" "secret".
Lemma admin_guarded_witness :
  let r := mkRequest "GET" "/health" ∅ (mkBody "" None) "" (Some ("root", "Secret")) in
  let out := admin_server example_admin 0 example_reading r example_status in
  if bool_decide (rq_BasicAuth r = Some (admin_Username example_admin, admin_Password example_admin))
  then out = mux (status_routes 0 example_reading) r example_status
  else status_of (respond (sv_ops out)) = 401 /\ rs_body (respond (sv_ops out)) = "" /\ sv_panic out = false.
Proof. apply (admin_guarded example_admin); discriminate. Defined.
