(* ===== verification/Metrics.v ===== *)
(** * Prometheus metrics (internal/metrics/metrics.go)

    The vectors the server registers and what it records on them.  The library
    is client_golang; [WithLabelValues] panics unless it gets one value for
    each label of the vector and every value is valid UTF-8. *)

From stdpp Require Import base gmap list strings.
From Stdlib Require Import ZArith Lia Ascii.
From S2P Require Import Prelude GoString GoFloat Utf8 NetIP Address.
#[local] Open Scope Z_scope.

(** ** The vectors *)

Inductive metric_kind : Type := Counter | Gauge | Histogram (buckets : list (Z * Z)).
Record vector : Type := mkVector { vc_name : string; vc_kind : metric_kind; vc_labels : list string }.

(** A bound [n / d]. *)
#[local] Abbreviation tenths l := (map (fun n => (n, 10)) l).
#[local] Abbreviation thousandths l := (map (fun n => (n, 1000)) l).

Record Metrics : Type := mkMetrics { includeRecipientDomain : bool; vectors : list vector }.

Definition new_metrics (includeRecipientDomain : bool) : Metrics :=
  let deliveryLabels := "outcome" :: if includeRecipientDomain then ["recipient_domain"] else [] in
  mkMetrics includeRecipientDomain
    [mkVector "strela_delivery_attempts_total" Counter deliveryLabels;
     mkVector "strela_delivery_duration_seconds" (Histogram (tenths [1; 5; 10; 20; 50; 100; 300; 600; 1200])) deliveryLabels;
     mkVector "strela_active_deliveries" Gauge [];
     mkVector "strela_http_requests_total" Counter ["method"; "path"; "status"];
     mkVector "strela_http_request_duration_seconds"
       (Histogram (thousandths [1; 5; 10; 25; 50; 100; 250; 500; 1000; 2500])) ["method"; "path"];
     mkVector "strela_http_requests_rejected_capacity_total" Counter [];
     mkVector "strela_ip_reputation_degraded" Gauge ["source_ip"];
     mkVector "strela_ip_reputation_events_total" Counter ["event_type"; "source_ip"]].

(** ** Recording *)

Inductive update : Type := Inc | Observe (x : float64) | Set_ (x : float64).
Record sample_op : Type := mkOp { op_vector : string; op_labels : list string; op_update : update }.

Definition record_delivery_attempt (m : Metrics) (outcome recipientDomain : string) (duration : float64) : list sample_op :=
  let labels := if includeRecipientDomain m then [outcome; recipientDomain] else [outcome] in
  [mkOp "strela_delivery_attempts_total" labels Inc; mkOp "strela_delivery_duration_seconds" labels (Observe duration)].
Definition record_http_request (m : Metrics) (method path status : string) (duration : float64) : list sample_op :=
  [mkOp "strela_http_requests_total" [method; path; status] Inc;
   mkOp "strela_http_request_duration_seconds" [method; path] (Observe duration)].
Definition record_rejected_capacity (m : Metrics) : list sample_op :=
  [mkOp "strela_http_requests_rejected_capacity_total" [] Inc].
Definition set_ip_reputation_degraded (m : Metrics) (sourceIP : string) (degraded : bool) : list sample_op :=
  [mkOp "strela_ip_reputation_degraded" [sourceIP] (Set_ (if degraded then fone else fzero))].
Definition record_ip_reputation_event (m : Metrics) (eventType sourceIP : string) : list sample_op :=
  [mkOp "strela_ip_reputation_events_total" [eventType; sourceIP] Inc].

(** ** Well-typed updates *)

Definition kind_takes (k : metric_kind) (u : update) : bool :=
  match k, u with Counter, Inc | Gauge, Set_ _ | Histogram _, Observe _ => true | _, _ => false end.

(** The vector exists once, takes the update, and has the labels; [utf8] is the
    other condition of the library. *)
Definition well_typed (m : Metrics) (op : sample_op) : bool :=
  match List.filter (fun v => seqb (vc_name v) (op_vector op)) (vectors m) with
  | [v] => kind_takes (vc_kind v) (op_update op) && (length (vc_labels v) =? length (op_labels op))%nat
  | _ => false
  end.
Definition accepted_op (m : Metrics) (op : sample_op) : bool := well_typed m op && forallb valid_utf8 (op_labels op).

(** Whatever is recorded through the interfaces of the delivery engine, the
    reputation tracker and the HTTP middleware. *)
Inductive recorded (m : Metrics) : list sample_op -> list string -> Prop :=
| RecDelivery outcome domain duration :
    recorded m (record_delivery_attempt m outcome domain duration)
      (if includeRecipientDomain m then [outcome; domain] else [outcome])
| RecHTTP method path status duration : recorded m (record_http_request m method path status duration) [method; path; status]
| RecCapacity : recorded m (record_rejected_capacity m) []
| RecDegraded ip degraded : recorded m (set_ip_reputation_degraded m ip degraded) [ip]
| RecEvent eventType ip : recorded m (record_ip_reputation_event m eventType ip) [eventType; ip].

(** C40: every update names one registered vector, is of its kind and gives a
    value for each of its labels, with and without the recipient's domain: the
    library accepts it exactly when the label values are valid UTF-8. *)
Theorem metrics_well_typed b ops labels :
  recorded (new_metrics b) ops labels ->
  Forall (fun op => well_typed (new_metrics b) op = true) ops /\
  (forallb (accepted_op (new_metrics b)) ops = forallb valid_utf8 labels).
Proof.
  intros H. assert (Hty : Forall (fun op => well_typed (new_metrics b) op = true) ops).
  { destruct H; destruct b; repeat (apply List.Forall_cons; [reflexivity|]); apply List.Forall_nil. }
  split; [done|]. unfold accepted_op. destruct H; destruct b;
    cbn [record_delivery_attempt record_http_request record_rejected_capacity set_ip_reputation_degraded
         record_ip_reputation_event includeRecipientDomain new_metrics forallb op_labels];
    repeat match goal with |- context [well_typed ?m ?op] => replace (well_typed m op) with true by reflexivity end;
    cbn [andb forallb]; rewrite ?andb_true_r; try done;
    repeat match goal with |- context [valid_utf8 ?s] => destruct (valid_utf8 s) end; done.
Qed.

Lemma metrics_well_typed_witness :
  let ops := record_delivery_attempt (new_metrics true) "delivered" "example.org" fone in
  Forall (fun op => well_typed (new_metrics true) op = true) ops /\
  forallb (accepted_op (new_metrics true)) ops = forallb valid_utf8 ["delivered"; "example.org"].
Proof. apply (metrics_well_typed true _ ["delivered"; "example.org"]). apply (RecDelivery (new_metrics true)). Defined.

(** An address of the API may have a domain that is no UTF-8; with the domain
    as a label, recording the delivery is refused, and [WithLabelValues]
    panics when the message has already been handed over. *)
Example broken_domain_label :
  let domain := String (chr 255) ".net" in
  @validate_email_address plain_unicode ("a@" +:+ domain) "to" false = None /\
  forallb (accepted_op (new_metrics true)) (record_delivery_attempt (new_metrics true) "delivered" domain fone) = false.
Proof. split; vm_compute; reflexivity. Qed.
