(* ===== verification/Logger.v ===== *)
(** * Logging set-up (internal/config/logger.go)

    [LogWriter], which reopens its file when the log has been rotated, and
    [NewLogger] with its level, output and format.  The operating system's
    files are a small state of paths, inodes and handles. *)

From stdpp Require Import base gmap list strings.
From Stdlib Require Import ZArith Lia.
From S2P Require Import Prelude GoString GoError Config.
#[local] Open Scope Z_scope.
#[local] Set Warnings "-clear-no-such-hyp".

(** ** Files

    The process's open handles and the inode of each, the inodes' contents,
    and the paths. *)
Record OS : Type := mkOS {
  os_paths : gmap string nat;
  os_data : gmap nat string;
  os_open : gmap nat nat;
  os_next : nat
}.

(** [os.OpenFile] with O_CREATE, O_WRONLY and O_APPEND: [refused] is the
    system's error, if it gives one. *)
Definition open_append (refused : option error) (path : string) (os : OS) : result error nat * OS :=
  match refused with
  | Some e => (Err e, os)
  | None =>
      match os_paths os !! path with
      | Some inode => (Ok (os_next os), mkOS (os_paths os) (os_data os) (<[os_next os := inode]> (os_open os)) (S (os_next os)))
      | None =>
          let inode := os_next os in
          (Ok inode, mkOS (<[path := inode]> (os_paths os)) (<[inode := ""]> (os_data os)) (<[inode := inode]> (os_open os))
                       (S (os_next os)))
      end
  end.

Definition file_write (h : nat) (p : string) (os : OS) : result error Z * OS :=
  match os_open os !! h with
  | None => (Err (ErrText "file already closed"), os)
  | Some inode =>
      (Ok (Z.of_nat (slen p)),
       mkOS (os_paths os) (<[inode := default "" (os_data os !! inode) +:+ p]> (os_data os)) (os_open os) (os_next os))
  end.

Definition file_close (h : nat) (os : OS) : option error * OS :=
  match os_open os !! h with
  | None => (Some (ErrText "file already closed"), os)
  | Some _ => (None, mkOS (os_paths os) (os_data os) (delete h (os_open os)) (os_next os))
  end.

Definition Stdout : nat := 1.
Definition Stderr : nat := 2.

(** ** The writer *)

Record LogWriter : Type := mkLogWriter { lw_path : string; lw_file : nat }.

Definition writer_write (w : LogWriter) (p : string) (os : OS) : result error Z * OS := file_write (lw_file w) p os.

Definition writer_reopen (refused : option error) (w : LogWriter) (os : OS) : option error * LogWriter * OS :=
  if is_empty (lw_path w) then (None, w, os)
  else match open_append refused (lw_path w) os with
       | (Err e, os) => (Some (ErrWrap ("reopen log file " +:+ lw_path w +:+ ": " +:+ error_text e) e), w, os)
       | (Ok newFile, os) => (None, mkLogWriter (lw_path w) newFile, (file_close (lw_file w) os).2)
       end.

Definition writer_close (w : LogWriter) (os : OS) : option error * OS :=
  if is_empty (lw_path w) then (None, os) else file_close (lw_file w) os.

(** ** The logger *)

Inductive level : Type := LevelDebug | LevelInfo | LevelWarn | LevelError.
Inductive log_format : Type := JSONHandler | TextHandler.

Section Logger.
Context `{Unicode}.

Definition parse_log_level (s : string) : result error level :=
  let l := to_lower s in
  if seqb l "debug" then Ok LevelDebug
  else if seqb l "info" || seqb l "" then Ok LevelInfo
  else if seqb l "warn" || seqb l "warning" then Ok LevelWarn
  else if seqb l "error" then Ok LevelError
  else Err (ErrText ("unknown level: " +:+ s +:+ " (must be debug, info, warn, or error)")).

Definition new_log_writer (refused : option error) (output : string) (os : OS) : result error LogWriter * OS :=
  let l := to_lower output in
  if seqb l "stderr" || seqb l "" then (Ok (mkLogWriter "" Stderr), os)
  else if seqb l "stdout" then (Ok (mkLogWriter "" Stdout), os)
  else if seqb l "syslog" then (Ok (mkLogWriter "" Stderr), os)
  else match open_append refused output os with
       | (Err e, os) => (Err (ErrWrap ("failed to open log file " +:+ output +:+ ": " +:+ error_text e) e), os)
       | (Ok file, os) => (Ok (mkLogWriter output file), os)
       end.

Definition new_logger (refused : option error) (cfg : LoggingConfig) (os : OS)
    : result error (level * log_format * LogWriter) * OS :=
  match parse_log_level (logging_Level cfg) with
  | Err e => (Err (ErrWrap ("invalid log level: " +:+ error_text e) e), os)
  | Ok lv =>
      match new_log_writer refused (logging_Output cfg) os with
      | (Err e, os) => (Err (ErrWrap ("failed to create log writer: " +:+ error_text e) e), os)
      | (Ok w, os) =>
          let f := to_lower (logging_Format cfg) in
          if seqb f "json" then (Ok (lv, JSONHandler, w), os)
          else if seqb f "console" || seqb f "" then (Ok (lv, TextHandler, w), os)
          else (Err (ErrText ("invalid log format: " +:+ logging_Format cfg +:+ " (must be 'console' or 'json')")),
                (writer_close w os).2)
      end
  end.
End Logger.

(** ** What rotation does to the log *)

(** The writer at work: a line is written, the log is reopened (with or
    without success), and somebody renames or removes files. *)
Inductive log_step : LogWriter * OS -> LogWriter * OS -> Prop :=
| StepWrite w os p : log_step (w, os) (w, (writer_write w p os).2)
| StepReopen w os refused : log_step (w, os) ((writer_reopen refused w os).1.2, (writer_reopen refused w os).2)
| StepOutside w os paths : log_step (w, os) (w, mkOS paths (os_data os) (os_open os) (os_next os)).

(** The handles the process holds: the standard ones, and the log's. *)
Definition holds (os : OS) (w : LogWriter) : Prop :=
  (forall h, is_Some (os_open os !! h) <-> h = Stdout \/ h = Stderr \/ h = lw_file w) /\
  (forall h, is_Some (os_open os !! h) -> (h < os_next os)%nat) /\
  (if is_empty (lw_path w) then lw_file w = Stdout \/ lw_file w = Stderr else (Stderr < lw_file w)%nat).

(** A process that has its standard handles. *)
Definition fresh_process (os : OS) : Prop :=
  (forall h, is_Some (os_open os !! h) <-> h = Stdout \/ h = Stderr) /\ (Stderr < os_next os)%nat.

Lemma open_append_spec path os : exists inode, let '(r, os') := open_append None path os in
  r = Ok (os_next os) /\ os_open os' = <[os_next os := inode]> (os_open os) /\ os_next os' = S (os_next os) /\
  os_paths os' !! path = Some inode.
Proof.
  unfold open_append. destruct (os_paths os !! path) as [inode|] eqn:E; [by exists inode|].
  exists (os_next os). cbn [os_open os_next os_paths]. by rewrite lookup_insert_eq.
Qed.

Lemma opened_some (m : gmap nat nat) h n k : is_Some (<[n := k]> m !! h) <-> h = n \/ is_Some (m !! h).
Proof. rewrite lookup_insert_is_Some'. naive_solver. Qed.

Lemma fresh_holds os path inode (os' : OS) : fresh_process os -> path <> "" ->
  os_open os' = <[os_next os := inode]> (os_open os) -> os_next os' = S (os_next os) ->
  holds os' (mkLogWriter path (os_next os)).
Proof.
  intros [Ho Hn] Hp Eo En. unfold holds. cbn [lw_path lw_file]. rewrite Eo, En. apply is_empty_false in Hp as ->.
  split; [|split; [|done]].
  - intros h. rewrite opened_some, Ho. naive_solver.
  - intros h [->|Hh%Ho]%opened_some; [lia|]. unfold Stdout, Stderr in *. lia.
Qed.

Lemma new_log_writer_holds `{Unicode} refused output os : fresh_process os ->
  let '(r, os') := new_log_writer refused output os in
  match r with Ok w => holds os' w | Err _ => os' = os end.
Proof.
  intros Hf. unfold new_log_writer.
  assert (Hstd : forall h, h = Stdout \/ h = Stderr -> holds os (mkLogWriter "" h)).
  { intros h Hh. destruct Hf as [Ho Hn]. split; [|split; [|done]]; cbn [lw_file].
    - intros k. rewrite Ho. naive_solver.
    - intros k [->| ->]%Ho; unfold Stdout, Stderr in *; lia. }
  destruct (seqb (to_lower output) "stderr" || seqb (to_lower output) "") eqn:E1; [apply Hstd; by right|].
  destruct (seqb (to_lower output) "stdout"); [apply Hstd; by left|].
  destruct (seqb (to_lower output) "syslog"); [apply Hstd; by right|].
  destruct refused as [e|]; [done|]. destruct (open_append_spec output os) as [inode Hs].
  destruct (open_append None output os) as [r os'] eqn:E. destruct Hs as (-> & Eo & En & _).
  eapply fresh_holds; [done| |done|done]. intros ->. cbn in E1. done.
Qed.

Lemma log_step_holds s s' : holds s.2 s.1 -> log_step s s' -> holds s'.2 s'.1.
Proof.
  intros (Ho & Hlt & Hp) Hs. destruct Hs as [w os p|w os refused|w os paths]; cbn [fst snd] in *.
  - unfold writer_write, file_write. by destruct (os_open os !! lw_file w).
  - unfold writer_reopen. destruct (is_empty (lw_path w)) eqn:E; [unfold holds; cbn [fst snd]; by rewrite E|].
    destruct refused as [e|]; [cbn [open_append fst snd]; unfold holds; by rewrite E|].
    destruct (open_append_spec (lw_path w) os) as [inode Hsp].
    destruct (open_append None (lw_path w) os) as [r os']. destruct Hsp as (-> & Eo & En & _). cbn [fst snd].
    assert (Hw : is_Some (os_open os !! lw_file w)) by (apply Ho; naive_solver). pose proof (Hlt _ Hw) as Hwlt.
    unfold file_close. rewrite Eo, lookup_insert_ne by lia. destruct (os_open os !! lw_file w) as [i|] eqn:Ei; [|by destruct Hw].
    unfold holds. cbn [snd lw_path lw_file os_open os_next]. rewrite E, En.
    assert (Hdel : forall h, is_Some (delete (lw_file w) (<[os_next os := inode]> (os_open os)) !! h) <->
                     h <> lw_file w /\ (h = os_next os \/ is_Some (os_open os !! h))).
    { intros h. rewrite lookup_delete_is_Some, opened_some. naive_solver. }
    split; [|split].
    + intros h. rewrite Hdel, Ho. unfold Stdout, Stderr in *. split; [naive_solver|]. intros [->|[->| ->]]; split; try lia; auto.
    + intros h (_ & [->|Hh%Hlt])%Hdel; lia.
    + unfold Stderr in *. lia.
  - done.
Qed.

Lemma new_logger_holds `{Unicode} refused cfg os0 lv fm w os1 : fresh_process os0 ->
  new_logger refused cfg os0 = (Ok (lv, fm, w), os1) -> holds os1 w.
Proof.
  intros Hf. unfold new_logger. destruct (parse_log_level (logging_Level cfg)); [|done].
  pose proof (new_log_writer_holds refused (logging_Output cfg) os0 Hf) as Hw.
  destruct (new_log_writer refused (logging_Output cfg) os0) as [[w1|e] os']; [|done].
  destruct (seqb (to_lower (logging_Format cfg)) "json"); [by intros [= _ _ <- <-]|].
  destruct (seqb (to_lower (logging_Format cfg)) "console" || _); [by intros [= _ _ <- <-]|done].
Qed.

(** The log is never without a file and never leaks one: after any series
    of lines, rotations and reopenings the process holds one handle besides
    the standard ones, to which every write succeeds; a reopening that the
    system allows moves on to the file that is now at the path, and a
    [NewLogger] that fails leaves no file open. *)
Theorem log_keeps_one_file `{Unicode} refused cfg os0 :
  fresh_process os0 ->
  let '(r, os1) := new_logger refused cfg os0 in
  match r with
  | Err _ => forall h, is_Some (os_open os1 !! h) <-> h = Stdout \/ h = Stderr
  | Ok (_, _, w1) =>
      forall w os, reachable (fun s => s = (w1, os1)) log_step (w, os) ->
      (forall h, is_Some (os_open os !! h) <-> h = Stdout \/ h = Stderr \/ h = lw_file w) /\
      (forall p, (writer_write w p os).1 = Ok (Z.of_nat (slen p))) /\
      (lw_path w <> "" ->
       let '(e, w', os') := writer_reopen None w os in
       e = None /\ is_Some (os_paths os' !! lw_path w') /\ os_open os' !! lw_file w' = os_paths os' !! lw_path w')
  end.
Proof.
  intros Hf. unfold new_logger. destruct (parse_log_level (logging_Level cfg)) as [lv|e]; [|apply Hf].
  pose proof (new_log_writer_holds refused (logging_Output cfg) os0 Hf) as Hw.
  destruct (new_log_writer refused (logging_Output cfg) os0) as [[w1|e] os1]; [|rewrite Hw; apply Hf].
  assert (Hall : forall w os, reachable (fun s => s = (w1, os1)) log_step (w, os) ->
      (forall h, is_Some (os_open os !! h) <-> h = Stdout \/ h = Stderr \/ h = lw_file w) /\
      (forall p, (writer_write w p os).1 = Ok (Z.of_nat (slen p))) /\
      (lw_path w <> "" ->
       let '(e, w', os') := writer_reopen None w os in
       e = None /\ is_Some (os_paths os' !! lw_path w') /\ os_open os' !! lw_file w' = os_paths os' !! lw_path w')).
  { intros w os Hr. assert (Hh : holds os w).
    { change (holds (w, os).2 (w, os).1). revert Hr. generalize (w, os). apply (invariant_reachable _ _ (fun s => holds s.2 s.1)).
      - by intros s ->.
      - apply log_step_holds. }
    destruct Hh as (Ho & Hlt & Hp). split; [done|]. assert (Hopen : is_Some (os_open os !! lw_file w)) by (apply Ho; naive_solver).
    split; [intros p; unfold writer_write, file_write; by destruct (os_open os !! lw_file w); [|destruct Hopen]|].
    intros Hpath. apply is_empty_false in Hpath. unfold writer_reopen. rewrite Hpath.
    destruct (open_append_spec (lw_path w) os) as [inode Hsp].
    destruct (open_append None (lw_path w) os) as [r os']. destruct Hsp as (-> & Eo & En & Epath). split; [done|].
    pose proof (Hlt _ Hopen) as Hwlt. unfold file_close. rewrite Eo, lookup_insert_ne by lia.
    destruct (os_open os !! lw_file w) as [i|]; [|by destruct Hopen]. cbn [snd os_paths os_open lw_path lw_file].
    rewrite Epath. split; [done|]. rewrite lookup_delete_ne by lia. by rewrite lookup_insert_eq. }
  destruct (seqb (to_lower (logging_Format cfg)) "json"); [done|].
  destruct (seqb (to_lower (logging_Format cfg)) "console" || seqb (to_lower (logging_Format cfg)) ""); [done|].
  destruct Hw as (Ho & Hlt & Hp). unfold writer_close. destruct (is_empty (lw_path w1)).
  - intros h. rewrite Ho. naive_solver.
  - unfold file_close. assert (Hopen : is_Some (os_open os1 !! lw_file w1)) by (apply Ho; naive_solver).
    destruct (os_open os1 !! lw_file w1); [|by destruct Hopen]. cbn [snd os_open]. intros h.
    rewrite lookup_delete_is_Some, Ho. unfold Stdout, Stderr in *. split; [naive_solver|]. intros [->| ->]; split; try lia; auto.
Qed.

Definition booted : OS := mkOS ∅ ∅ {[Stdout := 1%nat; Stderr := 2%nat]} 3.

Lemma booted_fresh : fresh_process booted.
Proof.
  split; [|cbn; unfold Stderr; lia]. intros h. unfold booted. cbn [os_open].
  rewrite lookup_insert_is_Some', lookup_singleton_is_Some. naive_solver.
Qed.

Lemma log_keeps_one_file_witness :
  let '(r, os1) := @new_logger plain_unicode None (mkLoggingConfig "/var/log/strela" "json" "WARN") booted in
  match r with
  | Err _ => forall h, is_Some (os_open os1 !! h) <-> h = Stdout \/ h = Stderr
  | Ok (_, _, w1) =>
      forall w os, reachable (fun s => s = (w1, os1)) log_step (w, os) ->
      (forall h, is_Some (os_open os !! h) <-> h = Stdout \/ h = Stderr \/ h = lw_file w) /\
      (forall p, (writer_write w p os).1 = Ok (Z.of_nat (slen p))) /\
      (lw_path w <> "" ->
       let '(e, w', os') := writer_reopen None w os in
       e = None /\ is_Some (os_paths os' !! lw_path w') /\ os_open os' !! lw_file w' = os_paths os' !! lw_path w')
  end.
Proof. apply (@log_keeps_one_file plain_unicode None _ booted), booted_fresh. Defined.

(** A log that is rotated: the first line stays with the renamed file, the
    second, written before the reopening, follows it, and the third is in the
    new one. *)
Example rotation :
  match @new_logger plain_unicode None (mkLoggingConfig "log" "" "") booted with
  | (Ok (_, _, w), os) =>
      let os := (writer_write w "1" os).2 in
      let os := mkOS {["log.0" := 3%nat]} (os_data os) (os_open os) (os_next os) in
      let os := (writer_write w "2" os).2 in
      let '(_, w, os) := writer_reopen None w os in
      let os := (writer_write w "3" os).2 in
      (os_data os !! 3%nat, default 0%nat (os_paths os !! "log"), os_data os !! 4%nat) = (Some "12", 4%nat, Some "3")
  | _ => False
  end.
Proof. vm_compute. reflexivity. Qed.
