(* ===== verification/Recovery.v ===== *)
(** * Panic recovery (internal/recovery/recovery.go)

    The deferred functions that keep a panic inside its goroutine, on
    computations that may panic.  A panic's value is its text; the stack in
    the log is left out. *)

From stdpp Require Import base list strings.
From Stdlib Require Import ZArith Lia.
From S2P Require Import Prelude GoString.
#[local] Open Scope Z_scope.

Section Recovery.
Context {S : Type}.

(** A log line: its message, its context and the value it reports. *)
Record log_entry : Type := mkEntry { le_msg : string; le_context : option string; le_value : string }.

(** A function without results: the panic it ends in, if it does, and what it
    does to the program's state and the log. *)
Definition go_func : Type := S -> list log_entry -> option string * S * list log_entry.

(** [defer d(); c()]: the deferred function sees the panic and says what is
    left of it. *)
Definition deferred : Type := option string -> go_func.
Definition with_defer (d : deferred) (c : go_func) : go_func := fun s l =>
  let '(r, s, l) := c s l in d r s l.

Definition recover_panic (context : string) : deferred := fun r s l =>
  match r with
  | None => (None, s, l)
  | Some v => (None, s, l ++ [mkEntry "panic recovered" (Some context) v])
  end.

(** [SafeGo]: the body of the goroutine. *)
Definition safe_go (context : string) (fn : go_func) : go_func := with_defer (recover_panic context) fn.

Definition recover_panic_with_callback (context : string) (onPanic : option (string -> go_func)) : deferred := fun r s l =>
  match r with
  | None => (None, s, l)
  | Some v =>
      let l := l ++ [mkEntry "panic recovered" (Some context) v] in
      match onPanic with
      | None => (None, s, l)
      | Some f =>
          with_defer (fun r2 s l =>
            match r2 with
            | None => (None, s, l)
            | Some v2 => (None, s, l ++ [mkEntry "panic in panic handler" (Some context) v2])
            end) (f v) s l
      end
  end.

Definition http_panic_handler (next : go_func) : go_func :=
  with_defer (fun r s l =>
    match r with
    | None => (None, s, l)
    | Some v => (Some ("HTTP handler panic: " +:+ v), s, l ++ [mkEntry "HTTP handler panic recovered" None v])
    end) next.

(** A goroutine started with [SafeGo] never ends in a panic; what it did
    stays done, and a panic leaves one line in the log.  The callback of a
    recovered panic runs once, on its value and behind that line, and its own
    panic is logged and goes no further.  The HTTP wrapper passes a panic on,
    with its value in the text. *)
Theorem panics_contained context (fn : go_func) (onPanic : string -> go_func) s l :
  let '(r, s1, l1) := fn s l in
  match r with
  | None =>
      safe_go context fn s l = (None, s1, l1) /\
      with_defer (recover_panic_with_callback context (Some onPanic)) fn s l = (None, s1, l1) /\
      http_panic_handler fn s l = (None, s1, l1)
  | Some v =>
      let line := mkEntry "panic recovered" (Some context) v in
      safe_go context fn s l = (None, s1, l1 ++ [line]) /\
      (let '(r2, s2, l2) := onPanic v s1 (l1 ++ [line]) in
       with_defer (recover_panic_with_callback context (Some onPanic)) fn s l =
       (None, s2, l2 ++ match r2 with Some v2 => [mkEntry "panic in panic handler" (Some context) v2] | None => [] end)) /\
      http_panic_handler fn s l =
        (Some ("HTTP handler panic: " +:+ v), s1, l1 ++ [mkEntry "HTTP handler panic recovered" None v])
  end.
Proof.
  unfold safe_go, http_panic_handler, with_defer. destruct (fn s l) as [[[v|] s1] l1]; cbn; [|done].
  split; [done|]. split; [|done]. unfold with_defer.
  destruct (onPanic v s1 _) as [[[v2|] s2] l2]; cbn; [done|]. by rewrite app_nil_r.
Qed.
End Recovery.
