(* ===== verification/MockS3.v ===== *)
(** * The in-memory S3 client (internal/tls/storage/mock_s3.go)

    The client that the repository's tests put behind [S3API].  It keeps the
    laws that S3Cache relies on, so that what CertCache.v proves of any such
    client holds for it, and the tests run on a client of that kind. *)

From stdpp Require Import base gmap list strings.
From Stdlib Require Import ZArith Lia.
From S2P Require Import Prelude GoString GoError Http CertCache.
#[local] Open Scope Z_scope.

Record MockS3Client : Type := mkMock {
  Storage : gmap string string;
  GetErr : option error;
  PutErr : option error;
  DelErr : option error
}.
Definition new_mock_s3_client : MockS3Client := mkMock ∅ None None None.

(** ** Readers

    [mockReadCloser.Read] into a buffer of [size] bytes: the bytes, whether
    the end of file is reported with them, and the new position. *)
Definition mock_read (data : string) (pos size : nat) : string * bool * nat :=
  if (slen data <=? pos)%nat then ("", true, pos)
  else
    let n := stake size (sdrop pos data) in
    (n, (slen data <=? pos + slen n)%nat, (pos + slen n)%nat).
(** [bytes.Reader.Read], the body of an upload: the end of file is reported
    by the read after the last bytes. *)
Definition bytes_read (data : string) (pos size : nat) : string * bool * nat :=
  if (slen data <=? pos)%nat then ("", true, pos)
  else
    let n := stake size (sdrop pos data) in (n, false, (pos + slen n)%nat).

(** A loop that reads into a buffer of [size] bytes until the end: that of
    [PutObject] over the body, and [io.ReadAll] over the answer. *)
Section ReadLoop.
Context (read : string -> nat -> nat -> string * bool * nat).
Fixpoint read_until_eof (fuel : nat) (data : string) (pos size : nat) : option string :=
  match fuel with
  | O => None
  | S fuel =>
      let '(n, eof, pos) := read data pos size in
      if eof then Some n
      else match read_until_eof fuel data pos size with Some rest => Some (n +:+ rest) | None => None end
  end.
End ReadLoop.
Definition read_body read (data : string) (size : nat) : string :=
  default "" (read_until_eof read (S (S (slen data))) data 0 size).

(** ** Operations *)

(** [types.NoSuchKey] *)
Definition NoSuchKey : error := ErrSentinel "NoSuchKey: key not found".

Definition mock_get (key : string) (m : MockS3Client) : result error Body * MockS3Client :=
  match GetErr m with
  | Some e => (Err e, m)
  | None => match Storage m !! key with
            | Some data => (Ok (mkBody (read_body mock_read data 512) None), m)
            | None => (Err NoSuchKey, m)
            end
  end.
Definition mock_put (key data : string) (m : MockS3Client) : option error * MockS3Client :=
  match PutErr m with
  | Some e => (Some e, m)
  | None => (None, mkMock (<[key := read_body bytes_read data 1024]> (Storage m)) (GetErr m) (PutErr m) (DelErr m))
  end.
Definition mock_delete (key : string) (m : MockS3Client) : option error * MockS3Client :=
  match DelErr m with
  | Some e => (Some e, m)
  | None => (None, mkMock (delete key (Storage m)) (GetErr m) (PutErr m) (DelErr m))
  end.

#[export] Instance mock_s3 : S3API MockS3Client := {|
  GetObject := mock_get;
  PutObject := mock_put;
  DeleteObject := mock_delete;
  no_such_key e := bool_decide (e = NoSuchKey)
|}.

(** ** What is read is what was there *)

Lemma sdrop_all n (s : string) : (slen s <= n)%nat -> sdrop n s = "".
Proof. intros. apply slen_zero. rewrite slen_sdrop. lia. Qed.
Lemma sdrop_sdrop a b (s : string) : sdrop a (sdrop b s) = sdrop (b + a) s.
Proof. revert s; induction b as [|b IH]; intros [|c s]; simpl; auto. by destruct a. Qed.
Lemma stake_split size pos (s : string) (n := stake size (sdrop pos s)) :
  n +:+ sdrop (pos + slen n) s = sdrop pos s.
Proof.
  unfold n. rewrite slen_stake, slen_sdrop. destruct (Nat.le_ge_cases size (slen s - pos)).
  - rewrite Nat.min_l, <- sdrop_sdrop by done. apply stake_sdrop.
  - rewrite Nat.min_r, (sdrop_all (_ + _)) by lia.
    rewrite <- (stake_sdrop size (sdrop pos s)) at 2. f_equal. symmetry. apply sdrop_all. rewrite slen_sdrop. lia.
Qed.

(** A reader that is one of the two above. *)
Definition reads_on (read : string -> nat -> nat -> string * bool * nat) : Prop :=
  forall data pos size, read data pos size =
    (if (slen data <=? pos)%nat then ("", true, pos)
     else let n := stake size (sdrop pos data) in
          (n, snd (fst (read data pos size)), (pos + slen n)%nat)) /\
    (snd (fst (read data pos size)) = true -> (slen data <= pos + slen (stake size (sdrop pos data)))%nat).
Lemma mock_reads_on : reads_on mock_read.
Proof.
  intros data pos size. unfold mock_read.
  destruct (Nat.leb_spec (slen data) pos); simpl; split; try done; intros He; [lia|by apply Nat.leb_le].
Qed.
Lemma bytes_reads_on : reads_on bytes_read.
Proof. intros data pos size. unfold bytes_read. destruct (Nat.leb_spec (slen data) pos); simpl; split; try done; lia. Qed.

Lemma read_until_eof_rest read fuel data pos size :
  reads_on read -> (0 < size)%nat -> (pos <= slen data)%nat -> (slen data - pos + 1 < fuel)%nat ->
  read_until_eof read fuel data pos size = Some (sdrop pos data).
Proof.
  intros Hr Hsize. revert pos. induction fuel as [|fuel IH]; intros pos Hpos Hf; [lia|].
  cbn [read_until_eof]. destruct (Hr data pos size) as [-> He].
  destruct (Nat.leb_spec (slen data) pos) as [Hle|Hlt]; [by rewrite sdrop_all|].
  cbv zeta. pose proof (stake_split size pos data) as Hs. cbv zeta in Hs.
  assert (Hn : slen (stake size (sdrop pos data)) = Nat.min size (slen data - pos)) by (by rewrite slen_stake, slen_sdrop).
  destruct (snd (fst (read data pos size))) eqn:Ee.
  - rewrite (sdrop_all (_ + _)), sapp_nil_r in Hs by (by apply He). congruence.
  - destruct (Nat.eq_dec fuel 0) as [->|]; [lia|]. rewrite IH by lia. by rewrite Hs.
Qed.

Lemma read_body_all read data size : reads_on read -> (0 < size)%nat -> read_body read data size = data.
Proof. intros Hr Hs. unfold read_body. rewrite read_until_eof_rest; [by destruct data|done..|lia|lia]. Qed.

(** ** The laws of S3API, as long as no failure is set *)

Lemma mock_get_stored m key :
  GetErr m = None -> mock_get key m = (match Storage m !! key with
    | Some d => Ok (mkBody d None) | None => Err NoSuchKey end, m).
Proof.
  intros He. unfold mock_get. rewrite He. destruct (Storage m !! key); [|done].
  by rewrite (read_body_all mock_read) by (apply mock_reads_on || lia).
Qed.
Lemma mock_put_stored m key data :
  PutErr m = None ->
  mock_put key data m = (None, mkMock (<[key := data]> (Storage m)) (GetErr m) (PutErr m) (DelErr m)).
Proof.
  intros He. unfold mock_put. rewrite He.
  by rewrite (read_body_all bytes_read) by (apply bytes_reads_on || lia).
Qed.

(** The client answers what it was given, over any state of the other keys,
    and loses what it is told to delete. *)
Lemma mock_keeps (m : MockS3Client) (key data : string) :
  GetErr m = None -> PutErr m = None -> DelErr m = None ->
  let m1 := snd (s3_put "" key data m) in
  s3_get "" key m1 = (Ok data, m1) /\ fst (s3_get "" key (snd (s3_delete "" key m1))) = Err ErrCacheMiss.
Proof.
  intros Hg Hp Hd m1. unfold m1, s3_put, s3_get, s3_delete. cbn [PutObject GetObject DeleteObject mock_s3].
  rewrite !mock_put_stored by done. cbn [snd]. rewrite mock_get_stored by done. cbn [Storage].
  rewrite lookup_insert_eq. split; [done|].
  unfold mock_delete. cbn [DelErr]. rewrite Hd. cbn [snd]. rewrite mock_get_stored by done. cbn [Storage].
  by rewrite lookup_delete_eq.
Qed.
