(* ===== verification/ServerMain.v ===== *)
(** * The server process (cmd/strela-server/main.go)

    [main]: what is loaded and built, in which order the listeners start and
    when the process gives up; what SIGHUP changes in the running server; and
    the order of the shutdown.  The parts are those of the other files. *)

From stdpp Require Import base gmap list strings.
From Stdlib Require Import ZArith Lia.
From S2P Require Import Prelude GoString Json GoError NetIP Config IPExpansion Reload MXLookup KeyStore SRS Delivery Effects Deliverer Middleware Handler Cluster TLSManager Metrics Logger Compose Http.
#[local] Open Scope Z_scope.

(** ** What the process finds *)

(** The answers of the system: the configuration file as each of the two
    loads finds it, the log file, the key files and directories, the
    environment variable CLUSTER_SECRET_KEY, the host name, the memberlist
    library, the S3 bucket, and whether [http.ServeMux] refuses a pattern that
    is no plain path. *)
Record World : Type := mkWorld {
  wd_first_load : result error Config;
  wd_second_load : result error Config;
  wd_log_refused : option error;
  wd_os : OS;
  wd_arc_key : result error string;
  wd_dkim_key : result error string;
  wd_key_directory : result error bool;
  wd_selector_map : map_file;
  wd_secret_env : string;
  wd_hostname : result error string;
  wd_ml_default : MemberlistConfig;
  wd_ml_create : MemberlistConfig -> result error memberlist;
  wd_ml_join : list string -> memberlist -> memberlist;
  wd_s3 : result error unit;
  wd_mux_refuses : string -> bool
}.

(** ** Listeners *)

Inductive service : Type := MetricsService | AdminService | ChallengeService | DeliveryService.
#[export] Instance service_eq_dec : EqDecision service.
Proof. solve_decision. Defined.
Inductive security : Type := Plain | CertificateFiles (cert key : string) | Acme.

Record listener : Type := mkListener {
  ln_service : service;
  ln_addr : string;
  ln_routes : list string;
  ln_security : security;
  ln_read_timeout : Z;
  ln_write_timeout : Z;
  ln_idle_timeout : Z
}.

(** [mux.Handle] for each pattern in turn: it panics on a pattern that is
    there already, and on one it cannot read.  A plain pattern is a path without
    blanks, wildcards and escapes; whether another is refused, on its own or for
    what it unescapes to, is [refuses]. *)
Definition plain_pattern (p : string) : bool :=
  has_prefix p "/" && sall (fun c => negb (is_char 32 c || is_char 9 c || is_char 37 c || is_char 123 c)) p.
Fixpoint handle_all (refuses : string -> bool) (patterns registered : list string) : option (list string) :=
  match patterns with
  | [] => Some registered
  | p :: patterns =>
      if existsb (seqb p) registered || (negb (plain_pattern p) && refuses p) then None
      else handle_all refuses patterns (registered ++ [p])
  end.

Definition delivery_routes : list string := ["/deliver"; "/deliver/smtp"; "/deliver/lmtp"].
Definition metrics_routes (cfg : MetricsConfig) : list string :=
  ["/health"] ++ (if is_empty (metrics_Path cfg) then [] else [metrics_Path cfg]) ++ ["/reputation"].

Definition metrics_listener (cfg : MetricsConfig) (routes : list string) : listener :=
  mkListener MetricsService (metrics_Bind cfg) routes Plain (10 * second) (10 * second) (30 * second).
Definition admin_listener (cfg : AdminConfig) : listener :=
  mkListener AdminService (admin_Bind cfg) ["/health"; "/reputation"] Plain (10 * second) (10 * second) (30 * second).
(** Everything goes to the ACME handler, or to the default mux where there is
    no manager. *)
Definition challenge_listener : listener :=
  mkListener ChallengeService ":80" ["/"] Plain (5 * second) (5 * second) (30 * second).
Definition delivery_security (cfg : TLSConfig) (tls : option Manager) : security :=
  if tls_Enabled cfg && seqb (tls_Provider cfg) "letsencrypt" && bool_decide (is_Some tls) then Acme
  else if tls_Enabled cfg && seqb (tls_Provider cfg) "file" then CertificateFiles (tls_CertFile cfg) (tls_KeyFile cfg)
  else Plain.
Definition delivery_listener (cfg : InboundConfig) (sec : security) : listener :=
  mkListener DeliveryService (inbound_Listen cfg) delivery_routes sec (seconds (inbound_ReadTimeoutSecs cfg))
    (seconds (inbound_WriteTimeoutSecs cfg)) (seconds (inbound_IdleTimeoutSecs cfg)).

(** ** The running server *)

Record Running : Type := mkRunning {
  run_cfg : Config;                              (* the copy taken at the start *)
  run_reloadable : @ReloadableConfig shared;
  run_log : LogWriter;
  run_os : OS;
  run_metrics : option Metrics.Metrics;
  run_deliverer : Deliverer;
  run_engine : shared;
  run_handler : Handler;
  run_limiter : option RateLimiter;
  run_cluster : option Cluster;
  run_tls : option Manager;
  run_listeners : list listener
}.

(** How [main] comes to its wait for a signal, or does not: [os.Exit(1)] or a
    panic, with the listeners that were started by then. *)
Inductive outcome : Type :=
| Exited (e : error) (started : list listener)
| Panicked (started : list listener)
| Serving (r : Running).

(** The callback of main: both parts take their section of the new
    configuration. *)
Definition on_reload : @callback shared := fun newCfg s =>
  let s := mkShared (sh_config s) (sh_pool s) (sh_reputation s) (sh_rotator s) (sh_limiters s) (sh_srs s)
             (mx_reload_config (sh_mx s) (DNS newCfg)) (sh_keys s) (sh_fresh s) in
  (None, deliverer_reload_config s (Outbound newCfg)).

Section Main.
Context `{Unicode}.

(** The engine with its DKIM key store. *)
Definition build_engine (w : World) (cfg : Config) (m : option Metrics.Metrics) (ips : ExpandedSourceIPs)
    : result error (Deliverer * shared) :=
  let '(d, s) := new_deliverer (Outbound cfg) ips (new_mx_lookup (DNS cfg)) (Reputation cfg) (Some (Config.ARC cfg))
                   (Some (SRS_ cfg)) (wd_arc_key w) in
  let d := mkDeliverer (d_arcConfig d) (d_arcPrivateKey d) (bool_decide (is_Some m)) in
  if dkim_Enabled (DKIM cfg) && negb (is_empty (dkim_KeyDirectory (DKIM cfg))) then
    let? ks := new_key_store (wd_key_directory w) (wd_selector_map w) (dkim_KeyDirectory (DKIM cfg))
                 (dkim_SelectorMapPath (DKIM cfg)) (dkim_Selector (DKIM cfg)) (dkim_KeyCacheSize (DKIM cfg)) in
    Ok (d, set_dkim_key_store s ks)
  else Ok (d, s).

Definition cluster_setup (w : World) (cfg : ClusterConfig) : result error ClusterSetup :=
  let secretKeyStr := if is_empty (wd_secret_env w) then cluster_SecretKey cfg else wd_secret_env w in
  let? secretKey := (if is_empty secretKeyStr then Ok "" else decode_secret_key secretKeyStr) in
  let nodeID := if is_empty (cluster_NodeID cfg)
                then match wd_hostname w with Ok h => h | Err _ => "" end
                else cluster_NodeID cfg in
  Ok (mkSetup nodeID (get_bind_addr cfg) (get_bind_port cfg) (cluster_Peers cfg) secretKey).

Definition build_cluster (w : World) (cfg : ClusterConfig) : result error (option Cluster) :=
  if cluster_Enabled cfg then
    let? setup := cluster_setup w cfg in
    let? c := new_cluster (wd_ml_default w) (wd_ml_create w) (wd_ml_join w) setup in
    Ok (Some c)
  else Ok None.

(** What is built before the first listener starts. *)
Definition build (w : World) : result error (Config * (@ReloadableConfig shared * LogWriter * OS * option Metrics.Metrics) * (Deliverer * shared) * option Cluster) :=
  let? tempCfg := wd_first_load w in
  let '(logger, os) := new_logger (wd_log_refused w) (Logging tempCfg) (wd_os w) in
  let? l := logger in
  let? rc := @new_reloadable_config shared (wd_second_load w) in
  let cfg := rc_get rc in
  let m := if metrics_Enabled (Config.Metrics cfg) then Some (new_metrics (metrics_IncludeRecipientDomain (Config.Metrics cfg))) else None in
  let? ips := expand_source_ips_from_config (Outbound cfg) in
  let? engine := build_engine w cfg m ips in
  let? c := build_cluster w (Config.Cluster cfg) in
  Ok (cfg, (rc, snd l, os, m), engine, c).

Definition main (w : World) : outcome :=
  match build w with
  | Err e => Exited e []
  | Ok (cfg, (rc, logWriter, os, m), (d, s), clusterMgr) =>
      let rateLimiter :=
        if inbound_RateLimitEnabled (Inbound cfg)
        then Some (new_rate_limiter (inbound_RateLimitRequestsPerIP (Inbound cfg)) (inbound_RateLimitWindowSeconds (Inbound cfg)))
        else None in
      match (if metrics_Enabled (Config.Metrics cfg)
             then handle_all (wd_mux_refuses w) (metrics_routes (Config.Metrics cfg)) [] else Some []) with
      | None => Panicked []
      | Some routes =>
          let started :=
            (if metrics_Enabled (Config.Metrics cfg) then [metrics_listener (Config.Metrics cfg) routes] else []) ++
            (if admin_Enabled (Admin cfg) then [admin_listener (Admin cfg)] else []) in
          match (if tls_Enabled (Config.TLS cfg) then new_manager (Config.TLS cfg) (wd_s3 w) (bool_decide (is_Some clusterMgr)) else Ok None) with
          | Err e => Exited e started
          | Ok tlsManager =>
              let started := started ++ (if tls_Enabled (Config.TLS cfg) then [challenge_listener] else []) ++
                             [delivery_listener (Inbound cfg) (delivery_security (Config.TLS cfg) tlsManager)] in
              Serving (mkRunning cfg (register_reload_callback rc on_reload) logWriter os m d s
                         (new_handler cfg (wd_dkim_key w)) rateLimiter clusterMgr tlsManager started)
          end
      end
  end.
End Main.

(** ** SIGHUP *)

Definition sighup (refused : option error) (loaded : result error Config) (r : Running) : Running :=
  let '(_, log, os) := writer_reopen refused (run_log r) (run_os r) in
  let '(_, rc, engine) := reload (run_reloadable r) loaded (run_engine r) in
  mkRunning (run_cfg r) rc log os (run_metrics r) (run_deliverer r) engine (run_handler r) (run_limiter r)
    (run_cluster r) (run_tls r) (run_listeners r).
Definition sighups (signals : list (option error * result error Config)) (r : Running) : Running :=
  foldl (fun r s => sighup s.1 s.2 r) r signals.

(** ** Shutdown *)

Definition drain_timeout (cfg : Config) : Z := wrap64 (seconds (out_MaxTotalDeliverySeconds (Outbound cfg)) + 30 * second).

(** What main does once it is told to stop, in its order; the last two are
    the deferred calls. *)
Inductive action : Type :=
| ShutdownServer (s : service) (deadline : Z)
| StopRateLimiter
| StopTLSManager
| StopDeliverer
| LeaveCluster
| CloseLog.

Definition served (s : service) (r : Running) : bool :=
  existsb (fun l => bool_decide (ln_service l = s)) (run_listeners r).

Definition when (b : bool) (a : action) : list action := if b then [a] else [].
Definition shutdown (now aux_now : Z) (r : Running) : list action :=
  [ShutdownServer DeliveryService (now + drain_timeout (run_cfg r))] ++
  let aux := aux_now + 10 * second in
  when (served MetricsService r) (ShutdownServer MetricsService aux) ++
  when (served AdminService r) (ShutdownServer AdminService aux) ++
  when (served ChallengeService r) (ShutdownServer ChallengeService aux) ++
  when (bool_decide (is_Some (run_limiter r))) StopRateLimiter ++
  when (bool_decide (is_Some (run_tls r))) StopTLSManager ++
  [StopDeliverer] ++
  when (bool_decide (is_Some (run_cluster r))) LeaveCluster ++
  [CloseLog].

(** ** What a server that runs was built of *)

(** The engine uses the outbound and DNS settings of a configuration. *)
Definition engine_follows (cfg : Config) (s : shared) : Prop :=
  sh_config s = Outbound cfg /\ dnsResolver (sh_mx s) = new_dns_resolver (DNS cfg) /\
  cacheTTL (sh_mx s) = seconds (dns_CacheTTLSeconds (DNS cfg)) /\
  negativeTTL (sh_mx s) = seconds (dns_CacheNegativeTTLSeconds (DNS cfg)).

Section Boot.
Context `{Unicode}.

Lemma build_engine_spec w cfg m ips d s : build_engine w cfg m ips = Ok (d, s) -> engine_follows cfg s.
Proof.
  unfold build_engine, new_deliverer. destruct (dkim_Enabled _ && _); [|by intros [= _ <-]].
  destruct (new_key_store _ _ _ _ _ _) as [ks|]; [|done]. by intros [= _ <-].
Qed.

Lemma build_spec w cfg rc log os m d s c :
  build w = Ok (cfg, (rc, log, os, m), (d, s), c) ->
  wd_second_load w = Ok cfg /\ rc = mkReloadableConfig cfg [] /\ engine_follows cfg s /\
  (fresh_process (wd_os w) -> holds os log).
Proof.
  unfold build. destruct (wd_first_load w) as [tempCfg|]; [|done].
  destruct (new_logger _ _ _) as [[[[lv fm] l]|] os'] eqn:El; [|done].
  unfold new_reloadable_config. destruct (wd_second_load w) as [cfg'|]; [|done].
  unfold rc_get; cbn [config].
  destruct (expand_source_ips_from_config _) as [ips|]; [|done].
  destruct (build_engine _ _ _ _) as [[d' s']|] eqn:Ee; [|done].
  destruct (build_cluster _ _) as [c'|]; [|done].
  intros [= <- <- <- <- <- <- <- <-]. apply build_engine_spec in Ee.
  split; [done|split; [done|split; [exact Ee|]]]. intros Hf. by eapply new_logger_holds.
Qed.

Lemma main_serving w r : main w = Serving r ->
  wd_second_load w = Ok (run_cfg r) /\
  run_reloadable r = mkReloadableConfig (run_cfg r) [on_reload] /\
  engine_follows (run_cfg r) (run_engine r) /\
  run_handler r = new_handler (run_cfg r) (wd_dkim_key w) /\
  (fresh_process (wd_os w) -> holds (run_os r) (run_log r)).
Proof.
  unfold main. destruct (build w) as [[[[cfg [[[rc log] os] m]] [d s]] c]|] eqn:Eb; [|done].
  apply build_spec in Eb as (Hl & -> & Hs & Hh).
  destruct (if metrics_Enabled _ then _ else _) as [routes|]; [|done].
  destruct (if tls_Enabled _ then _ else _) as [mg|]; [|done].
  intros [= <-]. done.
Qed.
End Boot.

(** ** What signals change *)

(** The configuration in force after the signals: the last file that loaded
    and kept the listen address. *)
Definition in_force (cfg : Config) (signals : list (option error * result error Config)) : Config :=
  foldl (fun c s => match s.2 with
                    | Ok c' => if seqb (inbound_Listen (Inbound c)) (inbound_Listen (Inbound c')) then c' else c
                    | Err _ => c
                    end) cfg signals.

(** What no signal touches. *)
Definition fixed_part (r : Running) :=
  (run_cfg r, run_metrics r, run_deliverer r, run_handler r, run_limiter r, run_cluster r, run_tls r, run_listeners r).
Definition engine_state (s : shared) :=
  (sh_pool s, sh_reputation s, sh_rotator s, sh_limiters s, sh_srs s, cache (sh_mx s), sh_keys s).

Definition signal_inv (cfg : Config) (r : Running) : Prop :=
  run_reloadable r = mkReloadableConfig cfg [on_reload] /\ engine_follows cfg (run_engine r) /\
  holds (run_os r) (run_log r).

Lemma sighup_step cfg r s : signal_inv cfg r ->
  signal_inv (in_force cfg [s]) (sighup s.1 s.2 r) /\
  fixed_part (sighup s.1 s.2 r) = fixed_part r /\
  engine_state (run_engine (sighup s.1 s.2 r)) = engine_state (run_engine r).
Proof.
  intros (Hr & He & Hh). destruct s as [refused loaded]. cbn [fst snd in_force foldl]. unfold sighup.
  pose proof (log_step_holds (run_log r, run_os r) _ Hh (StepReopen _ _ refused)) as Hh'. cbn [fst snd] in Hh'.
  destruct (writer_reopen refused (run_log r) (run_os r)) as [[e log] os]. cbn [fst snd] in Hh'.
  rewrite Hr. unfold reload. cbn [config onReload]. destruct loaded as [c|e']; [|done].
  unfold validate_reload. destruct (seqb (inbound_Listen (Inbound cfg)) (inbound_Listen (Inbound c))); [|done].
  done.
Qed.

Lemma sighups_inv cfg r signals : signal_inv cfg r ->
  signal_inv (in_force cfg signals) (sighups signals r) /\
  fixed_part (sighups signals r) = fixed_part r /\
  engine_state (run_engine (sighups signals r)) = engine_state (run_engine r).
Proof.
  revert cfg r. induction signals as [|s signals IH]; intros cfg r Hi; [done|].
  destruct (sighup_step cfg r s Hi) as (H1 & H2 & H3). cbn [sighups foldl]. cbn [in_force foldl] in H1.
  destruct (IH _ _ H1) as (H4 & H5 & H6). rewrite <- H2, <- H3. by split.
Qed.

Lemma in_force_listen cfg signals : inbound_Listen (Inbound (in_force cfg signals)) = inbound_Listen (Inbound cfg).
Proof.
  revert cfg. induction signals as [|[e [c|]] signals IH]; intros cfg; cbn [in_force foldl snd]; [done| |apply IH].
  destruct (seqb (inbound_Listen (Inbound cfg)) (inbound_Listen (Inbound c))) eqn:E; rewrite IH; [|done].
  by apply seqb_true in E.
Qed.

(** C11: whatever files the signals find, and whether or not the log can be
    reopened, a server that runs keeps its log, its listeners, its limiter, its
    cluster and everything the handlers were built with; the engine runs with
    the outbound and DNS settings of the last file that loaded with the same
    listen address, and its pool, its reputation records, its limits, its
    cached records and its keys are those from before the signals. *)
Theorem signals_keep_serving `{Unicode} (w : World) (r : Running) signals :
  fresh_process (wd_os w) -> main w = Serving r ->
  let r' := sighups signals r in
  let cfg := in_force (run_cfg r) signals in
  (forall p, (writer_write (run_log r') p (run_os r')).1 = Ok (Z.of_nat (slen p))) /\
  fixed_part r' = fixed_part r /\
  rc_get (run_reloadable r') = cfg /\ inbound_Listen (Inbound cfg) = inbound_Listen (Inbound (run_cfg r)) /\
  engine_follows cfg (run_engine r') /\ engine_state (run_engine r') = engine_state (run_engine r).
Proof.
  intros Hf Hm. cbv zeta. apply main_serving in Hm as (_ & Hr & He & _ & Hh).
  destruct (sighups_inv (run_cfg r) r signals) as ((Hrc & He' & Hh') & Hfix & Hst); [by split; [|split; [|apply Hh]]|].
  split; [|split; [done|split; [by rewrite Hrc|split; [apply in_force_listen|by split]]]].
  intros p. destruct Hh' as (Ho & _ & _). unfold writer_write, file_write.
  assert (Hw : is_Some (os_open (run_os (sighups signals r)) !! lw_file (run_log (sighups signals r)))) by (apply Ho; auto).
  by destruct (os_open _ !! _); [|destruct Hw].
Qed.

(** ** The shutdown waits for deliveries *)

(** [a] comes before [b] in every list of actions. *)
Definition stops_after (r : Running) (actions : list action) : Prop :=
  exists before after, actions = before ++ [StopDeliverer] ++ after ++ [CloseLog] /\
    (forall l, In l (run_listeners r) -> exists d, In (ShutdownServer (ln_service l) d) before) /\
    (run_limiter r <> None -> In StopRateLimiter before) /\ (run_tls r <> None -> In StopTLSManager before) /\
    (run_cluster r <> None -> In LeaveCluster after).

Lemma in_when b a : In a (when b a) <-> b = true.
Proof. destruct b; simpl; naive_solver. Qed.

Lemma shutdown_order now aux r : stops_after r (shutdown now aux r).
Proof.
  set (dl := now + drain_timeout (run_cfg r)). set (ax := aux + 10 * second).
  exists ([ShutdownServer DeliveryService dl] ++ when (served MetricsService r) (ShutdownServer MetricsService ax) ++
          when (served AdminService r) (ShutdownServer AdminService ax) ++
          when (served ChallengeService r) (ShutdownServer ChallengeService ax) ++
          when (bool_decide (is_Some (run_limiter r))) StopRateLimiter ++
          when (bool_decide (is_Some (run_tls r))) StopTLSManager),
         (when (bool_decide (is_Some (run_cluster r))) LeaveCluster).
  split; [unfold shutdown; by rewrite <- !app_assoc|]. setoid_rewrite in_app_iff. setoid_rewrite in_app_iff.
  setoid_rewrite in_app_iff. setoid_rewrite in_app_iff. setoid_rewrite in_app_iff.
  assert (Hsome : forall A (o : option A), o <> None -> bool_decide (is_Some o) = true).
  { intros A o Ho. apply bool_decide_eq_true_2. by destruct o. }
  split; [|split; [|split]]; [|intros Ho%Hsome; rewrite Ho; simpl; tauto..].
  intros l Hl. assert (Hs : served (ln_service l) r = true).
  { apply existsb_exists. exists l. split; [done|]. by apply bool_decide_eq_true_2. }
  destruct (ln_service l); [exists ax|exists ax|exists ax|exists dl]; rewrite ?Hs; simpl; tauto.
Qed.

Lemma prepare_call_timeout `{Unicode, MailLib} h amb transport req call :
  prepare_call h amb transport req = Ok call ->
  dc_timeout call = seconds (out_MaxTotalDeliverySeconds (Outbound (h_config h))).
Proof.
  unfold prepare_call. destruct (negb (seqb _ _)); [done|]. destruct (negb (authorized h req)); [done|].
  destruct (read_request h req); [|done]. destruct (check_request _); [|done]. destruct (prepare_message _ _); [|done].
  by intros [= <-].
Qed.

Lemma sighups_fixed signals r : fixed_part (sighups signals r) = fixed_part r.
Proof.
  revert r. induction signals as [|s signals IH]; intros r; [done|]. cbn [sighups foldl].
  etrans; [apply IH|]. unfold sighup. destruct (writer_reopen _ _ _) as [[? ?] ?], (reload _ _ _) as [[? ?] ?]. done.
Qed.

(** C10: the shutdown is in order and leaves deliveries their time: whatever
    was reloaded, every delivery a handler has handed over by the time of the
    signal ends by its own deadline at least 30 seconds before the deadline of
    the drain; every listener, the limiter and the certificates are stopped
    before the engine, and the cluster and the log after it. *)
Theorem drain_covers_deliveries `{Unicode, MailLib} (w : World) (r : Running) signals now aux amb transport req call t :
  main w = Serving r -> 0 <= out_MaxTotalDeliverySeconds (Outbound (run_cfg r)) <= 9000000000 ->
  let r' := sighups signals r in
  prepare_call (run_handler r') amb transport req = Ok call -> t <= now ->
  (exists deadline, hd_error (shutdown now aux r') = Some (ShutdownServer DeliveryService deadline) /\
                    t + dc_timeout call + 30 * second <= deadline) /\
  stops_after r' (shutdown now aux r').
Proof.
  intros Hm Hb. cbv zeta. apply main_serving in Hm as (_ & _ & _ & Hh & _).
  pose proof (sighups_fixed signals r) as Hfix. injection Hfix as Hcfg _ _ Hh' _ _ _ _.
  rewrite Hh', Hh. intros Hc Ht. split; [|apply shutdown_order].
  exists (now + drain_timeout (run_cfg r)). split; [cbn [shutdown app hd_error]; by rewrite Hcfg|].
  apply prepare_call_timeout in Hc as ->. unfold drain_timeout, new_handler. cbn [h_config].
  rewrite seconds_small by lia. rewrite wrap64_id by (unfold int64_min, int64_max, second; lia). lia.
Qed.

(** ** A start that fails serves nobody *)

Lemma handle_metrics refuses cfg : handle_all refuses (metrics_routes cfg) [] = None ->
  metrics_Path cfg = "/health" \/ metrics_Path cfg = "/reputation" \/
  (plain_pattern (metrics_Path cfg) = false /\ refuses (metrics_Path cfg) = true).
Proof.
  unfold metrics_routes. set (p := metrics_Path cfg). destruct (is_empty p); [by vm_compute|].
  cbn [app handle_all existsb]. change (plain_pattern "/health") with true. change (plain_pattern "/reputation") with true.
  cbn [negb andb orb app existsb]. rewrite orb_false_r. destruct (seqb p "/health") eqn:E1; [left; by apply seqb_true|].
  cbn [orb]. destruct (plain_pattern p); [|destruct (refuses p); [by right; right|]]; cbn [negb andb orb].
  all: destruct (seqb "/reputation" p) eqn:E2; [apply seqb_true in E2; by right; left|done].
Qed.

Lemma new_manager_none cfg s3 b : new_manager cfg s3 b = Ok None ->
  tls_Enabled cfg = false \/ seqb (tls_Provider cfg) "letsencrypt" = false.
Proof.
  unfold new_manager. destruct (tls_Enabled cfg); [|by left]. destruct (seqb (tls_Provider cfg) "letsencrypt"); [|by right].
  cbn [negb orb]. destruct (seqb _ "s3"); [destruct s3; done|]. by destruct (seqb _ "file").
Qed.
Lemma new_manager_error cfg s3 b e : new_manager cfg s3 b = Err e ->
  tls_Enabled cfg = true /\ tls_Provider cfg = "letsencrypt".
Proof.
  unfold new_manager. destruct (tls_Enabled cfg); [|done].
  destruct (seqb (tls_Provider cfg) "letsencrypt") eqn:E; [|done]. apply seqb_true in E. done.
Qed.

(** C12: how a start ends. A process that gives up has never accepted a
    message: at most its status listeners were up, and those only when what
    failed was the manager of the certificates. It panics only on a metrics
    path that is already taken or that the router refuses. A process that
    serves has exactly the listeners the configuration asks for, once each,
    on their addresses, and with TLS switched on and a known provider the
    delivery listener is never plain. *)
Theorem start_or_nothing `{Unicode} (w : World) :
  match main w with
  | Exited e started =>
      (forall l, In l started -> ln_service l = MetricsService \/ ln_service l = AdminService) /\
      (started <> [] -> exists cfg, wd_second_load w = Ok cfg /\ tls_Enabled (Config.TLS cfg) = true /\
                                    tls_Provider (Config.TLS cfg) = "letsencrypt")
  | Panicked started =>
      started = [] /\ exists cfg, wd_second_load w = Ok cfg /\ metrics_Enabled (Config.Metrics cfg) = true /\
      let path := metrics_Path (Config.Metrics cfg) in
      (path = "/health" \/ path = "/reputation" \/ (plain_pattern path = false /\ wd_mux_refuses w path = true))
  | Serving r =>
      let cfg := run_cfg r in
      wd_second_load w = Ok cfg /\
      map (fun l => (ln_service l, ln_addr l)) (run_listeners r) =
        (if metrics_Enabled (Config.Metrics cfg) then [(MetricsService, metrics_Bind (Config.Metrics cfg))] else []) ++
        (if admin_Enabled (Admin cfg) then [(AdminService, admin_Bind (Admin cfg))] else []) ++
        (if tls_Enabled (Config.TLS cfg) then [(ChallengeService, ":80")] else []) ++
        [(DeliveryService, inbound_Listen (Inbound cfg))] /\
      (tls_Enabled (Config.TLS cfg) = true -> tls_Provider (Config.TLS cfg) = "letsencrypt" \/ tls_Provider (Config.TLS cfg) = "file" ->
       forall l, In l (run_listeners r) -> ln_service l = DeliveryService -> ln_security l <> Plain)
  end.
Proof.
  unfold main. destruct (build w) as [[[[cfg [[[rc log] os] m]] [d s]] c]|e] eqn:Eb; [|by split].
  apply build_spec in Eb as (Hl & -> & _ & _).
  destruct (if metrics_Enabled (Config.Metrics cfg) then handle_all _ _ _ else _) as [routes|] eqn:Em.
  2: { split; [done|]. exists cfg. split; [done|]. destruct (metrics_Enabled (Config.Metrics cfg)); [|done].
       split; [done|]. by apply handle_metrics in Em. }
  destruct (if tls_Enabled (Config.TLS cfg) then new_manager _ _ _ else _) as [mg|e] eqn:Et.
  - cbn [run_cfg run_listeners]. split; [done|]. split.
    { rewrite !map_app. by destruct (metrics_Enabled _), (admin_Enabled _), (tls_Enabled _). }
    intros Htls Hp l Hin Hs. rewrite Htls in Et, Hin. rewrite !in_app_iff in Hin.
    destruct Hin as [[Hin|Hin]|[Hin|[<-|[]]]];
      [destruct (metrics_Enabled _)|destruct (admin_Enabled _)| |];
      try (destruct Hin as [<-|[]]; discriminate); try done.
    cbn [ln_security delivery_listener]. unfold delivery_security. rewrite Htls. cbn [andb].
    destruct mg as [mg|].
    + destruct Hp as [-> | ->]; [by rewrite seqb_refl, bool_decide_true by done|].
      change (seqb "file" "letsencrypt") with false. by rewrite seqb_refl.
    + apply new_manager_none in Et as [Et|Et]; [congruence|]. rewrite Et. cbn [andb].
      destruct Hp as [Hp|Hp]; [by rewrite Hp in Et|]. by rewrite Hp.
  - split.
    + intros l. rewrite in_app_iff. destruct (metrics_Enabled _), (admin_Enabled _); simpl; naive_solver.
    + intros _. exists cfg. split; [done|]. destruct (tls_Enabled (Config.TLS cfg)) eqn:E; [|done].
      apply new_manager_error in Et as [_ Hpr]. by split.
Qed.

(** ** A server at work *)

Definition with_tls (t : TLSConfig) (c : Config) : Config :=
  mkConfig (Logging c) (Inbound c) t (DNS c) (Config.Metrics c) (Admin c) (Outbound c) (Reputation c) (Config.Cluster c)
    (Config.DKIM c) (Config.ARC c) (SRS_ c).
Definition with_metrics_path (path : string) (c : Config) : Config :=
  mkConfig (Logging c) (Inbound c) (Config.TLS c) (DNS c) (mkMetricsConfig true ":8083" path false) (Admin c) (Outbound c)
    (Reputation c) (Config.Cluster c) (Config.DKIM c) (Config.ARC c) (SRS_ c).
Definition with_listen (addr : string) (c : Config) : Config :=
  mkConfig (Logging c) (mkInboundConfig addr "token" 1000 30 240 60 true 10 60 5) (Config.TLS c) (DNS c) (Config.Metrics c)
    (Admin c) (Outbound c) (Reputation c) (Config.Cluster c) (Config.DKIM c) (Config.ARC c) (SRS_ c).
Definition with_resolvers (l : list string) (c : Config) : Config :=
  mkConfig (Logging c) (Inbound c) (Config.TLS c) (mkDNSConfig l 5 60 30) (Config.Metrics c) (Admin c) (Outbound c)
    (Reputation c) (Config.Cluster c) (Config.DKIM c) (Config.ARC c) (SRS_ c).

Definition lone_member (mc : MemberlistConfig) : result error memberlist :=
  Ok (mkMemberlist (mc_Name mc) [mkMember (mc_Name mc) StateAlive]).
Definition example_world (cfg : Config) : World :=
  mkWorld (Ok cfg) (Ok cfg) None booted (Err (ErrText "no file")) (Err (ErrText "no file")) (Ok true)
    (mkMapFile None (Ok 0) "" None) "" (Ok "mx1") (mkMLConfig "mx1" "" 0 "" 0 "" false false) lone_member
    (fun _ ml => ml) (Ok tt) (fun _ => true).
Definition example_main (cfg : Config) : outcome := @main plain_unicode (example_world cfg).

Definition services (o : outcome) : option (list service) :=
  match o with Serving r => Some (map ln_service (run_listeners r)) | _ => None end.

(** A server that has its certificate in files opens port 80 all the same,
    and a metrics path that is taken keeps the server from starting. *)
Definition file_tls : TLSConfig := mkTLSConfig true "/etc/cert.pem" "/etc/key.pem" "file" zero_le.
Example starts :
  services (example_main (with_listen ":8080" default_config)) = Some [DeliveryService] /\
  services (example_main (with_tls file_tls default_config)) = Some [ChallengeService; DeliveryService] /\
  services (example_main (with_metrics_path "/status" default_config)) = Some [MetricsService; DeliveryService] /\
  example_main (with_metrics_path "/reputation" default_config) = Panicked [] /\
  example_main (with_metrics_path "metrics" default_config) = Panicked [].
Proof. repeat split; vm_compute; reflexivity. Qed.

(** A server with its API, and signals that find: a new list of resolvers, a
    file that does not load, another listen address. *)
Definition served_config : Config := with_listen ":8025" default_config.
Definition example_signals : list (option error * result error Config) :=
  [(None, Ok (with_resolvers ["192.0.2.53"] served_config)); (Some (ErrText "disk full"), Err (ErrText "no file"));
   (None, Ok (with_listen ":9" default_config))].
Definition serving (o : outcome) : bool := match o with Serving _ => true | _ => false end.
Definition the_running (o : outcome) (H : serving o = true) : Running :=
  match o as o return serving o = true -> Running with
  | Serving r => fun _ => r
  | _ => fun H => False_rect _ (Bool.diff_false_true H)
  end H.
Lemma the_running_spec o H : o = Serving (the_running o H).
Proof. by destruct o. Qed.

Lemma example_starts : serving (example_main served_config) = true.
Proof. vm_compute. reflexivity. Qed.
Definition example_running : Running := the_running _ example_starts.
Lemma example_serves : example_main served_config = Serving example_running.
Proof. apply the_running_spec. Qed.

Lemma signals_keep_serving_witness :
  let r' := sighups example_signals example_running in
  let cfg := in_force (run_cfg example_running) example_signals in
  dns_Resolvers (DNS cfg) = ["192.0.2.53"] /\
  (forall p, (writer_write (run_log r') p (run_os r')).1 = Ok (Z.of_nat (slen p))) /\
  fixed_part r' = fixed_part example_running /\
  rc_get (run_reloadable r') = cfg /\ inbound_Listen (Inbound cfg) = inbound_Listen (Inbound (run_cfg example_running)) /\
  engine_follows cfg (run_engine r') /\ engine_state (run_engine r') = engine_state (run_engine example_running).
Proof.
  split; [vm_compute; reflexivity|].
  apply (@signals_keep_serving plain_unicode (example_world served_config) example_running example_signals);
    [apply booted_fresh | apply example_serves].
Defined.

Definition a_request : Http.Request :=
  Handler.json_request "{'from':'a@example.org','to':'b@example.net','subject':'s','text':'t'}".
Definition authorized_request : Http.Request :=
  mkRequest "POST" "/deliver" (Handler.api_headers [("Authorization", "token")]) (rq_Body a_request) "192.0.2.9:1234" None.
Definition example_call : DeliverCall :=
  match @prepare_call toy_mail plain_unicode (run_handler (sighups example_signals example_running)) Handler.quiet_ambient "smtp" authorized_request with
  | Ok call => call
  | Err _ => mkDeliverCall "" 0 "" "" "" "" (mkSignRequest "" "" "" false "" "" "") None
  end.

Lemma drain_covers_deliveries_witness :
  let r' := sighups example_signals example_running in
  (exists deadline, hd_error (shutdown 1000 2000 r') = Some (ShutdownServer DeliveryService deadline) /\
                    900 + dc_timeout example_call + 30 * second <= deadline) /\
  stops_after r' (shutdown 1000 2000 r').
Proof.
  apply (@drain_covers_deliveries plain_unicode toy_mail (example_world served_config) example_running example_signals
           1000 2000 Handler.quiet_ambient "smtp" authorized_request example_call 900);
    [apply example_serves|vm_compute; split; discriminate|vm_compute; reflexivity|lia].
Defined.
