(* ===== verification/AdminStatus.v ===== *)
(** * strela-admin: addresses and health (cmd/strela-admin/main.go)

    Where the command line tool finds the server, what it accepts as an
    answer, and the health report it prints of one.  The HTTP client is a
    parameter. *)

From stdpp Require Import base gmap list strings.
From Stdlib Require Import ZArith Lia Ascii.
From S2P Require Import Prelude GoString Utf8 GoError Json Base64 Http ApiJson Config IPReputation Middleware Cluster Endpoints.
#[local] Open Scope Z_scope.

(** ** Addresses *)

(** A listen address as a URL. *)
Definition url_of_bind (listen : string) : string :=
  if has_prefix listen ":" then "http://localhost" +:+ listen else "http://" +:+ listen.

(** [serverURL] is the flag -server. *)
Definition resolve_admin_url (serverURL : string) (cfg : option Config) : string :=
  if negb (is_empty serverURL) then serverURL
  else match cfg with
       | Some cfg => if negb (is_empty (admin_Bind (Admin cfg))) then url_of_bind (admin_Bind (Admin cfg))
                     else "http://localhost:8080"
       | None => "http://localhost:8080"
       end.

(** The first lines of [cmdStats]. *)
Definition stats_url (serverURL : string) (cfg : option Config) : string :=
  let metricsPath := match cfg with
                     | Some cfg => if is_empty (metrics_Path (Metrics cfg)) then "/metrics" else metrics_Path (Metrics cfg)
                     | None => "/metrics"
                     end in
  let url := if negb (is_empty serverURL) then serverURL
             else match cfg with
                  | Some cfg => if negb (is_empty (metrics_Bind (Metrics cfg))) then url_of_bind (metrics_Bind (Metrics cfg))
                                else "http://localhost:8083"
                  | None => "http://localhost:8083"
                  end in
  url +:+ metricsPath.

(** ** Requests *)

(** [client.Do] of a GET: the URL and the credentials; the status and the body
    of the answer. *)
Definition http_client : Type := string -> option (string * string) -> result error (Z * Body).

Definition http_get_with_auth (client_Do : http_client) (url username password : string) : result error string :=
  let? resp := client_Do url (if is_empty username then None else Some (username, password)) in
  let '(statusCode, respBody) := resp in
  let? body := read_all respBody in
  if negb (statusCode =? 200) && negb (statusCode =? 503)
  then Err (ErrText ("HTTP " +:+ fmt_d statusCode +:+ ": " +:+ body))
  else Ok body.

(** ** [json.Unmarshal] into the response *)

(** The whole text is one value. *)
Definition json_value (s : string) : option json :=
  match parse_json s with
  | Some (v, rest) => if is_empty (skip_ws rest) then Some v else None
  | None => None
  end.

Definition decode_int (v : json) (old : Z) : option Z :=
  match v with JNum t => atoi64 t | JNull => Some old | _ => None end.
(** [strconv.ParseUint] at 64 bits. *)
Definition parse_uint64 (s : string) : option Z :=
  if is_empty s then None
  else match digits_val 0 s with Some n => if n <? 2 ^ 64 then Some n else None | None => None end.
Definition decode_uint64 (v : json) (old : Z) : option Z :=
  match v with JNum t => parse_uint64 t | JNull => Some old | _ => None end.

Definition set_system (k : string) (v : json) (s : SystemHealth) : option SystemHealth :=
  if names "go_version" k then
    option_map (fun x => mkSystemHealth x (Goroutines s) (MemoryMB s) (MemoryAllocMB s)) (decode_string v (GoVersion s))
  else if names "goroutines" k then
    option_map (fun x => mkSystemHealth (GoVersion s) x (MemoryMB s) (MemoryAllocMB s)) (decode_int v (Goroutines s))
  else if names "memory_mb" k then
    option_map (fun x => mkSystemHealth (GoVersion s) (Goroutines s) x (MemoryAllocMB s)) (decode_uint64 v (MemoryMB s))
  else if names "memory_alloc_mb" k then
    option_map (fun x => mkSystemHealth (GoVersion s) (Goroutines s) (MemoryMB s) x) (decode_uint64 v (MemoryAllocMB s))
  else Some s.

Definition set_cluster (k : string) (v : json) (c : ClusterHealth) : option ClusterHealth :=
  if names "enabled" k then
    option_map (fun x => mkClusterHealth x (NodeCount c) (Leader c)) (decode_bool v (ch_Enabled c))
  else if names "node_count" k then
    option_map (fun x => mkClusterHealth (ch_Enabled c) x (Leader c)) (decode_int v (NodeCount c))
  else if names "leader" k then
    option_map (fun x => mkClusterHealth (ch_Enabled c) (NodeCount c) x) (decode_string v (Leader c))
  else Some c.

(** A pointer field: null clears it, an object is decoded over what it
    points to. *)
Definition no_cluster : ClusterHealth := mkClusterHealth false 0 "".
Definition decode_cluster (v : json) (old : option ClusterHealth) : option (option ClusterHealth) :=
  match v with
  | JNull => Some None
  | _ => option_map Some (decode_struct set_cluster v (default no_cluster old))
  end.

Definition set_health (k : string) (v : json) (h : HealthResponse) : option HealthResponse :=
  if names "status" k then
    option_map (fun x => mkHealthResponse x (hr_Timestamp h) (Uptime h) (System h) (hr_Cluster h)) (decode_string v (hr_Status h))
  else if names "timestamp" k then
    option_map (fun x => mkHealthResponse (hr_Status h) x (Uptime h) (System h) (hr_Cluster h)) (decode_string v (hr_Timestamp h))
  else if names "uptime" k then
    option_map (fun x => mkHealthResponse (hr_Status h) (hr_Timestamp h) x (System h) (hr_Cluster h)) (decode_string v (Uptime h))
  else if names "system" k then
    option_map (fun x => mkHealthResponse (hr_Status h) (hr_Timestamp h) (Uptime h) x (hr_Cluster h)) (decode_struct set_system v (System h))
  else if names "cluster" k then
    option_map (fun x => mkHealthResponse (hr_Status h) (hr_Timestamp h) (Uptime h) (System h) x) (decode_cluster v (hr_Cluster h))
  else Some h.

Definition no_health : HealthResponse := mkHealthResponse "" "" "" (mkSystemHealth "" 0 0 0) None.
Definition unmarshal_health (body : string) : option HealthResponse :=
  match json_value body with
  | Some v => decode_struct set_health v no_health
  | None => None
  end.

(** ** The report *)

(** ["%-22s"]: the labels are ASCII. *)
Fixpoint spaces (n : nat) : string := match n with O => "" | S n => String " " (spaces n) end.
Definition padded_label (s : string) : string := s +:+ spaces (22 - slen s).
Definition report_line (label value : string) : string := "  " +:+ padded_label label +:+ " " +:+ value.

Section Report.
Context `{Unicode}.
Definition health_report (health : HealthResponse) : list string :=
  [(if negb (seqb (hr_Status health) "healthy") then "✗" else "✓") +:+ " Status: " +:+ to_upper (hr_Status health); "";
   "Server"; "──────"; report_line "Timestamp:" (hr_Timestamp health); report_line "Uptime:" (Uptime health); "";
   "System"; "──────"; report_line "Go version:" (GoVersion (System health));
   report_line "Goroutines:" (fmt_d (Goroutines (System health)));
   report_line "Memory (sys):" (fmt_d (MemoryMB (System health)) +:+ " MB");
   report_line "Memory (alloc):" (fmt_d (MemoryAllocMB (System health)) +:+ " MB"); ""] ++
  match hr_Cluster health with
  | Some c =>
      if ch_Enabled c then
        ["Cluster"; "───────"; report_line "Node count:" (fmt_d (NodeCount c)); report_line "Leader:" (Leader c); ""]
      else []
  | None => []
  end.

(** [cmdHealth]: the lines printed, or the message of [fatal]. *)
Definition cmd_health (client_Do : http_client) (serverURL : string) (cfg : option Config) : result error (list string) :=
  let url := resolve_admin_url serverURL cfg in
  let username := match cfg with Some cfg => admin_Username (Admin cfg) | None => "" end in
  let password := match cfg with Some cfg => admin_Password (Admin cfg) | None => "" end in
  match http_get_with_auth client_Do (url +:+ "/health") username password with
  | Err e => Err (ErrWrap ("Failed to get health status: " +:+ error_text e) e)
  | Ok body =>
      match unmarshal_health body with
      | None => Err (ErrText "Failed to parse health response")
      | Some health => Ok (health_report health)
      end
  end.
End Report.

(** ** The tool reads what the server writes *)

Lemma atoi_fmt_d n : 0 <= n -> atoi (fmt_d n) = Some n.
Proof.
  intros Hn. destruct (fmt_d_digits n Hn) as (Hne & Hd & Hv). destruct (fmt_d n) as [|c s]; [done|].
  unfold atoi. cbn [sall] in Hd. apply andb_true_iff in Hd as [Hc _].
  rewrite (bool_decide_false (c = "+"%char)) by (by intros ->). by rewrite (bool_decide_false (c = "-"%char)) by (by intros ->).
Qed.
Lemma read_int n old : 0 <= n <= int64_max -> decode_int (json_int n) old = Some n.
Proof.
  intros Hn. cbn [decode_int json_int]. unfold atoi64. rewrite atoi_fmt_d by lia.
  destruct (Z.leb_spec int64_min n); [|unfold int64_min in *; lia]. destruct (Z.leb_spec n int64_max); [done|lia].
Qed.
Lemma read_uint64 n old : 0 <= n < 2 ^ 64 -> decode_uint64 (json_int n) old = Some n.
Proof.
  intros Hn. cbn [decode_uint64 json_int]. unfold parse_uint64.
  destruct (fmt_d_digits n ltac:(lia)) as (Hne & _ & Hv). apply is_empty_false in Hne. rewrite Hne, Hv.
  destruct (Z.ltb_spec n (2 ^ 64)); [done|lia].
Qed.

Lemma read_system s old :
  0 <= Goroutines s <= int64_max -> 0 <= MemoryMB s < 2 ^ 64 -> 0 <= MemoryAllocMB s < 2 ^ 64 ->
  decode_struct set_system (system_json s) old = Some s.
Proof.
  intros Hg Hm Ha. destruct s as [v g m a], old as [v0 g0 m0 a0]. cbn [Goroutines MemoryMB MemoryAllocMB] in *.
  unfold system_json, decode_struct. cbn [decode_members GoVersion Goroutines MemoryMB MemoryAllocMB].
  unfold set_system. name_fields. cbn [decode_string option_map GoVersion Goroutines MemoryMB MemoryAllocMB].
  rewrite read_int by done. cbn [option_map GoVersion Goroutines MemoryMB MemoryAllocMB].
  rewrite read_uint64 by done. cbn [option_map GoVersion Goroutines MemoryMB MemoryAllocMB].
  by rewrite read_uint64 by done.
Qed.
Lemma read_cluster c : 0 <= NodeCount c <= int64_max -> decode_cluster (cluster_json c) None = Some (Some c).
Proof.
  intros Hn. destruct c as [e n l]. cbn [NodeCount] in *. unfold cluster_json, decode_cluster, decode_struct.
  cbn [ch_Enabled NodeCount Leader app decode_members default no_cluster].
  unfold set_cluster. name_fields. cbn [decode_bool option_map ch_Enabled NodeCount Leader].
  rewrite read_int by done. cbn [option_map ch_Enabled NodeCount Leader]. unfold opt_string.
  destruct (is_empty l) eqn:El; [apply is_empty_true in El as ->; done|].
  cbn [decode_members]. name_fields. done.
Qed.

(** What fits the fields of the response. *)
Definition health_fits (h : HealthResponse) : Prop :=
  0 <= Goroutines (System h) <= int64_max /\ 0 <= MemoryMB (System h) < 2 ^ 64 /\ 0 <= MemoryAllocMB (System h) < 2 ^ 64 /\
  (forall c, hr_Cluster h = Some c -> 0 <= NodeCount c <= int64_max) /\ is_clean (health_json h).

Lemma health_json_shape h : numbers_ok (health_json h) /\ json_depth (health_json h) <= max_depth.
Proof.
  unfold health_json, system_json, cluster_json, opt_string, json_int, max_depth. destruct (hr_Cluster h) as [c|].
  - destruct (is_empty (Leader c)); cbn [app numbers_ok json_depth foldr snd]; (split; [|lia]); repeat split; apply fmt_d_number.
  - cbn [app numbers_ok json_depth foldr snd]; (split; [|lia]); repeat split; apply fmt_d_number.
Qed.

Lemma unmarshal_written h : health_fits h -> unmarshal_health (json_line (health_json h)) = Some h.
Proof.
  intros (Hg & Hm & Ha & Hc & Hclean). destruct (health_json_shape h) as [Hok Hd].
  unfold unmarshal_health, json_value, json_line. rewrite parse_print by done. unfold is_clean in Hclean.
  rewrite Hclean. change (is_empty (skip_ws (str1 LF))) with true. cbn match.
  destruct h as [st ts up sys c]. cbn [System hr_Cluster] in *. unfold health_json, decode_struct, no_health.
  cbn [hr_Status hr_Timestamp Uptime System hr_Cluster app decode_members].
  unfold set_health. name_fields. cbn [decode_string option_map hr_Status hr_Timestamp Uptime System hr_Cluster].
  rewrite read_system by done. cbn [option_map hr_Status hr_Timestamp Uptime System hr_Cluster].
  destruct c as [c|]; [|done]. cbn [decode_members]. name_fields. rewrite read_cluster by (by apply Hc). done.
Qed.

(** The header that [SetBasicAuth] sets, and what [BasicAuth] reads in it: the
    user ends at the first colon. *)
Definition basic_auth_header (username password : string) : string :=
  "Basic " +:+ base64_encode (username +:+ ":" +:+ password).
Definition parse_basic_auth (auth : string) : option (string * string) :=
  if negb (seqb (smap lower_char (stake 6 auth)) "basic ") then None
  else match base64_decode (sdrop 6 auth) with
       | Err _ => None
       | Ok cs =>
           match index_byte ":" cs with
           | Some i => Some (stake i cs, sdrop (S i) cs)
           | None => None
           end
       end.

Lemma parse_written u p :
  parse_basic_auth (basic_auth_header u p) =
  Some match index_byte ":" u with
       | None => (u, p)
       | Some i => (stake i u, sdrop (S i) u +:+ ":" +:+ p)
       end.
Proof.
  unfold parse_basic_auth, basic_auth_header.
  change (stake 6 ("Basic " +:+ ?x)) with ("Basic " +:+ stake 0 x).
  change (sdrop 6 ("Basic " +:+ ?x)) with x.
  change (negb (seqb (smap lower_char ("Basic " +:+ ?x)) "basic ")) with (negb (seqb ("basic " +:+ smap lower_char x) "basic ")).
  rewrite base64_round_trip.
  assert (stake 0 (base64_encode (u +:+ ":" +:+ p)) = "") as -> by (by destruct (base64_encode _)).
  change (negb (seqb ("basic " +:+ smap lower_char "") "basic ")) with false. cbn match.
  destruct (index_byte ":" u) as [i|] eqn:Hi.
  - destruct (index_byte_split _ _ _ Hi) as [Hu Hn]. set (a := stake i u) in *. set (b := sdrop (S i) u) in *.
    rewrite Hu. rewrite sapp_assoc. cbn [String.append]. rewrite index_byte_app by done.
    by rewrite stake_app_len, <- Nat.add_1_r, sdrop_app_plus.
  - apply index_byte_None in Hi. change (":" +:+ p) with (String ":" p). rewrite index_byte_app by done.
    by rewrite stake_app_len, <- Nat.add_1_r, sdrop_app_plus.
Qed.

(** A server at the other end of a connection. *)
Definition over_http {S} (h : handler S) (st : S) (path : string) (auth : option (string * string)) : result error (Z * Body) :=
  let sent := match auth with Some (u, p) => Some (basic_auth_header u p) | None => None end in
  let received := match sent with Some value => parse_basic_auth value | None => None end in
  let resp := respond (sv_ops (h (mkRequest "GET" path ∅ (mkBody "" None) "" received) st)) in
  Ok (status_of resp, mkBody (rs_body resp) None).

(** C31: the tool and the server agree: with the configuration the server runs
    on, the health command gets past the authentication of the admin listener
    and prints the state of the server, down to the last field, whatever
    credentials are set, unless the user's name has a colon in it and there is a
    password: then the server reads another name out of the header and the
    command fails with its 401. *)
Theorem admin_reads_health `{Unicode} cfg startTime rd st client_Do serverURL :
  let h := build_health_response startTime (st_cluster st) (rd_zone rd) (rd_runtime rd) (rd_now1 rd) (rd_now2 rd) in
  health_fits h ->
  (forall auth, client_Do (resolve_admin_url serverURL (Some cfg) +:+ "/health") auth =
                over_http (admin_server (Admin cfg) startTime rd) st "/health" auth) ->
  cmd_health client_Do serverURL (Some cfg) =
  if no_byte ":" (admin_Username (Admin cfg)) || is_empty (admin_Password (Admin cfg))
  then Ok (health_report h)
  else Err (ErrWrap "Failed to get health status: HTTP 401: " (ErrText "HTTP 401: ")).
Proof.
  intros h Hfit Hdo. unfold cmd_health, http_get_with_auth. rewrite Hdo. unfold over_http.
  set (user := admin_Username (Admin cfg)). set (pass := admin_Password (Admin cfg)).
  set (received := match match (if is_empty user then None else _) with Some _ => _ | None => None end with Some _ => _ | None => None end).
  destruct (no_byte ":" user || is_empty pass) eqn:Eok.
  - assert (Hout : exists n, admin_server (Admin cfg) startTime rd (mkRequest "GET" "/health" ∅ (mkBody "" None) "" received) st =
              returns [SetHeader "Content-Type" "application/json"; WriteHeader 200; Write (json_line (health_json h))] n).
    { exists st. unfold admin_server, wrap_admin_handler, panic_recovery, basic_auth. subst received. fold user pass.
      destruct (is_empty user) eqn:Eu; [reflexivity|]. destruct (is_empty pass) eqn:Ep; [reflexivity|].
      rewrite orb_false_r in Eok. apply index_byte_None in Eok.
      cbn [negb andb rq_BasicAuth]. rewrite parse_written, Eok, !seqb_refl. reflexivity. }
    destruct Hout as [n Hout]. rewrite Hout.
    cbn [returns sv_ops]. rewrite respond_status. cbn [first_status read_all body_data body_err].
    change (rs_body (respond _)) with (json_line (health_json h)).
    unfold read_all. cbn [body_err body_data]. change (negb (200 =? 200) && negb (200 =? 503)) with false. cbn match.
    by rewrite unmarshal_written.
  - apply orb_false_iff in Eok as [Eu Ep]. assert (Eue : is_empty user = false) by (by destruct user).
    assert (Hout : admin_server (Admin cfg) startTime rd (mkRequest "GET" "/health" ∅ (mkBody "" None) "" received) st =
              returns [SetHeader "WWW-Authenticate" ("Basic realm=" +:+ quoted "Admin"); WriteHeader 401] st).
    { unfold admin_server, wrap_admin_handler, panic_recovery, basic_auth. subst received. fold user pass.
      rewrite Eue, Ep. cbn [negb andb rq_BasicAuth]. rewrite parse_written.
      destruct (index_byte ":" user) as [i|] eqn:Hi; [|by apply index_byte_None in Hi; rewrite Hi in Eu].
      assert (seqb (stake i user) user = false) as ->; [|reflexivity].
      apply seqb_false. intros E. destruct (index_byte_split _ _ _ Hi) as [Hu _].
      apply (f_equal slen) in Hu. rewrite E, slen_app in Hu. cbn [slen] in Hu. lia. }
    rewrite Hout. reflexivity.
Qed.

(** ** Example: a node of a cluster *)

Definition admin_config : Config :=
  let c := default_config in
  mkConfig (Logging c) (Inbound c) (TLS c) (DNS c) (Metrics c) example_admin (Outbound c) (Reputation c) (Config.Cluster c)
    (DKIM c) (ARC c) (SRS_ c).
Definition clustered : Status := mkStatus example_tracker (Some (update_leader (a_node "mx1" trio))).
Definition example_client : http_client := fun url auth =>
  if seqb url "http://localhost:8081/health"
  then over_http (admin_server example_admin 0 example_reading) clustered "/health" auth
  else Err (ErrText "connection refused").

Example health_printed :
  @cmd_health plain_unicode example_client "" (Some admin_config) =
  Ok ["✓ Status: HEALTHY"; ""; "Server"; "──────"; "  Timestamp:             1970-01-01T00:00:00Z";
      "  Uptime:                0s"; ""; "System"; "──────"; "  Go version:            go1.25";
      "  Goroutines:            12"; "  Memory (sys):          70 MB"; "  Memory (alloc):        5 MB"; "";
      "Cluster"; "───────"; "  Node count:            3"; "  Leader:                mx1"; ""] /\
  @cmd_health plain_unicode example_client "" None =
  Err (ErrWrap "Failed to get health status: connection refused" (ErrText "connection refused")) /\
  (** An unknown server may answer 503 with a body of its own. *)
  @cmd_health plain_unicode (fun _ _ => Ok (503, mkBody "{}" None)) "http://h" None =
  Ok (@health_report plain_unicode no_health).
Proof. split; [|split]; vm_compute; reflexivity. Qed.

Lemma admin_reads_health_witness :
  @cmd_health plain_unicode example_client "" (Some admin_config) =
  if no_byte ":" (admin_Username example_admin) || is_empty (admin_Password example_admin)
  then Ok (@health_report plain_unicode
             (build_health_response 0 (st_cluster clustered) utc (rd_runtime example_reading) 0 0))
  else Err (ErrWrap "Failed to get health status: HTTP 401: " (ErrText "HTTP 401: ")).
Proof.
  apply (@admin_reads_health plain_unicode admin_config 0 example_reading clustered example_client "").
  - split; [|split; [|split; [|split]]]; [vm_compute; split; done..| |vm_compute; reflexivity].
    intros c [= <-]. vm_compute. split; discriminate.
  - intros auth. reflexivity.
Defined.

(** The credentials in the header. *)
Example credentials_read :
  map (fun up => parse_basic_auth (basic_auth_header up.1 up.2)) [("admin", "se:cret"); ("ops:admin", "secret")] =
  [Some ("admin", "se:cret"); Some ("ops", "admin:secret")].
Proof. vm_compute. reflexivity. Qed.
