(* ===== verification/AdminStats.v ===== *)
(** * strela-admin: statistics (cmd/strela-admin/main.go)

    The tables that the stats command prints of the metrics it has read.  The
    decoder of the exposition format is a parameter: what it yields are metric
    families.  The output is lines of text and rows of cells: how [fmt] rounds
    a number and [tabwriter] lays a row out is not modelled. *)

From stdpp Require Import base gmap list strings.
From Stdlib Require Import ZArith Lia SpecFloat Permutation.
From S2P Require Import Prelude GoString GoError GoFloat Config AdminStatus.
#[local] Open Scope Z_scope.

(** ** Metrics ([dto.Metric] with the zero value for what is absent) *)

Record Metric : Type := mkMetric {
  label_pairs : list (string * string);
  counter_value : float64;
  gauge_value : float64;
  sample_count : Z;
  sample_sum : float64
}.
Definition families : Type := gmap string (list Metric).

(** The loop of [cmdStats]: the last family of a name counts; an error other
    than the end of the text is fatal. *)
Definition collect (decoded : list (string * list Metric)) (err : option error) : result error families :=
  match err with
  | Some e => Err (ErrWrap ("Failed to parse metrics: " +:+ error_text e) e)
  | None => Ok (foldl (fun m f => <[f.1 := f.2]> m) ∅ decoded)
  end.

(** [getLabelValue] *)
Definition get_label_value (m : Metric) (name : string) : string :=
  match List.find (fun l => seqb l.1 name) (label_pairs m) with Some (_, v) => v | None => "" end.

(** ** Cells *)

Definition flt (x y : float64) : bool := SFltb x y.
(** [math.Round]: to the nearest integer, halves away from zero. *)
Definition fround (x : float64) : float64 :=
  match x with
  | S754_finite s m e =>
      if 0 <=? e then x
      else
        let d := 2 ^ (- e) in
        let q := (2 * Z.pos m + d) / (2 * d) in
        if q =? 0 then S754_zero s else binary_normalize prec emax (if s then - q else q) 0 s
  | _ => x
  end.

(** The verbs %.0fµs, %.1fms and %.2fs. *)
Inductive duration_cell : Type := Micros (x : float64) | Millis (x : float64) | Secs (x : float64).
Definition format_duration (seconds : float64) : duration_cell :=
  if flt seconds (fdiv fone (float_of_int 1000)) then Micros (fmul seconds (float_of_int 1000000))
  else if flt seconds fone then Millis (fmul seconds (float_of_int 1000))
  else Secs (fdiv (fround (fmul seconds (float_of_int 100))) (float_of_int 100)).

(** %s, %.0f, %5.1f%%, %d *)
Inductive cell : Type :=
| Txt (s : string)
| Whole (x : float64)
| Percent (x : float64)
| Num (n : Z)
| Dur (d : duration_cell).
Definition row : Type := list cell.
Inductive line : Type := Text (s : string) | Row (cells : row).
Definition table (headings : list string) (columns : row) (rows : list row) : list line :=
  map Text headings ++ Row columns :: map Row rows ++ [Text ""].

(** [sort.Slice]: some order of the elements, sorted where [less] orders
    them. *)
Class SortSlice : Type := { sort_slice : forall A, (A -> A -> bool) -> list A -> list A }.
Arguments sort_slice {_ A} less l.
Class SortLaw `{SortSlice} : Prop := {
  sort_slice_perm A (less : A -> A -> bool) l : Permutation (sort_slice less l) l
}.

Section Stats.
Context `{SortSlice}.

(** ** Deliveries ([printDeliveryStats]) *)

Definition active_lines (fam : list Metric) : list line :=
  map (fun m => Row [Txt "  Active deliveries:      "; Whole (gauge_value m)]) fam ++ [Text ""].

Definition total_of (counts : list float64) : float64 := foldl fadd fzero counts.

Definition outcome_rows (fam : list Metric) : list row :=
  let entries := map (fun m => (get_label_value m "outcome", counter_value m)) fam in
  let total := total_of (map snd entries) in
  match entries with
  | [] => []
  | _ =>
      map (fun e : string * float64 =>
             let pct := if fgt total fzero then fmul (fdiv e.2 total) (float_of_int 100) else fzero in
             [Txt e.1; Whole e.2; Percent pct])
        (sort_slice (fun a b : string * float64 => fgt a.2 b.2) entries) ++ [[Txt "TOTAL"; Whole total]]
  end.

(** The histograms that have samples, with their averages. *)
Definition averages (columns : list string) (fam : list Metric) : list row :=
  flat_map (fun m =>
    if 0 <? sample_count m
    then [map (fun c => Txt (get_label_value m c)) columns ++
          [Num (sample_count m); Dur (format_duration (fdiv (sample_sum m) (float_of_int (sample_count m))))]]
    else []) fam.

Definition on_family (name : string) (f : list Metric -> list line) (fams : families) : list line :=
  match fams !! name with Some fam => f fam | None => [] end.
(** A table that has rows. *)
Definition table_of (headings : list string) (columns : row) (rows : list row) : list line :=
  match rows with [] => [] | _ => table headings columns rows end.

Definition print_delivery_stats (fams : families) : list line :=
  [Text "Delivery Statistics"; Text "==================="; Text ""] ++
  on_family "strela_active_deliveries" active_lines fams ++
  on_family "strela_delivery_attempts_total"
    (fun fam => table_of ["  Delivery Attempts by Outcome"; "  ────────────────────────────"]
                  [Txt "OUTCOME"; Txt "COUNT"; Txt "PERCENT"] (outcome_rows fam)) fams ++
  on_family "strela_delivery_duration_seconds"
    (fun fam => table_of ["  Delivery Duration (average)"; "  ───────────────────────────"]
                  [Txt "OUTCOME"; Txt "COUNT"; Txt "AVG DURATION"] (averages ["outcome"] fam)) fams.

(** ** Domains ([printDomainStats]) *)

Record domainStats : Type := mkDomainStats {
  ds_total : float64; ds_delivered : float64; ds_tempFail : float64; ds_hardBounce : float64; ds_other : float64
}.
Definition no_stats : domainStats := mkDomainStats fzero fzero fzero fzero fzero.

Definition add_outcome (outcome : string) (count : float64) (ds : domainStats) : domainStats :=
  let total := fadd (ds_total ds) count in
  if seqb outcome "delivered" then
    mkDomainStats total (fadd (ds_delivered ds) count) (ds_tempFail ds) (ds_hardBounce ds) (ds_other ds)
  else if seqb outcome "temp_fail" then
    mkDomainStats total (ds_delivered ds) (fadd (ds_tempFail ds) count) (ds_hardBounce ds) (ds_other ds)
  else if seqb outcome "hard_bounce" then
    mkDomainStats total (ds_delivered ds) (ds_tempFail ds) (fadd (ds_hardBounce ds) count) (ds_other ds)
  else mkDomainStats total (ds_delivered ds) (ds_tempFail ds) (ds_hardBounce ds) (fadd (ds_other ds) count).

Definition add_metric (domainMap : gmap string domainStats) (m : Metric) : gmap string domainStats :=
  let domain := get_label_value m "recipient_domain" in
  if is_empty domain then domainMap
  else <[domain := add_outcome (get_label_value m "outcome") (counter_value m) (default no_stats (domainMap !! domain))]> domainMap.
Definition domain_map (fam : list Metric) : gmap string domainStats := foldl add_metric ∅ fam.

Definition domain_limit : nat := 20.
Definition domain_row (e : string * domainStats) : row :=
  [Txt e.1; Whole (ds_total e.2); Whole (ds_delivered e.2); Whole (ds_tempFail e.2); Whole (ds_hardBounce e.2); Whole (ds_other e.2)].

(** [order] is the order in which the map is iterated. *)
Definition domain_rows (order : gmap string domainStats -> list (string * domainStats)) (fam : list Metric) : list row :=
  let entries := sort_slice (fun a b : string * domainStats => fgt (ds_total a.2) (ds_total b.2)) (order (domain_map fam)) in
  map domain_row (take domain_limit entries) ++
  (if (domain_limit <? length entries)%nat
   then [[Txt "... and "; Num (Z.of_nat (length entries - domain_limit)); Txt " more domains"]] else []).

Definition print_domain_stats order (fams : families) : list line :=
  on_family "strela_delivery_attempts_total"
    (fun fam => table_of ["Recipient Domains"; "================="; ""]
                  [Txt "DOMAIN"; Txt "TOTAL"; Txt "DELIVERED"; Txt "TEMP FAIL"; Txt "BOUNCED"; Txt "OTHER"]
                  (match domain_rows order fam with
                   | [] => []
                   | rows => map Txt ["──────"; "─────"; "─────────"; "─────────"; "───────"; "─────"] :: rows
                   end)) fams.

(** ** Requests ([printHTTPStats]) *)

Definition request_rows (fam : list Metric) : list row :=
  let entries := map (fun m => (get_label_value m "method", get_label_value m "path", get_label_value m "status", counter_value m)) fam in
  match entries with
  | [] => []
  | _ =>
      map (fun e => let '(method, path, status, count) := e in [Txt method; Txt path; Txt status; Whole count])
        (sort_slice (fun a b : string * string * string * float64 => fgt a.2 b.2) entries) ++
      [[Txt ""; Txt ""; Txt "TOTAL"; Whole (total_of (map snd entries))]]
  end.
Definition rejected_lines (fam : list Metric) : list line :=
  flat_map (fun m => if fgt (counter_value m) fzero
                     then [Row [Txt "  Rejected (capacity):    "; Whole (counter_value m)]; Text ""] else []) fam.

Definition print_http_stats (fams : families) : list line :=
  [Text "HTTP Request Statistics"; Text "======================="; Text ""] ++
  on_family "strela_http_requests_total"
    (fun fam => match request_rows fam with
                | [] => []
                | rows => table [] (map Txt ["METHOD"; "PATH"; "STATUS"; "COUNT"])
                            (map Txt ["──────"; "────"; "──────"; "─────"] :: rows)
                end) fams ++
  on_family "strela_http_requests_rejected_capacity_total" rejected_lines fams ++
  on_family "strela_http_request_duration_seconds"
    (fun fam => table_of ["  Request Duration (average)"; "  ──────────────────────────"]
                  [Txt "METHOD"; Txt "PATH"; Txt "COUNT"; Txt "AVG DURATION"] (averages ["method"; "path"] fam)) fams.

(** ** Source addresses ([printIPReputationStats]) *)

Definition status_rows (fam : list Metric) : list row :=
  let statuses := map (fun m => (get_label_value m "source_ip", fgt (gauge_value m) fzero)) fam in
  let less (a b : string * bool) := if Bool.eqb a.2 b.2 then str_lt a.1 b.1 else a.2 in
  map (fun s : string * bool => [Txt s.1; Txt (if s.2 then "✗ degraded" else "✓ healthy")]) (sort_slice less statuses).
Definition event_rows (fam : list Metric) : list row :=
  let entries := map (fun m => (get_label_value m "source_ip", get_label_value m "event_type", counter_value m)) fam in
  let less (a b : string * string * float64) :=
    if seqb a.1.1 b.1.1 then str_lt a.1.2 b.1.2 else str_lt a.1.1 b.1.1 in
  map (fun e => let '(ip, eventType, count) := e in [Txt ip; Txt eventType; Whole count]) (sort_slice less entries).
Definition print_ip_reputation_stats (fams : families) : list line :=
  match fams !! "strela_ip_reputation_degraded", fams !! "strela_ip_reputation_events_total" with
  | None, None => []
  | degradedFam, eventsFam =>
      [Text "IP Reputation"; Text "============="; Text ""] ++
      match status_rows (default [] degradedFam) with
      | [] => []
      | rows => table [] [Txt "SOURCE IP"; Txt "STATUS"] (map Txt ["─────────"; "──────"] :: rows)
      end ++
      table_of ["  Reputation Events"; "  ─────────────────"] [Txt "SOURCE IP"; Txt "EVENT"; Txt "COUNT"]
        (event_rows (default [] eventsFam))
  end.

(** [cmdStats]: [decode] is the decoder of the exposition format, run to the
    end of the text or to its first error. *)
Definition cmd_stats (client_Do : http_client) (decode : string -> list (string * list Metric) * option error)
    order (serverURL : string) (cfg : option Config) : result error (list line) :=
  match http_get_with_auth client_Do (stats_url serverURL cfg) "" "" with
  | Err e => Err (ErrWrap ("Failed to get metrics: " +:+ error_text e) e)
  | Ok body =>
      let '(decoded, err) := decode body in
      let? fams := collect decoded err in
      Ok (print_delivery_stats fams ++ print_domain_stats order fams ++ print_http_stats fams ++
          print_ip_reputation_stats fams)
  end.
End Stats.

(** ** The domain table against its specification *)

(** What the table is to show of a domain: the sums, in the order of the
    metrics, over those that carry its name. *)
Definition of_domain (d : string) (m : Metric) : bool := seqb (get_label_value m "recipient_domain") d.
Definition with_outcome (p : string -> bool) (m : Metric) : bool := p (get_label_value m "outcome").
Definition sum_of (ms : list Metric) : float64 := total_of (map counter_value ms).
Definition other_outcome (o : string) : bool := negb (existsb (seqb o) ["delivered"; "temp_fail"; "hard_bounce"]).
Definition stats_of (ms : list Metric) : domainStats :=
  let only p := sum_of (List.filter (with_outcome p) ms) in
  mkDomainStats (sum_of ms) (only (fun o => seqb o "delivered")) (only (fun o => seqb o "temp_fail"))
    (only (fun o => seqb o "hard_bounce")) (only other_outcome).

Lemma total_snoc l x : total_of (l ++ [x]) = fadd (total_of l) x.
Proof. unfold total_of. by rewrite foldl_app. Qed.
Lemma sum_all_snoc ms m : sum_of (ms ++ [m]) = fadd (sum_of ms) (counter_value m).
Proof. unfold sum_of. rewrite map_app. apply total_snoc. Qed.
Lemma sum_snoc ms m p : sum_of (List.filter (with_outcome p) (ms ++ [m])) =
  if p (get_label_value m "outcome") then fadd (sum_of (List.filter (with_outcome p) ms)) (counter_value m)
  else sum_of (List.filter (with_outcome p) ms).
Proof.
  rewrite List.filter_app. cbn [List.filter]. unfold with_outcome at 2. destruct (p _); [|by rewrite app_nil_r].
  apply sum_all_snoc.
Qed.
Lemma stats_snoc ms m :
  stats_of (ms ++ [m]) = add_outcome (get_label_value m "outcome") (counter_value m) (stats_of ms).
Proof.
  unfold stats_of. cbv zeta. rewrite !sum_snoc, sum_all_snoc. unfold add_outcome, other_outcome.
  set (o := get_label_value m "outcome"). cbn [existsb ds_total ds_delivered ds_tempFail ds_hardBounce ds_other].
  destruct (seqb o "delivered") eqn:E1; [apply seqb_true in E1; by rewrite E1|].
  destruct (seqb o "temp_fail") eqn:E2; [apply seqb_true in E2; by rewrite E2|].
  by destruct (seqb o "hard_bounce").
Qed.

Lemma domain_map_lookup fam d :
  domain_map fam !! d =
  let ms := List.filter (of_domain d) fam in
  if is_empty d then None else match ms with [] => None | _ => Some (stats_of ms) end.
Proof.
  unfold domain_map. induction fam as [|m fam IH] using rev_ind; [by destruct (is_empty d)|].
  rewrite foldl_app, List.filter_app. cbn [foldl List.filter]. cbv zeta in *. unfold add_metric at 1.
  set (dm := get_label_value m "recipient_domain"). change (of_domain d m) with (seqb dm d). destruct (seqb dm d) eqn:Ed.
  - apply seqb_true in Ed as ->. destruct (is_empty d); [done|]. rewrite lookup_insert_eq.
    pose proof (fun ms => stats_snoc ms m) as Hms.
    rewrite IH. destruct (List.filter (of_domain d) fam) as [|m' ms];
      [exact (f_equal Some (eq_sym (Hms []))) | exact (f_equal Some (eq_sym (Hms (m' :: ms))))].
  - apply seqb_false in Ed. rewrite app_nil_r, <- IH. destruct (is_empty dm); [done|]. by rewrite lookup_insert_ne.
Qed.

(** The domain table shows each recipient domain of the metrics once,
    with the sums over exactly the metrics that name it: the first twenty in
    the order of the sort, and the number of those left out, if there are
    any. *)
Theorem domain_table `{SortLaw} order fam :
  (forall m, Permutation (order m) (map_to_list m)) ->
  exists shown hidden,
    domain_rows order fam =
      map domain_row shown ++
      (match hidden with [] => [] | _ => [[Txt "... and "; Num (Z.of_nat (length hidden)); Txt " more domains"]] end) /\
    (length shown <= 20)%nat /\ (hidden <> [] -> length shown = 20%nat) /\
    NoDup (map fst (shown ++ hidden)) /\
    forall d s, In (d, s) (shown ++ hidden) <->
      d <> "" /\ List.filter (of_domain d) fam <> [] /\ s = stats_of (List.filter (of_domain d) fam).
Proof.
  intros Hord. unfold domain_rows. set (entries := sort_slice _ _).
  assert (Hp : Permutation entries (map_to_list (domain_map fam))) by (unfold entries; rewrite sort_slice_perm; apply Hord).
  clearbody entries. exists (take domain_limit entries), (drop domain_limit entries).
  assert (Hl : length (drop domain_limit entries) = (length entries - domain_limit)%nat) by apply length_drop.
  split; [|split; [|split; [|split]]].
  - f_equal. destruct (Nat.ltb_spec domain_limit (length entries)) as [Hlt|Hge].
    + rewrite <- Hl. destruct (drop domain_limit entries); [simpl in Hl; lia|done].
    + destruct (drop domain_limit entries); [done|simpl in Hl; lia].
  - rewrite length_take. unfold domain_limit. lia.
  - intros Hne. rewrite length_take. unfold domain_limit in *. destruct (drop 20 entries); [done|]. simpl in Hl. lia.
  - rewrite take_drop. change (map fst entries) with (entries.*1). rewrite Hp. apply NoDup_fst_map_to_list.
  - intros d s. rewrite take_drop, Hp, <- list_elem_of_In, elem_of_map_to_list, domain_map_lookup. cbv zeta.
    destruct (is_empty d) eqn:Ed; [apply is_empty_true in Ed as ->; naive_solver|]. apply is_empty_false in Ed.
    destruct (List.filter (of_domain d) fam) as [|m ms]; naive_solver.
Qed.

(** ** Examples *)

#[local] Instance stable_sort : SortSlice := {
  sort_slice := fun A less l =>
    (fix go (l : list A) := match l with
       | [] => []
       | x :: l => (fix ins (y : A) (s : list A) := match s with
                      | [] => [y] | z :: s => if less z y then z :: ins y s else y :: z :: s end) x (go l)
       end) l
}.
Lemma stable_law : @SortLaw stable_sort.
Proof.
  split. intros A less l. cbn [sort_slice stable_sort]. induction l as [|x l IH]; [done|]. rewrite <- IH at 2. clear IH.
  generalize ((fix go (l : list A) := match l with
       | [] => []
       | x :: l => (fix ins (y : A) (s : list A) := match s with
                      | [] => [y] | z :: s => if less z y then z :: ins y s else y :: z :: s end) x (go l)
       end) l). intros s. induction s as [|z s IHs]; [done|]. destruct (less z x); [|done].
  rewrite IHs. apply perm_swap.
Qed.

Definition counted (labels : list (string * string)) (n : Z) : Metric :=
  mkMetric labels (float_of_int n) fzero 0 fzero.
Definition example_family : list Metric :=
  [counted [("outcome", "delivered"); ("recipient_domain", "a.example")] 3;
   counted [("outcome", "delivered"); ("recipient_domain", "b.example")] 6;
   counted [("outcome", "temp_fail"); ("recipient_domain", "a.example")] 1].

(** The outcome table repeats an outcome for every domain it has. *)
Example repeated_outcomes :
  outcome_rows example_family =
  [[Txt "delivered"; Whole (float_of_int 6); Percent (float_of_int 60)];
   [Txt "delivered"; Whole (float_of_int 3); Percent (float_of_int 30)];
   [Txt "temp_fail"; Whole (float_of_int 1); Percent (float_of_int 10)]; [Txt "TOTAL"; Whole (float_of_int 10)]] /\
  domain_rows map_to_list example_family =
  [[Txt "b.example"; Whole (float_of_int 6); Whole (float_of_int 6); Whole fzero; Whole fzero; Whole fzero];
   [Txt "a.example"; Whole (float_of_int 4); Whole (float_of_int 3); Whole (float_of_int 1); Whole fzero; Whole fzero]].
Proof. split; vm_compute; reflexivity. Qed.

Example durations_shown :
  map format_duration [fdiv fone (float_of_int 2000); fdiv fone (float_of_int 8); fdiv (float_of_int 10049) (float_of_int 8192)] =
  [Micros (float_of_int 500); Millis (float_of_int 125); Secs (fdiv (float_of_int 123) (float_of_int 100))].
Proof. vm_compute. reflexivity. Qed.

Lemma domain_table_witness : exists shown hidden,
    domain_rows map_to_list example_family =
      map domain_row shown ++
      (match hidden with [] => [] | _ => [[Txt "... and "; Num (Z.of_nat (length hidden)); Txt " more domains"]] end) /\
    (length shown <= 20)%nat /\ (hidden <> [] -> length shown = 20%nat) /\
    NoDup (map fst (shown ++ hidden)) /\
    forall d s, In (d, s) (shown ++ hidden) <->
      d <> "" /\ List.filter (of_domain d) example_family <> [] /\ s = stats_of (List.filter (of_domain d) example_family).
Proof. apply (@domain_table stable_sort stable_law map_to_list example_family). done. Defined.

(** A whole page: the later family of a name counts. *)
Definition toy_decode (body : string) : list (string * list Metric) * option error :=
  ([("strela_ip_reputation_degraded", []);
    ("strela_http_requests_rejected_capacity_total", [counted [] 2]);
    ("strela_ip_reputation_degraded",
       [mkMetric [("source_ip", "192.0.2.9")] fzero fone 0 fzero; mkMetric [("source_ip", "192.0.2.10")] fzero fzero 0 fzero])],
   if seqb body "broken" then Some (ErrText "text format parsing error") else None).
Example page :
  cmd_stats (fun url _ => if seqb url "http://localhost:8083/metrics" then Ok (200, Http.mkBody "" None) else Err (ErrText "refused"))
    toy_decode map_to_list "" None =
  Ok [Text "Delivery Statistics"; Text "==================="; Text "";
      Text "HTTP Request Statistics"; Text "======================="; Text "";
      Row [Txt "  Rejected (capacity):    "; Whole (float_of_int 2)]; Text "";
      Text "IP Reputation"; Text "============="; Text "";
      Row [Txt "SOURCE IP"; Txt "STATUS"]; Row [Txt "─────────"; Txt "──────"];
      Row [Txt "192.0.2.9"; Txt "✗ degraded"]; Row [Txt "192.0.2.10"; Txt "✓ healthy"]; Text ""].
Proof. vm_compute. reflexivity. Qed.
