(* ===== verification/AdminCerts.v ===== *)
(** * strela-admin: certificates (cmd/strela-admin/main.go)

    The subcommands of [tls]: list, delete, clean and sync, over any
    certificate cache that keeps the laws of CertCache.v.  The PEM and X.509
    decoders of the Go library are parameters, and so is the directory of the
    local copies.  Output is kept as data, not as text. *)

From stdpp Require Import base gmap list strings.
From Stdlib Require Import ZArith Lia.
From S2P Require Import Prelude GoString GoError GoFloat Http DKIM Config KeyStore CertCache TLSManager.
#[local] Open Scope Z_scope.

(** ** What is read of a certificate *)

(** [x509.PublicKeyAlgorithm] *)
Inductive key_algorithm : Type := UnknownAlgorithm | RSA | DSA | ECDSA | Ed25519.
Record X509Certificate : Type := mkX509 {
  x_NotBefore : Z; x_NotAfter : Z; x_Subject : string; x_Issuer : string; x_PublicKeyAlgorithm : key_algorithm
}.
Record pem_block : Type := mkBlock { pb_Type : string; pb_Bytes : string }.

(** [pem.Decode], [pem.EncodeToMemory] and [x509.ParseCertificate]; what is
    left after a block is shorter than the text. *)
Class Certificates : Type := {
  pem_decode : string -> option (pem_block * string);
  pem_encode : pem_block -> string;
  parse_x509 : string -> result error X509Certificate
}.
Class CertificatesLaws `{Certificates} : Prop := {
  pem_rest s b rest : pem_decode s = Some (b, rest) -> (slen rest < slen s)%nat
}.

Record CertificateInfo : Type := mkCertificateInfo {
  CacheKey : string; Domain : string; CertType : string; Size : Z;
  Expiry : Z; NotBefore : Z; Subject : string; Issuer : string
}.

Section Parse.
Context `{Certificates}.

(** The loop over the blocks; a block takes at least one byte. *)
Fixpoint first_certificate (fuel : nat) (remaining : string) : option string :=
  match fuel with
  | O => None
  | S fuel =>
      match pem_decode remaining with
      | None => None
      | Some (block, rest) =>
          if seqb (pb_Type block) "CERTIFICATE" then Some (pem_encode block) else first_certificate fuel rest
      end
  end.

Definition algorithm_string (a : key_algorithm) : string :=
  match a with UnknownAlgorithm => "0" | RSA => "RSA" | DSA => "DSA" | ECDSA => "ECDSA" | Ed25519 => "Ed25519" end.
Definition cert_type (a : key_algorithm) : string :=
  match a with ECDSA => "ECDSA" | RSA => "RSA" | _ => algorithm_string a end.

(** [parseCertificateData] *)
Definition parse_certificate_data (data : string) (info : CertificateInfo) : CertificateInfo :=
  let typed t := mkCertificateInfo (CacheKey info) (Domain info) t (Size info) (Expiry info) (NotBefore info) (Subject info) (Issuer info) in
  match first_certificate (S (slen data)) data with
  | None => typed "Invalid"
  | Some certPEM =>
      match pem_decode certPEM with
      | None => typed "Invalid"
      | Some (block, _) =>
          match parse_x509 (pb_Bytes block) with
          | Err _ => typed "Parse Error"
          | Ok cert =>
              mkCertificateInfo (CacheKey info) (Domain info) (cert_type (x_PublicKeyAlgorithm cert)) (Size info)
                (x_NotAfter cert) (x_NotBefore cert) (x_Subject cert) (x_Issuer cert)
          end
      end
  end.
End Parse.

(** ** The keys of a domain *)

(** For each domain the ECDSA certificate and the RSA one: the key and the
    name shown. *)
Definition variants (domain : string) : list (string * string) :=
  [(domain, domain); (domain +:+ "+rsa", domain +:+ " (RSA)")].
Definition all_variants (domains : list string) : list (string * string) := flat_map variants domains.
Definition cache_keys (domains : list string) : list string := map fst (all_variants domains).

Section Commands.
Context {S : Type} `{Cache S, Certificates}.

(** Every key in turn: what is missing is skipped, what cannot be read is
    reported. *)
Fixpoint read_certificates (keys : list (string * string)) (s : S) : list (string * string * string) * list (string * error) * S :=
  match keys with
  | [] => ([], [], s)
  | (key, shown) :: keys =>
      match cache_get key s with
      | (Ok data, s) =>
          let '(found, warnings, s) := read_certificates keys s in ((key, shown, data) :: found, warnings, s)
      | (Err e, s) =>
          let '(found, warnings, s) := read_certificates keys s in
          (found, if bool_decide (e = ErrCacheMiss) then warnings else (key, e) :: warnings, s)
      end
  end.

Definition info_of (found : string * string * string) (size : Z) : CertificateInfo :=
  let '(key, shown, data) := found in
  parse_certificate_data data (mkCertificateInfo key shown "" size zero_time zero_time "" "").

(** ** tls list *)

Record listed : Type := mkListed { li_domain : string; li_type : string; li_status : string; li_expiry : string; li_size : Z }.

(** The row of a certificate; [now] is the time [time.Until] reads. *)
Definition list_row (now : Z) (cert : CertificateInfo) : listed :=
  let '(status, expiryStr) :=
    if Expiry cert =? zero_time then ("Valid", "-")
    else
      let days := days_until (time_sub (Expiry cert) now) in
      if days <? 0 then ("Expired", "EXPIRED")
      else if days <? 7 then ("Expiring", fmt_d days +:+ "d ⚠")
      else if days <? 30 then ("Expiring", fmt_d days +:+ "d")
      else ("Valid", fmt_d days +:+ "d") in
  let status := if seqb (CertType cert) "Invalid" || seqb (CertType cert) "Parse Error" then "Invalid" else status in
  mkListed (Domain cert) (CertType cert) status expiryStr (Size cert).

(** [now] by cache key. *)
Definition handle_tls_list (domains : list string) (now : string -> Z) (s : S) : list listed * list (string * error) * S :=
  let '(found, warnings, s) := read_certificates (all_variants domains) s in
  (map (fun f => let cert := info_of f (Z.of_nat (slen f.2)) in list_row (now (CacheKey cert)) cert) found, warnings, s).

(** ** tls delete *)

Inductive deletion : Type := Deleted | NotFound | DeleteFailed (e : error).
Definition delete_key (key : string) (s : S) : deletion * S :=
  match cache_delete key s with
  | (None, s) => (Deleted, s)
  | (Some e, s) => (if bool_decide (e = ErrCacheMiss) then NotFound else DeleteFailed e, s)
  end.
Fixpoint delete_keys (keys : list string) (s : S) : list deletion * S :=
  match keys with
  | [] => ([], s)
  | key :: keys => let '(d, s) := delete_key key s in let '(ds, s) := delete_keys keys s in (d :: ds, s)
  end.

(** The outcome for both certificates and the exit code. *)
Definition handle_tls_delete (domain : string) (s : S) : list deletion * Z * S :=
  let '(ds, s) := delete_keys (map fst (variants domain)) s in
  let failed := existsb (fun d => match d with DeleteFailed _ => true | _ => false end) ds in
  (ds, if failed then 1 else 0, s).

(** ** tls clean *)

Definition is_invalid (cert : CertificateInfo) : bool :=
  seqb (CertType cert) "Invalid" || seqb (CertType cert) "Parse Error".
Definition is_expired (now : Z) (cert : CertificateInfo) : bool :=
  negb (Expiry cert =? zero_time) && time_after now (Expiry cert).

(** Why a certificate is to go: it may be listed for both reasons. *)
Definition doomed (now : Z) (cert : CertificateInfo) : list (string * string) :=
  (if is_expired now cert then [(CacheKey cert, "expired")] else []) ++
  (if is_invalid cert then [(CacheKey cert, "invalid")] else []).

Record cleaning : Type := mkCleaning {
  cl_found : list (string * string);
  cl_deleted : nat;
  cl_failed : nat;
  cl_warnings : list (string * error)
}.
Definition was_deleted (d : deletion) : bool := match d with Deleted => true | _ => false end.

Definition handle_tls_clean (domains : list string) (now : string -> Z) (s : S) : cleaning * S :=
  let '(found, warnings, s) := read_certificates (all_variants domains) s in
  let toDelete := flat_map (fun f => let cert := info_of f 0 in doomed (now (CacheKey cert)) cert) found in
  let '(ds, s) := delete_keys (map fst toDelete) s in
  (mkCleaning toDelete (length (List.filter was_deleted ds)) (length (List.filter (fun d => negb (was_deleted d)) ds)) warnings, s).
End Commands.

(** ** tls sync *)

(** The local directory: [os.ReadFile] and [os.WriteFile] by path. *)
Class Directory (D : Type) : Type := {
  read_file : string -> D -> result error string;
  write_file : string -> string -> D -> option error * D
}.
Class DirectoryLaws (D : Type) `{Directory D} : Type := {
  files : D -> contents;
  read_law p d data : read_file p d = Ok data -> files d p = Some data;
  write_law p data d : let '(r, d') := write_file p data d in
    (forall p', p' <> p -> files d' p' = files d p') /\ (r = None -> files d' p = Some data)
}.

Record sync_counts : Type := mkCounts { sc_synced : nat; sc_skipped : nat; sc_failed : nat }.
Inductive sync_outcome : Type := Synced | Skipped | SyncFailed.

Section Sync.
Context {S D : Type} `{Cache S, Directory D} (cacheDir : string).

Definition local_path (key : string) : string := filepath_join [cacheDir; key].

Definition sync_key (key : string) (s : S) (d : D) : sync_outcome * S * D :=
  match cache_get key s with
  | (Err e, s) => (if bool_decide (e = ErrCacheMiss) then Skipped else SyncFailed, s, d)
  | (Ok data, s) =>
      if (match read_file (local_path key) d with Ok existing => seqb existing data | Err _ => false end)
      then (Skipped, s, d)
      else match write_file (local_path key) data d with
           | (Some _, d) => (SyncFailed, s, d)
           | (None, d) => (Synced, s, d)
           end
  end.
Fixpoint sync_keys (keys : list string) (s : S) (d : D) : list sync_outcome * S * D :=
  match keys with
  | [] => ([], s, d)
  | key :: keys =>
      let '(o, s, d) := sync_key key s d in
      let '(os, s, d) := sync_keys keys s d in (o :: os, s, d)
  end.

Definition count_outcome (p : sync_outcome -> bool) (os : list sync_outcome) : nat := length (List.filter p os).

(** [handleTLSSync] when the storage is S3 and its set-up and that of the
    directory have succeeded. *)
Definition handle_tls_sync (domains : list string) (s : S) (d : D) : sync_counts * S * D :=
  let '(os, s, d) := sync_keys (cache_keys domains) s d in
  (mkCounts (count_outcome (fun o => match o with Synced => true | _ => false end) os)
            (count_outcome (fun o => match o with Skipped => true | _ => false end) os)
            (count_outcome (fun o => match o with SyncFailed => true | _ => false end) os), s, d).
End Sync.

(** ** Which storage ([initTLSCache]) *)

Inductive cache_backend : Type := S3Storage (bucket prefix : string) | FileStorage (dir : string).
Definition init_tls_cache (loaded : result error Config) (s3 : result error unit) : result error (Config * cache_backend) :=
  match loaded with
  | Err e => Err (ErrWrap ("Failed to load config: " +:+ error_text e) e)
  | Ok cfg =>
      let le := tls_LetsEncrypt (TLS cfg) in
      if negb (tls_Enabled (TLS cfg)) then Err (ErrText "TLS is not enabled in config")
      else if negb (seqb (tls_Provider (TLS cfg)) "letsencrypt") then
        Err (ErrText ("TLS provider must be 'letsencrypt' (current: " +:+ tls_Provider (TLS cfg) +:+ ")"))
      else if seqb (le_StorageProvider le) "s3" then
        match s3 with
        | Err e => Err (ErrWrap ("Failed to initialize S3 cache: " +:+ error_text e) e)
        | Ok _ => Ok (cfg, S3Storage (s3_Bucket (le_S3 le)) (s3_Prefix (le_S3 le)))
        end
      else if seqb (le_StorageProvider le) "file" then
        if is_empty (le_CacheDir le) then Err (ErrText "cache_dir not configured for file storage")
        else Ok (cfg, FileStorage (le_CacheDir le))
      else Err (ErrText ("Unsupported storage provider: " +:+ le_StorageProvider le))
  end.

(** The tool's own [createS3Cache]. *)
Definition admin_s3_cache (loaded : result error aws_config) (le : LetsEncryptConfig) : result error S3Cache :=
  match loaded with
  | Err e => Err (ErrWrap ("failed to load AWS config: " +:+ error_text e) e)
  | Ok loaded => Ok (mkS3Cache (s3_client loaded false (le_S3 le)) (s3_Bucket (le_S3 le)) (s3_Prefix (le_S3 le)))
  end.

(** What two clients have to agree on to reach the same objects. *)
Definition same_objects (a b : S3Cache) : Prop :=
  o_config (sc_client a) = o_config (sc_client b) /\ o_BaseEndpoint (sc_client a) = o_BaseEndpoint (sc_client b) /\
  o_UsePathStyle (sc_client a) = o_UsePathStyle (sc_client b) /\ sc_Bucket a = sc_Bucket b /\ sc_Prefix a = sc_Prefix b.

(** The tool works on the objects of the server: with the same configuration
    and environment it reaches the same bucket and prefix at the same endpoint
    with the same credentials whenever the server reaches any. *)
Theorem admin_shares_storage loaded le head now parent server :
  new_s3_cache loaded le head now parent = Ok server ->
  exists admin, admin_s3_cache loaded le = Ok admin /\ same_objects admin server.
Proof.
  unfold new_s3_cache, admin_s3_cache. destruct loaded as [loaded|e]; [|done].
  destruct (at_result _) as [u|e]; [|done]. intros [= <-]. eexists. split; [done|].
  unfold same_objects, s3_client. cbn [sc_client sc_Bucket sc_Prefix].
  by destruct (negb (is_empty (s3_Endpoint (le_S3 le)))).
Qed.

(** The fuel of the search is enough: more of it finds the same block. *)
Lemma first_certificate_fuel `{CertificatesLaws} n m s :
  (slen s < n)%nat -> (slen s < m)%nat -> first_certificate n s = first_certificate m s.
Proof.
  revert m s. induction n as [|n IH]; intros [|m] s Hn Hm; try lia. cbn [first_certificate].
  destruct (pem_decode s) as [[b rest]|] eqn:Ed; [|done]. apply pem_rest in Ed.
  destruct (seqb (pb_Type b) "CERTIFICATE"); [done|]. apply IH; lia.
Qed.

(** ** What the commands do to the storage *)

Section Storage.
Context {S : Type} `{CacheLaws S, Certificates}.

Lemma read_certificates_spec keys s :
  let '(found, warnings, s') := read_certificates keys s in
  view s' ≡ view s /\
  (forall key shown data, In (key, shown, data) found -> In (key, shown) keys /\ view s key = Some data) /\
  (forall key shown, In (key, shown) keys ->
     (exists data, In (key, shown, data) found /\ view s key = Some data) \/
     (exists e, In (key, e) warnings) \/ view s key = None).
Proof.
  revert s. induction keys as [|[key shown] keys IH]; intros s; [done|]. cbn [read_certificates].
  pose proof (get_law key s) as Hg. destruct (cache_get key s) as [[data|e] s1]; destruct Hg as [Hv Hr];
    specialize (IH s1); destruct (read_certificates keys s1) as [[found warnings] s2]; destruct IH as (IH1 & IH2 & IH3);
    (split; [by rewrite IH1|]).
  - split.
    + intros k sh d [[= <- <- <-]|Hin]; [by split; [left|]|]. destruct (IH2 k sh d Hin) as [? Hd].
      split; [by right|]. by rewrite <- (Hv k).
    + intros k sh [[= <- <-]|Hin]; [left; exists data; by split; [left|]|].
      destruct (IH3 k sh Hin) as [(d & Hd & Hd')|[He|Hn]]; [|by right; left|right; right; by rewrite <- (Hv k)].
      left. exists d. split; [by right|by rewrite <- (Hv k)].
  - split.
    + intros k sh d Hin. destruct (IH2 k sh d Hin) as [? Hd]. split; [by right|]. by rewrite <- (Hv k).
    + intros k sh [[= <- <-]|Hin].
      * right. case_bool_decide as He; [right; by apply Hr|left; exists e; by left].
      * destruct (IH3 k sh Hin) as [(d & Hd & Hd')|[[e' He]|Hn]]; [left; exists d|right; left; exists e'|right; right].
        -- split; [done|]. by rewrite <- (Hv k).
        -- by case_bool_decide; [|right].
        -- by rewrite <- (Hv k).
Qed.

(** Deleting touches only the keys it is given, and each success is one. *)
Lemma delete_keys_spec keys s :
  let '(ds, s') := delete_keys keys s in
  length ds = length keys /\
  (forall k, view s' k = view s k \/ (view s' k = None /\ In k keys)) /\
  (Forall (fun d => was_deleted d = true) ds -> forall k, In k keys -> view s' k = None).
Proof.
  revert s. induction keys as [|key keys IH]; intros s; [split; [done|split; [by left|done]]|].
  cbn [delete_keys]. unfold delete_key. pose proof (delete_law key s) as Hd.
  assert (Hstep : match cache_delete key s with
                  | (None, s1) => view s1 ≡ removed key (view s)
                  | (Some _, s1) => view s1 ≡ view s \/ view s1 ≡ removed key (view s) end)
    by (by destruct (cache_delete key s) as [[?|] ?]). clear Hd.
  destruct (cache_delete key s) as [[e|] s1]; specialize (IH s1); destruct (delete_keys keys s1) as [ds s2];
    destruct IH as (IH1 & IH2 & IH3); (split; [cbn [length]; by rewrite IH1|]).
  - split.
    + intros k. destruct (IH2 k) as [Hk|[Hk Hin]]; [|right; by split; [|right]].
      destruct Hstep as [Hs|Hs]; rewrite Hk, (Hs k); [by left|]. unfold removed. case_decide as Hkk; [|by left].
      right. subst k. by split; [|left].
    + intros Hall. inversion Hall as [|? ? Hd _]. by case_bool_decide.
  - split.
    + intros k. destruct (IH2 k) as [Hk|[Hk Hin]]; [|right; by split; [|right]].
      rewrite Hk, (Hstep k). unfold removed. case_decide as Hkk; [|by left]. right. subst k. by split; [|left].
    + intros Hall k Hin. inversion Hall as [|? ? _ Hall']; subst. destruct Hin as [<-|Hin]; [|by apply IH3].
      destruct (IH2 key) as [Hk|[Hk _]]; [|done]. rewrite Hk, (Hstep key). unfold removed. by rewrite decide_True.
Qed.

Lemma info_key found size : CacheKey (info_of found size) = found.1.1.
Proof.
  destruct found as [[key shown] data]. unfold info_of, parse_certificate_data. destruct (first_certificate _ _); [|done].
  destruct (pem_decode _) as [[b r]|]; [|done]. by destruct (parse_x509 _).
Qed.

Lemma in_variants key shown domains : In (key, shown) (all_variants domains) -> In key (cache_keys domains).
Proof. intros Hin. change key with ((key, shown).1). by apply in_map. Qed.

(** The certificate in stored data, if it holds one. *)
Definition certificate_in (data : string) : option X509Certificate :=
  match first_certificate (Datatypes.S (slen data)) data with
  | Some certPEM =>
      match pem_decode certPEM with
      | Some (block, _) => match parse_x509 (pb_Bytes block) with Ok cert => Some cert | Err _ => None end
      | None => None
      end
  | None => None
  end.

(** What is to be cleaned: stored data that holds no certificate, or one that
    has expired (the zero time is no expiry). *)
Definition useless (now : Z) (data : string) : Prop :=
  match certificate_in data with
  | None => True
  | Some cert => x_NotAfter cert <> zero_time /\ x_NotAfter cert < now
  end.

Lemma doomed_iff now key shown data k :
  (exists reason, In (k, reason) (doomed now (info_of (key, shown, data) 0))) <-> k = key /\ useless now data.
Proof.
  assert (Hk : CacheKey (info_of (key, shown, data) 0) = key) by apply info_key.
  assert (Hcases : doomed now (info_of (key, shown, data) 0) <> [] <-> useless now data).
  { unfold doomed, useless, certificate_in, info_of, parse_certificate_data.
    destruct (first_certificate _ data) as [pem|]; [|done].
    destruct (pem_decode pem) as [[block rest]|]; [|done].
    destruct (parse_x509 (pb_Bytes block)) as [cert|]; [|done].
    assert (Hv : forall c, is_invalid (mkCertificateInfo key shown (cert_type (x_PublicKeyAlgorithm cert)) 0 c
              (x_NotBefore cert) (x_Subject cert) (x_Issuer cert)) = false)
      by (intros c; unfold is_invalid; by destruct (x_PublicKeyAlgorithm cert)).
    cbn [CacheKey Domain Size]. rewrite Hv, app_nil_r. unfold is_expired, time_after. cbn [Expiry].
    destruct (Z.eqb_spec (x_NotAfter cert) zero_time), (Z.ltb_spec (x_NotAfter cert) now); cbn [negb andb]; split; try done; lia. }
  assert (Hall : forall k' r, In (k', r) (doomed now (info_of (key, shown, data) 0)) -> k' = key).
  { intros k' r. unfold doomed. rewrite Hk, in_app_iff.
    destruct (is_expired _ _), (is_invalid _); simpl; naive_solver. }
  rewrite <- Hcases. split.
  - intros [r Hr]. split; [by eapply Hall|]. by destruct (doomed _ _).
  - intros [-> Hne]. destruct (doomed _ _) as [|[k' r] l]; [done|]. exists r. left. f_equal. eapply Hall. by left.
Qed.

(** C28: cleaning removes only what is useless, and all of it unless it says
    otherwise: a stored certificate that is valid and has not expired is there
    afterwards, and so is everything under other names; a run without warnings
    and without failures leaves no useless data under any name of a configured
    domain; and every deletion it tried is counted. *)
Theorem clean_keeps_good domains now s :
  let '(rep, s') := handle_tls_clean domains now s in
  (forall k, view s' k = view s k \/
     (view s' k = None /\ In k (cache_keys domains) /\ exists data, view s k = Some data /\ useless (now k) data)) /\
  (cl_failed rep = 0%nat -> cl_warnings rep = [] ->
   forall k data, In k (cache_keys domains) -> view s' k = Some data -> ~ useless (now k) data) /\
  (cl_deleted rep + cl_failed rep = length (cl_found rep))%nat.
Proof.
  unfold handle_tls_clean. pose proof (read_certificates_spec (all_variants domains) s) as Hr.
  destruct (read_certificates (all_variants domains) s) as [[found warnings] s1]. destruct Hr as (Hv & Hf & Hall).
  set (toDelete := flat_map _ found).
  assert (Hdoom : forall k, In k (map fst toDelete) <->
            exists shown data, In (k, shown, data) found /\ useless (now k) data).
  { intros k. rewrite in_map_iff. split.
    - intros ([k' reason] & Hk & Hin). cbn in Hk. subst k'. apply in_flat_map in Hin as ([[key shown] data] & Hin & Hd).
      cbv zeta in Hd. rewrite info_key in Hd. assert (Hex : exists r, In (k, r) (doomed (now key) (info_of (key, shown, data) 0))) by eauto.
      apply doomed_iff in Hex as [-> Hu]. by exists shown, data.
    - intros (shown & data & Hin & Hu). destruct (proj2 (doomed_iff (now k) k shown data k) (conj eq_refl Hu)) as [reason Hre].
      exists (k, reason). split; [done|]. apply in_flat_map. exists (k, shown, data). split; [done|]. cbv zeta. by rewrite info_key. }
  clearbody toDelete. pose proof (delete_keys_spec (map fst toDelete) s1) as Hd.
  destruct (delete_keys (map fst toDelete) s1) as [ds s2]. destruct Hd as (Hlen & Hkeep & Hgone).
  cbn [cl_failed cl_warnings cl_deleted cl_found]. split; [|split].
  - intros k. destruct (Hkeep k) as [Hk|[Hk Hin]]; [left; by rewrite Hk, (Hv k)|]. right. split; [done|].
    apply Hdoom in Hin as (shown & data & Hin & Hu). destruct (Hf _ _ _ Hin) as [Hin' Hd].
    split; [by eapply in_variants|]. by exists data.
  - intros Hfail -> k data Hk Hs Hu. apply in_map_iff in Hk as ([k' shown] & Hkk & Hin). cbn in Hkk. subst k'.
    destruct (Hkeep k) as [Hk|[Hk _]]; [|congruence]. rewrite Hk, (Hv k) in Hs.
    destruct (Hall k shown Hin) as [(d & Hd & Hd')|[[e []]|Hn]]; [|congruence].
    assert (d = data) as -> by congruence.
    assert (Hgk : view s2 k = None).
    { apply Hgone; [|apply Hdoom; by exists shown, data]. apply List.Forall_forall. intros x Hx.
      destruct (was_deleted x) eqn:Ex; [done|]. exfalso.
      assert (Hx' : In x (List.filter (fun d => negb (was_deleted d)) ds)) by (apply filter_In; by rewrite Ex).
      destruct (List.filter _ ds); [done|discriminate Hfail]. }
    congruence.
  - rewrite <- (length_map fst toDelete), <- Hlen. clear. induction ds as [|d ds IH]; [done|]. cbn [List.filter length].
    destruct (was_deleted d); cbn [negb length]; lia.
Qed.
End Storage.

Section Mirror.
Context {S D : Type} `{CacheLaws S, DirectoryLaws D} (cacheDir : string).

Lemma sync_key_spec key s d :
  let '(o, s', d') := sync_key cacheDir key s d in
  view s' ≡ view s /\
  (forall p, p <> local_path cacheDir key -> files d' p = files d p) /\
  (o <> SyncFailed -> files d' (local_path cacheDir key) =
     match view s key with Some data => Some data | None => files d (local_path cacheDir key) end).
Proof.
  unfold sync_key. pose proof (get_law key s) as Hg. destruct (cache_get key s) as [[data|e] s1]; destruct Hg as [Hv Hr].
  - rewrite Hr. destruct (read_file (local_path cacheDir key) d) as [existing|] eqn:Ef; cbn match.
    + destruct (seqb existing data) eqn:Es; cbn match.
      { apply seqb_true in Es as ->. split; [done|split; [done|]]. intros _. by apply read_law. }
      pose proof (write_law (local_path cacheDir key) data d) as Hw.
      destruct (write_file _ data d) as [[e|] d']; destruct Hw as [Ho Hd]; (split; [done|split; [done|]]); [done|].
      intros _. by apply Hd.
    + pose proof (write_law (local_path cacheDir key) data d) as Hw.
      destruct (write_file _ data d) as [[e'|] d']; destruct Hw as [Ho Hd]; (split; [done|split; [done|]]); [done|].
      intros _. by apply Hd.
  - split; [done|split; [done|]]. case_bool_decide as He; [|done]. intros _. by rewrite Hr.
Qed.

(** Different names of the configured domains are different files. *)
Definition separate (keys : list string) : Prop :=
  forall k k', In k keys -> In k' keys -> local_path cacheDir k = local_path cacheDir k' -> k = k'.

Lemma sync_keys_spec keys s d : separate keys ->
  let '(os, s', d') := sync_keys cacheDir keys s d in
  length os = length keys /\ view s' ≡ view s /\
  (forall p, ~ In p (map (local_path cacheDir) keys) -> files d' p = files d p) /\
  (~ In SyncFailed os -> forall k, In k keys -> files d' (local_path cacheDir k) =
     match view s k with Some data => Some data | None => files d (local_path cacheDir k) end).
Proof.
  revert s d. induction keys as [|key keys IH]; intros s d Hsep; [done|]. cbn [sync_keys].
  pose proof (sync_key_spec key s d) as Hk. destruct (sync_key cacheDir key s d) as [[o s1] d1]. destruct Hk as (Hv & Ho & Hd).
  assert (Hsep' : separate keys) by (intros k k' Hk Hk'; apply Hsep; by right).
  specialize (IH s1 d1 Hsep'). destruct (sync_keys cacheDir keys s1 d1) as [[os s2] d2]. destruct IH as (IH1 & IH2 & IH3 & IH4).
  split; [cbn [length]; by rewrite IH1|]. split; [by rewrite IH2|]. split.
  - intros p Hp. rewrite IH3; [apply Ho; intros ->; apply Hp; by left|intros Hin; apply Hp; by right].
  - intros Hok k Hin. destruct (in_dec String.string_dec k keys) as [Hk|Hk].
    + rewrite IH4 by (done || (intros Hf; apply Hok; by right)). rewrite (Hv k). destruct (view s k) as [data|] eqn:Ev; [done|].
      destruct (decide (k = key)) as [->|Hne]; [rewrite Hd, Ev; [done|intros ->; apply Hok; by left]|].
      apply Ho. intros Hp. apply Hne. apply Hsep; [by right|by left|done].
    + destruct Hin as [<-|Hin]; [|done]. rewrite IH3; [apply Hd; intros ->; apply Hok; by left|].
      intros Hp. apply in_map_iff in Hp as (k' & Hp & Hk'). apply Hk. rewrite <- (Hsep k' key); [done|by right|by left|done].
Qed.

Lemma count_partition os :
  (count_outcome (fun o => match o with Synced => true | _ => false end) os +
   count_outcome (fun o => match o with Skipped => true | _ => false end) os +
   count_outcome (fun o => match o with SyncFailed => true | _ => false end) os = length os)%nat.
Proof. unfold count_outcome. induction os as [|[] os IH]; cbn [List.filter length]; lia. Qed.
Lemma count_none os :
  count_outcome (fun o => match o with SyncFailed => true | _ => false end) os = 0%nat -> ~ In SyncFailed os.
Proof.
  unfold count_outcome. intros Hz Hin.
  assert (Hf : In SyncFailed (List.filter (fun o => match o with SyncFailed => true | _ => false end) os)) by (by apply filter_In).
  by destruct (List.filter _ os).
Qed.

(** C29: syncing copies S3 to the directory and does nothing else: S3 and the
    files under other names stay as they are, every name is counted once, and
    without failures each configured name that S3 holds is in the directory
    with the same bytes, while the file of one that S3 does not hold is
    kept. *)
Theorem sync_mirrors_s3 domains s d :
  separate (cache_keys domains) ->
  let '(counts, s', d') := handle_tls_sync cacheDir domains s d in
  (sc_synced counts + sc_skipped counts + sc_failed counts = length (cache_keys domains))%nat /\
  view s' ≡ view s /\
  (forall p, ~ In p (map (local_path cacheDir) (cache_keys domains)) -> files d' p = files d p) /\
  (sc_failed counts = 0%nat -> forall k, In k (cache_keys domains) -> files d' (local_path cacheDir k) =
     match view s k with Some data => Some data | None => files d (local_path cacheDir k) end).
Proof.
  intros Hsep. unfold handle_tls_sync. pose proof (sync_keys_spec (cache_keys domains) s d Hsep) as Hs.
  destruct (sync_keys cacheDir (cache_keys domains) s d) as [[os s'] d']. destruct Hs as (Hl & Hv & Ho & Hd).
  cbn [sc_synced sc_skipped sc_failed]. split; [by rewrite count_partition|]. split; [done|]. split; [done|].
  intros Hz%count_none. by apply Hd.
Qed.
End Mirror.

(** ** Examples *)

(** Certificates whose text is their type and expiry. *)
#[export] Instance toy_certificates : Certificates := {
  pem_decode s := if is_empty s then None else Some (mkBlock "CERTIFICATE" s, "");
  pem_encode b := pb_Bytes b;
  parse_x509 s :=
    if seqb s "fresh" then Ok (mkX509 0 (90 * 24 * hour) "CN=fresh" "CN=ca" ECDSA)
    else if seqb s "expired" then Ok (mkX509 0 0 "CN=expired" "CN=ca" RSA)
    else Err (ErrText "x509: malformed certificate")
}.

#[export] Instance toy_certificates_laws : CertificatesLaws.
Proof. split. intros s b rest. cbn [pem_decode toy_certificates]. destruct s; [done|]. intros [= _ <-]. simpl. lia. Qed.

Definition bucket_of (l : list (string * string)) : plain_store := mkPlain (list_to_map l).
#[local] Instance bucket_cache : Cache plain_store := s3_cache "".
#[local] Instance bucket_laws : CacheLaws plain_store := s3_cache_laws "".

Example cleaned :
  let s := bucket_of [("a.example", "fresh"); ("a.example+rsa", "expired"); ("b.example", "?"); ("c.example", "expired")] in
  let '(rep, s') := handle_tls_clean ["a.example"; "b.example"] (fun _ => hour) s in
  cl_found rep = [("a.example+rsa", "expired"); ("b.example", "invalid")] /\
  (cl_deleted rep, cl_failed rep) = (2%nat, 0%nat) /\
  map_to_list (ps_map s') = map_to_list (ps_map (bucket_of [("a.example", "fresh"); ("c.example", "expired")])).
Proof. vm_compute. by repeat split. Qed.

(** A certificate that expired less than a day ago is shown with zero days
    left, and deleting what is not there succeeds. *)
Example expired_today :
  let row t := list_row t (info_of ("d", "d", "expired") 7) in
  map (fun t => (li_status (row t), li_expiry (row t))) [- hour; 23 * hour; 25 * hour] =
  [("Expiring", "0d ⚠"); ("Expiring", "0d ⚠"); ("Expired", "EXPIRED")] /\
  (handle_tls_delete "nowhere.example" (bucket_of [])).1 = ([Deleted; Deleted], 0).
Proof. split; vm_compute; reflexivity. Qed.

Lemma plain_directory_write (p data : string) (d : plain_store) :
  (forall p', p' <> p -> ps_map (mkPlain (<[p := data]> (ps_map d))) !! p' = ps_map d !! p').
Proof. intros p' Hp. cbn [ps_map]. by rewrite lookup_insert_ne. Qed.
#[local] Instance plain_directory : Directory plain_store := {
  read_file p d := match ps_map d !! p with Some data => Ok data | None => Err (ErrText "no such file") end;
  write_file p data d := (None, mkPlain (<[p := data]> (ps_map d)))
}.
#[local, refine] Instance plain_directory_laws : DirectoryLaws plain_store := {| files d p := ps_map d !! p |}.
Proof.
  - intros p d data. cbn [read_file plain_directory]. destruct (ps_map d !! p); congruence.
  - intros p data d. split; [apply plain_directory_write|]. intros _. cbn [ps_map]. by rewrite lookup_insert_eq.
Defined.

Lemma sync_mirrors_s3_witness :
  let s := bucket_of [("a.example", "fresh")] in
  let d := bucket_of [("/certs/a.example", "old"); ("/certs/a.example+rsa", "kept")] in
  let '(counts, s', d') := handle_tls_sync "/certs" ["a.example"] s d in
  (sc_synced counts + sc_skipped counts + sc_failed counts = length (cache_keys ["a.example"]))%nat /\
  view s' ≡ view s /\
  (forall p, ~ In p (map (local_path "/certs") (cache_keys ["a.example"])) -> files d' p = files d p) /\
  (sc_failed counts = 0%nat -> forall k, In k (cache_keys ["a.example"]) -> files d' (local_path "/certs" k) =
     match view s k with Some data => Some data | None => files d (local_path "/certs" k) end).
Proof.
  apply (sync_mirrors_s3 "/certs" ["a.example"] (bucket_of [("a.example", "fresh")])
           (bucket_of [("/certs/a.example", "old"); ("/certs/a.example+rsa", "kept")])).
  intros k k' [<-|[<-|[]]] [<-|[<-|[]]]; vm_compute; congruence.
Defined.

(** The tool deletes a certificate from S3; the server, whose directory still
    has it, goes on serving it, and its next synchronisation puts it back. *)
Example deleted_certificate_returns :
  let server := two_tiers [("a.example", "fresh")] [("a.example", "fresh")] [] [] in
  let '(ds, code, s3) := handle_tls_delete "a.example" (primary server) in
  let server := with_primary s3 server in
  (ds, code, ts_map (primary server) !! "a.example") = ([Deleted; Deleted], 0, None) /\
  (fallback_get hours_later "a.example" server).1 = Ok "fresh" /\
  ts_map (primary (run_startup_sync server)) !! "a.example" = Some "fresh".
Proof. vm_compute. by repeat split. Qed.

Definition b2_storage : LetsEncryptConfig :=
  mkLetsEncryptConfig "ops@example.org" ["mail.example"] "" "s3" "/certs" 0
    (mkS3Config "certs" "eu-central-1" "https://s3.b2.example" "strela/" "id" "key").
Definition env_config : aws_config := mkAwsConfig "us-east-1" DefaultChain.
Lemma admin_shares_storage_witness :
  let server := mkS3Cache (mkS3Options (mkAwsConfig "eu-central-1" (StaticCredentials "id" "key" ""))
                             (Some "https://s3.b2.example") true true) "certs" "strela/" in
  exists admin, admin_s3_cache (Ok env_config) b2_storage = Ok admin /\ same_objects admin server.
Proof. apply (admin_shares_storage (Ok env_config) b2_storage (fun _ _ _ => (None, 0)) 0 None). vm_compute. reflexivity. Defined.

(** A key without its secret is not used: the default chain decides. *)
Example half_credentials :
  aws_Credentials (overridden env_config (mkS3Config "certs" "" "" "" "id" "")) = DefaultChain.
Proof. reflexivity. Qed.
