(* ===== verification/CommandLine.v ===== *)
(** * The command lines (cmd/strela-server/main.go, cmd/strela-admin/main.go)

    The flags of the two programs, as Go's package [flag] reads them, with
    [time.ParseDuration] for the timeout; which command the tool runs, and
    with which status it ends when it runs none. *)

From stdpp Require Import base gmap list strings.
From Stdlib Require Import ZArith Lia Ascii.
From S2P Require Import Prelude GoString GoFloat GoTime.
#[local] Open Scope Z_scope.

(** ** [time.ParseDuration] *)

Definition two63 : Z := 2 ^ 63.

(** [leadingInt]: the digits at the start, and the rest; [None]: too large. *)
Fixpoint leading_int (x : Z) (s : string) : option (Z * string) :=
  match s with
  | String c rest =>
      if is_digit c then
        if two63 / 10 <? x then None
        else let x := x * 10 + (byte_of c - 48) in
             if two63 <? x then None else leading_int x rest
      else Some (x, s)
  | EmptyString => Some (x, s)
  end.

(** [leadingFraction]: digits that do not fit are skipped. *)
Fixpoint leading_fraction (x : Z) (scale : float64) (overflow : bool) (s : string) : Z * float64 * string :=
  match s with
  | String c rest =>
      if is_digit c then
        if overflow then leading_fraction x scale true rest
        else if (two63 - 1) / 10 <? x then leading_fraction x scale true rest
        else let y := x * 10 + (byte_of c - 48) in
             if two63 <? y then leading_fraction x scale true rest
             else leading_fraction y (fmul scale (float_of_int 10)) false rest
      else (x, scale, s)
  | EmptyString => (x, scale, s)
  end.

Definition unit_of (u : string) : option Z :=
  if seqb u "ns" then Some 1
  else if seqb u "us" || seqb u (bytes [194; 181] +:+ "s") || seqb u (bytes [206; 188] +:+ "s") then Some 1000
  else if seqb u "ms" then Some 1000000
  else if seqb u "s" then Some second
  else if seqb u "m" then Some minute
  else if seqb u "h" then Some hour
  else None.

(** The letters of a unit: up to a dot or a digit. *)
Fixpoint take_unit (s : string) : string * string :=
  match s with
  | String c rest =>
      if is_digit c || bool_decide (c = "."%char) then ("", s)
      else let '(u, r) := take_unit rest in (String c u, r)
  | EmptyString => ("", "")
  end.

(** One number with its unit, added to [d]. *)
Definition duration_part (d : Z) (s : string) : option (Z * string) :=
  match leading_int 0 s with
  | None => None
  | Some (v, s1) =>
      let pre := negb (slen s1 =? slen s)%nat in
      let '(f, scale, s2, post) :=
        match s1 with
        | String "."%char s1' =>
            let '(f, scale, s2) := leading_fraction 0 fone false s1' in
            (f, scale, s2, negb (slen s2 =? slen s1')%nat)
        | _ => (0, fone, s1, false)
        end in
      if negb (pre || post) then None
      else
        let '(u, s3) := take_unit s2 in
        match unit_of u with
        | None => None
        | Some unit =>
            if two63 / unit <? v then None
            else
              let v := v * unit in
              let v := if 0 <? f then v + int_of_float (fmul (float_of_int f) (fdiv (float_of_int unit) scale)) else v in
              if two63 <? v then None
              else if two63 <? d + v then None else Some (d + v, s3)
        end
  end.

(** Every part takes at least one byte; the fuel is the length of the text. *)
Fixpoint duration_parts (fuel : nat) (d : Z) (s : string) : option Z :=
  match s with
  | EmptyString => Some d
  | String c _ =>
      match fuel with
      | O => None
      | S fuel =>
          if negb (is_digit c || bool_decide (c = "."%char)) then None
          else match duration_part d s with
               | Some (d, s) => duration_parts fuel d s
               | None => None
               end
      end
  end.

Definition parse_duration (s : string) : option Z :=
  let '(neg, s) := match s with
                   | String "-"%char rest => (true, rest)
                   | String "+"%char rest => (false, rest)
                   | _ => (false, s)
                   end in
  if seqb s "0" then Some 0
  else if is_empty s then None
  else match duration_parts (slen s) 0 s with
       | None => None
       | Some d => if neg then Some (- d) else if two63 - 1 <? d then None else Some d
       end.

Example parsed_durations :
  map parse_duration ["10s"; "1.5h"; "2h45m30s"; "-1m"; "0"; "300ms"; ".5s"; "1h.s"; "10"; ""; "s"; "5d"; "9223372036854775808ns"] =
  [Some (10 * second); Some (90 * minute); Some (2 * hour + 45 * minute + 30 * second); Some (- minute); Some 0;
   Some (300 * 1000000); Some (500 * 1000000); None; None; None; None; None; None].
Proof. vm_compute. reflexivity. Qed.

(** ** Package [flag] *)

Inductive flag_kind : Type := StringFlag | BoolFlag | DurationFlag.
#[export] Instance flag_kind_eq : EqDecision flag_kind.
Proof. solve_decision. Defined.
Inductive flag_value : Type := VString (s : string) | VBool (b : bool) | VDuration (d : Z).

(** [strconv.ParseBool] *)
Definition parse_bool (s : string) : option bool :=
  if existsb (seqb s) ["1"; "t"; "T"; "TRUE"; "true"; "True"] then Some true
  else if existsb (seqb s) ["0"; "f"; "F"; "FALSE"; "false"; "False"] then Some false
  else None.

(** [Value.Set] *)
Definition set_flag (k : flag_kind) (text : string) : option flag_value :=
  match k with
  | StringFlag => Some (VString text)
  | BoolFlag => option_map VBool (parse_bool text)
  | DurationFlag => option_map VDuration (parse_duration text)
  end.

(** How [Parse] ends: with the values set and the arguments left, with a
    request for help, or with an error. *)
Inductive parse_end : Type :=
| Parsed (values : gmap string flag_value) (rest : list string)
| HelpAsked
| BadFlag (name : string).

(** A word that is read as a flag: its name and, after "=", its value;
    [None]: the flags end here, [Some None]: the syntax is bad. *)
Definition flag_word (s : string) : option (option (string * option string)) :=
  match s with
  | String d (String c rest) =>
      if bool_decide (d = "-"%char) then
        match (if bool_decide (c = "-"%char) then rest else String c rest) with
        | EmptyString => Some None
        | String c0 name =>
            if bool_decide (c0 = "-"%char) || bool_decide (c0 = "="%char) then Some None
            else Some (Some (match index_byte "=" name with
                             | Some i => (String c0 (stake i name), Some (sdrop (S i) name))
                             | None => (String c0 name, None)
                             end))
        end
      else None
  | _ => None
  end.

Definition kind_of (formal : list (string * flag_kind)) (name : string) : option flag_kind :=
  match list_find (fun f => f.1 = name) formal with Some (_, (_, k)) => Some k | None => None end.

(** [FlagSet.Parse] *)
Fixpoint parse_flags (formal : list (string * flag_kind)) (values : gmap string flag_value) (args : list string) : parse_end :=
  match args with
  | [] => Parsed values []
  | s :: args' =>
      if seqb s "--" then Parsed values args'
      else
        match flag_word s with
        | None => Parsed values args
        | Some None => BadFlag s
        | Some (Some (name, value)) =>
            match kind_of formal name, value with
            | None, _ => if seqb name "help" || seqb name "h" then HelpAsked else BadFlag name
            | Some k, Some text =>
                match set_flag k text with
                | Some v => parse_flags formal (<[name := v]> values) args'
                | None => BadFlag name
                end
            | Some BoolFlag, None => parse_flags formal (<[name := VBool true]> values) args'
            | Some k, None =>
                match args' with
                | [] => BadFlag name
                | text :: args'' =>
                    match set_flag k text with
                    | Some v => parse_flags formal (<[name := v]> values) args''
                    | None => BadFlag name
                    end
                end
            end
        end
  end.

(** How the process goes on after [flag.Parse] (ExitOnError): with the values
    and the arguments, or to an exit status. *)
Definition after_parse (e : parse_end) : result Z (gmap string flag_value * list string) :=
  match e with
  | Parsed values rest => Ok (values, rest)
  | HelpAsked => Err 0
  | BadFlag _ => Err 2
  end.

Definition string_value (name default : string) (values : gmap string flag_value) : string :=
  match values !! name with Some (VString s) => s | _ => default end.
Definition bool_value (name : string) (values : gmap string flag_value) : bool :=
  match values !! name with Some (VBool b) => b | _ => false end.
Definition duration_value (name : string) (default : Z) (values : gmap string flag_value) : Z :=
  match values !! name with Some (VDuration d) => d | _ => default end.

(** ** The default configuration file

    [exists_file]: whether [os.Stat] finds the file. *)
Definition config_candidates : list string := ["/etc/strela/config.toml"; "/usr/local/etc/strela/config.toml"].
Definition defaultConfigPath (exists_file : string -> bool) : string :=
  match List.filter exists_file config_candidates with p :: _ => p | [] => "config.toml" end.

(** ** strela-server *)

Definition server_flags : list (string * flag_kind) := [("config", StringFlag); ("version", BoolFlag)].

(** What [main] does with its command line: it exits with a status, after the
    version if it was asked for, or runs with a configuration file. *)
Inductive server_start : Type :=
| ServerExit (status : Z) (version_shown : bool)
| ServerRun (configPath : string).
Definition server_main (exists_file : string -> bool) (args : list string) : server_start :=
  match after_parse (parse_flags server_flags ∅ args) with
  | Err status => ServerExit status false
  | Ok (values, _) =>
      if bool_value "version" values then ServerExit 0 true
      else ServerRun (string_value "config" (defaultConfigPath exists_file) values)
  end.

(** ** strela-admin *)

Definition admin_flags : list (string * flag_kind) :=
  [("server", StringFlag); ("timeout", DurationFlag); ("config", StringFlag); ("version", BoolFlag)].

Record options : Type := mkOptions { serverURL : string; timeout : Z; configFile : string }.
Definition options_of (exists_file : string -> bool) (values : gmap string flag_value) : options :=
  mkOptions (string_value "server" "" values) (duration_value "timeout" (10 * second) values)
    (string_value "config" (defaultConfigPath exists_file) values).

(** What a command line asks for; the screens are named, not spelled. *)
Inductive screen : Type := Usage | UnknownCommand (s : string) | TLSUsage | UnknownSubcommand (s : string) | DeleteUsage.
Inductive admin_request : Type :=
| CmdVersion | CmdHealth | CmdStats
| CmdTLSList | CmdTLSDelete (domain : string) | CmdTLSClean | CmdTLSSync | CmdTLSHelp.
Inductive admin_start : Type :=
| AdminExit (status : Z) (shown : option screen)
| AdminRun (opts : options) (r : admin_request).

(** [cmdTLS]; [args] are those after "tls". *)
Definition cmd_tls (opts : options) (args : list string) : admin_start :=
  match args with
  | [] => AdminExit 1 (Some TLSUsage)
  | sub :: args =>
      if existsb (seqb sub) ["list"; "ls"] then AdminRun opts CmdTLSList
      else if existsb (seqb sub) ["delete"; "del"; "rm"] then
        match args with
        | [] => AdminExit 1 (Some DeleteUsage)
        | domain :: _ => AdminRun opts (CmdTLSDelete domain)
        end
      else if seqb sub "clean" then AdminRun opts CmdTLSClean
      else if seqb sub "sync" then AdminRun opts CmdTLSSync
      else if existsb (seqb sub) ["help"; "--help"; "-h"] then AdminRun opts CmdTLSHelp
      else AdminExit 1 (Some (UnknownSubcommand sub))
  end.

Definition admin_main (exists_file : string -> bool) (args : list string) : admin_start :=
  match after_parse (parse_flags admin_flags ∅ args) with
  | Err status => AdminExit status None
  | Ok (values, rest) =>
      let opts := options_of exists_file values in
      if bool_value "version" values then AdminRun opts CmdVersion
      else
        match rest with
        | [] => AdminExit 1 (Some Usage)
        | command :: rest =>
            if seqb command "health" then AdminRun opts CmdHealth
            else if seqb command "stats" then AdminRun opts CmdStats
            else if seqb command "tls" then cmd_tls opts rest
            else if existsb (seqb command) ["version"; "-version"; "--version"] then AdminRun opts CmdVersion
            else AdminExit 1 (Some (UnknownCommand command))
        end
  end.

(** A part takes at least its unit, so the length of the text is fuel enough. *)
Lemma leading_int_shorter x s v r : leading_int x s = Some (v, r) -> (slen r <= slen s)%nat.
Proof.
  revert x. induction s as [|c s IH]; intros x; cbn [leading_int]; [by intros [= _ <-]|].
  destruct (is_digit c); [|by intros [= _ <-]]. destruct (_ <? x); [done|]. destruct (two63 <? _); [done|].
  intros Hr%IH. cbn [slen]. lia.
Qed.
Lemma leading_fraction_shorter x scale o s : (slen (leading_fraction x scale o s).2 <= slen s)%nat.
Proof.
  revert x scale o. induction s as [|c s IH]; intros x scale o; cbn [leading_fraction]; [done|].
  destruct (is_digit c); [|done].
  destruct o; [|destruct (_ <? x); [|destruct (two63 <? _)]]; cbn [slen]; (etrans; [apply IH|lia]).
Qed.
Lemma take_unit_shorter s : (slen (take_unit s).2 + slen (take_unit s).1 = slen s)%nat.
Proof.
  induction s as [|c s IH]; cbn [take_unit]; [done|]. destruct (_ || _); [cbn; lia|].
  destruct (take_unit s) as [u r]. cbn in *. lia.
Qed.
Lemma duration_part_shorter d s d' r : duration_part d s = Some (d', r) -> (slen r < slen s)%nat.
Proof.
  unfold duration_part. destruct (leading_int 0 s) as [[v s1]|] eqn:Ei; [|done]. apply leading_int_shorter in Ei.
  set (fraction := match s1 with String _ _ => _ | EmptyString => _ end).
  destruct fraction as [[[f scale] s2] post] eqn:Ef; unfold fraction in Ef; clear fraction.
  assert (H2 : (slen s2 <= slen s1)%nat).
  { revert Ef. destruct s1 as [|c s1']; [by intros [= _ _ <- _]|].
    destruct c as [[] [] [] [] [] [] [] []]; try (by intros [= _ _ <- _]).
    pose proof (leading_fraction_shorter 0 fone false s1') as Hf. destruct (leading_fraction _ _ _ s1') as [[f' sc] s2'].
    intros [= _ _ <- _]. cbn in *. lia. }
  destruct (negb _); [done|]. pose proof (take_unit_shorter s2) as Hu. destruct (take_unit s2) as [u s3]. cbn in Hu.
  destruct (unit_of u) as [unit|] eqn:Eu; [|done].
  assert (u <> "") by (intros ->; by vm_compute in Eu). destruct u as [|c u]; [done|]. cbn in Hu.
  destruct (_ <? v); [done|]. destruct (two63 <? _); [done|]. destruct (two63 <? _); [done|]. intros [= _ <-]. lia.
Qed.
Lemma duration_parts_fuel n m d s :
  (slen s <= n)%nat -> (slen s <= m)%nat -> duration_parts n d s = duration_parts m d s.
Proof.
  revert m d s. induction n as [|n IH]; intros [|m] d [|c s] Hn Hm; cbn [slen] in *; try lia; try done. cbn [duration_parts].
  destruct (negb _); [done|]. destruct (duration_part d (String c s)) as [[d' r]|] eqn:Ep; [|done].
  apply duration_part_shorter in Ep. cbn [slen] in Ep. apply IH; lia.
Qed.

(** ** What a command line says *)

(** The names a flag can have: not empty, not starting with a dash, without
    an equals sign. *)
Definition flag_name (n : string) : bool := negb (is_empty n) && negb (has_prefix n "-") && no_byte "=" n.

(** The ways to write an assignment: with one dash or two, the text after an
    equals sign or as the next word; a boolean flag may stand alone. *)
Inductive spelling (formal : list (string * flag_kind)) : string -> flag_value -> list string -> Prop :=
| spelled_equals dash n k text v :
    In dash ["-"; "--"] -> kind_of formal n = Some k -> set_flag k text = Some v ->
    spelling formal n v [dash +:+ n +:+ "=" +:+ text]
| spelled_apart dash n k text v :
    In dash ["-"; "--"] -> kind_of formal n = Some k -> k <> BoolFlag -> set_flag k text = Some v ->
    spelling formal n v [dash +:+ n; text]
| spelled_alone dash n :
    In dash ["-"; "--"] -> kind_of formal n = Some BoolFlag -> spelling formal n (VBool true) [dash +:+ n].

(** Assignments one after the other: the words, and what they do to the
    values; a later one counts. *)
Inductive spellings (formal : list (string * flag_kind)) :
    gmap string flag_value -> list string -> gmap string flag_value -> Prop :=
| spelled_nothing values : spellings formal values [] values
| spelled_more values n v words more values' :
    spelling formal n v words -> spellings formal (<[n := v]> values) more values' ->
    spellings formal values (words ++ more) values'.

(** Where the flags end: at "--", which is dropped, at a word that is no flag,
    or with the command line. *)
Definition flags_end (tail rest : list string) : Prop :=
  tail = "--" :: rest \/
  (tail = rest /\ match rest with [] => True | s :: _ => s <> "--" /\ flag_word s = None end).

Lemma kind_of_in formal n k : kind_of formal n = Some k -> In n (map fst formal).
Proof.
  unfold kind_of. destruct (list_find _ formal) as [[i [n' k']]|] eqn:E; [|done]. intros _.
  apply list_find_Some in E as (Hl & Hn & _). cbn in Hn. subst n'. apply list_elem_of_In.
  change n with (fst (n, k')). apply list_elem_of_fmap_2. by eapply list_elem_of_lookup_2.
Qed.

Lemma flag_name_iff n : flag_name n = true <->
  exists c n', n = String c n' /\ c <> "-"%char /\ c <> "="%char /\ no_byte "=" n' = true.
Proof.
  unfold flag_name, no_byte. destruct n as [|c n]; [split; [done|by intros (? & ? & ? & _)]|].
  cbn [is_empty negb andb sall]. replace (has_prefix (String c n) "-") with (bool_decide (c = "-"%char)) by (destruct n; cbn; by rewrite andb_true_r).
  rewrite !andb_true_iff, !negb_true_iff, !bool_decide_eq_false.
  split; [intros (? & ? & ?); exists c, n; naive_solver|intros (c' & n' & [= <- <-] & ? & ? & ?); naive_solver].
Qed.

(** A word with a dash or two before a name is a flag of that name. *)
Lemma flag_word_name dash n tail : In dash ["-"; "--"] -> flag_name n = true ->
  match tail with EmptyString => True | String c _ => c = "="%char end ->
  flag_word (dash +:+ n +:+ tail) =
  Some (Some (n, match tail with EmptyString => None | String _ text => Some text end)) /\
  dash +:+ n +:+ tail <> "--".
Proof.
  intros Hdash (c & n' & -> & Hc1 & Hc2 & Hn)%flag_name_iff Htail.
  assert (Hw : forall d, (if bool_decide (c = "-"%char) || bool_decide (c = "="%char) then Some None
      else Some (Some (match index_byte "=" (n' +:+ tail) with
                       | Some i => (String c (stake i (n' +:+ tail)), Some (sdrop (S i) (n' +:+ tail)))
                       | None => (String c (n' +:+ tail), None)
                       end))) = d ->
     d = Some (Some (String c n', match tail with EmptyString => None | String _ text => Some text end))).
  { intros d <-. rewrite !bool_decide_false by done. cbn [orb]. destruct tail as [|e text].
    - rewrite sapp_nil_r. by apply index_byte_None in Hn as ->.
    - subst e. rewrite index_byte_app by done. rewrite stake_app_len, <- (Nat.add_1_r (slen n')), sdrop_app_plus. done. }
  destruct Hdash as [<-|[<-|[]]]; split.
  - cbn [String.append flag_word]. rewrite (bool_decide_false (c = _)) by done. by apply Hw; rewrite (bool_decide_false (c = "-"%char)) by done.
  - cbn [String.append]. congruence.
  - cbn [String.append flag_word]. by apply Hw.
  - cbn [String.append]. congruence.
Qed.

Lemma flag_word_inv s n value : flag_word s = Some (Some (n, value)) ->
  flag_name n = true /\ exists dash, In dash ["-"; "--"] /\
  s = dash +:+ n +:+ match value with Some text => "=" +:+ text | None => "" end.
Proof.
  destruct s as [|d [|c rest]]; [done|done|]. cbn [flag_word]. case_bool_decide; [subst d|done].
  set (name := if bool_decide (c = "-"%char) then rest else String c rest).
  assert (Hs : exists dash, In dash ["-"; "--"] /\ String "-" (String c rest) = dash +:+ name).
  { subst name. case_bool_decide; [subst c; exists "--"|exists "-"]; (split; [naive_solver|done]). }
  clearbody name. destruct Hs as (dash & Hd & ->). destruct name as [|c0 name]; [done|].
  destruct (bool_decide (c0 = "-"%char)) eqn:E1; [done|]. destruct (bool_decide (c0 = "="%char)) eqn:E2; [done|].
  apply bool_decide_eq_false in E1, E2. cbn [orb]. destruct (index_byte "=" name) as [i|] eqn:Ei; intros [= <- <-].
  - apply index_byte_split in Ei as [Hn Hi]. split; [apply flag_name_iff; by eexists _, _|].
    exists dash. split; [done|]. cbn [String.append]. do 2 f_equal. exact Hn.
  - apply index_byte_None in Ei. split; [apply flag_name_iff; by eexists _, _|]. exists dash. by rewrite sapp_nil_r.
Qed.

Section Flags.
Context (formal : list (string * flag_kind)) (Hnames : Forall (fun n => flag_name n = true) (map fst formal)).

Lemma kind_named n k : kind_of formal n = Some k -> flag_name n = true.
Proof using Hnames. intros Hk%kind_of_in. rewrite List.Forall_forall in Hnames. by apply Hnames. Qed.

Lemma parse_word values dash n tail args : In dash ["-"; "--"] -> flag_name n = true ->
  match tail with EmptyString => True | String c _ => c = "="%char end ->
  parse_flags formal values ((dash +:+ n +:+ tail) :: args) =
  match kind_of formal n, match tail with EmptyString => None | String _ text => Some text end with
  | None, _ => if seqb n "help" || seqb n "h" then HelpAsked else BadFlag n
  | Some k, Some text =>
      match set_flag k text with Some v => parse_flags formal (<[n := v]> values) args | None => BadFlag n end
  | Some BoolFlag, None => parse_flags formal (<[n := VBool true]> values) args
  | Some k, None =>
      match args with
      | [] => BadFlag n
      | text :: args' =>
          match set_flag k text with Some v => parse_flags formal (<[n := v]> values) args' | None => BadFlag n end
      end
  end.
Proof.
  intros Hd Hn Ht. destruct (flag_word_name dash n tail Hd Hn Ht) as [Hw Hne].
  cbn [parse_flags]. apply seqb_false in Hne. by rewrite Hne, Hw.
Qed.

Lemma parse_spelling values n v words args : spelling formal n v words ->
  parse_flags formal values (words ++ args) = parse_flags formal (<[n := v]> values) args.
Proof using Hnames.
  intros [dash n' k text v' Hd Hk Hs|dash n' k text v' Hd Hk Hb Hs|dash n' Hd Hk];
    pose proof (kind_named _ _ Hk) as Hn; cbn [app].
  - rewrite (parse_word _ dash n' ("=" +:+ text)) by done. rewrite Hk. cbn [String.append]. by destruct k; rewrite Hs.
  - pose proof (parse_word values dash n' "" (text :: args) Hd Hn I) as Hw. rewrite sapp_nil_r, Hk in Hw.
    rewrite Hw. by destruct k; rewrite ?Hs.
  - pose proof (parse_word values dash n' "" args Hd Hn I) as Hw. by rewrite sapp_nil_r, Hk in Hw.
Qed.

Lemma parse_end_of values tail rest : flags_end tail rest -> parse_flags formal values tail = Parsed values rest.
Proof.
  intros [->|[-> Hr]]; [done|]. destruct rest as [|s rest]; [done|]. destruct Hr as [Hne%seqb_false Hw].
  cbn [parse_flags]. by rewrite Hne, Hw.
Qed.

Lemma parsed_was_spelled values args values' rest : parse_flags formal values args = Parsed values' rest ->
  exists words tail, args = words ++ tail /\ spellings formal values words values' /\ flags_end tail rest.
Proof.
  remember (length args) as len eqn:Hlen. revert values args Hlen.
  induction len as [len IH] using lt_wf_ind. intros values args ->.
  assert (Hmore : forall n v words more, spelling formal n v words -> args = words ++ more -> words <> [] ->
    parse_flags formal (<[n := v]> values) more = Parsed values' rest ->
    exists words tail, args = words ++ tail /\ spellings formal values words values' /\ flags_end tail rest).
  { intros n v words more Hsp -> Hne Hp. destruct (IH (length more)) with (values := <[n := v]> values) (args := more)
      as (w & t & -> & Hw & Ht); [rewrite length_app; destruct words; [done|simpl; lia]|done|done|].
    exists (words ++ w), t. split; [by rewrite app_assoc|]. split; [by eapply spelled_more|done]. }
  destruct args as [|s args]; [intros [= <- <-]; exists [], []; repeat constructor; by right|].
  cbn [parse_flags]. destruct (seqb s "--") eqn:E.
  { apply seqb_true in E as ->. intros [= <- <-]. exists [], ("--" :: args). repeat constructor. }
  apply seqb_false in E. destruct (flag_word s) as [[[n value]|]|] eqn:Ew; [|done|].
  2:{ intros [= <- <-]. exists [], (s :: args). split; [done|]. split; [constructor|]. by right. }
  apply flag_word_inv in Ew as (Hn & dash & Hd & ->). destruct (kind_of formal n) as [k|] eqn:Hk; [|by destruct (_ || _)].
  destruct value as [text|].
  { assert (Hgo : match set_flag k text with
                  | Some v => parse_flags formal (<[n := v]> values) args = Parsed values' rest
                  | None => False end -> exists words tail, (dash +:+ n +:+ "=" +:+ text) :: args = words ++ tail /\
                    spellings formal values words values' /\ flags_end tail rest).
    { destruct (set_flag k text) as [v|] eqn:Es; [|done]. by eapply (Hmore n v [_] args); [eapply spelled_equals|..]. }
    intros Hp. apply Hgo. by destruct k; destruct (set_flag _ text). }
  rewrite sapp_nil_r in *. destruct (decide (k = BoolFlag)) as [->|Hb].
  { by eapply (Hmore n (VBool true) [_] args); [eapply spelled_alone|..]. }
  destruct args as [|text args]; [by destruct k|]. intros Hp.
  assert (Hgo : match set_flag k text with
                | Some v => parse_flags formal (<[n := v]> values) args = Parsed values' rest
                | None => False end) by (by destruct k; [destruct (set_flag _ text)..]).
  destruct (set_flag k text) as [v|] eqn:Es; [|done].
  by eapply (Hmore n v [_; text] args); [eapply spelled_apart|..].
Qed.

(** A command line is accepted exactly when it is a sequence of
    assignments, each in one of the four spellings, up to "--", to the first
    word that is no flag, or to its end; the values are those assignments in
    order, and what follows is left to the program. *)
Theorem parse_flags_spec values args values' rest :
  parse_flags formal values args = Parsed values' rest <->
  exists words tail, args = words ++ tail /\ spellings formal values words values' /\ flags_end tail rest.
Proof using Hnames.
  split; [apply parsed_was_spelled|].
  intros (words & tail & -> & Hw & Ht). revert rest tail Ht.
  induction Hw as [values|values n v words more values' Hsp _ IH]; intros rest tail Ht; [by apply parse_end_of|].
  rewrite <- app_assoc, (parse_spelling _ _ _ _ _ Hsp). by apply IH.
Qed.
End Flags.

(** What the words after the flags ask for. *)
Inductive asks : list string -> admin_request -> Prop :=
| asks_health more : asks ("health" :: more) CmdHealth
| asks_stats more : asks ("stats" :: more) CmdStats
| asks_version w more : In w ["version"; "-version"; "--version"] -> asks (w :: more) CmdVersion
| asks_list w more : In w ["list"; "ls"] -> asks ("tls" :: w :: more) CmdTLSList
| asks_delete w domain more : In w ["delete"; "del"; "rm"] -> asks ("tls" :: w :: domain :: more) (CmdTLSDelete domain)
| asks_clean more : asks ("tls" :: "clean" :: more) CmdTLSClean
| asks_sync more : asks ("tls" :: "sync" :: more) CmdTLSSync
| asks_help w more : In w ["help"; "--help"; "-h"] -> asks ("tls" :: w :: more) CmdTLSHelp.

Lemma existsb_seqb s l : existsb (seqb s) l = true <-> In s l.
Proof.
  rewrite existsb_exists. split; [intros (x & Hx & ->%seqb_true); done|]. intros Hs. exists s. split; [done|by apply seqb_true].
Qed.

Ltac cases_in := repeat match goal with H : In _ _ |- _ => destruct H as [H|H] end; subst.

Lemma cmd_tls_asks opts args r : cmd_tls opts args = AdminRun opts r <-> asks ("tls" :: args) r.
Proof.
  split.
  - destruct args as [|sub args]; [done|]. unfold cmd_tls.
    destruct (existsb (seqb sub) ["list"; "ls"]) eqn:E1; [intros [= <-]; constructor; by apply existsb_seqb|].
    destruct (existsb (seqb sub) ["delete"; "del"; "rm"]) eqn:E2.
    { destruct args as [|d args]; [done|]. intros [= <-]. constructor. by apply existsb_seqb. }
    destruct (seqb sub "clean") eqn:E3; [apply seqb_true in E3 as ->; intros [= <-]; constructor|].
    destruct (seqb sub "sync") eqn:E4; [apply seqb_true in E4 as ->; intros [= <-]; constructor|].
    destruct (existsb (seqb sub) ["help"; "--help"; "-h"]) eqn:E5; [|done].
    intros [= <-]. constructor. by apply existsb_seqb.
  - intros Ha. inversion Ha; subst; by cases_in.
Qed.

Lemma cmd_tls_opts opts args opts' r : cmd_tls opts args = AdminRun opts' r -> opts' = opts.
Proof.
  destruct args as [|sub args]; [done|]. unfold cmd_tls.
  destruct (existsb _ _); [by intros [= <-]|]. destruct (existsb _ _); [destruct args; [done|by intros [= <-]]|].
  destruct (seqb _ _); [by intros [= <-]|]. destruct (seqb _ _); [by intros [= <-]|].
  by destruct (existsb _ _); [intros [= <-]|].
Qed.

Lemma command_asks opts rest opts' r :
  match rest with
  | [] => AdminExit 1 (Some Usage)
  | command :: rest =>
      if seqb command "health" then AdminRun opts CmdHealth
      else if seqb command "stats" then AdminRun opts CmdStats
      else if seqb command "tls" then cmd_tls opts rest
      else if existsb (seqb command) ["version"; "-version"; "--version"] then AdminRun opts CmdVersion
      else AdminExit 1 (Some (UnknownCommand command))
  end = AdminRun opts' r <-> opts' = opts /\ asks rest r.
Proof.
  destruct rest as [|command rest]; [split; [done|intros [_ Ha]; inversion Ha]|].
  destruct (seqb command "health") eqn:E1.
  { apply seqb_true in E1 as ->. split; [intros [= <- <-]; split; [done|constructor]|intros [-> Ha]; inversion Ha; subst; by cases_in]. }
  destruct (seqb command "stats") eqn:E2.
  { apply seqb_true in E2 as ->. split; [intros [= <- <-]; split; [done|constructor]|intros [-> Ha]; inversion Ha; subst; by cases_in]. }
  destruct (seqb command "tls") eqn:E3.
  { apply seqb_true in E3 as ->. split; [|intros [-> Ha]; by apply cmd_tls_asks].
    intros Hc. pose proof (cmd_tls_opts _ _ _ _ Hc) as ->. split; [done|]. by apply cmd_tls_asks in Hc. }
  destruct (existsb (seqb command) ["version"; "-version"; "--version"]) eqn:E4.
  { split; [intros [= <- <-]; split; [done|constructor; by apply existsb_seqb]|].
    intros [-> Ha]. by inversion Ha; subst. }
  split; [done|]. intros [_ Ha]. inversion Ha; subst; try done. exfalso.
  match goal with H : In _ _ |- _ => apply existsb_seqb in H; congruence end.
Qed.

(** C30: the tool does what its command line says and nothing else: it runs a
    request exactly when the line is a sequence of well-spelled assignments of
    its flags, followed by words that ask for that request or with the version
    flag set, and the request has the options assigned.  In particular
    certificates of a domain are deleted only when the words are "tls", one
    of the three names of the command, and that domain. *)
Theorem admin_command_line exists_file args opts r :
  admin_main exists_file args = AdminRun opts r <->
  exists words tail values rest,
    args = words ++ tail /\ spellings admin_flags ∅ words values /\ flags_end tail rest /\
    opts = options_of exists_file values /\
    if bool_value "version" values then r = CmdVersion else asks rest r.
Proof.
  assert (Hn : Forall (fun n => flag_name n = true) (map fst admin_flags)) by (vm_compute; repeat constructor).
  assert (Hp : admin_main exists_file args = AdminRun opts r <-> exists values rest,
    parse_flags admin_flags ∅ args = Parsed values rest /\ opts = options_of exists_file values /\
    if bool_value "version" values then r = CmdVersion else asks rest r).
  { unfold admin_main. destruct (parse_flags admin_flags ∅ args) as [values rest| |]; cbn [after_parse].
    - transitivity (opts = options_of exists_file values /\ if bool_value "version" values then r = CmdVersion else asks rest r).
      + destruct (bool_value "version" values); [|by rewrite command_asks]. split; [by intros [= <- <-]|by intros [-> ->]].
      + split; [by exists values, rest|]. by intros (? & ? & [= <- <-] & ?).
    - split; [done|by intros (? & ? & ? & _)].
    - split; [done|by intros (? & ? & ? & _)]. }
  rewrite Hp. setoid_rewrite (parse_flags_spec admin_flags Hn). naive_solver.
Qed.

(** ** Examples *)

Example admin_lines :
  map (admin_main (fun p => seqb p "/usr/local/etc/strela/config.toml"))
    [["-server"; "http://mx:8080"; "--timeout=1m"; "health"; "-version"]; ["-version=false"; "tls"; "rm"; "a.example"];
     ["--"; "-version"]; ["-version"; "nonsense"]; []; ["tls"]; ["tls"; "delete"]; ["tls"; "purge"]; ["restart"]; ["-h"];
     ["-timeout"; "10"; "health"]; ["-verbose"]; ["-server"]; ["---x"]] =
  let default := "/usr/local/etc/strela/config.toml" in
  let opts := mkOptions "" (10 * second) default in
  [AdminRun (mkOptions "http://mx:8080" minute default) CmdHealth; AdminRun opts (CmdTLSDelete "a.example");
   AdminRun opts CmdVersion; AdminRun opts CmdVersion; AdminExit 1 (Some Usage); AdminExit 1 (Some TLSUsage);
   AdminExit 1 (Some DeleteUsage); AdminExit 1 (Some (UnknownSubcommand "purge")); AdminExit 1 (Some (UnknownCommand "restart"));
   AdminExit 0 None; AdminExit 2 None; AdminExit 2 None; AdminExit 2 None; AdminExit 2 None].
Proof. vm_compute. reflexivity. Qed.

(** "-version" stands alone: the word after it is not its value. *)
Example server_lines :
  map (server_main (fun _ => false)) [["-version"; "false"]; ["-config=x.toml"]; ["--config"; "a"; "-config"; "b"; "c"]; []; ["-help"]; ["-x"]] =
  [ServerExit 0 true; ServerRun "x.toml"; ServerRun "b"; ServerRun "config.toml"; ServerExit 0 false; ServerExit 2 false].
Proof. vm_compute. reflexivity. Qed.
